(** * background-agents: the sandbox Supervisor and the asynchronous Image Builder

    A shallow embedding of

    - [packages/modal-infra/src/scheduler/image_builder.py]
      (the Callback Client and the Image Builder),
    - [packages/sandbox-runtime/src/sandbox/entrypoint.py]
      (the Supervisor, remote variant), and
    - [packages/sandbox/sandbox/entrypoint.py]
      (the Supervisor, local-mount variant),

    together with the properties the specification states about them.

    Python code is embedded as functions in a state-and-exception monad.
    Everything the code cannot decide by itself (token issuer, HTTP peer,
    sandbox provider, child processes, clock, signals) is read from an
    explicit world record, and every theorem quantifies over all worlds. *)

From Stdlib Require Import ZArith String Ascii List Bool Lia DecimalString.
From stdpp Require Import base list.

(* ================================================================== *)
(** * Part I.  Definitions                                             *)
(* ================================================================== *)

(** ** Python values, exceptions and the execution monad *)

Module Py.

(** A raised exception: its class name and its message ([str(e)]).
    Every exception modelled here is a subclass of [Exception], so a
    handler [except Exception] catches all of them. *)
Inductive exn : Type :=
| Exception (cls : string) (msg : string).

Definition str (e : exn) : string :=
  match e with Exception _ msg => msg end.

Definition RuntimeError (msg : string) : exn := Exception "RuntimeError" msg.

(** The answer of an external collaborator to one call. *)
Inductive outcome (A : Type) : Type :=
| Returns (a : A)
| Raises (e : exn).
Arguments Returns {A} a.
Arguments Raises {A} e.

(** The result of running a piece of code: a value, a propagating
    exception, or no result at all (the loop budget ran out, or the
    coroutine waits on an event nobody will ever set). *)
Inductive result (A : Type) : Type :=
| Ok (a : A)
| Raise (e : exn)
| Diverge.
Arguments Ok {A} a.
Arguments Raise {A} e.
Arguments Diverge {A}.

(** State is threaded through and survives an exception, as the
    attributes of a Python object do. *)
Definition M (S A : Type) : Type := S -> result A * S.

Definition ret {S A} (a : A) : M S A := fun s => (Ok a, s).

Definition bind {S A B} (m : M S A) (k : A -> M S B) : M S B :=
  fun s =>
    match m s with
    | (Ok a, s') => k a s'
    | (Raise e, s') => (Raise e, s')
    | (Diverge, s') => (Diverge, s')
    end.

Definition raise {S A} (e : exn) : M S A := fun s => (Raise e, s).

Definition diverge {S A} : M S A := fun s => (Diverge, s).

(** [try: body  except Exception as e: handler e]. *)
Definition try_except {S A} (body : M S A) (handler : exn -> M S A) : M S A :=
  fun s =>
    match body s with
    | (Raise e, s') => handler e s'
    | r => r
    end.

(** [try: body  finally: cleanup].  The cleanup runs when the body
    returned or raised; an exception of the body is re-raised after the
    cleanup unless the cleanup raises itself. *)
Definition try_finally {S A} (body : M S A) (cleanup : M S unit) : M S A :=
  fun s =>
    match body s with
    | (Ok a, s') =>
        match cleanup s' with
        | (Ok _, s'') => (Ok a, s'')
        | (Raise e, s'') => (Raise e, s'')
        | (Diverge, s'') => (Diverge, s'')
        end
    | (Raise e, s') =>
        match cleanup s' with
        | (Ok _, s'') => (Raise e, s'')
        | (Raise e', s'') => (Raise e', s'')
        | (Diverge, s'') => (Diverge, s'')
        end
    | (Diverge, s') => (Diverge, s')
    end.

Definition get {S} : M S S := fun s => (Ok s, s).
Definition modify {S} (f : S -> S) : M S unit := fun s => (Ok tt, f s).

(** Feeding a collaborator's answer into the code. *)
Definition call {S A} (o : outcome A) : M S A :=
  match o with
  | Returns a => ret a
  | Raises e => raise e
  end.

Definition when {S} (b : bool) (m : M S unit) : M S unit :=
  if b then m else ret tt.

(** Running [m] from a state yields an outcome [out]; [sat out Q] says
    the result and final state of that outcome satisfy [Q]. *)
Definition sat {S A} (out : result A * S) (Q : result A -> S -> Prop) : Prop :=
  exists r s', out = (r, s') /\ Q r s'.

(** Truthiness of a Python [str]: non-empty. *)
Definition truthy (s : string) : bool :=
  match s with EmptyString => false | String _ _ => true end.

(** Truthiness of [os.environ.get(name)]: set and non-empty. *)
Definition truthy_opt (o : option string) : bool :=
  match o with Some s => truthy s | None => false end.

(** [str(n)] / [f"{n}"] of a Python [int]. *)
Definition str_of_int (n : Z) : string := NilZero.string_of_int (Z.to_int n).

(** [s.replace(old, new)]: every non-overlapping occurrence of [old],
    scanning from the left.  [replace_from skip] has still [skip]
    characters of a matched occurrence to drop. *)
Fixpoint replace_from (skip : nat) (old new s : string) : string :=
  match s with
  | EmptyString => EmptyString
  | String c s' =>
      match skip with
      | S k => replace_from k old new s'
      | O =>
          if String.prefix old s
          then String.append new (replace_from (String.length old - 1) old new s')
          else String c (replace_from 0 old new s')
      end
  end.

(** With an empty [old], Python puts [new] before every character and
    at the end. *)
Fixpoint intersperse (new s : string) : string :=
  match s with
  | EmptyString => new
  | String c s' => String.append new (String c (intersperse new s'))
  end.

Definition replace (s old new : string) : string :=
  match old with
  | EmptyString => intersperse new s
  | String _ _ => replace_from 0 old new s
  end.

(** The suffix of [s] from position [i] on. *)
Fixpoint drop_chars (i : nat) (s : string) : string :=
  match i, s with
  | O, _ => s
  | S k, EmptyString => EmptyString
  | S k, String _ s' => drop_chars k s'
  end.

(** [old] occurs in [s] at position [i]. *)
Definition occurs_at (old s : string) (i : nat) : bool :=
  String.prefix old (drop_chars i s).

End Py.

Declare Scope py_scope.
Delimit Scope py_scope with py.
Notation "x <- m ;; k" := (Py.bind m (fun x => k))
  (at level 100, m at next level, k at level 200, right associativity,
   only parsing) : py_scope.
Notation "m ;;; k" := (Py.bind m (fun _ => k))
  (at level 100, k at level 200, right associativity, only parsing) : py_scope.

(* ------------------------------------------------------------------ *)
(** ** The Callback Client and the Image Builder
       ([scheduler/image_builder.py])                                  *)
(* ------------------------------------------------------------------ *)

Module ImageBuilder.
Import Py.
Local Open Scope py_scope.
Local Open Scope string_scope.

(** Retry config for callbacks.  The source comments the base with
    [# seconds: 2, 8, 32]. *)
Definition CALLBACK_MAX_RETRIES : nat := 3.
Definition CALLBACK_BACKOFF_BASE : Z := 2.

(** The JSON bodies the builder sends.  [build_duration_seconds] is
    kept in hundredths of a second ([round(_, 2)]). *)
Inductive Payload : Type :=
| BuildComplete (build_id provider_image_id base_sha : string)
                (build_duration_seconds : Z)
| BuildFailed (build_id error : string).

(** What an [httpx] POST can do: answer with a status code, or fail
    with a network error or a timeout. *)
Inductive HttpOutcome : Type :=
| HttpResponse (status_code : Z)
| HttpFailure (e : exn).

(** Observable actions, most recent first in [trace]. *)
Inductive Event : Type :=
| Callback (url : string) (payload : Payload)   (* _callback_with_retry entered *)
| Mint                                          (* generate_internal_token called *)
| Post (url : string) (payload : Payload) (token : string)
| Sleep (seconds : Z)
| Delivered (attempt : nat)                     (* log callback.success *)
| GaveUp                                        (* log callback.failed *)
| CreateSandbox (clone_token : string).

(** The external collaborators of one builder invocation. *)
Record World : Type := {
  (** [generate_internal_token(secret)], by the number of earlier calls *)
  generate_internal_token : nat -> outcome string;
  (** [client.post(url, ...)], by the number of earlier requests *)
  http_post : nat -> string -> HttpOutcome;
  (** [os.environ.get] *)
  environ : string -> option string;
  generate_installation_token : outcome string;
  (** [SandboxManager()] *)
  new_sandbox_manager : outcome unit;
  create_build_sandbox : outcome unit;
  (** [handle.modal_sandbox.wait()] and [.returncode] after it *)
  sandbox_wait : outcome unit;
  sandbox_returncode : Z;
  (** [sandbox.exec("git", ..., "rev-parse", "HEAD")] followed by
      [process.stdout.read().strip()] *)
  sandbox_rev_parse : outcome string;
  (** [snapshot_filesystem()] and the [object_id] of its image *)
  snapshot_filesystem : outcome string;
  (** [time.time() - start_time], in hundredths of a second *)
  elapsed : Z
}.

Record State : Type := {
  minted : nat;          (* calls to generate_internal_token so far *)
  requests : nat;        (* POST requests so far *)
  trace : list Event
}.

Definition initial : State := {| minted := 0; requests := 0; trace := [] |}.

Definition emit (e : Event) : M State unit :=
  modify (fun s => {| minted := minted s; requests := requests s;
                      trace := e :: trace s |}).

Section WithWorld.
Variable w : World.

(** [token = generate_internal_token(secret)] *)
Definition mint_token : M State string :=
  s <- get ;;
  modify (fun s => {| minted := S (minted s); requests := requests s;
                      trace := Mint :: trace s |}) ;;;
  call (generate_internal_token w (minted s)).

(** [response = await client.post(url, json=payload, headers=...)] *)
Definition post (url : string) (payload : Payload) (token : string)
  : M State Z :=
  s <- get ;;
  modify (fun s => {| minted := minted s; requests := S (requests s);
                      trace := Post url payload token :: trace s |}) ;;;
  match http_post w (requests s) url with
  | HttpResponse status => ret status
  | HttpFailure e => raise e
  end.

(** [response.raise_for_status()]: anything but a 2xx status raises. *)
Definition raise_for_status (status : Z) : M State unit :=
  if ((200 <=? status) && (status <? 300))%Z then ret tt
  else raise (Exception "HTTPStatusError" (str_of_int status)).

(** One pass through the body of
    [for attempt in range(CALLBACK_MAX_RETRIES)]: [true] when the pass
    ends in [return True], [false] when its [except] clause ran. *)
Definition callback_attempt (url : string) (payload : Payload)
  (attempt : nat) : M State bool :=
  try_except
    (token <- mint_token ;;
     status <- post url payload token ;;
     raise_for_status status ;;;
     emit (Delivered (attempt + 1)) ;;;
     ret true)
    (fun e =>
       let delay := (CALLBACK_BACKOFF_BASE ^ (Z.of_nat attempt + 1))%Z in
       when (attempt <? CALLBACK_MAX_RETRIES - 1)%nat
            (emit (Sleep delay)) ;;;
       ret false).

(** The loop over the attempts still to come; after the last one the
    failure is logged and [False] returned. *)
Fixpoint callback_attempts (url : string) (payload : Payload)
  (attempts : list nat) : M State bool :=
  match attempts with
  | [] => emit GaveUp ;;; ret false
  | attempt :: rest =>
      sent <- callback_attempt url payload attempt ;;
      if sent then ret true else callback_attempts url payload rest
  end.

Definition _callback_with_retry (url : string) (payload : Payload)
  : M State bool :=
  emit (Callback url payload) ;;;
  callback_attempts url payload (seq 0 CALLBACK_MAX_RETRIES).

(** [_read_sandbox_head_sha]: the SHA, or [""] on any failure. *)
Definition _read_sandbox_head_sha : M State string :=
  try_except (call (sandbox_rev_parse w)) (fun _ => ret "").

Definition BuildError (msg : string) : exn := Exception "BuildError" msg.

(** Step 1: the clone token; a failing issuer is only logged. *)
Definition clone_token_step : M State string :=
  try_except
    (if truthy_opt (environ w "GITHUB_APP_ID")
        && truthy_opt (environ w "GITHUB_APP_PRIVATE_KEY")
        && truthy_opt (environ w "GITHUB_APP_INSTALLATION_ID")
     then call (generate_installation_token w)
     else ret "")
    (fun _ => ret "").

(** [build_repo_image]: the manager is made before the [try]; then
    come the body of the [try] and its [except Exception] handler. *)
Definition build_repo_image
  (repo_owner repo_name default_branch callback_url build_id : string)
  : M State unit :=
  (* manager = SandboxManager() *)
  call (new_sandbox_manager w) ;;;
  try_except
    ((* 1. Generate GitHub App install token for clone *)
     clone_token <- clone_token_step ;;
     (* 2. Create build sandbox *)
     emit (CreateSandbox clone_token) ;;;
     call (create_build_sandbox w) ;;;
     (* 3. Await sandbox exit *)
     call (sandbox_wait w) ;;;
     let exit_code := sandbox_returncode w in
     (if (exit_code =? 0)%Z then ret tt
      else raise (BuildError ("Build sandbox exited with code "
                                ++ str_of_int exit_code))) ;;;
     (* 4. Read base SHA before snapshot *)
     base_sha <- _read_sandbox_head_sha ;;
     (* 5. Snapshot filesystem *)
     provider_image_id <- call (snapshot_filesystem w) ;;
     let build_duration := elapsed w in
     (* 6. Callback: success *)
     if truthy callback_url
     then _callback_with_retry callback_url
            (BuildComplete build_id provider_image_id base_sha build_duration) ;;;
          ret tt
     else ret tt)
    (fun e =>
       (* Callback: failure *)
       if truthy callback_url
       then let failure_url :=
              replace callback_url "/build-complete" "/build-failed" in
            _callback_with_retry failure_url (BuildFailed build_id (str e)) ;;;
            ret tt
       else ret tt).

End WithWorld.

(** Reading a finished run. *)
Definition history (s : State) : list Event := rev (trace s).

Definition is_post (e : Event) : bool :=
  match e with Post _ _ _ => true | _ => false end.

Definition sleep_of (e : Event) : option Z :=
  match e with Sleep d => Some d | _ => None end.

(** The delays slept, in the order they happened. *)
Definition delays (s : State) : list Z := omap sleep_of (history s).



Definition count (p : Event -> bool) (s : State) : nat :=
  length (List.filter p (trace s)).

(** What the specification calls the outcome of steps 1-6, which are
    reached once the manager is made: the snapshot handed back an image
    id (every step before it went through) ... *)
Definition snapshot_returned (w : World) (id : string) : Prop :=
  new_sandbox_manager w = Returns tt /\
  create_build_sandbox w = Returns tt /\
  sandbox_wait w = Returns tt /\
  sandbox_returncode w = 0%Z /\
  snapshot_filesystem w = Returns id.

(** ... or one of the steps let an exception [e] escape. *)
Definition step_raised (w : World) (e : exn) : Prop :=
  new_sandbox_manager w = Returns tt /\
  (create_build_sandbox w = Raises e \/
   (create_build_sandbox w = Returns tt /\ sandbox_wait w = Raises e) \/
   (create_build_sandbox w = Returns tt /\ sandbox_wait w = Returns tt /\
    sandbox_returncode w <> 0%Z /\
    e = BuildError ("Build sandbox exited with code "
                      ++ str_of_int (sandbox_returncode w))) \/
   (create_build_sandbox w = Returns tt /\ sandbox_wait w = Returns tt /\
    sandbox_returncode w = 0%Z /\ snapshot_filesystem w = Raises e)).

End ImageBuilder.

(* ------------------------------------------------------------------ *)
(** ** The Supervisor: what both variants share
       ([sandbox/entrypoint.py])                                       *)
(* ------------------------------------------------------------------ *)

Module Supervisor.
Import Py.
Local Open Scope py_scope.
Local Open Scope string_scope.

(** The two supervised children: the OpenCode agent server
    ([opencode_process]) and the bridge ([bridge_process]). *)
Inductive Child : Type := Agent | Bridge.

(** One [asyncio.subprocess.Process].  [returncode] is what the handle
    reports: it is assigned by the event loop when it learns of the
    exit, so only at a suspension point.  [terminate()] and [kill()]
    merely send a signal; they do not assign [returncode]. *)
Record Proc : Type := {
  kind : Child;
  returncode : option Z;
  terminated : bool;      (* SIGTERM was sent *)
  killed : bool           (* SIGKILL was sent *)
}.

Inductive HttpOutcome : Type :=
| HttpResponse (status_code : Z)
| ConnectError                      (* httpx.ConnectError *)
| HttpFailure (e : exn).            (* any other exception *)

(** Filesystem probes of the code ([Path.exists()]). *)
Inductive Probe : Type :=
| RepoPath            (* /workspace/<repo_name> *)
| RebaseMerge         (* <repo>/.git/rebase-merge *)
| RebaseApply         (* <repo>/.git/rebase-apply *)
| SetupScript         (* <repo>/.openinspect/setup.sh *)
| WorkspaceGit.       (* /workspace/.git, local variant *)

(** How the setup hook goes once it is started. *)
Inductive SetupRun : Type :=
| SetupSpawnFails (e : exn)
| SetupExits (exit_code : Z)
| SetupTimesOut.

(** Configuration read from the environment in [__init__]. *)
Record Config : Type := {
  sandbox_id : string;
  session_id : string;
  control_plane_url : string;
  control_plane_ws_url : string;       (* local variant only *)
  repo_owner : string;
  repo_name : string;
  git_user_name : string;
  git_user_email : string;
  github_app_token : string;
  github_app_id : string;
  github_app_private_key : string;
  github_app_installation_id : string
}.

(** The world around one Supervisor.  Fields taking a [nat] are asked
    with the number of suspension points ([await]s that yield to the
    event loop) the Supervisor has passed so far. *)
Record Env : Type := {
  (** child [pid], still running, is found exited with this code *)
  child_exit : nat -> nat -> option Z;
  (** the SIGTERM/SIGINT handler task runs *)
  signal : nat -> bool;
  (** [time.time()], in milliseconds *)
  time : nat -> Z;
  (** [client.get(health_url, timeout=2.0)] *)
  http_get : nat -> HttpOutcome;
  (** [asyncio.create_subprocess_exec] for a child fails to start it *)
  create_subprocess_exec : nat -> option exn;
  (** [mkdir], [shutil.copy], [symlink_to], [write_text] of the plugin
      assets fail *)
  install_assets : nat -> option exn;
  path_exists : nat -> Probe -> bool;
  (** the git commands of the workspace sync: exit code, or the
      subprocess machinery raises *)
  generate_installation_token : outcome string;
  git_clone : outcome Z;
  git_remote_set_url : outcome unit;
  git_fetch : outcome Z;
  git_fetch_stderr : outcome unit;     (* reading and decoding its stderr *)
  git_rebase : outcome Z;
  git_rebase_abort : outcome unit;
  git_rev_parse : outcome string;
  git_config_name : outcome unit;
  git_config_email : outcome unit;
  (** [int(os.environ.get("SETUP_TIMEOUT_SECONDS", ...))] *)
  setup_timeout : outcome Z;
  setup_run : SetupRun
}.

(** Observable actions, most recent first in [trace]. *)
Inductive Event : Type :=
| Spawn (c : Child) (pid : nat)
| HealthOk                       (* the health probe saw status 200 *)
| ReadySet                       (* opencode_ready.set() *)
| ReadyClear                     (* opencode_ready.clear() *)
| ObservedExit (c : Child) (exit_code : Z) (restarts : nat)
    (* the monitor found the child exited; [restarts] is that child's
       restart counter once the exit has been handled *)
| Sleep (ms : Z)
| Fatal (message : string)       (* _report_fatal_error(message) *)
| ShutdownStart
| Terminate (pid : nat)
| WaitFor (pid : nat) (timeout_ms : Z)
| Kill (pid : nat)
| ShutdownComplete.

Record State : Type := {
  procs : list Proc;                   (* every child created, by pid *)
  opencode_process : option nat;
  bridge_process : option nat;
  shutdown_event : bool;
  git_sync_complete : bool;
  opencode_ready : bool;
  suspensions : nat;
  trace : list Event
}.

Definition initial : State := {|
  procs := []; opencode_process := None; bridge_process := None;
  shutdown_event := false; git_sync_complete := false;
  opencode_ready := false; suspensions := 0; trace := [] |}.

Definition set_procs (f : list Proc -> list Proc) (s : State) : State :=
  {| procs := f (procs s); opencode_process := opencode_process s;
     bridge_process := bridge_process s; shutdown_event := shutdown_event s;
     git_sync_complete := git_sync_complete s;
     opencode_ready := opencode_ready s; suspensions := suspensions s;
     trace := trace s |}.

Definition set_handle (c : Child) (h : option nat) (s : State) : State :=
  {| procs := procs s;
     opencode_process := match c with Agent => h | Bridge => opencode_process s end;
     bridge_process := match c with Agent => bridge_process s | Bridge => h end;
     shutdown_event := shutdown_event s;
     git_sync_complete := git_sync_complete s;
     opencode_ready := opencode_ready s; suspensions := suspensions s;
     trace := trace s |}.

Definition set_shutdown_event (b : bool) (s : State) : State :=
  {| procs := procs s; opencode_process := opencode_process s;
     bridge_process := bridge_process s; shutdown_event := b;
     git_sync_complete := git_sync_complete s;
     opencode_ready := opencode_ready s; suspensions := suspensions s;
     trace := trace s |}.

Definition set_git_sync_complete (b : bool) (s : State) : State :=
  {| procs := procs s; opencode_process := opencode_process s;
     bridge_process := bridge_process s; shutdown_event := shutdown_event s;
     git_sync_complete := b;
     opencode_ready := opencode_ready s; suspensions := suspensions s;
     trace := trace s |}.

Definition set_opencode_ready (b : bool) (s : State) : State :=
  {| procs := procs s; opencode_process := opencode_process s;
     bridge_process := bridge_process s; shutdown_event := shutdown_event s;
     git_sync_complete := git_sync_complete s;
     opencode_ready := b; suspensions := suspensions s;
     trace := trace s |}.

Definition set_suspensions (n : nat) (s : State) : State :=
  {| procs := procs s; opencode_process := opencode_process s;
     bridge_process := bridge_process s; shutdown_event := shutdown_event s;
     git_sync_complete := git_sync_complete s;
     opencode_ready := opencode_ready s; suspensions := n;
     trace := trace s |}.

Definition push (e : Event) (s : State) : State :=
  {| procs := procs s; opencode_process := opencode_process s;
     bridge_process := bridge_process s; shutdown_event := shutdown_event s;
     git_sync_complete := git_sync_complete s;
     opencode_ready := opencode_ready s; suspensions := suspensions s;
     trace := e :: trace s |}.

Definition handle (c : Child) (s : State) : option nat :=
  match c with Agent => opencode_process s | Bridge => bridge_process s end.

(** [p.returncode] of the process behind a handle; [None] also stands
    for an absent handle, as in
    [if self.p and self.p.returncode is not None]. *)
Definition returncode_of (h : option nat) (s : State) : option Z :=
  match h with
  | Some pid => match procs s !! pid with
                | Some p => returncode p
                | None => None
                end
  | None => None
  end.

Definition with_returncode (rc : option Z) (p : Proc) : Proc :=
  {| kind := kind p; returncode := rc;
     terminated := terminated p; killed := killed p |}.

Definition with_sigterm (p : Proc) : Proc :=
  {| kind := kind p; returncode := returncode p;
     terminated := true; killed := killed p |}.

Definition with_sigkill (p : Proc) : Proc :=
  {| kind := kind p; returncode := returncode p;
     terminated := terminated p; killed := true |}.

Definition MAX_RESTARTS : nat := 5.
Definition BACKOFF_BASE : Z := 2.
Definition BACKOFF_MAX : Z := 60.

(** [min(BACKOFF_BASE ** restarts, BACKOFF_MAX)], in milliseconds. *)
Definition backoff (restarts : nat) : Z :=
  1000 * Z.min (BACKOFF_BASE ^ Z.of_nat restarts) BACKOFF_MAX.

Section WithEnv.
Variable env : Env.
Variable cfg : Config.

(** What the event loop does while the Supervisor is suspended in an
    [await]: exits of running children reach their handles, and a
    pending signal handler sets [shutdown_event]. *)
Definition deliver (s : State) : State :=
  let t := suspensions s in
  set_suspensions (S t)
    (set_shutdown_event (shutdown_event s || signal env t)
       (set_procs
          (imap (fun pid p =>
                   match returncode p with
                   | Some _ => p
                   | None => with_returncode (child_exit env t pid) p
                   end))
          s)).

Definition suspend : M State unit := modify deliver.

Definition emit (e : Event) : M State unit := modify (push e).

(** [await asyncio.sleep(ms / 1000)] *)
Definition sleep (ms : Z) : M State unit :=
  emit (Sleep ms) ;;; suspend.

(** [time.time()] *)
Definition now : M State Z :=
  s <- get ;; ret (time env (suspensions s)).

Definition exists_ (p : Probe) : M State bool :=
  s <- get ;; ret (path_exists env (suspensions s) p).

(** An awaited helper subprocess or request whose answer the world
    gives. *)
Definition await {A} (o : outcome A) : M State A :=
  suspend ;;; call o.

(** [self.<c>_process = await asyncio.create_subprocess_exec(...)]:
    on success the new child is entered in the table and the handle
    points to it. *)
Definition spawn (c : Child) : M State unit :=
  s <- get ;;
  suspend ;;;
  match create_subprocess_exec env (suspensions s) with
  | Some e => raise e
  | None =>
      s' <- get ;;
      let pid := length (procs s') in
      modify (fun s => set_handle c (Some pid)
                (set_procs (fun l => (l ++ [{| kind := c; returncode := None;
                                                terminated := false;
                                                killed := false |}])%list) s)) ;;;
      emit (Spawn c pid)
  end.

(** [resp = await client.get(health_url, timeout=2.0)] inside its
    [try]: a [ConnectError] is passed over, any other exception is
    logged; neither leaves the loop. *)
Definition get_health : M State HttpOutcome :=
  s <- get ;;
  suspend ;;;
  ret (http_get env (suspensions s)).

(** [resp.status_code == 200] *)
Definition is_200 (resp : HttpOutcome) : bool :=
  match resp with
  | HttpResponse status_code => (status_code =? 200)%Z
  | ConnectError => false
  | HttpFailure _ => false
  end.

(** [_wait_for_health], for a deadline in milliseconds and the message
    of the final error.  [fuel] bounds the number of polls. *)
Fixpoint health_loop (timeout : Z) (failure : string) (start_time : Z)
  (fuel : nat) : M State unit :=
  match fuel with
  | O => diverge
  | S fuel' =>
      t <- now ;;
      if (t - start_time <? timeout)%Z then
        s <- get ;;
        if shutdown_event s
        then raise (RuntimeError "Shutdown requested during startup")
        else
          resp <- get_health ;;
          if is_200 resp then emit HealthOk        (* return *)
          else sleep 500 ;;; health_loop timeout failure start_time fuel'
      else raise (RuntimeError failure)
  end.

Definition wait_for_health (timeout : Z) (failure : string) (fuel : nat)
  : M State unit :=
  start_time <- now ;;
  health_loop timeout failure start_time fuel.

(** One half of [shutdown]: terminate, wait with a deadline, kill on
    timeout; skipped when the handle is absent or already reports an
    exit. *)
Definition stop_child (c : Child) (timeout_ms : Z) : M State unit :=
  s <- get ;;
  match handle c s with
  | Some pid =>
      match returncode_of (Some pid) s with
      | None =>
          modify (set_procs (alter with_sigterm pid)) ;;;
          emit (Terminate pid) ;;;
          emit (WaitFor pid timeout_ms) ;;;
          suspend ;;;
          s' <- get ;;
          match returncode_of (Some pid) s' with
          | Some _ => ret tt
          | None =>                     (* except TimeoutError *)
              modify (set_procs (alter with_sigkill pid)) ;;;
              emit (Kill pid)
          end
      | Some _ => ret tt
      end
  | None => ret tt
  end.

(** [shutdown]: the bridge first, then the agent. *)
Definition shutdown : M State unit :=
  emit ShutdownStart ;;;
  stop_child Bridge 5000 ;;;
  stop_child Agent 10000 ;;;
  emit ShutdownComplete.

End WithEnv.

(** [await self.opencode_ready.wait()]: returns at once when the event
    is set.  The only code that sets it is [start_opencode], run by the
    very task that would be waiting, so an unset event never wakes the
    waiter. *)
Definition wait_ready : M State unit :=
  s <- get ;;
  if opencode_ready s then ret tt else diverge.

(** What the loop body tells its [while]: go on, or [break]. *)
Inductive Flow : Type := Continue | Break.

Definition history (s : State) : list Event := rev (trace s).

End Supervisor.

(* ------------------------------------------------------------------ *)
(** ** The Supervisor, remote variant
       ([packages/sandbox-runtime/src/sandbox/entrypoint.py])          *)
(* ------------------------------------------------------------------ *)

Module Runtime.
Import Py Supervisor.
Local Open Scope py_scope.
Local Open Scope string_scope.

Definition HEALTH_CHECK_TIMEOUT : Z := 30000.

Section WithEnv.
Variable env : Env.
Variable cfg : Config.

Definition _generate_github_token : M State string :=
  if truthy (github_app_token cfg) then ret (github_app_token cfg)
  else if truthy (github_app_id cfg) && truthy (github_app_private_key cfg)
          && truthy (github_app_installation_id cfg)
  then try_except (call (generate_installation_token env)) (fun _ => ret "")
  else ret "".

(** The [try] block of [perform_git_sync]: remote URL, fetch, rebase,
    HEAD.  Its handler comments the latch with
    [# Allow agent to proceed anyway]. *)
Definition sync_with_remote (github_token : string) : M State bool :=
  try_except
    (when (truthy github_token) (await env (git_remote_set_url env)) ;;;
     (* Fetch latest changes *)
     fetch_code <- await env (git_fetch env) ;;
     if negb (fetch_code =? 0)%Z then
       await env (git_fetch_stderr env) ;;;
       ret false
     else
       (* Rebase onto latest *)
       rebase_code <- await env (git_rebase env) ;;
       (if negb (rebase_code =? 0)%Z then
          rebase_merge <- exists_ env RebaseMerge ;;
          rebase_apply <- exists_ env RebaseApply ;;
          when (rebase_merge || rebase_apply) (await env (git_rebase_abort env))
        else ret tt) ;;;
       (* Get current SHA *)
       current_sha <- await env (git_rev_parse env) ;;
       modify (set_git_sync_complete true) ;;;
       ret true)
    (fun e =>
       modify (set_git_sync_complete true) ;;;
       ret false).

Definition perform_git_sync : M State bool :=
  github_token <- _generate_github_token ;;
  present <- exists_ env RepoPath ;;
  if negb present then
    if negb (truthy (repo_owner cfg)) || negb (truthy (repo_name cfg)) then
      modify (set_git_sync_complete true) ;;;
      ret true
    else
      clone_code <- await env (git_clone env) ;;
      if negb (clone_code =? 0)%Z then
        modify (set_git_sync_complete true) ;;;
        ret false
      else sync_with_remote github_token
  else sync_with_remote github_token.

Definition configure_git_identity : M State unit :=
  if negb (truthy (git_user_name cfg)) || negb (truthy (git_user_email cfg))
  then ret tt
  else
    present <- exists_ env RepoPath ;;
    if negb present then ret tt
    else try_except
           (await env (git_config_name env) ;;;
            await env (git_config_email env))
           (fun _ => ret tt).

Definition run_setup_script : M State bool :=
  present <- exists_ env SetupScript ;;
  if negb present then ret true
  else
    try_except
      (match setup_run env with
       | SetupSpawnFails e => suspend env ;;; raise e
       | SetupExits exit_code =>
           suspend env ;;; suspend env ;;; ret (exit_code =? 0)%Z
       | SetupTimesOut =>
           suspend env ;;; suspend env ;;; suspend env ;;; suspend env ;;;
           ret false
       end)
      (fun _ => ret false).

(** The plugin assets installed before the agent starts; the
    filesystem calls are not guarded. *)
Definition install_plugin : M State unit :=
  s <- get ;;
  match install_assets env (suspensions s) with
  | Some e => raise e
  | None => ret tt
  end.

Definition _wait_for_health (fuel : nat) : M State unit :=
  wait_for_health env HEALTH_CHECK_TIMEOUT
    "OpenCode server failed to become healthy" fuel.

Definition start_opencode (fuel : nat) : M State unit :=
  install_plugin ;;;
  spawn env Agent ;;;
  _wait_for_health fuel ;;;
  modify (set_opencode_ready true) ;;;
  emit ReadySet.

Definition start_bridge : M State unit :=
  if negb (truthy (control_plane_url cfg)) then ret tt
  else
    (* Wait for OpenCode to be ready *)
    wait_ready ;;;
    if negb (truthy (session_id cfg)) then ret tt
    else
      spawn env Bridge ;;;
      (* Check if bridge exited immediately during startup *)
      sleep env 500 ;;;
      s <- get ;;
      match returncode_of (bridge_process s) s with
      | Some exit_code => suspend env          (* communicate(), then a log line *)
      | None => ret tt
      end.

Definition _report_fatal_error (message : string) : M State unit :=
  emit (Fatal message) ;;;
  when (truthy (control_plane_url cfg)) (suspend env).

(** The agent half of one monitoring round, for the current value of
    the local [restart_count]. *)
Definition check_opencode (fuel : nat) (restart_count : nat)
  : M State (Flow * nat) :=
  s <- get ;;
  match returncode_of (opencode_process s) s with
  | Some exit_code =>
      let restart_count := S restart_count in
      emit (ObservedExit Agent exit_code restart_count) ;;;
      if (MAX_RESTARTS <? restart_count)%nat then
        _report_fatal_error
          ("OpenCode crashed " ++ str_of_int (Z.of_nat restart_count)
             ++ " times, giving up") ;;;
        modify (set_shutdown_event true) ;;;
        ret (Break, restart_count)
      else
        (* Exponential backoff *)
        sleep env (backoff restart_count) ;;;
        modify (set_opencode_ready false) ;;;
        emit ReadyClear ;;;
        start_opencode fuel ;;;
        ret (Continue, restart_count)
  | None => ret (Continue, restart_count)
  end.

(** The bridge half, for the current value of [bridge_restart_count]. *)
Definition check_bridge (bridge_restart_count : nat)
  : M State (Flow * nat) :=
  s <- get ;;
  match returncode_of (bridge_process s) s with
  | Some exit_code =>
      if (exit_code =? 0)%Z then
        (* Graceful exit: propagate shutdown rather than restarting. *)
        emit (ObservedExit Bridge exit_code bridge_restart_count) ;;;
        modify (set_shutdown_event true) ;;;
        ret (Break, bridge_restart_count)
      else
        (* Crash: restart with backoff and retry limit *)
        let bridge_restart_count := S bridge_restart_count in
        emit (ObservedExit Bridge exit_code bridge_restart_count) ;;;
        if (MAX_RESTARTS <? bridge_restart_count)%nat then
          _report_fatal_error
            ("Bridge crashed " ++ str_of_int (Z.of_nat bridge_restart_count)
               ++ " times, giving up") ;;;
          modify (set_shutdown_event true) ;;;
          ret (Break, bridge_restart_count)
        else
          sleep env (backoff bridge_restart_count) ;;;
          start_bridge ;;;
          ret (Continue, bridge_restart_count)
  | None => ret (Continue, bridge_restart_count)
  end.

(** [while not self.shutdown_event.is_set(): ...]; [hfuel] is the poll
    budget of each health probe, [fuel] bounds the rounds. *)
Fixpoint monitor_loop (hfuel fuel : nat)
  (restart_count bridge_restart_count : nat) : M State unit :=
  match fuel with
  | O => diverge
  | S fuel' =>
      s <- get ;;
      if shutdown_event s then ret tt
      else
        a <- check_opencode hfuel restart_count ;;
        match a with
        | (Break, _) => ret tt
        | (Continue, restart_count) =>
            b <- check_bridge bridge_restart_count ;;
            match b with
            | (Break, _) => ret tt
            | (Continue, bridge_restart_count) =>
                sleep env 1000 ;;;
                monitor_loop hfuel fuel' restart_count bridge_restart_count
            end
        end
  end.

Definition monitor_processes (fuel : nat) : M State unit :=
  monitor_loop fuel fuel 0 0.

Definition run (fuel : nat) : M State unit :=
  try_finally
    (try_except
       ((* Phase 1: Git clone and sync *)
        git_sync_success <- perform_git_sync ;;
        (* Phase 2: Configure git identity *)
        configure_git_identity ;;;
        (* Phase 3: Run repo setup script *)
        setup_success <- run_setup_script ;;
        (* Phase 4: Start OpenCode server *)
        start_opencode fuel ;;;
        (* Phase 5: Start bridge (after OpenCode is ready) *)
        start_bridge ;;;
        (* Phase 6: Monitor processes *)
        monitor_processes fuel)
       (fun e => _report_fatal_error (str e)))
    (shutdown env).

End WithEnv.
End Runtime.

(* ------------------------------------------------------------------ *)
(** ** The Supervisor, local-mount variant
       ([packages/sandbox/sandbox/entrypoint.py])                      *)
(* ------------------------------------------------------------------ *)

Module Local.
Import Py Supervisor.
Local Open Scope py_scope.
Local Open Scope string_scope.

Definition HEALTH_CHECK_TIMEOUT : Z := 60000.

Section WithEnv.
Variable env : Env.
Variable cfg : Config.

Definition verify_workspace : M State bool := exists_ env WorkspaceGit.

Definition run_setup_script : M State (option bool) :=
  present <- exists_ env SetupScript ;;
  if negb present then ret None
  else
    timeout <- call (setup_timeout env) ;;
    try_except
      (match setup_run env with
       | SetupSpawnFails e => suspend env ;;; raise e
       | SetupExits exit_code =>
           suspend env ;;; suspend env ;;; ret (Some (exit_code =? 0)%Z)
       | SetupTimesOut =>
           suspend env ;;; suspend env ;;; ret (Some false)
       end)
      (fun _ => ret (Some false)).

Definition _install_tools : M State unit :=
  s <- get ;;
  match install_assets env (suspensions s) with
  | Some e => raise e
  | None => ret tt
  end.

Definition _wait_for_health (fuel : nat) : M State unit :=
  wait_for_health env HEALTH_CHECK_TIMEOUT
    "OpenCode server failed to become healthy within 60.0s" fuel.

Definition start_opencode (fuel : nat) : M State unit :=
  _install_tools ;;;
  spawn env Agent ;;;
  _wait_for_health fuel ;;;
  modify (set_opencode_ready true) ;;;
  emit ReadySet.

Definition start_bridge : M State unit :=
  if negb (truthy (control_plane_ws_url cfg))
     && (negb (truthy (control_plane_url cfg))
         || negb (truthy (session_id cfg)))
  then ret tt
  else
    wait_ready ;;;
    spawn env Bridge ;;;
    (* Check for immediate exit *)
    sleep env 500.

Definition check_opencode (fuel : nat) (opencode_restarts : nat)
  : M State (Flow * nat) :=
  s <- get ;;
  match returncode_of (opencode_process s) s with
  | Some exit_code =>
      let opencode_restarts := S opencode_restarts in
      emit (ObservedExit Agent exit_code opencode_restarts) ;;;
      if (MAX_RESTARTS <? opencode_restarts)%nat
      then ret (Break, opencode_restarts)
      else
        sleep env (backoff opencode_restarts) ;;;
        modify (set_opencode_ready false) ;;;
        emit ReadyClear ;;;
        start_opencode fuel ;;;
        ret (Continue, opencode_restarts)
  | None => ret (Continue, opencode_restarts)
  end.

Definition check_bridge (bridge_restarts : nat) : M State (Flow * nat) :=
  s <- get ;;
  match returncode_of (bridge_process s) s with
  | Some exit_code =>
      let bridge_restarts := S bridge_restarts in
      emit (ObservedExit Bridge exit_code bridge_restarts) ;;;
      if (MAX_RESTARTS <? bridge_restarts)%nat
      then ret (Break, bridge_restarts)
      else
        sleep env (backoff bridge_restarts) ;;;
        start_bridge ;;;
        ret (Continue, bridge_restarts)
  | None => ret (Continue, bridge_restarts)
  end.

Fixpoint monitor_loop (hfuel fuel : nat)
  (opencode_restarts bridge_restarts : nat) : M State unit :=
  match fuel with
  | O => diverge
  | S fuel' =>
      s <- get ;;
      if shutdown_event s then ret tt
      else
        sleep env 1000 ;;;
        a <- check_opencode hfuel opencode_restarts ;;
        match a with
        | (Break, _) => ret tt
        | (Continue, opencode_restarts) =>
            b <- check_bridge bridge_restarts ;;
            match b with
            | (Break, _) => ret tt
            | (Continue, bridge_restarts) =>
                monitor_loop hfuel fuel' opencode_restarts bridge_restarts
            end
        end
  end.

Definition monitor_processes (fuel : nat) : M State unit :=
  monitor_loop fuel fuel 0 0.

Definition run (fuel : nat) : M State unit :=
  try_finally
    (try_except
       ((* Phase 1: Verify workspace *)
        verified <- verify_workspace ;;
        if negb verified then ret tt        (* return *)
        else
          (* Phase 2: Run setup script (optional) *)
          run_setup_script ;;;
          (* Phase 3: Start OpenCode server *)
          start_opencode fuel ;;;
          (* Phase 4: Start bridge *)
          start_bridge ;;;
          (* Phase 5: Monitor processes *)
          monitor_processes fuel)
       (fun e => ret tt))
    (shutdown env).

End WithEnv.
End Local.

(* ------------------------------------------------------------------ *)
(** ** The HTTP endpoints ([modal-infra/src/web_api.py])               *)
(* ------------------------------------------------------------------ *)

Module WebApi.
Local Open Scope string_scope.

(** A Python [float] as [json.loads] can produce it: a finite double is
    the rational [numerator / denominator]; [Infinity], [-Infinity] and
    [NaN] are accepted by the parser as well. *)
Inductive PyFloat : Type :=
| Finite (numerator : Z) (denominator : positive)
| Infinity (negative : bool)
| NaN.

(** The values of a decoded JSON body; [JNull] is Python's [None].
    A [str] is held as the bytes of its UTF-8 encoding.  [json.loads]
    lets a lone surrogate in, by an escape such as ["\ud800"]; it is
    held as the three bytes that [surrogatepass] gives it,
    [ED A0..BF 80..BF], which the encoding of no other character
    contains. *)
#[local] Unset Elimination Schemes.
Inductive Json : Type :=
| JNull
| JBool (b : bool)
| JInt (n : Z)
| JFloat (x : PyFloat)
| JStr (s : string)
| JList (items : list Json)
| JDict (fields : list (string * Json)).
#[local] Set Elimination Schemes.

(** A [dict] with [str] keys, in insertion order; keys are distinct. *)
Definition Dict : Type := list (string * Json).

Fixpoint lookup (key : string) (d : Dict) : option Json :=
  match d with
  | [] => None
  | (k, v) :: rest => if String.eqb k key then Some v else lookup key rest
  end.

(** [d.get(key)] *)
Definition dict_get (d : Dict) (key : string) : Json :=
  match lookup key d with Some v => v | None => JNull end.

(** [d.get(key, default)]: a key present with value [None] gives
    [None], not the default. *)
Definition dict_get_default (d : Dict) (key : string) (default : Json) : Json :=
  match lookup key d with Some v => v | None => default end.

(** Truth value testing. *)
Definition truthy_json (v : Json) : bool :=
  match v with
  | JNull => false
  | JBool b => b
  | JInt n => negb (n =? 0)%Z
  | JFloat (Finite numerator _) => negb (numerator =? 0)%Z
  | JFloat (Infinity _) => true
  | JFloat NaN => true
  | JStr s => Py.truthy s
  | JList [] => false
  | JList (_ :: _) => true
  | JDict [] => false
  | JDict (_ :: _) => true
  end.

(** [v or None] *)
Definition or_none (v : Json) : Json := if truthy_json v then v else JNull.

(** [isinstance(v, str) and v], with the string it is. *)
Definition nonempty_str (v : Json) : option string :=
  match v with
  | JStr s => if Py.truthy s then Some s else None
  | _ => None
  end.

(** [json.dumps(v, allow_nan=False)] succeeds: no [NaN] and no infinity
    anywhere in [v]. *)
Fixpoint compliant (v : Json) : bool :=
  match v with
  | JFloat (Finite _ _) => true
  | JFloat (Infinity _) => false
  | JFloat NaN => false
  | JList items => forallb compliant items
  | JDict fields =>
      forallb (fun kv => match kv with (_, x) => compliant x end) fields
  | _ => true
  end.

(** The byte [ED], and a byte of [A0..BF]. *)
Definition is_ED (c : ascii) : bool :=
  match c with
  | Ascii true false true true false true true true => true
  | _ => false
  end.

Definition is_A0_BF (c : ascii) : bool :=
  match c with
  | Ascii _ _ _ _ _ true false true => true
  | _ => false
  end.

(** [s] starts in the middle of a surrogate. *)
Definition continues_surrogate (s : string) : bool :=
  match s with
  | String d _ => is_A0_BF d
  | EmptyString => false
  end.

Fixpoint has_lone_surrogate (s : string) : bool :=
  match s with
  | EmptyString => false
  | String c rest =>
      (if is_ED c then continues_surrogate rest else false)
      || has_lone_surrogate rest
  end.

(** [s.encode("utf-8")] succeeds: [s] holds no lone surrogate. *)
Definition encodable (s : string) : bool := negb (has_lone_surrogate s).

(** [json.dumps(v, ensure_ascii=False).encode("utf-8")] succeeds: every
    string of [v], the keys included, can be encoded. *)
Fixpoint utf8 (v : Json) : bool :=
  match v with
  | JStr s => encodable s
  | JList items => forallb utf8 items
  | JDict fields =>
      forallb (fun kv => match kv with (k, x) => encodable k && utf8 x end)
        fields
  | _ => true
  end.

(** Exceptions, as far as the endpoints tell them apart:
    [fastapi.HTTPException], the [AuthConfigurationError] of
    [auth.internal], and any other [Exception] by its class name. *)
Inductive Exn : Type :=
| HTTPException (status_code : Z) (detail : Json)
| AuthConfigurationError (message : string)
| Error (class_name : string) (message : string).

(** [e.__class__.__name__] *)
Definition class_name_of (e : Exn) : string :=
  match e with
  | HTTPException _ _ => "HTTPException"
  | AuthConfigurationError _ => "AuthConfigurationError"
  | Error class_name _ => class_name
  end.

(** The answer of a collaborator to one call. *)
Inductive answer (A : Type) : Type :=
| Gives (a : A)
| Fails (e : Exn).
Arguments Gives {A} a.
Arguments Fails {A} e.

(** What [int(v)] comes to. *)
Inductive IntResult : Type :=
| IntOk (n : Z)
| IntTypeError
| IntValueError
| IntOverflowError.

(** [starlette.responses.JSONResponse] *)
Record JSONResponse : Type := {
  status_code : Z;
  content : Json
}.

(** A sandbox handle of [SandboxManager], by the attributes read. *)
Record Handle : Type := {
  handle_sandbox_id : Json;
  handle_modal_object_id : Json;
  handle_status_value : Json;
  handle_created_at : Json
}.

(** The arguments of [SessionConfig(...)] and [SandboxConfig(...)]. *)
Record SessionConfig : Type := {
  sc_session_id : string;
  sc_repo_owner : string;
  sc_repo_name : string;
  sc_branch : Json;
  sc_opencode_session_id : Json;
  sc_provider : Json;
  sc_model : Json
}.

Record SandboxConfig : Type := {
  cfg_repo_owner : string;
  cfg_repo_name : string;
  cfg_sandbox_id : Json;
  cfg_snapshot_id : Json;
  cfg_session_config : SessionConfig;
  cfg_control_plane_url : string;
  cfg_sandbox_auth_token : string;
  cfg_timeout_seconds : Z;
  cfg_clone_token : option string;
  cfg_user_env_vars : Json;
  cfg_repo_image_id : Json;
  cfg_repo_image_sha : Json
}.

(** The keyword arguments of [manager.restore_from_snapshot]. *)
Record RestoreArgs : Type := {
  ra_snapshot_image_id : Json;
  ra_session_config : Json;
  ra_sandbox_id : Json;
  ra_control_plane_url : string;
  ra_sandbox_auth_token : Json;
  ra_clone_token : option string;
  ra_user_env_vars : Json;
  ra_timeout_seconds : Z
}.

(** The keyword arguments of [build_repo_image.spawn.aio]. *)
Record BuildArgs : Type := {
  ba_repo_owner : Json;
  ba_repo_name : Json;
  ba_default_branch : Json;
  ba_callback_url : Json;
  ba_build_id : Json;
  ba_user_env_vars : Json
}.

(** The request headers the endpoints read. *)
Record Headers : Type := {
  authorization : option string;
  x_trace_id : option string;
  x_request_id : option string;
  x_session_id : option string;
  x_sandbox_id : option string
}.

(** The line [log.info("modal.http_request", ...)] of a [finally]
    clause.  [log_session_id] and [log_sandbox_id] are [None] for the
    endpoints that do not log them. *)
Record AccessLog : Type := {
  http_method : string;
  http_path : string;
  log_http_status : Z;
  log_duration_ms : Z;
  log_outcome : string;
  endpoint_name : string;
  log_trace_id : option string;
  log_request_id : option string;
  log_session_id : option Json;
  log_sandbox_id : option Json
}.

(** Calls to collaborators and log lines, most recent first in
    [trace]. *)
Inductive Event : Type :=
| GenerateInstallationToken (app_id private_key installation_id : string)
| NewSandboxManager
| NewSessionConfig (args : SessionConfig)
| NewSandboxConfig (args : SandboxConfig)
| CreateSandbox (config : SandboxConfig)
| WarmSandbox (repo_owner repo_name control_plane_url : string)
| GetSandboxById (sandbox_id : Json)
| TakeSnapshot (handle : Handle)
| RestoreFromSnapshot (args : RestoreArgs)
| SpawnBuild (args : BuildArgs)
| GetLatestSnapshot (repo_owner repo_name : string)
| LogTokenError (e : Exn)                   (* log.warn("github.token_error") *)
| LogApiError (endpoint : string) (e : Exn) (* log.error("api.error") *)
| LogImageDeleteRequested (provider_image_id : Json)
| LogHttpRequest (line : AccessLog).

(** Everything an endpoint asks of the rest of the package and of the
    Python runtime. *)
Record World : Type := {
  (** [auth.internal.verify_internal_token(authorization)] *)
  verify_internal_token : option string -> answer bool;
  (** [app.validate_control_plane_url(url)] *)
  validate_control_plane_url : Json -> answer bool;
  (** [os.environ.get] *)
  environ : string -> option string;
  (** [auth.github_app.generate_installation_token] *)
  generate_installation_token : string -> string -> string -> answer string;
  (** [sandbox.manager.DEFAULT_SANDBOX_TIMEOUT_SECONDS] *)
  DEFAULT_SANDBOX_TIMEOUT_SECONDS : Z;
  (** [int(s)] for a [str]: [None] is [ValueError] *)
  int_of_str : string -> option Z;
  (** [str(v)] of a value that is no [str], inside an f-string *)
  format_value : Json -> string;
  (** the constructors and methods of [SandboxManager] *)
  new_sandbox_manager : answer unit;
  new_session_config : SessionConfig -> answer unit;
  new_sandbox_config : SandboxConfig -> answer unit;
  create_sandbox : SandboxConfig -> answer Handle;
  warm_sandbox : string -> string -> string -> answer Handle;
  get_sandbox_by_id : Json -> answer (option Handle);
  take_snapshot : Handle -> answer Json;
  restore_from_snapshot : RestoreArgs -> answer Handle;
  (** [build_repo_image.spawn.aio(...)] *)
  spawn_build : BuildArgs -> answer unit;
  (** [SnapshotStore().get_latest_snapshot(owner, name)], with
      [model_dump()] applied to a snapshot found *)
  get_latest_snapshot : string -> string -> answer (option Json);
  (** [int((time.time() - start_time) * 1000)] in the [finally] clause *)
  duration_ms : Z
}.

(** The local variables an endpoint's [except] and [finally] clauses
    share with its body, and the trace. *)
Record State : Type := {
  http_status : Z;
  outcome : string;
  sandbox_id : Json;            (* api_snapshot_sandbox only *)
  trace : list Event
}.

Definition initial : State :=
  {| http_status := 0; outcome := ""; sandbox_id := JNull; trace := [] |}.

Definition set_http_status (v : Z) (s : State) : State :=
  {| http_status := v; outcome := outcome s; sandbox_id := sandbox_id s;
     trace := trace s |}.

Definition set_outcome (v : string) (s : State) : State :=
  {| http_status := http_status s; outcome := v; sandbox_id := sandbox_id s;
     trace := trace s |}.

Definition set_sandbox_id (v : Json) (s : State) : State :=
  {| http_status := http_status s; outcome := outcome s; sandbox_id := v;
     trace := trace s |}.

Definition push (e : Event) (s : State) : State :=
  {| http_status := http_status s; outcome := outcome s;
     sandbox_id := sandbox_id s; trace := e :: trace s |}.

(** The result of running a piece of code: a value or a propagating
    exception. *)
Inductive result (A : Type) : Type :=
| Return (a : A)
| Raise (e : Exn).
Arguments Return {A} a.
Arguments Raise {A} e.

Definition M (A : Type) : Type := State -> result A * State.

Definition ret {A} (a : A) : M A := fun s => (Return a, s).

Definition bind {A B} (m : M A) (k : A -> M B) : M B :=
  fun s =>
    match m s with
    | (Return a, s') => k a s'
    | (Raise e, s') => (Raise e, s')
    end.

Definition raise {A} (e : Exn) : M A := fun s => (Raise e, s).

Definition get : M State := fun s => (Return s, s).
Definition modify (f : State -> State) : M unit := fun s => (Return tt, f s).
Definition emit (e : Event) : M unit := modify (push e).

Definition call {A} (o : answer A) : M A :=
  match o with
  | Gives a => ret a
  | Fails e => raise e
  end.

(** [try: body  except Exception as e: handler e] *)
Definition try_except {A} (body : M A) (handler : Exn -> M A) : M A :=
  fun s =>
    match body s with
    | (Raise e, s') => handler e s'
    | r => r
    end.

(** [try: body  except HTTPException as e: ...  except Exception as e:
    ...]: the first clause that matches handles the exception; an
    exception raised inside a handler is not handled by the other. *)
Definition try_except_http {A} (body : M A)
  (on_http_exception : Z -> Json -> M A) (on_exception : Exn -> M A) : M A :=
  fun s =>
    match body s with
    | (Raise (HTTPException status_code detail), s') =>
        on_http_exception status_code detail s'
    | (Raise e, s') => on_exception e s'
    | r => r
    end.

(** [try: body  finally: cleanup] *)
Definition try_finally {A} (body : M A) (cleanup : M unit) : M A :=
  fun s =>
    match body s with
    | (r, s') =>
        match cleanup s' with
        | (Return _, s'') => (r, s'')
        | (Raise e, s'') => (Raise e, s'')
        end
    end.

End WebApi.

Declare Scope web_scope.
Delimit Scope web_scope with web.
Notation "x <- m ;; k" := (WebApi.bind m (fun x => k))
  (at level 100, m at next level, k at level 200, right associativity,
   only parsing) : web_scope.
Notation "m ;;; k" := (WebApi.bind m (fun _ => k))
  (at level 100, k at level 200, right associativity, only parsing) : web_scope.

Module Endpoints.
Import WebApi.
Local Open Scope web_scope.
Local Open Scope string_scope.

Definition _error_code_for_status (status_code : Z) : string :=
  if (status_code =? 400)%Z then "bad_request"
  else if (status_code =? 401)%Z then "unauthorized"
  else if (status_code =? 403)%Z then "forbidden"
  else if (status_code =? 404)%Z then "not_found"
  else if (status_code =? 409)%Z then "conflict"
  else if (status_code =? 422)%Z then "validation_error"
  else if (status_code =? 429)%Z then "rate_limited"
  else if (status_code =? 503)%Z then "service_unavailable"
  else if (500 <=? status_code)%Z then "internal_error"
  else "request_failed".

(** [JSONResponse(status_code=..., content=...)]: the body is rendered
    by the constructor, as
    [json.dumps(content, ensure_ascii=False, allow_nan=False, ...)
     .encode("utf-8")]. *)
Definition new_JSONResponse (status_code : Z) (content : Json)
  : M JSONResponse :=
  if compliant content
  then
    if utf8 content
    then ret {| status_code := status_code; content := content |}
    else raise (Error "UnicodeEncodeError"
                  "'utf-8' codec can't encode character: surrogates not allowed")
  else raise (Error "ValueError"
                "Out of range float values are not JSON compliant").

Definition success_response (data : Json) : M JSONResponse :=
  new_JSONResponse 200 (JDict [("success", JBool true); ("data", data)]).

Definition error_response (status_code : Z) (message : string)
  (code : option string) (details : option Json) : M JSONResponse :=
  let error_payload :=
    [("code", JStr (match code with
                    | Some c => if Py.truthy c then c
                                else _error_code_for_status status_code
                    | None => _error_code_for_status status_code
                    end));
     ("message", JStr message);
     ("status_code", JInt status_code)] in
  let error_payload :=
    match details with
    | Some d => (error_payload ++ [("details", d)])%list
    | None => error_payload
    end in
  new_JSONResponse status_code
    (JDict [("success", JBool false); ("error", JDict error_payload)]).

(** [_http_exception_message(exc)], from [exc.detail]. *)
Definition _http_exception_message (detail : Json) : string :=
  match detail with
  | JStr s => s
  | JDict d =>
      match dict_get d "message" with
      | JStr detail_message =>
          if Py.truthy detail_message then detail_message
          else "Request failed"
      | _ => "Request failed"
      end
  | _ => "Request failed"
  end.

(** [e.detail if isinstance(e.detail, dict) else None] *)
Definition dict_or_none (detail : Json) : option Json :=
  match detail with
  | JDict _ => Some detail
  | _ => None
  end.

Section WithWorld.
Variable w : World.

(** [f"{v}"] *)
Definition format (v : Json) : string :=
  match v with
  | JStr s => s
  | _ => format_value w v
  end.

(** [int(v)] *)
Definition int_ (v : Json) : IntResult :=
  match v with
  | JNull => IntTypeError
  | JBool b => IntOk (if b then 1 else 0)
  | JInt n => IntOk n
  | JFloat (Finite numerator denominator) =>
      IntOk (Z.quot numerator (Z.pos denominator))
  | JFloat (Infinity _) => IntOverflowError
  | JFloat NaN => IntValueError
  | JStr s =>
      match int_of_str w s with
      | Some n => IntOk n
      | None => IntValueError
      end
  | JList _ => IntTypeError
  | JDict _ => IntTypeError
  end.

Definition require_auth (authorization : option string) : M unit :=
  match verify_internal_token w authorization with
  | Gives true => ret tt
  | Gives false =>
      raise (HTTPException 401
               (JStr "Unauthorized: Invalid or missing authentication token"))
  | Fails (AuthConfigurationError e) =>
      (* Auth system is misconfigured - this is a server error *)
      raise (HTTPException 503
               (JStr ("Service unavailable: Authentication not configured. "
                        ++ e)))
  | Fails e => raise e
  end.

Definition require_valid_control_plane_url (url : Json) : M unit :=
  if truthy_json url then
    valid <- call (validate_control_plane_url w url) ;;
    if valid then ret tt
    else raise (HTTPException 400
                  (JStr ("Invalid control_plane_url: " ++ format url
                           ++ ". URL must match allowed patterns.")))
  else ret tt.

(** [if not isinstance(control_plane_url, str): control_plane_url = ""] *)
Definition str_or_empty (v : Json) : string :=
  match v with
  | JStr s => s
  | _ => ""
  end.

(** The block that reads [timeout_seconds] in [api_create_sandbox] and
    [api_restore_sandbox]. *)
Definition timeout_seconds_of (request : Dict) : M Z :=
  let timeout_seconds_raw := dict_get request "timeout_seconds" in
  match timeout_seconds_raw with
  | JNull => ret (DEFAULT_SANDBOX_TIMEOUT_SECONDS w)
  | _ =>
      match int_ timeout_seconds_raw with
      | IntOk n => ret n
      | IntTypeError | IntValueError =>
          raise (HTTPException 400 (JStr "timeout_seconds must be an integer"))
      | IntOverflowError =>
          raise (Error "OverflowError"
                   "cannot convert float infinity to integer")
      end
  end.

(** The block that generates the GitHub App token in the same two
    endpoints; a failure is only logged. *)
Definition github_app_token_of : M (option string) :=
  try_except
    (match environ w "GITHUB_APP_ID",
           environ w "GITHUB_APP_PRIVATE_KEY",
           environ w "GITHUB_APP_INSTALLATION_ID" with
     | Some app_id, Some private_key, Some installation_id =>
         if Py.truthy app_id && Py.truthy private_key
            && Py.truthy installation_id
         then
           emit (GenerateInstallationToken app_id private_key
                   installation_id) ;;;
           token <- call (generate_installation_token w app_id private_key
                            installation_id) ;;
           ret (Some token)
         else ret None
     | _, _, _ => ret None
     end)
    (fun e => emit (LogTokenError e) ;;; ret None).

(** What the seven authenticated endpoints share: the initial values of
    [http_status] and [outcome], the two [except] clauses and the
    [finally] clause, which differ in the names they log, in the
    message of the 500 response, and in the ids of the access log. *)
Definition endpoint (method path name failure_message : string)
  (h : Headers) (ids : State -> option Json * option Json)
  (body : M JSONResponse) : M JSONResponse :=
  modify (set_http_status 200) ;;;
  modify (set_outcome "success") ;;;
  try_finally
    (try_except_http body
       (fun status_code detail =>
          modify (set_outcome "error") ;;;
          modify (set_http_status status_code) ;;;
          error_response status_code (_http_exception_message detail)
            None (dict_or_none detail))
       (fun e =>
          modify (set_outcome "error") ;;;
          modify (set_http_status 500) ;;;
          emit (LogApiError name e) ;;;
          error_response 500 failure_message None
            (Some (JDict [("exception", JStr (class_name_of e))]))))
    (s <- get ;;
     emit (LogHttpRequest
             {| http_method := method;
                http_path := path;
                log_http_status := http_status s;
                log_duration_ms := duration_ms w;
                log_outcome := outcome s;
                endpoint_name := name;
                log_trace_id := x_trace_id h;
                log_request_id := x_request_id h;
                log_session_id := fst (ids s);
                log_sandbox_id := snd (ids s) |})).

(** [x_session_id] and [x_sandbox_id] as logged. *)
Definition header_json (x : option string) : Json :=
  match x with
  | Some s => JStr s
  | None => JNull
  end.

Definition header_ids (h : Headers) (s : State) : option Json * option Json :=
  (Some (header_json (x_session_id h)), Some (header_json (x_sandbox_id h))).

Definition no_ids (s : State) : option Json * option Json := (None, None).

Definition api_create_sandbox (request : Dict) (h : Headers)
  : M JSONResponse :=
  endpoint "POST" "/api_create_sandbox" "api_create_sandbox"
    "Failed to create sandbox" h (header_ids h)
    (require_auth (authorization h) ;;;
     let control_plane_url := dict_get request "control_plane_url" in
     require_valid_control_plane_url control_plane_url ;;;
     let control_plane_url := str_or_empty control_plane_url in
     let session_id := dict_get request "session_id" in
     let repo_owner := dict_get request "repo_owner" in
     let repo_name := dict_get request "repo_name" in
     let sandbox_auth_token := dict_get request "sandbox_auth_token" in
     match nonempty_str session_id with
     | None => raise (HTTPException 400 (JStr "session_id is required"))
     | Some session_id =>
     match nonempty_str repo_owner with
     | None => raise (HTTPException 400 (JStr "repo_owner is required"))
     | Some repo_owner =>
     match nonempty_str repo_name with
     | None => raise (HTTPException 400 (JStr "repo_name is required"))
     | Some repo_name =>
     match nonempty_str sandbox_auth_token with
     | None =>
         raise (HTTPException 400 (JStr "sandbox_auth_token is required"))
     | Some sandbox_auth_token =>
         timeout_seconds <- timeout_seconds_of request ;;
         emit NewSandboxManager ;;;
         call (new_sandbox_manager w) ;;;
         (* Generate GitHub App token for git operations *)
         github_app_token <- github_app_token_of ;;
         let session_config :=
           {| sc_session_id := session_id;
              sc_repo_owner := repo_owner;
              sc_repo_name := repo_name;
              sc_branch := dict_get request "branch";
              sc_opencode_session_id := dict_get request "opencode_session_id";
              sc_provider :=
                dict_get_default request "provider" (JStr "anthropic");
              sc_model :=
                dict_get_default request "model" (JStr "claude-sonnet-4-6")
           |} in
         emit (NewSessionConfig session_config) ;;;
         call (new_session_config w session_config) ;;;
         let config :=
           {| cfg_repo_owner := repo_owner;
              cfg_repo_name := repo_name;
              cfg_sandbox_id := dict_get request "sandbox_id";
              cfg_snapshot_id := dict_get request "snapshot_id";
              cfg_session_config := session_config;
              cfg_control_plane_url := control_plane_url;
              cfg_sandbox_auth_token := sandbox_auth_token;
              cfg_timeout_seconds := timeout_seconds;
              cfg_clone_token := github_app_token;
              cfg_user_env_vars := or_none (dict_get request "user_env_vars");
              cfg_repo_image_id := or_none (dict_get request "repo_image_id");
              cfg_repo_image_sha := or_none (dict_get request "repo_image_sha")
           |} in
         emit (NewSandboxConfig config) ;;;
         call (new_sandbox_config w config) ;;;
         emit (CreateSandbox config) ;;;
         handle <- call (create_sandbox w config) ;;
         success_response
           (JDict [("sandbox_id", handle_sandbox_id handle);
                   ("modal_object_id", handle_modal_object_id handle);
                   ("status", handle_status_value handle);
                   ("created_at", handle_created_at handle)])
     end end end end).

Definition api_warm_sandbox (request : Dict) (h : Headers) : M JSONResponse :=
  endpoint "POST" "/api_warm_sandbox" "api_warm_sandbox"
    "Failed to warm sandbox" h (header_ids h)
    (require_auth (authorization h) ;;;
     let control_plane_url :=
       str_or_empty (dict_get_default request "control_plane_url" (JStr "")) in
     require_valid_control_plane_url (JStr control_plane_url) ;;;
     let repo_owner := dict_get request "repo_owner" in
     let repo_name := dict_get request "repo_name" in
     match nonempty_str repo_owner with
     | None => raise (HTTPException 400 (JStr "repo_owner is required"))
     | Some repo_owner =>
     match nonempty_str repo_name with
     | None => raise (HTTPException 400 (JStr "repo_name is required"))
     | Some repo_name =>
         emit NewSandboxManager ;;;
         call (new_sandbox_manager w) ;;;
         emit (WarmSandbox repo_owner repo_name control_plane_url) ;;;
         handle <- call (warm_sandbox w repo_owner repo_name
                           control_plane_url) ;;
         success_response
           (JDict [("sandbox_id", handle_sandbox_id handle);
                   ("status", handle_status_value handle)])
     end end).

(** Health check endpoint.  Does not require authentication. *)
Definition api_health : Json :=
  JDict [("success", JBool true);
         ("data", JDict [("status", JStr "healthy");
                         ("service", JStr "open-inspect-modal")])].

Definition api_snapshot (repo_owner repo_name : string) (h : Headers)
  : M JSONResponse :=
  endpoint "GET" "/api_snapshot" "api_snapshot"
    "Failed to fetch snapshot" h (header_ids h)
    (require_auth (authorization h) ;;;
     emit (GetLatestSnapshot repo_owner repo_name) ;;;
     snapshot <- call (get_latest_snapshot w repo_owner repo_name) ;;
     match snapshot with
     | Some dump => success_response dump
     | None => success_response JNull
     end).

(** [x_sandbox_id or sandbox_id] *)
Definition header_or (x : option string) (v : Json) : Json :=
  match x with
  | Some s => if Py.truthy s then JStr s else v
  | None => v
  end.

Definition api_snapshot_sandbox (request : Dict) (h : Headers)
  : M JSONResponse :=
  modify (set_sandbox_id JNull) ;;;
  endpoint "POST" "/api_snapshot_sandbox" "api_snapshot_sandbox"
    "Failed to snapshot sandbox" h
    (fun s => (Some (header_json (x_session_id h)),
               Some (header_or (x_sandbox_id h) (sandbox_id s))))
    (require_auth (authorization h) ;;;
     modify (set_sandbox_id (dict_get request "sandbox_id")) ;;;
     let sandbox_id := dict_get request "sandbox_id" in
     if negb (truthy_json sandbox_id)
     then raise (HTTPException 400 (JStr "sandbox_id is required"))
     else
       let session_id := dict_get request "session_id" in
       let reason := dict_get_default request "reason" (JStr "manual") in
       emit NewSandboxManager ;;;
       call (new_sandbox_manager w) ;;;
       (* Get the sandbox handle by ID *)
       emit (GetSandboxById sandbox_id) ;;;
       handle <- call (get_sandbox_by_id w sandbox_id) ;;
       match handle with
       | None =>
           raise (HTTPException 404
                    (JStr ("Sandbox not found: " ++ format sandbox_id)))
       | Some handle =>
           (* Take filesystem snapshot using Modal's native API *)
           emit (TakeSnapshot handle) ;;;
           image_id <- call (take_snapshot w handle) ;;
           success_response
             (JDict [("image_id", image_id);
                     ("sandbox_id", sandbox_id);
                     ("session_id", session_id);
                     ("reason", reason)])
       end).

Definition api_restore_sandbox (request : Dict) (h : Headers)
  : M JSONResponse :=
  endpoint "POST" "/api_restore_sandbox" "api_restore_sandbox"
    "Failed to restore sandbox" h (header_ids h)
    (require_auth (authorization h) ;;;
     let control_plane_url :=
       str_or_empty (dict_get_default request "control_plane_url" (JStr "")) in
     require_valid_control_plane_url (JStr control_plane_url) ;;;
     let snapshot_image_id := dict_get request "snapshot_image_id" in
     if negb (truthy_json snapshot_image_id)
     then raise (HTTPException 400 (JStr "snapshot_image_id is required"))
     else
       let session_config :=
         dict_get_default request "session_config" (JDict []) in
       let sandbox_id := dict_get request "sandbox_id" in
       let sandbox_auth_token :=
         dict_get_default request "sandbox_auth_token" (JStr "") in
       let user_env_vars := or_none (dict_get request "user_env_vars") in
       timeout_seconds <- timeout_seconds_of request ;;
       emit NewSandboxManager ;;;
       call (new_sandbox_manager w) ;;;
       github_app_token <- github_app_token_of ;;
       (* Restore sandbox from snapshot *)
       let args :=
         {| ra_snapshot_image_id := snapshot_image_id;
            ra_session_config := session_config;
            ra_sandbox_id := sandbox_id;
            ra_control_plane_url := control_plane_url;
            ra_sandbox_auth_token := sandbox_auth_token;
            ra_clone_token := github_app_token;
            ra_user_env_vars := user_env_vars;
            ra_timeout_seconds := timeout_seconds |} in
       emit (RestoreFromSnapshot args) ;;;
       handle <- call (restore_from_snapshot w args) ;;
       success_response
         (JDict [("sandbox_id", handle_sandbox_id handle);
                 ("modal_object_id", handle_modal_object_id handle);
                 ("status", handle_status_value handle)])).

Definition api_build_repo_image (request : Dict) (h : Headers)
  : M JSONResponse :=
  endpoint "POST" "/api_build_repo_image" "api_build_repo_image"
    "Failed to start image build" h no_ids
    (require_auth (authorization h) ;;;
     let repo_owner := dict_get request "repo_owner" in
     let repo_name := dict_get request "repo_name" in
     let default_branch :=
       dict_get_default request "default_branch" (JStr "main") in
     let build_id := dict_get_default request "build_id" (JStr "") in
     let callback_url := dict_get_default request "callback_url" (JStr "") in
     let user_env_vars := or_none (dict_get request "user_env_vars") in
     if negb (truthy_json repo_owner) || negb (truthy_json repo_name)
     then raise (HTTPException 400
                   (JStr "repo_owner and repo_name are required"))
     else if negb (truthy_json build_id)
     then raise (HTTPException 400 (JStr "build_id is required"))
     else
       (* Spawn the async builder: returns immediately *)
       let args :=
         {| ba_repo_owner := repo_owner;
            ba_repo_name := repo_name;
            ba_default_branch := default_branch;
            ba_callback_url := callback_url;
            ba_build_id := build_id;
            ba_user_env_vars := user_env_vars |} in
       emit (SpawnBuild args) ;;;
       call (spawn_build w args) ;;;
       success_response
         (JDict [("build_id", build_id); ("status", JStr "building")])).

Definition api_delete_provider_image (request : Dict) (h : Headers)
  : M JSONResponse :=
  endpoint "POST" "/api_delete_provider_image" "api_delete_provider_image"
    "Failed to delete provider image" h no_ids
    (require_auth (authorization h) ;;;
     let provider_image_id := dict_get request "provider_image_id" in
     if negb (truthy_json provider_image_id)
     then raise (HTTPException 400 (JStr "provider_image_id is required"))
     else
       (* Modal has no explicit delete API for images; the request is
          logged for auditability. *)
       emit (LogImageDeleteRequested provider_image_id) ;;;
       success_response
         (JDict [("provider_image_id", provider_image_id);
                 ("deleted", JBool true)])).

End WithWorld.

(** Reading a finished call. *)
Definition history (s : State) : list Event := rev (trace s).

End Endpoints.

(* ================================================================== *)
(** * Part II.  Properties                                             *)
(* ================================================================== *)

(** ** Reasoning about outcomes *)

Module PyLogic.
Import Py.

Lemma sat_intro {S A} (r : result A) (s' : S) (Q : result A -> S -> Prop) :
  Q r s' -> sat (r, s') Q.
Proof. intros H. exists r, s'. split; [reflexivity|exact H]. Qed.

Lemma sat_bind {S A B} (m : M S A) (k : A -> M S B) (s : S)
  (Q1 : result A -> S -> Prop) (Q2 : result B -> S -> Prop) :
  sat (m s) Q1 ->
  (forall a s1, Q1 (Ok a) s1 -> sat (k a s1) Q2) ->
  (forall e s1, Q1 (Raise e) s1 -> Q2 (Raise e) s1) ->
  (forall s1, Q1 Diverge s1 -> Q2 Diverge s1) ->
  sat (bind m k s) Q2.
Proof.
  intros (r & s1 & E & H) Hok Hraise Hdiv. unfold bind. rewrite E.
  destruct r as [a|e|]; [apply Hok, H| |].
  - exists (Raise e), s1. auto.
  - exists Diverge, s1. auto.
Qed.

Lemma sat_conseq {S A} (out : result A * S) (Q Q' : result A -> S -> Prop) :
  sat out Q -> (forall r s', Q r s' -> Q' r s') -> sat out Q'.
Proof. intros (r & s' & E & H) Sub. exists r, s'. auto. Qed.

Lemma sat_try_except {S A} (body : M S A) (handler : exn -> M S A) (s : S)
  (P Q : result A -> S -> Prop) :
  sat (body s) P ->
  (forall a s1, P (Ok a) s1 -> Q (Ok a) s1) ->
  (forall e s1, P (Raise e) s1 -> sat (handler e s1) Q) ->
  (forall s1, P Diverge s1 -> Q Diverge s1) ->
  sat (try_except body handler s) Q.
Proof.
  intros (r & s1 & E & H) Hok Hraise Hdiv. unfold try_except. rewrite E.
  destruct r as [a|e|]; [|apply Hraise, H|].
  - exists (Ok a), s1. auto.
  - exists Diverge, s1. auto.
Qed.

(** The outcome of [try: ... finally: cleanup] given the outcomes of the
    body and of the cleanup. *)
Definition finally_result {A} (r : result A) (rc : result unit) : result A :=
  match r, rc with
  | Diverge, _ => Diverge
  | _, Ok _ => r
  | _, Raise e => Raise e
  | _, Diverge => Diverge
  end.

Lemma sat_try_finally {S A} (body : M S A) (cleanup : M S unit) (s : S)
  (P Q : result A -> S -> Prop) :
  sat (body s) P ->
  (forall r s1, P r s1 -> r <> Diverge ->
     sat (cleanup s1) (fun rc s2 => Q (finally_result r rc) s2)) ->
  (forall s1, P Diverge s1 -> Q Diverge s1) ->
  sat (try_finally body cleanup s) Q.
Proof.
  intros (r & s1 & E & H) Hrun Hdiv. unfold try_finally. rewrite E.
  destruct r as [a|e|].
  - destruct (Hrun _ _ H) as (rc & s2 & -> & HQ); [discriminate|].
    destruct rc as [u|e'|]; apply sat_intro; exact HQ.
  - destruct (Hrun _ _ H) as (rc & s2 & -> & HQ); [discriminate|].
    destruct rc as [u|e'|]; apply sat_intro; exact HQ.
  - apply sat_intro, Hdiv, H.
Qed.

End PyLogic.

(** ** The Callback Client and the Image Builder *)

Module ImageBuilderSpec.
Import Py ImageBuilder.

(** Symbolic execution of builder code on a state given by its fields. *)
Ltac run_py :=
  cbv beta iota zeta delta
    [build_repo_image clone_token_step _read_sandbox_head_sha
     _callback_with_retry callback_attempts callback_attempt seq
     CALLBACK_MAX_RETRIES
     bind ret raise try_except modify get call emit when mint_token post
     raise_for_status fst snd minted requests trace].

(** Decide a comparison of attempt numbers: by evaluation when both are
    numerals, by cases otherwise. *)
Ltac case_ltb :=
  match goal with
  | |- context [Nat.ltb ?a ?b] =>
      let v := eval vm_compute in (Nat.ltb a b) in
      match v with
      | true => change (Nat.ltb a b) with true
      | false => change (Nat.ltb a b) with false
      | _ => destruct (Nat.ltb a b) eqn:?
      end
  end.

Ltac case_world :=
  match goal with
  | |- context [generate_internal_token ?w ?k] =>
      destruct (generate_internal_token w k) eqn:?
  | |- context [http_post ?w ?k ?u] => destruct (http_post w k u) eqn:?
  | |- context [andb (Z.leb 200 ?x) (Z.ltb ?x 300)] =>
      destruct (andb (Z.leb 200 x) (Z.ltb x 300)) eqn:?
  | _ => case_ltb
  end.

(** How many of the [n] issuer calls from number [from] on hand out a
    token. *)
Fixpoint issued (w : World) (from n : nat) : nat :=
  match n with
  | O => 0
  | S n' =>
      match generate_internal_token w from with
      | Returns _ => 1
      | Raises _ => 0
      end + issued w (S from) n'
  end.

Definition callback_of (e : Event) : option (string * Payload) :=
  match e with Callback url payload => Some (url, payload) | _ => None end.

(** The callbacks attempted, most recent first. *)
Definition callbacks (s : State) : list (string * Payload) :=
  omap callback_of (trace s).

(** Every request in [tr] goes to [url] and carries [payload]. *)
Definition posts_carry (url : string) (payload : Payload) (tr : list Event)
  : Prop :=
  forall u q tok, In (Post u q tok) tr -> u = url /\ q = payload.

(** The number of tokens asked for in a trace. *)
Fixpoint mints (tr : list Event) : nat :=
  match tr with
  | [] => 0
  | Mint :: older => S (mints older)
  | _ :: older => mints older
  end.

(** Every request directly follows a mint, and its bearer token is the
    one that very mint returned. *)
Fixpoint fresh_tokens (w : World) (tr : list Event) : Prop :=
  match tr with
  | [] => True
  | Post _ _ token :: older =>
      match older with
      | Mint :: before =>
          generate_internal_token w (mints before) = Returns token
      | _ => False
      end /\ fresh_tokens w older
  | _ :: older => fresh_tokens w older
  end.

(** The counter of issuer calls agrees with the trace, and all tokens
    sent so far were fresh. *)
Definition coherent (w : World) (s : State) : Prop :=
  minted s = mints (trace s) /\ fresh_tokens w (trace s).

(** The delays among some events, oldest first. *)
Definition delays_of (new : list Event) : list Z := omap sleep_of (rev new).

Lemma ext_nil (tr : list Event) : tr = [] ++ tr.
Proof. reflexivity. Qed.

Lemma ext_cons (e : Event) (tr' new tr : list Event) :
  tr' = new ++ tr -> e :: tr' = (e :: new) ++ tr.
Proof. intros ->. reflexivity. Qed.

(** Split a trace given by its events into the new ones and the old. *)
Ltac split_trace := repeat first [apply ext_nil | apply ext_cons].

Lemma issued_none w from n :
  (forall k, from <= k < from + n ->
             exists e, generate_internal_token w k = Raises e) ->
  issued w from n = 0.
Proof.
  revert from; induction n as [|n IH]; intros from H; [reflexivity|].
  cbn [issued]. destruct (H from ltac:(lia)) as [e ->].
  rewrite IH; [reflexivity|]. intros k Hk. apply H. lia.
Qed.

Lemma issued_step w from n :
  issued w from (S n) =
  match generate_internal_token w from with
  | Returns _ => 1
  | Raises _ => 0
  end + issued w (S from) n.
Proof. reflexivity. Qed.

Lemma delays_of_app (new2 new1 : list Event) :
  delays_of (new2 ++ new1) = delays_of new1 ++ delays_of new2.
Proof. unfold delays_of. rewrite rev_app_distr, omap_app. reflexivity. Qed.

Lemma delays_app (s s' : State) (new : list Event) :
  trace s' = new ++ trace s -> delays s' = delays s ++ delays_of new.
Proof. unfold delays, history. intros ->. apply delays_of_app. Qed.

(** [s'] is [s] after the events [new]: none of them enters a
    callback, the requests among them all carry [url] and [payload],
    and the request counter has followed them. *)
Record extends (url : string) (payload : Payload) (s s' : State)
  (new : list Event) : Prop := {
  ext_trace : trace s' = new ++ trace s;
  ext_posts : posts_carry url payload new;
  ext_requests : requests s' = requests s + length (List.filter is_post new);
  ext_callbacks : omap callback_of new = []
}.

Lemma extends_trans url payload s s1 s2 new1 new2 :
  extends url payload s s1 new1 -> extends url payload s1 s2 new2 ->
  extends url payload s s2 (new2 ++ new1).
Proof.
  intros [T1 P1 R1 C1] [T2 P2 R2 C2]. split.
  - rewrite T2, T1. apply app_assoc.
  - intros u q tok E. apply in_app_or in E as [E|E]; eauto.
  - rewrite R2, R1, List.filter_app, length_app. lia.
  - rewrite omap_app, C1, C2. reflexivity.
Qed.

(** One attempt: a boolean comes back, one token was asked for, and a
    request went out exactly when the issuer handed out a token. *)
Lemma callback_attempt_spec w url payload attempt s :
  exists sent s' new,
    callback_attempt w url payload attempt s = (Ok sent, s') /\
    extends url payload s s' new /\
    minted s' = S (minted s) /\
    length (List.filter is_post new) = issued w (minted s) 1 /\
    (coherent w s -> coherent w s') /\
    (sent = true -> issued w (minted s) 1 = 1).
Proof.
  destruct s as [m r tr].
  unfold callback_attempt, coherent. run_py.
  cbn [issued]. repeat (case_world; run_py).
  all: eexists; eexists; eexists; split; [reflexivity|]; cbn.
  all: split; [split; cbn; [split_trace | | | ] |].
  all: cbn; try lia; try reflexivity.
  all: try (intros u q tok E;
    repeat (destruct E as [E|E]; try discriminate);
    first [injection E as <- <- _; auto | destruct E]).
  all: split_and!; try lia; try discriminate; try tauto.
  all: intros [-> ?]; split_and!; auto.
Qed.

(** The retry loop, whatever attempts are left: it returns a boolean,
    makes [k] attempts with one mint each, and sends a request exactly
    for the attempts whose mint handed out a token. *)
Lemma callback_attempts_spec w url payload attempts :
  forall s,
  exists b s' k new,
    callback_attempts w url payload attempts s = (Ok b, s') /\
    extends url payload s s' new /\
    k <= length attempts /\
    minted s' = minted s + k /\
    length (List.filter is_post new) = issued w (minted s) k /\
    (coherent w s -> coherent w s') /\
    (b = false -> k = length attempts) /\
    (b = true -> 0 < issued w (minted s) k).
Proof.
  induction attempts as [|attempt rest IH]; intros s.
  - destruct s as [m r tr].
    exists false; eexists; exists 0, [GaveUp]; split; [reflexivity|].
    unfold coherent; cbn.
    split_and!; try lia; try discriminate; try tauto.
    split; cbn; auto.
    intros u q tok [E|[]]; discriminate.
  - cbn [callback_attempts]. unfold bind at 1.
    destruct (callback_attempt_spec w url payload attempt s)
      as (sent & s1 & new1 & -> & He1 & Hm1 & Hp1 & Hf1 & Hs1).
    destruct sent.
    + exists true, s1, 1, new1. split; [reflexivity|].
      cbn [length]. split_and!; auto; try lia; try discriminate.
    + destruct (IH s1)
        as (b & s' & k & new & -> & He & Hk & Hm & Hp & Hf & Hb & Ht).
      exists b, s', (S k), (new ++ new1). split; [reflexivity|].
      rewrite issued_step. cbn [issued] in Hp1.
      rewrite Hm1 in Hm, Hp, Ht. cbn [length].
      split_and!; auto; try lia; try congruence.
      * eapply extends_trans; eauto.
      * rewrite List.filter_app, length_app. lia.
      * intros E. specialize (Ht E). lia.
Qed.

(** The whole client: the events after the entry marker are those of
    the loop. *)
Lemma callback_with_retry_spec w url payload s :
  exists b s' k new,
    _callback_with_retry w url payload s = (Ok b, s') /\
    trace s' = new ++ Callback url payload :: trace s /\
    posts_carry url payload new /\
    omap callback_of new = [] /\
    requests s' = requests s + length (List.filter is_post new) /\
    k <= CALLBACK_MAX_RETRIES /\
    minted s' = minted s + k /\
    length (List.filter is_post new) = issued w (minted s) k /\
    (coherent w s -> coherent w s') /\
    (b = false -> k = CALLBACK_MAX_RETRIES) /\
    (b = true -> 0 < issued w (minted s) k).
Proof.
  unfold _callback_with_retry, bind at 1.
  destruct s as [m r tr]. unfold emit, modify at 1. cbv beta iota.
  match goal with
  | |- context [callback_attempts _ _ _ _ ?s1] =>
      destruct (callback_attempts_spec w url payload (seq 0 CALLBACK_MAX_RETRIES) s1)
        as (b & s' & k & new & -> & [T P R C] & Hk & Hm & Hp & Hf & Hb & Ht)
  end.
  rewrite length_seq in Hk, Hb. cbn in T, R, Hm, Hp, Hf, Ht.
  exists b, s', k, new. split; [reflexivity|].
  split_and!; auto.
Qed.

(** *** C10: a failing token issuer costs an attempt, not a request *)

(** C10.  Every attempt of the Callback Client mints its bearer token
    inside the retry loop: [k] attempts make [k] issuer calls, every
    request sent directly follows a mint and carries the token that
    mint returned.  An exception of the issuer is caught and counts as
    a failed attempt without a request: the requests sent are exactly
    the attempts whose mint returned.  So when the issuer raises on all
    [CALLBACK_MAX_RETRIES] attempts, no request is made and the client
    returns [False]; in no case does it raise to its caller. *)
Theorem issuer_failure_is_a_failed_attempt w url payload s :
  exists b s' k,
    _callback_with_retry w url payload s = (Ok b, s') /\
    k <= CALLBACK_MAX_RETRIES /\
    minted s' = minted s + k /\
    requests s' = requests s + issued w (minted s) k /\
    count is_post s' = count is_post s + issued w (minted s) k /\
    (coherent w s -> coherent w s') /\
    ((forall j, j < CALLBACK_MAX_RETRIES ->
        exists e, generate_internal_token w (minted s + j) = Raises e) ->
     b = false /\ k = CALLBACK_MAX_RETRIES /\
     requests s' = requests s /\ count is_post s' = count is_post s).
Proof.
  destruct (callback_with_retry_spec w url payload s)
    as (b & s' & k & new & E & T & P & C & R & Hk & Hm & Hp & Hf & Hb & Ht).
  exists b, s', k. split; [exact E|].
  assert (Hc : count is_post s' = count is_post s + issued w (minted s) k).
  { unfold count. rewrite T, List.filter_app, length_app. cbn. lia. }
  split_and!; auto; try lia.
  intros Hall.
  assert (Z : issued w (minted s) k = 0).
  { apply issued_none. intros j Hj.
    replace j with (minted s + (j - minted s)) by lia. apply Hall. lia. }
  assert (b = false) as ->.
  { destruct b; [|reflexivity]. specialize (Ht eq_refl). lia. }
  split_and!; auto; lia.
Qed.

(** When the issuer never hands out a token, nothing is sent. *)
Definition issuer_down : World := {|
  generate_internal_token := fun _ => Raises (Exception "KeyError" "MODAL_API_SECRET");
  http_post := fun _ _ => HttpResponse 200;
  environ := fun _ => None;
  generate_installation_token := Returns ""%string;
  new_sandbox_manager := Returns tt;
  create_build_sandbox := Returns tt;
  sandbox_wait := Returns tt;
  sandbox_returncode := 0;
  sandbox_rev_parse := Returns ""%string;
  snapshot_filesystem := Returns "im-1"%string;
  elapsed := 4235 |}.

Example issuer_down_run :
  let out := _callback_with_retry issuer_down "https://cp/cb" (BuildFailed "b-1" "boom") initial in
  fst out = Ok false /\
  history (snd out) =
    [Callback "https://cp/cb" (BuildFailed "b-1" "boom");
     Mint; Sleep 2; Mint; Sleep 4; Mint; GaveUp].
Proof. split; reflexivity. Qed.

(** *** C2: the retry bound and the delays between attempts *)

(** C2.  One logical callback makes at most three POST requests.  The
    delays slept between its attempts are none, or 2 s, or 2 s and then
    4 s ([CALLBACK_BACKOFF_BASE ** (attempt + 1)] for the zero-based
    attempts 0 and 1): the second delay is 4 s, not the 8 s of the
    comment on [CALLBACK_BACKOFF_BASE].  When all three attempts fail
    the delays are exactly 2 s and 4 s, and the failure is logged
    straight after the third attempt, without a sleep. *)
Theorem callback_backoff_schedule w url payload s :
  exists b s' new,
    _callback_with_retry w url payload s = (Ok b, s') /\
    trace s' = new ++ trace s /\
    length (List.filter is_post new) <= 3 /\
    (delays_of new = [] \/ delays_of new = [2%Z] \/
     delays_of new = [2%Z; 4%Z]) /\
    (b = false ->
     delays_of new = [2%Z; 4%Z] /\
     exists last older, new = GaveUp :: last :: older /\ sleep_of last = None).
Proof.
  destruct s as [m r tr]. unfold delays_of. run_py.
  repeat (case_world; run_py).
  all: eexists; eexists; eexists; split; [reflexivity|]; cbn [trace].
  all: split; [split_trace|].
  all: cbn; split_and!; try lia; try discriminate; auto.
  all: intros _; split; [reflexivity|]; eexists; eexists; split;
    [reflexivity|reflexivity].
Qed.

(** The scenario of the specification: two answers 503, then 200. *)
Definition two_503_then_200 : World := {|
  generate_internal_token := fun _ => Returns "tok"%string;
  http_post := fun k _ => if (k <? 2)%nat then HttpResponse 503 else HttpResponse 200;
  environ := fun _ => None;
  generate_installation_token := Returns ""%string;
  new_sandbox_manager := Returns tt;
  create_build_sandbox := Returns tt;
  sandbox_wait := Returns tt;
  sandbox_returncode := 7;
  sandbox_rev_parse := Returns "abc"%string;
  snapshot_filesystem := Returns "img-xyz"%string;
  elapsed := 4235 |}.

(** Three requests, with 2 s and then 4 s between them. *)
Example delays_two_503_then_200 :
  let out := build_repo_image two_503_then_200 "acme" "widget" "main"
               "https://cp/builds/b-1/build-complete" "b-1" initial in
  fst out = Ok tt /\
  delays (snd out) = [2%Z; 4%Z] /\
  count is_post (snd out) = 3.
Proof. split_and!; reflexivity. Qed.

(** *** C1 and C8: which callback the builder attempts *)

(** Step 1 never raises and leaves the state alone. *)
Lemma clone_token_step_spec w s :
  exists token, clone_token_step w s = (Ok token, s).
Proof.
  unfold clone_token_step, try_except.
  destruct (_ && _); [|eexists; reflexivity].
  destruct (generate_installation_token w); eexists; reflexivity.
Qed.

(** Step 4 never raises and leaves the state alone. *)
Lemma read_sandbox_head_sha_spec w s :
  exists sha, _read_sandbox_head_sha w s = (Ok sha, s).
Proof.
  unfold _read_sandbox_head_sha, try_except.
  destruct (sandbox_rev_parse w); eexists; reflexivity.
Qed.

(** The builder once its manager is made: the [try] statement is
    entered. *)
Ltac enter_try Mk :=
  unfold build_repo_image; unfold bind at 1; rewrite Mk;
  unfold call at 1, ret at 1; cbv beta iota.

(** When the constructor of the manager raises, the exception leaves
    the builder at once: the [try] is not entered. *)
Lemma build_without_manager
  w repo_owner repo_name default_branch callback_url build_id s e :
  new_sandbox_manager w = Raises e ->
  build_repo_image w repo_owner repo_name default_branch callback_url
    build_id s = (Raise e, s).
Proof.
  intros Mk. unfold build_repo_image. unfold bind at 1. rewrite Mk.
  reflexivity.
Qed.




(** The builder when a step let [e] escape: one callback, to the
    rewritten URL, with the failure body. *)
Lemma build_failure w repo_owner repo_name default_branch callback_url build_id s e :
  truthy callback_url = true ->
  step_raised w e ->
  exists s' new,
    build_repo_image w repo_owner repo_name default_branch callback_url
      build_id s = (Ok tt, s') /\
    callbacks s' =
      (replace callback_url "/build-complete" "/build-failed",
       BuildFailed build_id (str e)) :: callbacks s /\
    trace s' = new ++ trace s /\
    posts_carry (replace callback_url "/build-complete" "/build-failed")
      (BuildFailed build_id (str e)) new.
Proof.
  intros Hcb (Mk & H).
  enter_try Mk. unfold try_except, bind at 1.
  destruct (clone_token_step_spec w s) as [token ->].
  unfold bind, emit, modify, call, ret, raise. cbv beta iota.
  assert (G : forall s1,
    exists s' new,
      (let (r, s2) :=
         _callback_with_retry w
           (replace callback_url "/build-complete" "/build-failed")
           (BuildFailed build_id (str e)) s1 in
       match r with
       | Ok _ => (Ok tt, s2)
       | Raise e0 => (Raise e0, s2)
       | Diverge => (Diverge, s2)
       end) = (Ok tt, s') /\
      callbacks s' =
        (replace callback_url "/build-complete" "/build-failed",
         BuildFailed build_id (str e)) :: callbacks s1 /\
      trace s' = new ++ trace s1 /\
      posts_carry (replace callback_url "/build-complete" "/build-failed")
        (BuildFailed build_id (str e)) new).
  { intros s1.
    destruct (callback_with_retry_spec w
                (replace callback_url "/build-complete" "/build-failed")
                (BuildFailed build_id (str e)) s1)
      as (b & s' & k & new & -> & T & P & Cb & _).
    exists s', (new ++ [Callback
                          (replace callback_url "/build-complete" "/build-failed")
                          (BuildFailed build_id (str e))]).
    split; [reflexivity|]. split_and!.
    - unfold callbacks. rewrite T, omap_app, Cb. reflexivity.
    - rewrite T, <- app_assoc. reflexivity.
    - intros u q tok E. apply in_app_or in E as [E|[E|[]]];
        [eauto|discriminate]. }
  assert (G' : forall tok,
    exists s' new,
      (let (r, s2) :=
         _callback_with_retry w
           (replace callback_url "/build-complete" "/build-failed")
           (BuildFailed build_id (str e))
           {| minted := minted s; requests := requests s;
              trace := CreateSandbox tok :: trace s |} in
       match r with
       | Ok _ => (Ok tt, s2)
       | Raise e0 => (Raise e0, s2)
       | Diverge => (Diverge, s2)
       end) = (Ok tt, s') /\
      callbacks s' =
        (replace callback_url "/build-complete" "/build-failed",
         BuildFailed build_id (str e)) :: callbacks s /\
      trace s' = new ++ trace s /\
      posts_carry (replace callback_url "/build-complete" "/build-failed")
        (BuildFailed build_id (str e)) new).
  { intros tok.
    destruct (G {| minted := minted s; requests := requests s;
                   trace := CreateSandbox tok :: trace s |})
      as (s' & new & E & Cb & T & P).
    exists s', (new ++ [CreateSandbox tok]). split; [exact E|].
    split_and!; auto.
    - cbn in T. rewrite T, <- app_assoc. reflexivity.
    - intros u q t E'. apply in_app_or in E' as [E'|[E'|[]]];
        [eauto|discriminate]. }
  destruct H as [C|[(C & W)|[(C & W & R & ->)|(C & W & R & S)]]].
  - rewrite C, Hcb. apply G'.
  - rewrite C, W, Hcb. apply G'.
  - rewrite C, W. apply Z.eqb_neq in R. rewrite R, Hcb. apply G'.
  - rewrite C, W, R, S. cbn [Z.eqb].
    match goal with
    | |- context [_read_sandbox_head_sha w ?s1] =>
        destruct (read_sandbox_head_sha_spec w s1) as [sha ->]
    end.
    rewrite Hcb. apply G'.
Qed.



(** A build whose [SandboxManager()] fails, say because the provider
    cannot be reached. *)
Definition manager_down : World := {|
  generate_internal_token := fun _ => Returns "tok"%string;
  http_post := fun _ _ => HttpResponse 200;
  environ := fun _ => None;
  generate_installation_token := Returns ""%string;
  new_sandbox_manager := Raises (Exception "ConnectionError" "provider unreachable");
  create_build_sandbox := Returns tt;
  sandbox_wait := Returns tt;
  sandbox_returncode := 0;
  sandbox_rev_parse := Returns "abc"%string;
  snapshot_filesystem := Returns "img-xyz"%string;
  elapsed := 4235 |}.

(** C1 fails there: the callback URL is given, the peer would answer
    200, and yet the control plane is told nothing; the exception
    crosses the builder's boundary. *)
Lemma constructor_failure_is_not_reported :
  truthy "https://cp/builds/b-1/build-complete" = true /\
  build_repo_image manager_down "acme" "widget" "main"
    "https://cp/builds/b-1/build-complete" "b-1" initial
  = (Raise (Exception "ConnectionError" "provider unreachable"), initial) /\
  callbacks initial = [].
Proof. split_and!; reflexivity. Qed.

(** Neither a failing token issuer in step 1 nor a failing
    [git rev-parse] in step 4 turns a build into a failure. *)
Example inner_failures_are_not_fatal :
  let w := {|
    generate_internal_token := fun _ => Returns "tok"%string;
    http_post := fun _ _ => HttpResponse 200;
    environ := fun _ => Some "set"%string;
    generate_installation_token := Raises (Exception "HTTPError" "401");
    new_sandbox_manager := Returns tt;
  create_build_sandbox := Returns tt;
    sandbox_wait := Returns tt;
    sandbox_returncode := 0;
    sandbox_rev_parse := Raises (Exception "ExecError" "no git");
    snapshot_filesystem := Returns "img-xyz"%string;
    elapsed := 4235 |} in
  history (snd (build_repo_image w "acme" "widget" "main"
                  "https://cp/builds/b-1/build-complete" "b-1" initial)) =
  [CreateSandbox "";
   Callback "https://cp/builds/b-1/build-complete"
     (BuildComplete "b-1" "img-xyz" "" 4235);
   Mint;
   Post "https://cp/builds/b-1/build-complete"
     (BuildComplete "b-1" "img-xyz" "" 4235) "tok";
   Delivered 1].
Proof. reflexivity. Qed.

(** Replacing in a URL that ends in [old] and has no earlier
    occurrence of it only rewrites that ending. *)
Lemma replace_final_occurrence (base : string) :
  (forall i, i < String.length base ->
     occurs_at "/build-complete" (base ++ "/build-complete") i = false) ->
  replace (base ++ "/build-complete") "/build-complete" "/build-failed"
  = (base ++ "/build-failed")%string.
Proof.
  unfold replace.
  induction base as [|c base IH]; intros H; [reflexivity|].
  change (String c base ++ "/build-complete")%string
    with (String c (base ++ "/build-complete")).
  cbn [replace_from].
  pose proof (H 0 ltac:(cbn; lia)) as H0.
  unfold occurs_at in H0. cbn [drop_chars] in H0.
  change (String c base ++ "/build-complete")%string
    with (String c (base ++ "/build-complete")) in H0.
  rewrite H0. rewrite IH; [reflexivity|].
  intros i Hi. apply (H (S i)). cbn; lia.
Qed.

(** A build sandbox that exits with 7 while the callback URL names
    [/build-complete] twice. *)
Definition twice_named_url : string :=
  "https://cp/build-complete/b-1/build-complete".

(** C8, as stated, fails: the URL ends in [/build-complete], yet the
    failure callback does not go to that URL with only its ending
    replaced; the earlier occurrence is rewritten as well. *)
Lemma failure_url_rewrites_every_occurrence :
  step_raised two_503_then_200 (BuildError "Build sandbox exited with code 7") /\
  twice_named_url = ("https://cp/build-complete/b-1" ++ "/build-complete")%string /\
  callbacks (snd (build_repo_image two_503_then_200 "acme" "widget" "main"
                    twice_named_url "b-1" initial))
  = [("https://cp/build-failed/b-1/build-failed"%string,
      BuildFailed "b-1" "Build sandbox exited with code 7")] /\
  "https://cp/build-failed/b-1/build-failed"%string
  <> ("https://cp/build-complete/b-1" ++ "/build-failed")%string.
Proof.
  split_and!.
  - split; [reflexivity|].
    right; right; left. split_and!; try reflexivity. discriminate.
  - reflexivity.
  - reflexivity.
  - discriminate.
Qed.

(** C8 (amended).  When a step lets an exception [e] escape and
    [callback_url] is non-empty, exactly one callback is attempted: to
    [callback_url] with every occurrence of [/build-complete] replaced
    by [/build-failed], with the body [{build_id, error: str(e)}]; all
    its requests carry that URL and body.  For a build sandbox that
    exits with a non-zero code the error is
    ["Build sandbox exited with code <n>"].  When [callback_url] ends
    in [/build-complete] and names it nowhere before, the rewritten URL
    is [callback_url] with that ending replaced. *)
Theorem failure_callback_url_and_body
  w repo_owner repo_name default_branch callback_url build_id s e :
  truthy callback_url = true ->
  step_raised w e ->
  exists s' new,
    build_repo_image w repo_owner repo_name default_branch callback_url
      build_id s = (Ok tt, s') /\
    callbacks s' =
      (replace callback_url "/build-complete" "/build-failed",
       BuildFailed build_id (str e)) :: callbacks s /\
    trace s' = new ++ trace s /\
    posts_carry (replace callback_url "/build-complete" "/build-failed")
      (BuildFailed build_id (str e)) new /\
    (create_build_sandbox w = Returns tt ->
     sandbox_wait w = Returns tt ->
     sandbox_returncode w <> 0%Z ->
     str e = ("Build sandbox exited with code "
                ++ str_of_int (sandbox_returncode w))%string) /\
    (forall base,
       callback_url = (base ++ "/build-complete")%string ->
       (forall i, i < String.length base ->
          occurs_at "/build-complete" callback_url i = false) ->
       replace callback_url "/build-complete" "/build-failed"
       = (base ++ "/build-failed")%string).
Proof.
  intros Hcb He.
  destruct (build_failure w repo_owner repo_name default_branch
              callback_url build_id s e Hcb He)
    as (s' & new & E & C & T & P).
  exists s', new. split_and!; auto.
  - intros Hc Hw Hr.
    destruct He as (_ & [H|[(H & H')|[(_ & _ & _ & ->)|(_ & _ & H & _)]]]);
      [congruence|congruence|reflexivity|contradiction].
  - intros base -> H. apply replace_final_occurrence, H.
Qed.

(** The theorem at the scenario with exit code 7. *)
Lemma failure_callback_url_and_body_witness :
  truthy "https://cp/builds/b-1/build-complete" = true /\
  step_raised two_503_then_200
    (BuildError "Build sandbox exited with code 7") /\
  exists s' new,
    build_repo_image two_503_then_200 "acme" "widget" "main"
      "https://cp/builds/b-1/build-complete" "b-1" initial = (Ok tt, s') /\
    callbacks s' =
      [("https://cp/builds/b-1/build-failed"%string,
        BuildFailed "b-1" "Build sandbox exited with code 7")] /\
    trace s' = new ++ [] /\
    posts_carry "https://cp/builds/b-1/build-failed"
      (BuildFailed "b-1" "Build sandbox exited with code 7") new.
Proof.
  assert (H1 : truthy "https://cp/builds/b-1/build-complete" = true)
    by reflexivity.
  assert (H2 : step_raised two_503_then_200
                 (BuildError "Build sandbox exited with code 7")).
  { split; [reflexivity|].
    right; right; left. split_and!; try reflexivity. discriminate. }
  split; [exact H1|]. split; [exact H2|].
  destruct (failure_callback_url_and_body two_503_then_200 "acme" "widget"
              "main" "https://cp/builds/b-1/build-complete" "b-1" initial
              (BuildError "Build sandbox exited with code 7") H1 H2)
    as (s' & new & E & C & T & P & _).
  exists s', new. split_and!; assumption.
Defined.

End ImageBuilderSpec.

(** ** Some worlds to run the Supervisor in *)

Module Worlds.
Import Py Supervisor.

(** A quiet world: nothing exits, no signal arrives, every request is
    answered with [status], the clock advances by [step] milliseconds
    per suspension, and every helper command succeeds. *)
Definition steady (status : Z) (step : Z) : Env := {|
  child_exit := fun _ _ => None;
  signal := fun _ => false;
  time := fun t => (Z.of_nat t * step)%Z;
  http_get := fun _ => HttpResponse status;
  create_subprocess_exec := fun _ => None;
  install_assets := fun _ => None;
  path_exists := fun _ _ => true;
  generate_installation_token := Returns "ghs_token"%string;
  git_clone := Returns 0%Z;
  git_remote_set_url := Returns tt;
  git_fetch := Returns 0%Z;
  git_fetch_stderr := Returns tt;
  git_rebase := Returns 0%Z;
  git_rebase_abort := Returns tt;
  git_rev_parse := Returns "abc"%string;
  git_config_name := Returns tt;
  git_config_email := Returns tt;
  setup_timeout := Returns 300%Z;
  setup_run := SetupExits 0
|}.

(** [env] with other child exits, signals and health answers. *)
Definition scripted (child_exit : nat -> nat -> option Z)
  (signal : nat -> bool) (http_get : nat -> HttpOutcome) (env : Env) : Env := {|
  child_exit := child_exit;
  signal := signal;
  time := time env;
  http_get := http_get;
  create_subprocess_exec := create_subprocess_exec env;
  install_assets := install_assets env;
  path_exists := path_exists env;
  generate_installation_token := generate_installation_token env;
  git_clone := git_clone env;
  git_remote_set_url := git_remote_set_url env;
  git_fetch := git_fetch env;
  git_fetch_stderr := git_fetch_stderr env;
  git_rebase := git_rebase env;
  git_rebase_abort := git_rebase_abort env;
  git_rev_parse := git_rev_parse env;
  git_config_name := git_config_name env;
  git_config_email := git_config_email env;
  setup_timeout := setup_timeout env;
  setup_run := setup_run env
|}.

(** [env] with another answer of [git fetch origin]. *)
Definition with_git_fetch (o : outcome Z) (env : Env) : Env := {|
  child_exit := child_exit env;
  signal := signal env;
  time := time env;
  http_get := http_get env;
  create_subprocess_exec := create_subprocess_exec env;
  install_assets := install_assets env;
  path_exists := path_exists env;
  generate_installation_token := generate_installation_token env;
  git_clone := git_clone env;
  git_remote_set_url := git_remote_set_url env;
  git_fetch := o;
  git_fetch_stderr := git_fetch_stderr env;
  git_rebase := git_rebase env;
  git_rebase_abort := git_rebase_abort env;
  git_rev_parse := git_rev_parse env;
  git_config_name := git_config_name env;
  git_config_email := git_config_email env;
  setup_timeout := setup_timeout env;
  setup_run := setup_run env
|}.

(** A session of the remote variant: control plane, session and
    repository configured, no git identity, a pre-issued token. *)
Definition session : Config := {|
  sandbox_id := "sb-1";
  session_id := "sess-1";
  control_plane_url := "https://cp";
  control_plane_ws_url := "";
  repo_owner := "acme";
  repo_name := "widget";
  git_user_name := "";
  git_user_email := "";
  github_app_token := "ghs_token";
  github_app_id := "";
  github_app_private_key := "";
  github_app_installation_id := ""
|}.

(** The first bridge (pid 1) exits with code 0 as soon as it can; the
    agent and any later child keep running. *)
Definition bridge_done : Env :=
  scripted (fun _ pid => if Nat.eqb pid 1 then Some 0%Z else None)
    (fun _ => false) (fun _ => HttpResponse 200) (steady 200 100).

(** Every bridge (every child but pid 0, the agent) exits with code 1
    as soon as it can. *)
Definition crash_loop : Env :=
  scripted (fun _ pid => if Nat.eqb pid 0 then None else Some 1%Z)
    (fun _ => false) (fun _ => HttpResponse 200) (steady 200 100).

(** No child ever exits, not even on SIGTERM; a signal reaches the
    Supervisor during its thirteenth suspension. *)
Definition stubborn : Env :=
  scripted (fun _ _ => None) (fun t => Nat.eqb t 12)
    (fun _ => HttpResponse 200) (steady 200 100).

End Worlds.

(** ** The Health Prober *)

Module HealthSpec.
Import Py Supervisor Worlds.




Section Probe.
Variable env : Env.
Variable timeout : Z.
Variable failure : string.
(** The state in which the probe is entered. *)
Variable s0 : State.














End Probe.



(** The probe of the happy path: 200 on the third poll. *)
Example healthy_on_third_poll :
  let env := {|
    child_exit := fun _ _ => None;
    signal := fun _ => false;
    time := fun t => (Z.of_nat t * 250)%Z;
    http_get := fun t => if (t <? 4)%nat then ConnectError else HttpResponse 200;
    create_subprocess_exec := fun _ => None;
    install_assets := fun _ => None;
    path_exists := fun _ _ => true;
    generate_installation_token := Returns ""%string;
    git_clone := Returns 0%Z;
    git_remote_set_url := Returns tt;
    git_fetch := Returns 0%Z;
    git_fetch_stderr := Returns tt;
    git_rebase := Returns 0%Z;
    git_rebase_abort := Returns tt;
    git_rev_parse := Returns "abc"%string;
    git_config_name := Returns tt;
    git_config_email := Returns tt;
    setup_timeout := Returns 300%Z;
    setup_run := SetupExits 0 |} in
  let out := Runtime._wait_for_health env 10 initial in
  fst out = Ok tt /\
  history (snd out) = [Sleep 500; Sleep 500; HealthOk] /\
  suspensions (snd out) = 5.
Proof. split_and!; reflexivity. Qed.

End HealthSpec.

(** ** The workspace sync of the remote variant *)

Module WorkspaceSpec.
Import Py PyLogic Supervisor Worlds.

(** Symbolic execution of the sync on any state. *)
Ltac run_sync :=
  cbv beta iota zeta delta
    [Runtime.perform_git_sync Runtime.sync_with_remote
     Runtime._generate_github_token
     await suspend exists_ bind ret raise try_except modify get call when
     fst snd].

Ltac case_sync :=
  match goal with
  | |- context [match ?o with Returns _ => _ | Raises _ => _ end] =>
      destruct o eqn:?
  | |- context [if ?b then _ else _] => destruct b eqn:?
  end.

(** How the latch stands when the phase is left. *)
Definition latch_after (env : Env) (s : State) (r : result bool) (s' : State)
  : Prop :=
  match r with
  | Ok true => git_sync_complete s' = true
  | Ok false =>
      (** set, unless [git fetch] exited non-zero and its stderr could
          be read: then the latch is as it was *)
      git_sync_complete s' = true \/
      (exists code, git_fetch env = Returns code /\ code <> 0%Z /\
                    git_fetch_stderr env = Returns tt /\
                    git_sync_complete s' = git_sync_complete s)
  | Raise e =>
      (** only the clone, outside the [try], lets an exception out *)
      git_clone env = Raises e /\ git_sync_complete s' = git_sync_complete s
  | Diverge => False
  end.

Lemma sync_with_remote_latch env token s :
  sat (Runtime.sync_with_remote env token s)
    (fun r s' => latch_after env s r s' /\ forall e, r <> Raise e).
Proof.
  run_sync. repeat (case_sync; run_sync).
  all: repeat match goal with u : unit |- _ => destruct u end.
  all: apply sat_intro; split; [|discriminate]; cbn; auto.
  all: right; eexists; split_and!; try eassumption; try reflexivity.
  all: apply Z.eqb_neq, negb_true_iff; assumption.
Qed.

Lemma perform_git_sync_latch env cfg s :
  sat (Runtime.perform_git_sync env cfg s) (latch_after env s).
Proof.
  unfold Runtime.perform_git_sync, bind at 1.
  assert (T : exists token, Runtime._generate_github_token env cfg s = (Ok token, s)).
  { unfold Runtime._generate_github_token, try_except.
    destruct (truthy _); [eexists; reflexivity|].
    destruct (_ && _); [|eexists; reflexivity].
    destruct (generate_installation_token env); eexists; reflexivity. }
  destruct T as [token ->].
  unfold bind at 1, exists_, bind at 1, get, ret. cbv beta iota.
  destruct (path_exists env (suspensions s) RepoPath); cbn [negb].
  - destruct (sync_with_remote_latch env token s) as (r & s' & -> & H & _).
    apply sat_intro, H.
  - destruct (_ || _); [apply sat_intro; reflexivity|].
    unfold bind at 1, await, bind at 1, suspend, modify, call.
    cbv beta iota.
    destruct (git_clone env) as [code|e] eqn:Hclone;
      [|apply sat_intro; cbn; auto].
    cbn [ret]. destruct (negb (code =? 0)%Z);
      [apply sat_intro; left; reflexivity|].
    destruct (sync_with_remote_latch env token (deliver env s))
      as (r & s' & -> & H & Hr).
    apply sat_intro. destruct r as [[]| |]; cbn in *; auto.
Qed.

(** C9, at the input where it fails: the repository is there, the
    remote is set, and [git fetch origin] exits with 128.  The phase
    returns [False] and [git_sync_complete] is still unset, although
    every other way out of the phase sets it. *)
Theorem fetch_failure_leaves_latch_unset :
  let out := Runtime.perform_git_sync
               (with_git_fetch (Returns 128%Z) (steady 200 100)) session initial in
  fst out = Ok false /\
  git_sync_complete (snd out) = false.
Proof. split; reflexivity. Qed.

(** Supervision goes on all the same: the agent and the bridge are
    started after the failed fetch, with the latch never set. *)
Example supervision_continues_after_fetch_failure :
  let out := Runtime.run (with_git_fetch (Returns 128%Z) (steady 200 100))
               session 2 initial in
  history (snd out) =
    [Spawn Agent 0; HealthOk; ReadySet; Spawn Bridge 1; Sleep 500;
     Sleep 1000; Sleep 1000] /\
  git_sync_complete (snd out) = false.
Proof. split; reflexivity. Qed.

(** A clone that exits non-zero, by contrast, does set the latch. *)
Example clone_failure_sets_latch :
  let env := {|
    child_exit := fun _ _ => None;
    signal := fun _ => false;
    time := fun t => (Z.of_nat t * 100)%Z;
    http_get := fun _ => HttpResponse 200;
    create_subprocess_exec := fun _ => None;
    install_assets := fun _ => None;
    path_exists := fun _ _ => false;
    generate_installation_token := Returns ""%string;
    git_clone := Returns 128%Z;
    git_remote_set_url := Returns tt;
    git_fetch := Returns 0%Z;
    git_fetch_stderr := Returns tt;
    git_rebase := Returns 0%Z;
    git_rebase_abort := Returns tt;
    git_rev_parse := Returns "abc"%string;
    git_config_name := Returns tt;
    git_config_email := Returns tt;
    setup_timeout := Returns 300%Z;
    setup_run := SetupExits 0 |} in
  let out := Runtime.perform_git_sync env session initial in
  fst out = Ok false /\ git_sync_complete (snd out) = true.
Proof. split; reflexivity. Qed.

End WorkspaceSpec.

(** ** The Supervisor: restarts, ordering and shutdown *)

Module SupervisorSpec.
Import Py PyLogic Supervisor Worlds.

(** *** What a trace says *)

(** The value of [opencode_ready] after the events of a trace. *)
Fixpoint latch (tr : list Event) : bool :=
  match tr with
  | [] => false
  | ReadySet :: _ => true
  | ReadyClear :: _ => false
  | _ :: older => latch older
  end.

(** A health probe has succeeded since the latch was last cleared. *)
Fixpoint probed (tr : list Event) : bool :=
  match tr with
  | [] => false
  | HealthOk :: _ => true
  | ReadyClear :: _ => false
  | _ :: older => probed older
  end.

Definition same_child (a b : Child) : bool :=
  match a, b with
  | Agent, Agent => true
  | Bridge, Bridge => true
  | _, _ => false
  end.

(** How often child [c] was spawned. *)
Fixpoint spawns (c : Child) (tr : list Event) : nat :=
  match tr with
  | [] => 0
  | Spawn c' _ :: older => (if same_child c c' then 1 else 0) + spawns c older
  | _ :: older => spawns c older
  end.

(** The newest event about child [c] is an observed exit, or there is
    none: the monitor has seen the current child of that kind dead, or
    there never was one. *)
Fixpoint awaiting (c : Child) (tr : list Event) : bool :=
  match tr with
  | [] => true
  | Spawn c' _ :: older => if same_child c c' then false else awaiting c older
  | ObservedExit c' _ _ :: older =>
      if same_child c c' then true else awaiting c older
  | _ :: older => awaiting c older
  end.

Definition is_spawn (e : Event) : bool :=
  match e with Spawn _ _ => true | _ => false end.

Definition is_observed (e : Event) : bool :=
  match e with ObservedExit _ _ _ => true | _ => false end.

Definition is_fatal (e : Event) : bool :=
  match e with Fatal _ => true | _ => false end.

(** *** Symbolic execution *)

(** Unfold the combinators and the one-step primitives, leaving the
    states as they are built. *)
Ltac run_sup :=
  cbv beta iota zeta delta
    [bind ret raise diverge try_except try_finally modify get call when
     emit suspend sleep await exists_ now wait_ready spawn fst snd].

(** The same, through the phases of the remote variant. *)
Ltac run_runtime :=
  cbv beta iota zeta delta
    [Runtime.perform_git_sync Runtime.sync_with_remote
     Runtime._generate_github_token Runtime.configure_git_identity
     Runtime.run_setup_script Runtime.install_plugin
     Runtime._report_fatal_error
     bind ret raise diverge try_except try_finally modify get call when
     emit suspend sleep await exists_ now wait_ready spawn fst snd].

(** Case analysis on the next answer of the world. *)
Ltac case_env :=
  match goal with
  | |- context [match ?o with Returns _ => _ | Raises _ => _ end] =>
      destruct o eqn:?
  | |- context [match ?o with SetupSpawnFails _ => _ | SetupExits _ => _
                           | SetupTimesOut => _ end] => destruct o eqn:?
  | |- context [if ?b then _ else _] => destruct b eqn:?
  end.

Section Discipline.
(** Whether a bridge exit with code 0 ends the session (remote
    variant) or counts as a crash like any other (local variant). *)
Variable graceful : bool.

(** Does this observed exit count towards the restart counter? *)
Definition counted (c : Child) (exit_code : Z) : bool :=
  match c with
  | Agent => true
  | Bridge => negb (graceful && (exit_code =? 0)%Z)
  end.

(** How many counted exits of child [c] the monitor has observed. *)
Fixpoint exits (c : Child) (tr : list Event) : nat :=
  match tr with
  | [] => 0
  | ObservedExit c' exit_code _ :: older =>
      (if same_child c c' && counted c' exit_code then 1 else 0)
      + exits c older
  | _ :: older => exits c older
  end.

(** An observation after which the monitor stops: a graceful bridge
    exit, or a restart counter beyond [MAX_RESTARTS]. *)
Definition stops (e : Event) : bool :=
  match e with
  | ObservedExit c exit_code restarts =>
      negb (counted c exit_code) || (MAX_RESTARTS <? restarts)
  | _ => false
  end.

Definition stopped (tr : list Event) : bool := existsb stops tr.

(** Each counter beyond [MAX_RESTARTS] was followed by a fatal report. *)
Fixpoint reported (tr : list Event) : bool :=
  match tr with
  | [] => true
  | Fatal _ :: _ => true
  | ObservedExit _ _ restarts :: older =>
      negb (MAX_RESTARTS <? restarts) && reported older
  | _ :: older => reported older
  end.

(** Child [c] may be spawned now. *)
Definition can_spawn (c : Child) (tr : list Event) : bool :=
  negb (stopped tr) && (spawns c tr <=? exits c tr) && awaiting c tr.

(** What the Supervisor may do next, given what it has done:
    - spawn a child only while not stopped, when the spawns of that
      child do not outnumber its counted exits, the previous child of
      that kind was seen dead, and, for the bridge, the latch is set
      after a successful probe;
    - observe an exit only while not stopped, with the counter equal to
      the number of counted exits including this one;
    - set the latch only after a successful probe. *)
Definition allowed (e : Event) (older : list Event) : bool :=
  match e with
  | Spawn Agent _ => can_spawn Agent older
  | Spawn Bridge _ => can_spawn Bridge older && latch older && probed older
  | ObservedExit c exit_code restarts =>
      negb (stopped older)
      && (restarts =? exits c older + (if counted c exit_code then 1 else 0))
  | ReadySet => probed older
  | _ => true
  end.

Fixpoint disciplined (tr : list Event) : bool :=
  match tr with
  | [] => true
  | e :: older => allowed e older && disciplined older
  end.

(** *** Consequences of the discipline, on traces alone *)

(** Simplify without computing comparisons against [MAX_RESTARTS]. *)
Ltac simp := cbn -[Nat.ltb Nat.leb Nat.eqb MAX_RESTARTS].
Tactic Notation "simp" "in" ne_hyp_list_sep(Hs, ",") :=
  cbn -[Nat.ltb Nat.leb Nat.eqb MAX_RESTARTS] in Hs.
Tactic Notation "simp" "in" "*" :=
  cbn -[Nat.ltb Nat.leb Nat.eqb MAX_RESTARTS] in *.

Lemma disciplined_app (after before : list Event) :
  disciplined (after ++ before) = true -> disciplined before = true.
Proof.
  induction after as [|e after IH]; [auto|].
  simp. intros H. apply andb_true_iff in H as [_ H]. auto.
Qed.

Lemma disciplined_at (after before : list Event) (e : Event) :
  disciplined (after ++ e :: before) = true -> allowed e before = true.
Proof.
  intros H. apply disciplined_app in H. simp in H.
  apply andb_true_iff in H as [H _]. exact H.
Qed.

Lemma stopped_cons (e : Event) (tr : list Event) :
  stopped (e :: tr) = stops e || stopped tr.
Proof. reflexivity. Qed.

Lemma exits_observed (c c' : Child) (rc : Z) (n : nat) (tr : list Event) :
  exits c (ObservedExit c' rc n :: tr)
  = (if same_child c c' && counted c' rc then 1 else 0) + exits c tr.
Proof. reflexivity. Qed.

Lemma stopped_app (after before : list Event) :
  stopped before = true -> stopped (after ++ before) = true.
Proof.
  unfold stopped. intros H. rewrite existsb_app, H. apply orb_true_r.
Qed.

Lemma allowed_spawn (c : Child) (pid : nat) (tr : list Event) :
  allowed (Spawn c pid) tr = true ->
  stopped tr = false /\ spawns c tr <= exits c tr /\ awaiting c tr = true.
Proof.
  intros A.
  assert (C : can_spawn c tr = true).
  { destruct c; cbn [allowed] in A; [exact A|].
    apply andb_true_iff in A as [A _]. apply andb_true_iff in A as [A _].
    exact A. }
  unfold can_spawn in C.
  apply andb_true_iff in C as [C W]. apply andb_true_iff in C as [S L].
  apply negb_true_iff in S. apply Nat.leb_le in L. auto.
Qed.

Lemma same_child_eq (a b : Child) : same_child a b = true -> b = a.
Proof. destruct a, b; auto; discriminate. Qed.

(** Once stopped, nothing is spawned and nothing more observed. *)
Lemma nothing_after_stop (after before : list Event) :
  disciplined (after ++ before) = true ->
  stopped before = true ->
  forall e, In e after -> is_spawn e = false /\ is_observed e = false.
Proof.
  induction after as [|e' after IH]; intros D S e Hin; [destruct Hin|].
  simp in D. apply andb_true_iff in D as [A D].
  destruct Hin as [<-|Hin]; [|eauto].
  pose proof (stopped_app after before S) as S'.
  destruct e' as [[] pid| | | |c rc n| | | | | | |]; simp; auto.
  all: simp in A; unfold can_spawn in A; rewrite S' in A; discriminate.
Qed.

(** Spawns never outnumber counted exits by more than the first one. *)
Lemma spawns_le_exits (c : Child) (tr : list Event) :
  disciplined tr = true -> spawns c tr <= 1 + exits c tr.
Proof.
  induction tr as [|e tr IH]; simp; [lia|].
  intros H. apply andb_true_iff in H as [A D]. specialize (IH D).
  destruct e as [c' pid| | | |c' rc n| | | | | | |]; simp; auto.
  - destruct (same_child c c') eqn:E; [|simp; lia].
    apply same_child_eq in E as ->.
    apply allowed_spawn in A as (_ & L & _). lia.
  - lia.
Qed.

(** While not stopped, no counter has passed [MAX_RESTARTS]. *)
Lemma exits_le_max (c : Child) (tr : list Event) :
  disciplined tr = true -> stopped tr = false -> exits c tr <= MAX_RESTARTS.
Proof.
  induction tr as [|e tr IH]; simp; [lia|].
  intros H S. apply andb_true_iff in H as [A D].
  apply orb_false_iff in S as [Se S]. specialize (IH D S).
  destruct e as [c' pid| | | |c' rc n| | | | | | |]; simp; auto.
  simp in A, Se. apply andb_true_iff in A as [_ A].
  apply Nat.eqb_eq in A. apply orb_false_iff in Se as [Sc Sn].
  apply negb_false_iff in Sc. rewrite Sc in *. apply Nat.ltb_ge in Sn.
  destruct (same_child c c') eqn:E; [|simp; lia].
  apply same_child_eq in E as ->. simp. lia.
Qed.

(** A child is spawned at most [MAX_RESTARTS + 1] times. *)
Lemma spawns_bounded (c : Child) (tr : list Event) :
  disciplined tr = true -> spawns c tr <= MAX_RESTARTS + 1.
Proof.
  induction tr as [|e tr IH]; simp; [lia|].
  intros H. apply andb_true_iff in H as [A D]. specialize (IH D).
  destruct e as [c' pid| | | |c' rc n| | | | | | |]; simp; auto.
  destruct (same_child c c') eqn:E; [|simp; lia].
  apply same_child_eq in E as ->.
  apply allowed_spawn in A as (S & L & _).
  pose proof (exits_le_max c tr D S). lia.
Qed.

(** After the latch is set there has been a successful probe. *)
Lemma latch_probed (tr : list Event) :
  disciplined tr = true -> latch tr = true -> probed tr = true.
Proof.
  induction tr as [|e tr IH]; simp; [discriminate|].
  intros H L. apply andb_true_iff in H as [A D].
  destruct e; simp in *; auto.
Qed.

(** A counter beyond [MAX_RESTARTS] in a reported trace has a fatal
    report after it. *)
Lemma fatal_after_give_up (after before : list Event) c rc n :
  reported (after ++ ObservedExit c rc n :: before) = true ->
  (MAX_RESTARTS <? n) = true ->
  exists msg, In (Fatal msg) after.
Proof.
  induction after as [|e after IH]; simp; intros R N.
  - rewrite N in R. discriminate.
  - destruct e; try (destruct (IH R N) as [msg Hm]; eauto; fail).
    + apply andb_true_iff in R as [_ R].
      destruct (IH R N) as [msg Hm]; eauto.
    + eauto.
Qed.

(** *** The invariant of a running Supervisor *)

(** The current child of kind [c] has exited. *)
Definition dead (c : Child) (s : State) : Prop :=
  forall pid p,
    handle c s = Some pid -> procs s !! pid = Some p -> returncode p <> None.

Record Inv (s : State) : Prop := {
  (** the trace obeys the discipline *)
  inv_trace : disciplined (trace s) = true;
  (** the latch is what the trace says *)
  inv_latch : latch (trace s) = opencode_ready s;
  (** a child that has not exited is the current one of its kind *)
  inv_live : forall pid p,
    procs s !! pid = Some p -> returncode p = None ->
    exists c, handle c s = Some pid;
  (** a child the monitor has seen dead is dead *)
  inv_dead : forall c, awaiting c (trace s) = true -> dead c s;
  (** handles point into the table *)
  inv_range : forall c pid, handle c s = Some pid -> pid < length (procs s)
}.

Lemma Inv_initial : Inv initial.
Proof.
  split; cbn; auto.
  - intros pid p H. rewrite lookup_nil in H. discriminate.
  - intros c _ pid p H. destruct c; discriminate.
  - intros c pid H. destruct c; discriminate.
Qed.

(** Events that touch neither the latch nor the children. *)
Definition quiet (e : Event) : bool :=
  match e with
  | Sleep _ | Fatal _ | HealthOk | ShutdownStart | Terminate _
  | WaitFor _ _ | Kill _ | ShutdownComplete => true
  | _ => false
  end.

Lemma Inv_push_quiet (e : Event) (s : State) :
  quiet e = true -> Inv s -> Inv (push e s).
Proof.
  intros Q [T L V D R].
  split; cbn [push trace opencode_ready procs handle opencode_process
              bridge_process]; auto.
  - cbn [disciplined]. rewrite T, andb_true_r.
    destruct e; cbn in Q; first [reflexivity | discriminate Q].
  - rewrite <- L. destruct e; cbn in Q; first [reflexivity | discriminate Q].
  - intros c A. apply (D c).
    destruct e; cbn in Q; first [exact A | discriminate Q].
Qed.

Section WithEnv.
Variable env : Env.

Lemma Inv_deliver (s : State) : Inv s -> Inv (deliver env s).
Proof.
  intros [T L V D R].
  split; cbn [deliver set_suspensions set_shutdown_event set_procs trace
              opencode_ready procs handle opencode_process bridge_process];
    auto.
  - intros pid p' H N. rewrite list_lookup_imap in H.
    destruct (procs s !! pid) as [p|] eqn:E; [|discriminate].
    cbn in H. injection H as <-. apply (V pid p E).
    destruct (returncode p) eqn:Er; [congruence|reflexivity].
  - intros c A pid p' Hh H.
    change (handle c (deliver env s)) with (handle c s) in Hh.
    cbn [deliver set_suspensions set_shutdown_event set_procs procs] in H.
    rewrite list_lookup_imap in H.
    destruct (procs s !! pid) as [p|] eqn:E; [|discriminate].
    cbn in H. injection H as <-.
    pose proof (D c A pid p Hh E) as N.
    destruct (returncode p) eqn:Er; [rewrite Er; discriminate|congruence].
  - intros c pid H. rewrite length_imap. eauto.
Qed.

End WithEnv.

Lemma Inv_set_shutdown_event (b : bool) (s : State) :
  Inv s -> Inv (set_shutdown_event b s).
Proof. intros [T L V D R]. split; auto. Qed.

Lemma Inv_set_git_sync_complete (b : bool) (s : State) :
  Inv s -> Inv (set_git_sync_complete b s).
Proof. intros [T L V D R]. split; auto. Qed.

(** Sending a signal changes no [returncode]. *)
Lemma Inv_signal (f : Proc -> Proc) (pid : nat) (s : State) :
  (forall p, returncode (f p) = returncode p) ->
  Inv s -> Inv (set_procs (alter f pid) s).
Proof.
  intros F [T L V D R].
  split; cbn [set_procs trace opencode_ready procs handle opencode_process
              bridge_process]; auto.
  - intros q p' H N. rewrite list_lookup_alter in H.
    destruct (decide (pid = q)) as [->|_]; [|eauto].
    destruct (procs s !! q) as [p|] eqn:E; [|discriminate].
    cbn in H. injection H as <-. rewrite F in N. eauto.
  - intros c A q p' Hh H.
    change (handle c (set_procs (alter f pid) s)) with (handle c s) in Hh.
    cbn [set_procs procs] in H. rewrite list_lookup_alter in H.
    destruct (decide (pid = q)) as [->|_]; [|eapply D; eauto].
    destruct (procs s !! q) as [p|] eqn:E; [|discriminate].
    cbn in H. injection H as <-. rewrite F. eapply D; eauto.
  - intros c q H. rewrite length_alter. eauto.
Qed.

Lemma Inv_ready_set (s : State) :
  probed (trace s) = true -> Inv s ->
  Inv (push ReadySet (set_opencode_ready true s)).
Proof.
  intros P [T L V D R]. split; cbn; auto.
  rewrite P, T. reflexivity.
Qed.

Lemma Inv_ready_clear (s : State) :
  Inv s -> Inv (push ReadyClear (set_opencode_ready false s)).
Proof. intros [T L V D R]. split; cbn; auto. Qed.

Lemma handle_returncode (c : Child) (s : State) (rc : Z) :
  returncode_of (handle c s) s = Some rc ->
  exists pid p, handle c s = Some pid /\ procs s !! pid = Some p /\
                returncode p = Some rc.
Proof.
  unfold returncode_of. destruct (handle c s) as [pid|]; [|discriminate].
  destruct (procs s !! pid) as [p|] eqn:E; [|discriminate].
  intros Hr. exists pid, p. auto.
Qed.

Lemma handle_push (c : Child) (e : Event) (s : State) :
  handle c (push e s) = handle c s.
Proof. destruct c; reflexivity. Qed.

Lemma Inv_observe (c : Child) (rc : Z) (n : nat) (s : State) :
  Inv s ->
  stopped (trace s) = false ->
  n = exits c (trace s) + (if counted c rc then 1 else 0) ->
  returncode_of (handle c s) s = Some rc ->
  Inv (push (ObservedExit c rc n) s).
Proof.
  intros [T L V D R] S -> H.
  split; cbn [push trace opencode_ready procs handle opencode_process
              bridge_process]; auto.
  - cbn [disciplined allowed]. rewrite S, T, Nat.eqb_refl. reflexivity.
  - intros c' A. cbn [awaiting] in A.
    destruct (same_child c' c) eqn:E; [|apply (D c' A)].
    apply same_child_eq in E as ->.
    destruct (handle_returncode _ _ _ H) as (pid & p & Hh & Hp & Hr).
    intros pid' p' Hh' Hp'.
    rewrite handle_push in Hh'. cbn [push procs] in Hp'.
    congruence.
Qed.

Definition fresh_proc (c : Child) : Proc :=
  {| kind := c; returncode := None; terminated := false; killed := false |}.

Lemma handle_set_handle (c c' : Child) (h : option nat) (s : State) :
  handle c' (set_handle c h s) = if same_child c' c then h else handle c' s.
Proof. destruct c, c'; reflexivity. Qed.

Lemma Inv_spawn (c : Child) (s : State) :
  Inv s ->
  allowed (Spawn c (length (procs s))) (trace s) = true ->
  Inv (push (Spawn c (length (procs s)))
         (set_handle c (Some (length (procs s)))
            (set_procs (fun l => l ++ [fresh_proc c]) s))).
Proof.
  intros [T L V D R] A.
  pose proof A as A'. apply allowed_spawn in A' as (_ & _ & W).
  split.
  - cbn [push trace set_handle set_procs disciplined].
    rewrite A, T. reflexivity.
  - cbn [push trace set_handle set_procs opencode_ready latch]. exact L.
  - intros pid p H N.
    change (procs _) with (procs s ++ [fresh_proc c]) in H.
    destruct (Nat.lt_ge_cases pid (length (procs s))) as [Hlt|Hge].
    + rewrite lookup_app_l in H by exact Hlt.
      destruct (V pid p H N) as [c0 Hc0].
      exists c0. change (handle c0 _) with
        (handle c0 (set_handle c (Some (length (procs s))) s)).
      rewrite handle_set_handle.
      destruct (same_child c0 c) eqn:E; [|exact Hc0].
      apply same_child_eq in E as ->.
      destruct (D c0 W pid p Hc0 H N).
    + exists c. change (handle c _) with
        (handle c (set_handle c (Some (length (procs s))) s)).
      rewrite handle_set_handle.
      replace (same_child c c) with true by (destruct c; reflexivity).
      rewrite lookup_app_r in H by exact Hge.
      destruct (pid - length (procs s)) as [|k] eqn:E; [|destruct k; discriminate].
      f_equal. lia.
  - intros c' Aw pid p Hh H.
    change (handle c' _) with
      (handle c' (set_handle c (Some (length (procs s))) s)) in Hh.
    rewrite handle_set_handle in Hh.
    change (procs _) with (procs s ++ [fresh_proc c]) in H.
    cbn [push trace awaiting] in Aw.
    destruct (same_child c' c) eqn:E; [discriminate|].
    pose proof (R c' pid Hh) as Hlt.
    rewrite lookup_app_l in H by exact Hlt.
    eapply D; eauto.
  - intros c' pid Hh.
    change (handle c' _) with
      (handle c' (set_handle c (Some (length (procs s))) s)) in Hh.
    rewrite handle_set_handle in Hh.
    change (procs _) with (procs s ++ [fresh_proc c]).
    rewrite length_app. cbn [length].
    destruct (same_child c' c); [injection Hh as <-; lia|].
    pose proof (R c' pid Hh). lia.
Qed.

(** *** How a trace grows across a call *)

(** From [s] to [s'] only events of class [cls] were added. *)
Definition grows (cls : Event -> bool) (s s' : State) : Prop :=
  exists new, trace s' = new ++ trace s /\ forallb cls new = true.

Lemma grows_refl cls s : grows cls s s.
Proof. exists []. split; reflexivity. Qed.

Lemma grows_same cls s s' : trace s' = trace s -> grows cls s s'.
Proof. intros E. exists []. split; [exact E|reflexivity]. Qed.

Lemma grows_trans cls s1 s2 s3 :
  grows cls s1 s2 -> grows cls s2 s3 -> grows cls s1 s3.
Proof.
  intros (n1 & E1 & F1) (n2 & E2 & F2). exists (n2 ++ n1). split.
  - rewrite E2, E1. apply app_assoc.
  - rewrite forallb_app, F1, F2. reflexivity.
Qed.

Lemma grows_sub (cls cls' : Event -> bool) s s' :
  (forall e, cls e = true -> cls' e = true) ->
  grows cls s s' -> grows cls' s s'.
Proof.
  intros Sub (new & E & F). exists new. split; [exact E|].
  apply forallb_forall. intros e He.
  apply Sub. eapply forallb_forall in F; eauto.
Qed.

Lemma grows_step cls e s s' :
  cls e = true -> trace s' = e :: trace s -> grows cls s s'.
Proof. intros C E. exists [e]. split; [exact E|]. cbn. rewrite C. reflexivity. Qed.

(** Event [e] is about child [c]. *)
Definition about (c : Child) (e : Event) : bool :=
  match e with
  | Spawn c' _ => same_child c c'
  | ObservedExit c' _ _ => same_child c c'
  | _ => false
  end.

(** Without observations, the counters and the stop stand still. *)
Lemma unobserved_app (new tr : list Event) :
  forallb (fun e => negb (is_observed e)) new = true ->
  stopped (new ++ tr) = stopped tr /\
  (forall c, exits c (new ++ tr) = exits c tr) /\
  (reported tr = true -> reported (new ++ tr) = true).
Proof.
  induction new as [|e new IH]; [auto|].
  cbn [forallb]. intros H. apply andb_true_iff in H as [He H].
  destruct (IH H) as (S & X & R).
  destruct e; try discriminate; cbn; auto.
Qed.

(** Without events about [c], its spawn count and its standing with
    the monitor stand still. *)
Lemma unconcerned_app (c : Child) (new tr : list Event) :
  forallb (fun e => negb (about c e)) new = true ->
  spawns c (new ++ tr) = spawns c tr /\
  awaiting c (new ++ tr) = awaiting c tr.
Proof.
  induction new as [|e new IH]; [auto|].
  cbn [forallb]. intros H. apply andb_true_iff in H as [He H].
  destruct (IH H) as (S & A).
  destruct e; cbn in *; auto.
  all: apply negb_true_iff in He; rewrite He; cbn; auto.
Qed.

Lemma forallb_sub (cls cls' : Event -> bool) (new : list Event) :
  (forall e, cls e = true -> cls' e = true) ->
  forallb cls new = true -> forallb cls' new = true.
Proof.
  intros Sub F. apply forallb_forall. intros e He.
  apply Sub. eapply forallb_forall in F; eauto.
Qed.

Lemma grows_unobserved cls s s' :
  (forall e, cls e = true -> is_observed e = false) ->
  grows cls s s' ->
  stopped (trace s') = stopped (trace s) /\
  (forall c, exits c (trace s') = exits c (trace s)) /\
  (reported (trace s) = true -> reported (trace s') = true).
Proof.
  intros Sub (new & -> & F). apply unobserved_app.
  eapply forallb_sub; [|exact F].
  intros e He. rewrite (Sub e He). reflexivity.
Qed.

Lemma grows_unconcerned cls c s s' :
  (forall e, cls e = true -> about c e = false) ->
  grows cls s s' ->
  spawns c (trace s') = spawns c (trace s) /\
  awaiting c (trace s') = awaiting c (trace s).
Proof.
  intros Sub (new & -> & F). apply unconcerned_app.
  eapply forallb_sub; [|exact F].
  intros e He. rewrite (Sub e He). reflexivity.
Qed.

(** The classes of events the parts of the Supervisor add. *)
Definition probing (e : Event) : bool :=
  match e with Sleep _ | HealthOk => true | _ => false end.

Definition starting_agent (e : Event) : bool :=
  match e with
  | Spawn Agent _ | Sleep _ | HealthOk | ReadySet => true
  | _ => false
  end.

Definition starting_bridge (e : Event) : bool :=
  match e with Spawn Bridge _ | Sleep _ => true | _ => false end.

Definition shutting_down (e : Event) : bool :=
  match e with
  | ShutdownStart | Terminate _ | WaitFor _ _ | Kill _ | ShutdownComplete =>
      true
  | _ => false
  end.

(** Decide an inclusion between classes of events by cases. *)
Ltac by_cases :=
  let e := fresh "e" in
  intros e; destruct e as [[] ?| | | |[] ? ?| | | | | | |];
  cbn; intros; congruence.

(** *** The parts of the Supervisor keep the invariant *)

Section WithWorld.
Variable env : Env.

(** The health probe adds only sleeps and, on success, [HealthOk]. *)
Lemma health_loop_spec timeout failure start fuel :
  forall s, Inv s ->
  sat (health_loop env timeout failure start fuel s)
    (fun r s' => Inv s' /\ grows probing s s' /\
                 (r = Ok tt -> probed (trace s') = true)).
Proof.
  induction fuel as [|fuel IH]; intros s I.
  - apply sat_intro. split_and!; [exact I|apply grows_refl|discriminate].
  - cbn [health_loop].
    unfold bind at 1, now, bind at 1, get, ret. cbv beta iota.
    destruct (_ <? _)%Z;
      [|apply sat_intro; split_and!; [exact I|apply grows_refl|discriminate]].
    unfold bind at 1. cbv beta iota.
    destruct (shutdown_event s);
      [apply sat_intro; split_and!; [exact I|apply grows_refl|discriminate]|].
    unfold bind at 1, get_health, bind, get, suspend, modify, ret.
    cbv beta iota.
    destruct (is_200 _).
    + unfold emit, modify. apply sat_intro. split_and!.
      * apply Inv_push_quiet; [reflexivity|]. apply Inv_deliver, I.
      * eapply grows_step; [|reflexivity]. reflexivity.
      * reflexivity.
    + unfold sleep, emit, suspend, bind, modify. cbv beta iota.
      eapply sat_conseq; [apply IH|].
      * apply Inv_deliver, Inv_push_quiet; [reflexivity|].
        apply Inv_deliver, I.
      * intros r s' (I' & G & P). split_and!; [exact I'| |exact P].
        eapply grows_trans; [|exact G].
        eapply grows_step; [|reflexivity]. reflexivity.
Qed.

Lemma wait_for_health_spec timeout failure fuel s :
  Inv s ->
  sat (wait_for_health env timeout failure fuel s)
    (fun r s' => Inv s' /\ grows probing s s' /\
                 (r = Ok tt -> probed (trace s') = true)).
Proof.
  intros I. unfold wait_for_health, bind, now, get, ret. cbv beta iota.
  apply health_loop_spec, I.
Qed.

(** The child of kind [c] has exited or has been sent SIGKILL. *)
Definition settled_child (c : Child) (s : State) : Prop :=
  forall pid p,
    handle c s = Some pid -> procs s !! pid = Some p ->
    returncode p <> None \/ killed p = true.

(** What stopping child [c] adds to the trace (most recent first):
    nothing, or terminate and wait, or terminate, wait and kill. *)
Definition stop_events (c : Child) (timeout : Z) (s' : State)
  (new : list Event) : Prop :=
  new = [] \/
  exists pid, handle c s' = Some pid /\
    (new = [WaitFor pid timeout; Terminate pid] \/
     new = [Kill pid; WaitFor pid timeout; Terminate pid]).

Lemma handle_deliver c s : handle c (deliver env s) = handle c s.
Proof. destruct c; reflexivity. Qed.

Lemma handle_set_procs c f s : handle c (set_procs f s) = handle c s.
Proof. destruct c; reflexivity. Qed.

Lemma settled_child_deliver c s :
  settled_child c s -> settled_child c (deliver env s).
Proof.
  intros H pid p' Hh Hp. rewrite handle_deliver in Hh.
  cbn [deliver set_suspensions set_shutdown_event set_procs procs] in Hp.
  rewrite list_lookup_imap in Hp.
  destruct (procs s !! pid) as [p|] eqn:E; [|discriminate].
  cbn in Hp. injection Hp as <-.
  destruct (H pid p Hh E) as [N|K].
  - destruct (returncode p) eqn:Er; [left; congruence|congruence].
  - destruct (returncode p) eqn:Er; [right; exact K|right; exact K].
Qed.

Lemma settled_child_signal c f pid s :
  (forall p, returncode (f p) = returncode p) ->
  (forall p, killed p = true -> killed (f p) = true) ->
  settled_child c s -> settled_child c (set_procs (alter f pid) s).
Proof.
  intros F K H q p' Hh Hp. rewrite handle_set_procs in Hh.
  cbn [set_procs procs] in Hp. rewrite list_lookup_alter in Hp.
  destruct (decide (pid = q)) as [->|_]; [|eauto].
  destruct (procs s !! q) as [p|] eqn:E; [|discriminate].
  cbn in Hp. injection Hp as <-. rewrite F.
  destruct (H q p Hh E); auto.
Qed.

Lemma settled_child_push c e s :
  settled_child c s -> settled_child c (push e s).
Proof. intros H pid p Hh Hp. rewrite handle_push in Hh. eauto. Qed.

(** One half of the shutdown. *)
Lemma stop_child_spec (c : Child) (timeout : Z) (s : State) :
  Inv s ->
  sat (stop_child env c timeout s)
    (fun r s' =>
       r = Ok tt /\ Inv s' /\ settled_child c s' /\
       (forall c', settled_child c' s -> settled_child c' s') /\
       (exists new, trace s' = new ++ trace s /\
                    stop_events c timeout s' new) /\
       (shutdown_event s = true -> shutdown_event s' = true) /\
       (forall c', handle c' s' = handle c' s)).
Proof.
  intros I. unfold stop_child. run_sup.
  destruct (handle c s) as [pid|] eqn:Hh.
  2:{ apply sat_intro. split_and!; auto.
      - intros q p Hq. congruence.
      - exists []. split; [reflexivity|left; reflexivity]. }
  destruct (returncode_of (Some pid) s) as [rc|] eqn:Hrc.
  { apply sat_intro. split_and!; auto.
    - intros q p Hq Hp. left.
      assert (q = pid) as -> by congruence.
      unfold returncode_of in Hrc. rewrite Hp in Hrc. congruence.
    - exists []. split; [reflexivity|left; reflexivity]. }
  match goal with
  | |- context [returncode_of (Some pid) ?s1] =>
      destruct (returncode_of (Some pid) s1) as [rc|] eqn:Hrc';
      set (s2 := s1) in *
  end.
  - apply sat_intro.
    assert (I2 : Inv s2).
    { subst s2. apply Inv_deliver.
      do 2 (apply Inv_push_quiet; [reflexivity|]).
      apply Inv_signal; [reflexivity|exact I]. }
    split_and!; auto.
    + intros q p Hq Hp. left.
      assert (q = pid) as ->.
      { subst s2. rewrite handle_deliver, !handle_push, handle_set_procs in Hq.
        congruence. }
      unfold returncode_of in Hrc'. rewrite Hp in Hrc'. congruence.
    + intros c' H. subst s2. apply settled_child_deliver.
      do 2 apply settled_child_push.
      apply settled_child_signal; auto.
    + exists [WaitFor pid timeout; Terminate pid]. split; [reflexivity|].
      right. exists pid. split; [|left; reflexivity].
      subst s2. rewrite handle_deliver, !handle_push, handle_set_procs.
      exact Hh.
    + subst s2. cbn. intros ->. reflexivity.
  - apply sat_intro.
    assert (I2 : Inv s2).
    { subst s2. apply Inv_deliver.
      do 2 (apply Inv_push_quiet; [reflexivity|]).
      apply Inv_signal; [reflexivity|exact I]. }
    split_and!; auto.
    + apply Inv_push_quiet; [reflexivity|].
      apply Inv_signal; [reflexivity|exact I2].
    + intros q p Hq Hp. right.
      rewrite handle_push, handle_set_procs in Hq.
      assert (q = pid) as ->.
      { subst s2. rewrite handle_deliver, !handle_push, handle_set_procs in Hq.
        congruence. }
      cbn [push set_procs procs] in Hp. rewrite list_lookup_alter in Hp.
      destruct (decide (pid = pid)) as [_|N]; [|congruence].
      destruct (procs s2 !! pid); [|discriminate].
      cbn in Hp. injection Hp as <-. reflexivity.
    + intros c' H. apply settled_child_push.
      apply settled_child_signal; auto.
      subst s2. apply settled_child_deliver.
      do 2 apply settled_child_push.
      apply settled_child_signal; auto.
    + exists [Kill pid; WaitFor pid timeout; Terminate pid].
      split; [reflexivity|].
      right. exists pid. split; [|right; reflexivity].
      rewrite handle_push, handle_set_procs.
      subst s2. rewrite handle_deliver, !handle_push, handle_set_procs.
      exact Hh.
    + subst s2. cbn. intros ->. reflexivity.
Qed.

(** Every child in the table has exited or has been sent SIGKILL. *)
Definition all_settled (s : State) : Prop :=
  forall pid p, procs s !! pid = Some p ->
                returncode p <> None \/ killed p = true.

(** The shutdown sequence: the bridge first, then the agent. *)
Lemma shutdown_spec (s : State) :
  Inv s ->
  sat (shutdown env s)
    (fun r s' =>
       r = Ok tt /\ Inv s' /\ all_settled s' /\
       (exists stop_bridge stop_agent,
          trace s' = ShutdownComplete :: stop_agent ++ stop_bridge
                       ++ ShutdownStart :: trace s /\
          stop_events Bridge 5000 s' stop_bridge /\
          stop_events Agent 10000 s' stop_agent) /\
       (shutdown_event s = true -> shutdown_event s' = true)).
Proof.
  intros I. unfold shutdown.
  unfold bind at 1, emit at 1, modify at 1. cbv beta iota.
  eapply sat_bind;
    [apply stop_child_spec, Inv_push_quiet; [reflexivity|exact I] | |
     intros e s1 (H & _); discriminate | intros s1 (H & _); discriminate].
  intros _ s1 (_ & I1 & Sb & _ & (nb & Tb & Eb) & Sd1 & Hd1).
  eapply sat_bind;
    [apply stop_child_spec, I1 | |
     intros e s2 (H & _); discriminate | intros s2 (H & _); discriminate].
  intros _ s2 (_ & I2 & Sa & Keep & (na & Ta & Ea) & Sd2 & Hd2).
  unfold emit, modify. apply sat_intro. split_and!; auto.
  - apply Inv_push_quiet; [reflexivity|exact I2].
  - intros pid p Hp. cbn [push procs] in Hp.
    destruct (returncode p) eqn:Er; [left; discriminate|].
    destruct (inv_live _ I2 pid p Hp Er) as [[] Hc].
    + destruct (Sa pid p Hc Hp); [congruence|auto].
    + destruct (Keep Bridge Sb pid p Hc Hp); [congruence|auto].
  - exists nb, na. split_and!.
    + cbn [push trace]. rewrite Ta, Tb. reflexivity.
    + destruct Eb as [->|(pid & Hh & E)]; [left; reflexivity|].
      right. exists pid. split; [|exact E].
      rewrite handle_push, Hd2. exact Hh.
    + destruct Ea as [->|(pid & Hh & E)]; [left; reflexivity|].
      right. exists pid. split; [|exact E].
      rewrite handle_push. exact Hh.
Qed.

End WithWorld.

(** *** Shared by the two variants *)

(** Keep the invariant through suspensions and latch writes. *)
Ltac keep_inv :=
  repeat first
    [ assumption
    | apply Inv_deliver
    | apply Inv_set_git_sync_complete
    | apply Inv_set_shutdown_event
    | apply Inv_push_quiet; [reflexivity|] ].

(** A phase that adds nothing to the trace. *)
Definition silent {A} (s : State) (r : result A) (s' : State) : Prop :=
  Inv s' /\ trace s' = trace s /\ r <> Diverge.

(** The shape [start_opencode] has in both variants, which differ in
    the deadline of the probe and in the text of its error. *)
Definition start_agent (env : Env) (timeout : Z) (failure : string)
  (fuel : nat) : M State unit :=
  bind (Runtime.install_plugin env) (fun _ =>
  bind (spawn env Agent) (fun _ =>
  bind (wait_for_health env timeout failure fuel) (fun _ =>
  bind (modify (set_opencode_ready true)) (fun _ =>
  emit ReadySet)))).

Lemma start_agent_spec env timeout failure fuel s :
  Inv s -> can_spawn Agent (trace s) = true ->
  sat (start_agent env timeout failure fuel s)
    (fun r s' => Inv s' /\ grows starting_agent s s').
Proof.
  intros I C. unfold start_agent, Runtime.install_plugin.
  cbv beta iota zeta delta
    [bind ret raise modify get emit suspend spawn].
  destruct (install_assets env (suspensions s));
    [apply sat_intro; split; [exact I|apply grows_refl]|].
  destruct (create_subprocess_exec env (suspensions s));
    [apply sat_intro; split; [keep_inv|apply grows_same; reflexivity]|].
  match goal with
  | |- context [wait_for_health env timeout failure fuel ?s1] =>
      assert (I1 : Inv s1);
      [ apply (Inv_spawn Agent (deliver env s)); [keep_inv|exact C]
      | destruct (wait_for_health_spec env timeout failure fuel s1 I1)
          as (r & s2 & -> & I2 & G2 & P2);
        assert (G1 : grows starting_agent s s1)
          by (eapply grows_step; [|reflexivity]; reflexivity) ]
  end.
  assert (G : grows starting_agent s s2).
  { eapply grows_trans; [exact G1|].
    eapply grows_sub; [|exact G2]. by_cases. }
  destruct r as [[]|e|]; apply sat_intro.
  - split; [apply Inv_ready_set; auto|].
    eapply grows_trans; [exact G|].
    eapply grows_step; [|reflexivity]. reflexivity.
  - auto.
  - auto.
Qed.

(** After an observed exit that is counted and within the limit, the
    child may be spawned again. *)
Lemma can_spawn_after_exit (c : Child) (rc : Z) (n : nat) (s : State)
  (quiet_since : list Event) :
  Inv s ->
  stopped (trace s) = false ->
  counted c rc = true ->
  n = exits c (trace s) + 1 ->
  (MAX_RESTARTS <? n) = false ->
  forallb (fun e => negb (is_observed e) && negb (about c e)) quiet_since = true ->
  can_spawn c (quiet_since ++ ObservedExit c rc n :: trace s) = true /\
  stopped (quiet_since ++ ObservedExit c rc n :: trace s) = false /\
  exits c (quiet_since ++ ObservedExit c rc n :: trace s) = n /\
  (forall c', same_child c' c = false ->
     exits c' (quiet_since ++ ObservedExit c rc n :: trace s)
     = exits c' (trace s)).
Proof.
  intros I S Cn -> Hn Q.
  assert (Q1 : forallb (fun e => negb (is_observed e)) quiet_since = true).
  { eapply forallb_sub; [|exact Q]. intros e He.
    apply andb_true_iff in He as [He _]. exact He. }
  assert (Q2 : forallb (fun e => negb (about c e)) quiet_since = true).
  { eapply forallb_sub; [|exact Q]. intros e He.
    apply andb_true_iff in He as [_ He]. exact He. }
  destruct (unobserved_app quiet_since
              (ObservedExit c rc (exits c (trace s) + 1) :: trace s) Q1)
    as (St & Ex & _).
  destruct (unconcerned_app c quiet_since
              (ObservedExit c rc (exits c (trace s) + 1) :: trace s) Q2)
    as (Sp & Aw).
  assert (St' : stopped (ObservedExit c rc (exits c (trace s) + 1) :: trace s)
                = false).
  { rewrite stopped_cons. unfold stops. rewrite Cn, Hn, S. reflexivity. }
  assert (Same : same_child c c = true) by (destruct c; reflexivity).
  split_and!.
  - unfold can_spawn. rewrite St, St', Sp, Aw, Ex.
    cbn [spawns awaiting]. rewrite exits_observed, Same, Cn.
    pose proof (spawns_le_exits c (trace s) (inv_trace _ I)) as Le.
    apply Nat.leb_le in Le. cbn [andb negb]. rewrite Le. reflexivity.
  - rewrite St. exact St'.
  - rewrite Ex, exits_observed, Same, Cn. cbn [andb]. lia.
  - intros c' N. rewrite Ex, exits_observed, N. reflexivity.
Qed.

(** What a half of the monitoring round promises when it says
    [Continue] with counter [n'] for child [c]. *)
Definition carries_on (c : Child) (s : State) (r : result (Flow * nat))
  (s' : State) : Prop :=
  forall n', r = Ok (Continue, n') ->
    stopped (trace s') = false /\
    exits c (trace s') = n' /\
    (forall c', same_child c' c = false ->
       exits c' (trace s') = exits c' (trace s)).

(** A run is cut short only while the monitor has not stopped. *)
Definition cut_short {A} (r : result A) (s' : State) : Prop :=
  r = Diverge -> stopped (trace s') = false.

(** Nothing has been observed yet: the Supervisor is still starting. *)
Definition unobserved (s : State) : Prop :=
  forallb (fun e => negb (is_observed e)) (trace s) = true.

Lemma unobserved_running (s : State) :
  unobserved s ->
  stopped (trace s) = false /\ forall c, exits c (trace s) = 0.
Proof.
  intros U.
  destruct (unobserved_app (trace s) [] U) as (St & Ex & _).
  rewrite app_nil_r in St, Ex. split; [exact St|exact Ex].
Qed.

Lemma unobserved_grows cls (s s' : State) :
  (forall e, cls e = true -> is_observed e = false) ->
  grows cls s s' -> unobserved s -> unobserved s'.
Proof.
  intros Sub (new & E & F) U. unfold unobserved. rewrite E, forallb_app.
  rewrite U, andb_true_r. eapply forallb_sub; [|exact F].
  intros e He. rewrite (Sub e He). reflexivity.
Qed.

Lemma unobserved_same (s s' : State) :
  trace s' = trace s -> unobserved s -> unobserved s'.
Proof. unfold unobserved. intros ->. auto. Qed.

(** What [run] leaves behind when it returns. *)
Definition after_shutdown (s' : State) : Prop :=
  all_settled s' /\
  exists before stop_bridge stop_agent,
    trace s' = ShutdownComplete :: stop_agent ++ stop_bridge
                 ++ ShutdownStart :: before /\
    stop_events Bridge 5000 s' stop_bridge /\
    stop_events Agent 10000 s' stop_agent.

Lemma stop_events_unobserved c timeout s' new :
  stop_events c timeout s' new ->
  forallb (fun e => negb (is_observed e)) new = true.
Proof. intros [->|(pid & _ & [->| ->])]; reflexivity. Qed.

(** *** The remote variant *)

Section RuntimeSpec.
Variable env : Env.
Variable cfg : Config.

Lemma sync_with_remote_silent token s :
  Inv s -> sat (Runtime.sync_with_remote env token s) (silent s).
Proof.
  intros I. run_runtime. repeat (case_env; run_runtime).
  all: apply sat_intro; unfold silent;
    split_and!; [keep_inv|reflexivity|discriminate].
Qed.

Lemma perform_git_sync_silent s :
  Inv s -> sat (Runtime.perform_git_sync env cfg s) (silent s).
Proof.
  intros I. unfold Runtime.perform_git_sync, bind at 1.
  assert (T : exists token, Runtime._generate_github_token env cfg s = (Ok token, s)).
  { unfold Runtime._generate_github_token, try_except.
    destruct (truthy _); [eexists; reflexivity|].
    destruct (_ && _); [|eexists; reflexivity].
    destruct (generate_installation_token env); eexists; reflexivity. }
  destruct T as [token ->].
  unfold bind at 1, exists_, bind at 1, get, ret. cbv beta iota.
  destruct (negb _); [|apply sync_with_remote_silent, I].
  destruct (_ || _).
  { run_runtime. apply sat_intro. unfold silent.
    split_and!; [keep_inv|reflexivity|discriminate]. }
  unfold bind at 1, await, bind at 1, suspend, modify, call. cbv beta iota.
  destruct (git_clone env) as [code|e];
    [|apply sat_intro; unfold silent;
      split_and!; [keep_inv|reflexivity|discriminate]].
  cbn [ret]. destruct (negb _).
  { run_runtime. apply sat_intro. unfold silent.
    split_and!; [keep_inv|reflexivity|discriminate]. }
  eapply sat_conseq; [apply sync_with_remote_silent; keep_inv|].
  intros r s' (I' & T & D). split_and!; auto.
Qed.

Lemma configure_git_identity_silent s :
  Inv s ->
  sat (Runtime.configure_git_identity env cfg s)
    (fun r s' => silent s r s' /\ forall e, r <> Raise e).
Proof.
  intros I. run_runtime. repeat (case_env; run_runtime).
  all: apply sat_intro; unfold silent;
    split_and!; [keep_inv|reflexivity|discriminate|discriminate].
Qed.

Lemma run_setup_script_silent s :
  Inv s ->
  sat (Runtime.run_setup_script env s)
    (fun r s' => silent s r s' /\ forall e, r <> Raise e).
Proof.
  intros I. run_runtime. repeat (case_env; run_runtime).
  all: apply sat_intro; unfold silent;
    split_and!; [keep_inv|reflexivity|discriminate|discriminate].
Qed.

Lemma report_fatal_error_spec message s :
  Inv s ->
  sat (Runtime._report_fatal_error env cfg message s)
    (fun r s' =>
       r = Ok tt /\ Inv s' /\ trace s' = Fatal message :: trace s /\
       (shutdown_event s = true -> shutdown_event s' = true)).
Proof.
  intros I. run_runtime. case_env; run_runtime.
  all: apply sat_intro; split_and!; [reflexivity|keep_inv|reflexivity|].
  all: cbn; intros ->; reflexivity.
Qed.

(** The remote variant treats a bridge exit with code 0 as the end of
    the session. *)
Hypothesis remote : graceful = true.

(** What holds when a part of the monitor hands back control: fatal
    reports are up to date, and a stop has set [shutdown_event]. *)
Definition settled (s : State) : Prop :=
  reported (trace s) = true /\
  (stopped (trace s) = true -> shutdown_event s = true).

Lemma reported_running (tr : list Event) :
  disciplined tr = true -> stopped tr = false -> reported tr = true.
Proof.
  induction tr as [|e tr IH]; [reflexivity|].
  simp. intros D S. apply andb_true_iff in D as [A D].
  apply orb_false_iff in S as [Se S]. specialize (IH D S).
  destruct e; simp; auto.
  simp in Se. apply orb_false_iff in Se as [_ Se].
  rewrite Se, IH. reflexivity.
Qed.

Lemma settled_running (s : State) :
  Inv s -> stopped (trace s) = false -> settled s.
Proof.
  intros I S. split; [|congruence].
  apply reported_running; [apply I|exact S].
Qed.

Lemma start_opencode_spec fuel s :
  Inv s -> can_spawn Agent (trace s) = true ->
  sat (Runtime.start_opencode env fuel s)
    (fun r s' => Inv s' /\ grows starting_agent s s').
Proof. apply start_agent_spec. Qed.

Lemma start_bridge_spec s :
  Inv s -> can_spawn Bridge (trace s) = true ->
  sat (Runtime.start_bridge env cfg s)
    (fun r s' => Inv s' /\ grows starting_bridge s s').
Proof.
  intros I C. unfold Runtime.start_bridge.
  destruct (negb (truthy (control_plane_url cfg)));
    [apply sat_intro; split; [exact I|apply grows_refl]|].
  run_runtime.
  destruct (opencode_ready s) eqn:Rdy;
    [|apply sat_intro; split; [exact I|apply grows_refl]].
  destruct (negb (truthy (session_id cfg))); run_runtime;
    [apply sat_intro; split; [exact I|apply grows_refl]|].
  destruct (create_subprocess_exec env (suspensions s));
    [apply sat_intro; split; [keep_inv|apply grows_same; reflexivity]|].
  assert (L : latch (trace s) = true) by (rewrite (inv_latch _ I); exact Rdy).
  assert (P : probed (trace s) = true)
    by (apply latch_probed; [apply I|exact L]).
  match goal with
  | |- context [returncode_of _ ?s2] =>
      assert (I2 : Inv s2);
      [ apply Inv_deliver, Inv_push_quiet; [reflexivity|];
        apply (Inv_spawn Bridge (deliver env s)); [keep_inv|];
        cbn [allowed]; change (trace (deliver env s)) with (trace s);
        rewrite C, L, P; reflexivity
      | assert (G2 : grows starting_bridge s s2)
          by (exists [Sleep 500; Spawn Bridge (length (procs (deliver env s)))];
              split; reflexivity);
        destruct (returncode_of _ s2) ]
  end.
  all: apply sat_intro; split; [keep_inv|].
  - eapply grows_trans; [exact G2|]. apply grows_same. reflexivity.
  - exact G2.
Qed.

Lemma check_opencode_spec fuel n s :
  Inv s -> stopped (trace s) = false -> exits Agent (trace s) = n ->
  sat (Runtime.check_opencode env cfg fuel n s)
    (fun r s' => Inv s' /\ settled s' /\ carries_on Agent s r s' /\
                 cut_short r s').
Proof.
  intros I NS E. unfold Runtime.check_opencode.
  unfold bind at 1, get. cbv beta iota.
  destruct (returncode_of (opencode_process s) s) as [rc|] eqn:Hrc.
  2:{ apply sat_intro.
      split_and!; [exact I|apply settled_running; auto| |discriminate].
      intros n' [= <-]. auto. }
  assert (I1 : Inv (push (ObservedExit Agent rc (S n)) s)).
  { apply Inv_observe; auto. cbn [counted]. lia. }
  unfold bind at 1, emit at 1, modify at 1. cbv beta iota.
  destruct (MAX_RESTARTS <? S n) eqn:Hn.
  - (* giving up *)
    eapply sat_bind;
      [apply report_fatal_error_spec, I1 | |
       intros e s1 (H & _); discriminate | intros s1 (H & _); discriminate].
    intros _ s2 (_ & I2 & T2 & _).
    unfold bind, modify, ret. apply sat_intro. split_and!.
    + apply Inv_set_shutdown_event, I2.
    + split; [|reflexivity]. cbn [set_shutdown_event trace].
      rewrite T2. reflexivity.
    + intros n' [=].
    + discriminate.
  - (* restart with backoff *)
    destruct (can_spawn_after_exit Agent rc (S n) s
                [ReadyClear; Sleep (backoff (S n))] I NS eq_refl
                ltac:(lia) Hn eq_refl) as (C & St & Ex & Eo).
    run_runtime.
    match goal with
    | |- context [Runtime.start_opencode env fuel ?s3] =>
        assert (I3 : Inv s3)
          by (apply Inv_ready_clear; keep_inv);
        destruct (start_opencode_spec fuel s3 I3 C)
          as (r & s4 & -> & I4 & G4)
    end.
    destruct (grows_unobserved starting_agent _ _ ltac:(by_cases) G4) as (St4 & Ex4 & _).
    cbn [push set_opencode_ready deliver set_suspensions set_shutdown_event
         set_procs trace] in St4, Ex4.
    cbn [app] in St, Ex, Eo. rewrite St in St4.
    assert (Se : settled s4) by (apply settled_running; auto).
    destruct r as [[]|e|]; apply sat_intro;
      (split_and!; [exact I4|exact Se| |intros _; exact St4]).
    + intros n' [= <-]. split_and!; auto.
      * rewrite Ex4. exact Ex.
      * intros c' N. rewrite Ex4. apply Eo, N.
    + intros n' [=].
    + intros n' [=].
Qed.

Lemma check_bridge_spec n s :
  Inv s -> stopped (trace s) = false -> exits Bridge (trace s) = n ->
  sat (Runtime.check_bridge env cfg n s)
    (fun r s' => Inv s' /\ settled s' /\ carries_on Bridge s r s' /\
                 cut_short r s').
Proof.
  intros I NS E. unfold Runtime.check_bridge.
  unfold bind at 1, get. cbv beta iota.
  destruct (returncode_of (bridge_process s) s) as [rc|] eqn:Hrc.
  2:{ apply sat_intro.
      split_and!; [exact I|apply settled_running; auto| |discriminate].
      intros n' [= <-]. auto. }
  destruct (rc =? 0)%Z eqn:Hz.
  - (* graceful exit *)
    assert (Cn : counted Bridge rc = false)
      by (cbn [counted]; rewrite remote, Hz; reflexivity).
    run_runtime. apply sat_intro. split_and!.
    + apply Inv_set_shutdown_event, Inv_observe; auto.
      rewrite Cn. lia.
    + split; [|reflexivity]. cbn [set_shutdown_event push trace reported].
      pose proof (exits_le_max Bridge (trace s) (inv_trace _ I) NS) as Le.
      rewrite E in Le. apply Nat.ltb_ge in Le. rewrite Le.
      apply reported_running; [apply I|exact NS].
    + intros n' [=].
    + discriminate.
  - (* crash *)
    assert (Cn : counted Bridge rc = true)
      by (cbn [counted]; rewrite Hz, andb_false_r; reflexivity).
    assert (I1 : Inv (push (ObservedExit Bridge rc (S n)) s)).
    { apply Inv_observe; auto. rewrite Cn. lia. }
    unfold bind at 1, emit at 1, modify at 1. cbv beta iota.
    destruct (MAX_RESTARTS <? S n) eqn:Hn.
    + eapply sat_bind;
        [apply report_fatal_error_spec, I1 | |
         intros e s1 (H & _); discriminate | intros s1 (H & _); discriminate].
      intros _ s2 (_ & I2 & T2 & _).
      unfold bind, modify, ret. apply sat_intro. split_and!.
      * apply Inv_set_shutdown_event, I2.
      * split; [|reflexivity]. cbn [set_shutdown_event trace].
        rewrite T2. reflexivity.
      * intros n' [=].
      * discriminate.
    + destruct (can_spawn_after_exit Bridge rc (S n) s
                  [Sleep (backoff (S n))] I NS Cn
                  ltac:(lia) Hn eq_refl) as (C & St & Ex & Eo).
      run_runtime.
      match goal with
      | |- context [Runtime.start_bridge env cfg ?s3] =>
          assert (I3 : Inv s3) by keep_inv;
          destruct (start_bridge_spec s3 I3 C)
            as (r & s4 & -> & I4 & G4)
      end.
      destruct (grows_unobserved starting_bridge _ _ ltac:(by_cases) G4) as (St4 & Ex4 & _).
      cbn [push set_opencode_ready deliver set_suspensions set_shutdown_event
           set_procs trace] in St4, Ex4.
      cbn [app] in St, Ex, Eo. rewrite St in St4.
      assert (Se : settled s4) by (apply settled_running; auto).
      destruct r as [[]|e|]; apply sat_intro;
        (split_and!; [exact I4|exact Se| |intros _; exact St4]).
      * intros n' [= <-]. split_and!; auto.
        -- rewrite Ex4. exact Ex.
        -- intros c' N. rewrite Ex4. apply Eo, N.
      * intros n' [=].
      * intros n' [=].
Qed.

Lemma monitor_loop_spec hfuel fuel :
  forall restart_count bridge_restart_count s,
    Inv s -> stopped (trace s) = false ->
    exits Agent (trace s) = restart_count ->
    exits Bridge (trace s) = bridge_restart_count ->
    sat (Runtime.monitor_loop env cfg hfuel fuel
           restart_count bridge_restart_count s)
      (fun r s' => Inv s' /\ settled s' /\ cut_short r s').
Proof.
  induction fuel as [|fuel IH]; intros rcount bcount s I NS Ea Eb.
  - apply sat_intro.
    split_and!; [exact I|apply settled_running; auto|intros _; exact NS].
  - cbn [Runtime.monitor_loop].
    unfold bind at 1, get. cbv beta iota.
    destruct (shutdown_event s);
      [apply sat_intro;
       split_and!; [exact I|apply settled_running; auto|discriminate]|].
    eapply sat_bind; [apply (check_opencode_spec hfuel rcount s I NS Ea) | | |];
      cbv beta; [|intros e s1 (I1 & Se1 & _); split_and!; auto; discriminate
                 |intros s1 (I1 & Se1 & _ & C1);
                  split_and!; auto; intros _; apply C1; reflexivity].
    intros [[] rcount'] s1 (I1 & Se1 & K1 & _);
      [|apply sat_intro; split_and!; auto; discriminate].
    destruct (K1 rcount' eq_refl) as (S1 & Ea1 & Eo1).
    eapply sat_bind;
      [apply (check_bridge_spec bcount s1 I1 S1);
       rewrite (Eo1 Bridge eq_refl); exact Eb | | |];
      cbv beta; [|intros e s2 (I2 & Se2 & _); split_and!; auto; discriminate
                 |intros s2 (I2 & Se2 & _ & C2);
                  split_and!; auto; intros _; apply C2; reflexivity].
    intros [[] bcount'] s2 (I2 & Se2 & K2 & _);
      [|apply sat_intro; split_and!; auto; discriminate].
    destruct (K2 bcount' eq_refl) as (S2 & Eb2 & Eo2).
    run_runtime. apply IH; [keep_inv|exact S2| |exact Eb2].
    cbn [push deliver set_suspensions set_shutdown_event set_procs trace exits].
    rewrite (Eo2 Agent eq_refl). exact Ea1.
Qed.

(** The body of the [try] in [run]. *)
Definition supervise (fuel : nat) : M State unit :=
  bind (Runtime.perform_git_sync env cfg) (fun _ =>
  bind (Runtime.configure_git_identity env cfg) (fun _ =>
  bind (Runtime.run_setup_script env) (fun _ =>
  bind (Runtime.start_opencode env fuel) (fun _ =>
  bind (Runtime.start_bridge env cfg) (fun _ =>
  Runtime.monitor_processes env cfg fuel))))).

Lemma run_unfold (fuel : nat) :
  Runtime.run env cfg fuel
  = try_finally
      (try_except (supervise fuel)
         (fun e => Runtime._report_fatal_error env cfg (str e)))
      (shutdown env).
Proof. reflexivity. Qed.

Lemma monitor_processes_spec fuel s :
  Inv s -> unobserved s ->
  sat (Runtime.monitor_processes env cfg fuel s)
    (fun r s' => Inv s' /\ settled s' /\ cut_short r s').
Proof.
  intros I U. destruct (unobserved_running s U) as (St & Ex).
  apply monitor_loop_spec; auto.
Qed.

Lemma supervise_spec fuel s :
  Inv s -> trace s = [] ->
  sat (supervise fuel s)
    (fun r s' => Inv s' /\ settled s' /\ cut_short r s').
Proof.
  intros I T. unfold supervise.
  assert (U : unobserved s) by (unfold unobserved; rewrite T; reflexivity).
  assert (Quiet : forall A (r : result A) s',
             Inv s' -> unobserved s' ->
             Inv s' /\ settled s' /\ cut_short r s').
  { intros A r s' I' U'. destruct (unobserved_running s' U') as (St & _).
    split_and!; [exact I'|apply settled_running; auto|intros _; exact St]. }
  eapply sat_bind; [apply (perform_git_sync_silent s I) | | |]; cbv beta;
    [|intros e s1 (I1 & T1 & _); apply Quiet;
        [exact I1|eapply unobserved_same; eauto]
     |intros s1 (_ & _ & D); congruence].
  intros _ s1 (I1 & T1 & _).
  eapply sat_bind; [apply (configure_git_identity_silent s1 I1) | | |];
    cbv beta;
    [|intros e s2 (_ & N); destruct (N e eq_refl)
     |intros s2 ((_ & _ & D) & _); congruence].
  intros _ s2 ((I2 & T2 & _) & _).
  eapply sat_bind; [apply (run_setup_script_silent s2 I2) | | |];
    cbv beta;
    [|intros e s3 (_ & N); destruct (N e eq_refl)
     |intros s3 ((_ & _ & D) & _); congruence].
  intros _ s3 ((I3 & T3 & _) & _).
  assert (T3' : trace s3 = []) by congruence.
  assert (U3 : unobserved s3) by (unfold unobserved; rewrite T3'; reflexivity).
  eapply sat_bind;
    [apply (start_opencode_spec fuel s3 I3); rewrite T3'; reflexivity | | |];
    cbv beta.
  2:{ intros e s4 (I4 & G4). apply Quiet; [exact I4|].
      eapply unobserved_grows; [|exact G4|exact U3]. by_cases. }
  2:{ intros s4 (I4 & G4). apply Quiet; [exact I4|].
      eapply unobserved_grows; [|exact G4|exact U3]. by_cases. }
  intros _ s4 (I4 & G4).
  assert (U4 : unobserved s4)
    by (eapply unobserved_grows; [|exact G4|exact U3]; by_cases).
  assert (C4 : can_spawn Bridge (trace s4) = true).
  { unfold can_spawn.
    destruct (unobserved_running s4 U4) as (-> & ->).
    destruct (grows_unconcerned starting_agent Bridge s3 s4
                ltac:(by_cases) G4) as (-> & ->).
    rewrite T3'. reflexivity. }
  eapply sat_bind; [apply (start_bridge_spec s4 I4 C4) | | |]; cbv beta.
  2:{ intros e s5 (I5 & G5). apply Quiet; [exact I5|].
      eapply unobserved_grows; [|exact G5|exact U4]. by_cases. }
  2:{ intros s5 (I5 & G5). apply Quiet; [exact I5|].
      eapply unobserved_grows; [|exact G5|exact U4]. by_cases. }
  intros _ s5 (I5 & G5).
  apply monitor_processes_spec; [exact I5|].
  eapply unobserved_grows; [|exact G5|exact U4]. by_cases.
Qed.

Lemma run_spec fuel :
  sat (Runtime.run env cfg fuel initial)
    (fun r s' =>
       Inv s' /\ settled s' /\ cut_short r s' /\
       (r <> Diverge -> r = Ok tt /\ after_shutdown s')).
Proof.
  rewrite run_unfold.
  eapply sat_try_finally with
    (P := fun r s1 => Inv s1 /\ settled s1 /\ cut_short r s1 /\
                      (r = Diverge \/ r = Ok tt)).
  - eapply sat_try_except;
      [apply (supervise_spec fuel initial Inv_initial eq_refl) | | |];
      cbv beta.
    + intros [] s1 (I1 & Se1 & C1). auto.
    + intros e s1 (I1 & (R1 & W1) & _).
      destruct (report_fatal_error_spec (str e) s1 I1)
        as (r2 & s2 & -> & -> & I2 & T2 & Sd).
      apply sat_intro. split_and!; auto; [|discriminate].
      split; rewrite T2; [reflexivity|].
      intros H. apply Sd, W1. exact H.
    + intros s1 (I1 & Se1 & C1). auto.
  - intros r s2 (I2 & (R2 & W2) & _ & Hr) Nd.
    destruct Hr as [-> | ->]; [congruence|].
    destruct (shutdown_spec env s2 I2)
      as (r3 & s3 & -> & -> & I3 & A3 & (nb & na & T3 & Eb & Ea) & Sd3).
    apply sat_intro. cbn [finally_result].
    split_and!; [exact I3| |discriminate|].
    + assert (F : forallb (fun e => negb (is_observed e))
                    (ShutdownComplete :: na ++ nb ++ [ShutdownStart]) = true).
      { cbn [forallb is_observed negb andb]. rewrite !forallb_app.
        rewrite (stop_events_unobserved _ _ _ _ Ea),
                (stop_events_unobserved _ _ _ _ Eb). reflexivity. }
      destruct (unobserved_app _ (trace s2) F) as (St & _ & Rp).
      assert (E : trace s3
                  = (ShutdownComplete :: na ++ nb ++ [ShutdownStart])
                      ++ trace s2).
      { rewrite T3. cbn [app]. rewrite <- !app_assoc. reflexivity. }
      split.
      * rewrite E. apply Rp, R2.
      * rewrite E, St. intros H. apply Sd3, W2, H.
    + intros _. split; [reflexivity|]. split; [exact A3|].
      exists (trace s2), nb, na. auto.
  - intros s1 (I1 & Se1 & C1 & _). split_and!; auto. congruence.
Qed.

End RuntimeSpec.

(** *** The local-mount variant *)

Section LocalSpec.
Variable env : Env.
Variable cfg : Config.

Ltac run_local :=
  cbv beta iota zeta delta
    [Local.verify_workspace Local.run_setup_script
     bind ret raise diverge try_except try_finally modify get call when
     emit suspend sleep await exists_ now wait_ready spawn fst snd].

Lemma local_run_setup_script_silent s :
  Inv s -> sat (Local.run_setup_script env s) (silent s).
Proof.
  intros I. run_local. repeat (case_env; run_local).
  all: apply sat_intro; unfold silent;
    split_and!; [keep_inv|reflexivity|discriminate].
Qed.

Lemma local_start_opencode_spec fuel s :
  Inv s -> can_spawn Agent (trace s) = true ->
  sat (Local.start_opencode env fuel s)
    (fun r s' => Inv s' /\ grows starting_agent s s').
Proof. apply start_agent_spec. Qed.

Lemma local_start_bridge_spec s :
  Inv s -> can_spawn Bridge (trace s) = true ->
  sat (Local.start_bridge env cfg s)
    (fun r s' => Inv s' /\ grows starting_bridge s s').
Proof.
  intros I C. unfold Local.start_bridge.
  destruct (_ && _);
    [apply sat_intro; split; [exact I|apply grows_refl]|].
  run_local.
  destruct (opencode_ready s) eqn:Rdy;
    [|apply sat_intro; split; [exact I|apply grows_refl]].
  destruct (create_subprocess_exec env (suspensions s));
    [apply sat_intro; split; [keep_inv|apply grows_same; reflexivity]|].
  assert (L : latch (trace s) = true) by (rewrite (inv_latch _ I); exact Rdy).
  assert (P : probed (trace s) = true)
    by (apply latch_probed; [apply I|exact L]).
  apply sat_intro. split.
  - apply Inv_deliver, Inv_push_quiet; [reflexivity|].
    apply (Inv_spawn Bridge (deliver env s)); [keep_inv|].
    cbn [allowed]. change (trace (deliver env s)) with (trace s).
    rewrite C, L, P. reflexivity.
  - exists [Sleep 500; Spawn Bridge (length (procs (deliver env s)))].
    split; reflexivity.
Qed.

(** The local variant counts every exit of a child as a crash. *)
Hypothesis local_mount : graceful = false.

Lemma counted_local (c : Child) (rc : Z) : counted c rc = true.
Proof. destruct c; cbn [counted]; [|rewrite local_mount]; reflexivity. Qed.

Lemma local_check_opencode_spec fuel n s :
  Inv s -> stopped (trace s) = false -> exits Agent (trace s) = n ->
  sat (Local.check_opencode env fuel n s)
    (fun r s' => Inv s' /\ carries_on Agent s r s' /\ cut_short r s').
Proof.
  intros I NS E. unfold Local.check_opencode.
  unfold bind at 1, get. cbv beta iota.
  destruct (returncode_of (opencode_process s) s) as [rc|] eqn:Hrc.
  2:{ apply sat_intro. split_and!; [exact I| |discriminate].
      intros n' [= <-]. auto. }
  assert (I1 : Inv (push (ObservedExit Agent rc (S n)) s)).
  { apply Inv_observe; auto. cbn [counted]. lia. }
  unfold bind at 1, emit at 1, modify at 1. cbv beta iota.
  destruct (MAX_RESTARTS <? S n) eqn:Hn.
  - apply sat_intro. split_and!; [exact I1| |discriminate]. intros n' [=].
  - destruct (can_spawn_after_exit Agent rc (S n) s
                [ReadyClear; Sleep (backoff (S n))] I NS eq_refl
                ltac:(lia) Hn eq_refl) as (C & St & Ex & Eo).
    run_local.
    match goal with
    | |- context [Local.start_opencode env fuel ?s3] =>
        assert (I3 : Inv s3)
          by (apply Inv_ready_clear; keep_inv);
        destruct (local_start_opencode_spec fuel s3 I3 C)
          as (r & s4 & -> & I4 & G4)
    end.
    destruct (grows_unobserved starting_agent _ _ ltac:(by_cases) G4)
      as (St4 & Ex4 & _).
    cbn [push set_opencode_ready deliver set_suspensions set_shutdown_event
         set_procs trace] in St4, Ex4.
    cbn [app] in St, Ex, Eo. rewrite St in St4.
    destruct r as [[]|e|]; apply sat_intro;
      (split_and!; [exact I4| |intros _; exact St4]).
    + intros n' [= <-]. split_and!; auto.
      * rewrite Ex4. exact Ex.
      * intros c' N. rewrite Ex4. apply Eo, N.
    + intros n' [=].
    + intros n' [=].
Qed.

Lemma local_check_bridge_spec n s :
  Inv s -> stopped (trace s) = false -> exits Bridge (trace s) = n ->
  sat (Local.check_bridge env cfg n s)
    (fun r s' => Inv s' /\ carries_on Bridge s r s' /\ cut_short r s').
Proof.
  intros I NS E. unfold Local.check_bridge.
  unfold bind at 1, get. cbv beta iota.
  destruct (returncode_of (bridge_process s) s) as [rc|] eqn:Hrc.
  2:{ apply sat_intro. split_and!; [exact I| |discriminate].
      intros n' [= <-]. auto. }
  pose proof (counted_local Bridge rc) as Cn.
  assert (I1 : Inv (push (ObservedExit Bridge rc (S n)) s)).
  { apply Inv_observe; auto. rewrite Cn. lia. }
  unfold bind at 1, emit at 1, modify at 1. cbv beta iota.
  destruct (MAX_RESTARTS <? S n) eqn:Hn.
  - apply sat_intro. split_and!; [exact I1| |discriminate]. intros n' [=].
  - destruct (can_spawn_after_exit Bridge rc (S n) s
                [Sleep (backoff (S n))] I NS Cn
                ltac:(lia) Hn eq_refl) as (C & St & Ex & Eo).
    run_local.
    match goal with
    | |- context [Local.start_bridge env cfg ?s3] =>
        assert (I3 : Inv s3) by keep_inv;
        destruct (local_start_bridge_spec s3 I3 C)
          as (r & s4 & -> & I4 & G4)
    end.
    destruct (grows_unobserved starting_bridge _ _ ltac:(by_cases) G4)
      as (St4 & Ex4 & _).
    cbn [push set_opencode_ready deliver set_suspensions set_shutdown_event
         set_procs trace] in St4, Ex4.
    cbn [app] in St, Ex, Eo. rewrite St in St4.
    destruct r as [[]|e|]; apply sat_intro;
      (split_and!; [exact I4| |intros _; exact St4]).
    + intros n' [= <-]. split_and!; auto.
      * rewrite Ex4. exact Ex.
      * intros c' N. rewrite Ex4. apply Eo, N.
    + intros n' [=].
    + intros n' [=].
Qed.

Lemma local_monitor_loop_spec hfuel fuel :
  forall opencode_restarts bridge_restarts s,
    Inv s -> stopped (trace s) = false ->
    exits Agent (trace s) = opencode_restarts ->
    exits Bridge (trace s) = bridge_restarts ->
    sat (Local.monitor_loop env cfg hfuel fuel
           opencode_restarts bridge_restarts s)
      (fun r s' => Inv s' /\ cut_short r s').
Proof.
  induction fuel as [|fuel IH]; intros rcount bcount s I NS Ea Eb.
  - apply sat_intro. split; [exact I|intros _; exact NS].
  - cbn [Local.monitor_loop].
    unfold bind at 1, get. cbv beta iota.
    destruct (shutdown_event s);
      [apply sat_intro; split; [exact I|discriminate]|].
    unfold bind at 1, sleep, bind at 1, emit, suspend, modify.
    cbv beta iota.
    assert (I0 : Inv (deliver env (push (Sleep 1000) s))) by keep_inv.
    assert (Eb0 : exits Bridge (trace (deliver env (push (Sleep 1000) s)))
                  = bcount) by exact Eb.
    eapply sat_bind;
      [apply (local_check_opencode_spec hfuel rcount _ I0 NS Ea) | | |];
      cbv beta;
      [|intros e s1 (I1 & _); split; [exact I1|discriminate]
       |intros s1 (I1 & _ & C1); split;
          [exact I1|intros _; apply C1; reflexivity]].
    intros [[] rcount'] s1 (I1 & K1 & _);
      [|apply sat_intro; split; [exact I1|discriminate]].
    destruct (K1 rcount' eq_refl) as (S1 & Ea1 & Eo1).
    eapply sat_bind;
      [apply (local_check_bridge_spec bcount s1 I1 S1);
       rewrite (Eo1 Bridge eq_refl); exact Eb0 | | |];
      cbv beta;
      [|intros e s2 (I2 & _); split; [exact I2|discriminate]
       |intros s2 (I2 & _ & C2); split;
          [exact I2|intros _; apply C2; reflexivity]].
    intros [[] bcount'] s2 (I2 & K2 & _);
      [|apply sat_intro; split; [exact I2|discriminate]].
    destruct (K2 bcount' eq_refl) as (S2 & Eb2 & Eo2).
    apply IH; [exact I2|exact S2| |exact Eb2].
    rewrite (Eo2 Agent eq_refl). exact Ea1.
Qed.

(** The body of the [try] in [run]. *)
Definition local_supervise (fuel : nat) : M State unit :=
  bind (Local.verify_workspace env) (fun verified =>
  if negb verified then ret tt
  else
    bind (Local.run_setup_script env) (fun _ =>
    bind (Local.start_opencode env fuel) (fun _ =>
    bind (Local.start_bridge env cfg) (fun _ =>
    Local.monitor_processes env cfg fuel)))).

Lemma local_run_unfold (fuel : nat) :
  Local.run env cfg fuel
  = try_finally (try_except (local_supervise fuel) (fun e => ret tt))
      (shutdown env).
Proof. reflexivity. Qed.

Lemma local_supervise_spec fuel s :
  Inv s -> trace s = [] ->
  sat (local_supervise fuel s) (fun r s' => Inv s' /\ cut_short r s').
Proof.
  intros I T. unfold local_supervise.
  assert (Quiet : forall A (r : result A) s',
             Inv s' -> unobserved s' -> Inv s' /\ cut_short r s').
  { intros A r s' I' U'. destruct (unobserved_running s' U') as (St & _).
    split; [exact I'|intros _; exact St]. }
  assert (U : unobserved s) by (unfold unobserved; rewrite T; reflexivity).
  unfold bind at 1, Local.verify_workspace, exists_, bind at 1, get, ret.
  cbv beta iota.
  destruct (negb _); [apply sat_intro; split; [exact I|discriminate]|].
  eapply sat_bind; [apply (local_run_setup_script_silent s I) | | |];
    cbv beta;
    [|intros e s1 (I1 & T1 & _); apply Quiet;
        [exact I1|eapply unobserved_same; eauto]
     |intros s1 (_ & _ & D); congruence].
  intros _ s1 (I1 & T1 & _).
  assert (T1' : trace s1 = []) by congruence.
  assert (U1 : unobserved s1) by (unfold unobserved; rewrite T1'; reflexivity).
  eapply sat_bind;
    [apply (local_start_opencode_spec fuel s1 I1); rewrite T1'; reflexivity
    | | |];
    cbv beta.
  2:{ intros e s2 (I2 & G2). apply Quiet; [exact I2|].
      eapply unobserved_grows; [|exact G2|exact U1]. by_cases. }
  2:{ intros s2 (I2 & G2). apply Quiet; [exact I2|].
      eapply unobserved_grows; [|exact G2|exact U1]. by_cases. }
  intros _ s2 (I2 & G2).
  assert (U2 : unobserved s2)
    by (eapply unobserved_grows; [|exact G2|exact U1]; by_cases).
  assert (C2 : can_spawn Bridge (trace s2) = true).
  { unfold can_spawn.
    destruct (unobserved_running s2 U2) as (-> & ->).
    destruct (grows_unconcerned starting_agent Bridge s1 s2
                ltac:(by_cases) G2) as (-> & ->).
    rewrite T1'. reflexivity. }
  eapply sat_bind; [apply (local_start_bridge_spec s2 I2 C2) | | |];
    cbv beta.
  2:{ intros e s3 (I3 & G3). apply Quiet; [exact I3|].
      eapply unobserved_grows; [|exact G3|exact U2]. by_cases. }
  2:{ intros s3 (I3 & G3). apply Quiet; [exact I3|].
      eapply unobserved_grows; [|exact G3|exact U2]. by_cases. }
  intros _ s3 (I3 & G3).
  assert (U3 : unobserved s3)
    by (eapply unobserved_grows; [|exact G3|exact U2]; by_cases).
  destruct (unobserved_running s3 U3) as (St & Ex).
  apply local_monitor_loop_spec; auto.
Qed.

Lemma local_run_spec fuel :
  sat (Local.run env cfg fuel initial)
    (fun r s' =>
       Inv s' /\ cut_short r s' /\
       (r <> Diverge -> r = Ok tt /\ after_shutdown s')).
Proof.
  rewrite local_run_unfold.
  eapply sat_try_finally with
    (P := fun r s1 => Inv s1 /\ cut_short r s1 /\ (r = Diverge \/ r = Ok tt)).
  - eapply sat_try_except;
      [apply (local_supervise_spec fuel initial Inv_initial eq_refl) | | |];
      cbv beta.
    + intros [] s1 (I1 & C1). auto.
    + intros e s1 (I1 & _). apply sat_intro.
      split_and!; auto. discriminate.
    + intros s1 (I1 & C1). auto.
  - intros r s2 (I2 & _ & Hr) Nd.
    destruct Hr as [-> | ->]; [congruence|].
    destruct (shutdown_spec env s2 I2)
      as (r3 & s3 & -> & -> & I3 & A3 & (nb & na & T3 & Eb & Ea) & _).
    apply sat_intro. cbn [finally_result].
    split_and!; [exact I3|discriminate|].
    intros _. split; [reflexivity|]. split; [exact A3|].
    exists (trace s2), nb, na. auto.
  - intros s1 (I1 & C1 & _). split_and!; auto. congruence.
Qed.

End LocalSpec.

End Discipline.

(** *** Whole runs of the two variants *)

(** Each spawn of the bridge comes after a successful health probe,
    with the latch [opencode_ready] set. *)
Definition bridge_after_ready (tr : list Event) : Prop :=
  forall after before pid,
    tr = after ++ Spawn Bridge pid :: before ->
    probed before = true /\ latch before = true.

(** The counter of each observed exit is the number of counted exits of
    that child so far, this one included. *)
Definition restarts_accounted (graceful : bool) (tr : list Event) : Prop :=
  forall after before c exit_code restarts,
    tr = after ++ ObservedExit c exit_code restarts :: before ->
    restarts
    = exits graceful c before + (if counted graceful c exit_code then 1 else 0).

(** After a counter beyond [MAX_RESTARTS] nothing is spawned and no
    exit observed. *)
Definition gives_up (tr : list Event) : Prop :=
  forall after before c exit_code restarts,
    tr = after ++ ObservedExit c exit_code restarts :: before ->
    MAX_RESTARTS < restarts ->
    forall e, In e after -> is_spawn e = false /\ is_observed e = false.

(** A counter beyond [MAX_RESTARTS] is followed by a fatal report. *)
Definition fatal_reported (tr : list Event) : Prop :=
  forall after before c exit_code restarts,
    tr = after ++ ObservedExit c exit_code restarts :: before ->
    MAX_RESTARTS < restarts ->
    exists message, In (Fatal message) after.

Definition spawn_bound (tr : list Event) : Prop :=
  forall c, spawns c tr <= MAX_RESTARTS + 1.

(** After an observed bridge exit with code 0 nothing is spawned and no
    exit observed. *)
Definition graceful_exit_final (tr : list Event) : Prop :=
  forall after before restarts,
    tr = after ++ ObservedExit Bridge 0 restarts :: before ->
    forall e, In e after -> is_spawn e = false /\ is_observed e = false.

(** An observed bridge exit with code 0. *)
Definition graceful_exit (e : Event) : bool :=
  match e with
  | ObservedExit Bridge exit_code _ => (exit_code =? 0)%Z
  | _ => false
  end.

(** A counter has gone beyond [MAX_RESTARTS]. *)
Definition gave_up (tr : list Event) : Prop :=
  exists after before c exit_code restarts,
    tr = after ++ ObservedExit c exit_code restarts :: before /\
    MAX_RESTARTS < restarts.

(** A bridge exit with code 0 has been observed. *)
Definition bridge_finished (tr : list Event) : Prop :=
  exists after before restarts,
    tr = after ++ ObservedExit Bridge 0 restarts :: before.

(** [run] has returned, through the shutdown sequence. *)
Definition shut_down (r : result unit) (s' : State) : Prop :=
  r = Ok tt /\ after_shutdown s'.

Lemma disciplined_bridge_after_ready graceful tr :
  disciplined graceful tr = true -> bridge_after_ready tr.
Proof.
  intros D after before pid ->. apply disciplined_at in D.
  cbn [allowed] in D.
  apply andb_true_iff in D as [D P]. apply andb_true_iff in D as [_ L].
  auto.
Qed.

Lemma disciplined_restarts_accounted graceful tr :
  disciplined graceful tr = true -> restarts_accounted graceful tr.
Proof.
  intros D after before c rc n ->. apply disciplined_at in D.
  cbn [allowed] in D. apply andb_true_iff in D as [_ D].
  apply Nat.eqb_eq in D. exact D.
Qed.

Lemma disciplined_gives_up graceful tr :
  disciplined graceful tr = true -> gives_up tr.
Proof.
  intros D after before c rc n -> Hn e He.
  eapply (nothing_after_stop graceful after); [exact D| |exact He].
  rewrite stopped_cons. cbn [stops].
  apply Nat.ltb_lt in Hn. rewrite Hn, orb_true_r. reflexivity.
Qed.

Lemma disciplined_graceful_exit_final tr :
  disciplined true tr = true -> graceful_exit_final tr.
Proof.
  intros D after before n -> e He.
  eapply (nothing_after_stop true after); [exact D| |exact He].
  rewrite stopped_cons. reflexivity.
Qed.

Lemma disciplined_spawn_bound graceful tr :
  disciplined graceful tr = true -> spawn_bound tr.
Proof. intros D c. apply (spawns_bounded graceful), D. Qed.

Lemma reported_fatal_reported tr :
  reported tr = true -> fatal_reported tr.
Proof.
  intros R after before c rc n -> Hn.
  eapply fatal_after_give_up; [exact R|]. apply Nat.ltb_lt, Hn.
Qed.

Lemma gave_up_stopped graceful tr :
  gave_up tr -> stopped graceful tr = true.
Proof.
  intros (after & before & c & rc & n & -> & Hn).
  apply stopped_app. rewrite stopped_cons. cbn [stops].
  apply Nat.ltb_lt in Hn. rewrite Hn, orb_true_r. reflexivity.
Qed.

Lemma bridge_finished_stopped tr :
  bridge_finished tr -> stopped true tr = true.
Proof.
  intros (after & before & n & ->).
  apply stopped_app. rewrite stopped_cons. reflexivity.
Qed.

(** A run whose monitor has stopped was not cut short: it has
    returned. *)
Lemma stopped_shut_down graceful r s' :
  cut_short graceful r s' ->
  (r <> Diverge -> r = Ok tt /\ after_shutdown s') ->
  stopped graceful (trace s') = true -> shut_down r s'.
Proof.
  intros C H St. apply H. intros ->.
  rewrite (C eq_refl) in St. discriminate.
Qed.

(** Where no bridge exit with code 0 was observed, the two ways of
    counting agree. *)
Lemma exits_without_graceful_exit c tr :
  existsb graceful_exit tr = false -> exits true c tr = exits false c tr.
Proof.
  induction tr as [|e tr IH]; [reflexivity|].
  cbn [existsb]. intros H. apply orb_false_iff in H as [He H].
  specialize (IH H).
  destruct e as [| | | |[] rc n| | | | | | |]; cbn [exits]; auto.
  cbn [graceful_exit] in He. cbn [counted]. rewrite He, IH. reflexivity.
Qed.

Lemma accounted_without_graceful_exit tr :
  existsb graceful_exit tr = false ->
  restarts_accounted false tr -> restarts_accounted true tr.
Proof.
  intros N H after before c rc n E. rewrite (H after before c rc n E).
  subst tr. rewrite existsb_app in N. apply orb_false_iff in N as [_ N].
  cbn [existsb] in N. apply orb_false_iff in N as [Ne N].
  rewrite (exits_without_graceful_exit c before N).
  destruct c; [reflexivity|].
  cbn [graceful_exit] in Ne. cbn [counted]. rewrite Ne. reflexivity.
Qed.

Lemma remote_run env cfg fuel :
  sat (Runtime.run env cfg fuel initial)
    (fun r s' =>
       Inv true s' /\ settled true s' /\ cut_short true r s' /\
       (r <> Diverge -> r = Ok tt /\ after_shutdown s')).
Proof. exact (run_spec true env cfg eq_refl fuel). Qed.

Lemma local_run env cfg fuel :
  sat (Local.run env cfg fuel initial)
    (fun r s' =>
       Inv false s' /\ cut_short false r s' /\
       (r <> Diverge -> r = Ok tt /\ after_shutdown s')).
Proof. exact (local_run_spec false env cfg eq_refl fuel). Qed.

(** *** A signal ends the remote session *)

Section Signalled.
Variable env : Env.
Variable cfg : Config.
(** The suspension during which the signal handler runs. *)
Variable t0 : nat.
Hypothesis signalled : signal env t0 = true.

(** Once that suspension is past, [shutdown_event] is set. *)
Definition Live (s : State) : Prop :=
  t0 < suspensions s -> shutdown_event s = true.

(** A part of the Supervisor has come to an end, no earlier than it
    began. *)
Definition ended {A} (s : State) (r : result A) (s' : State) : Prop :=
  Live s' /\ suspensions s <= suspensions s' /\ r <> Diverge.

Lemma Live_initial : Live initial.
Proof. intros H. cbn in H. lia. Qed.

Lemma Live_deliver s : Live s -> Live (deliver env s).
Proof.
  unfold Live.
  cbn [deliver set_suspensions set_shutdown_event set_procs suspensions
       shutdown_event].
  intros H Hlt. destruct (Nat.eq_dec (suspensions s) t0) as [E|N].
  - rewrite E, signalled. apply orb_true_r.
  - rewrite H by lia. reflexivity.
Qed.

Lemma Live_push e s : Live s -> Live (push e s).
Proof. intros H. exact H. Qed.

Lemma Live_set_procs f s : Live s -> Live (set_procs f s).
Proof. intros H. exact H. Qed.

Lemma Live_set_handle c h s : Live s -> Live (set_handle c h s).
Proof. intros H. exact H. Qed.

Lemma Live_set_opencode_ready b s : Live s -> Live (set_opencode_ready b s).
Proof. intros H. exact H. Qed.

Lemma Live_set_git_sync_complete b s :
  Live s -> Live (set_git_sync_complete b s).
Proof. intros H. exact H. Qed.

Lemma Live_shutdown_requested s : Live (set_shutdown_event true s).
Proof. intros _. reflexivity. Qed.

Ltac keep_live :=
  repeat first
    [ assumption
    | apply Live_shutdown_requested
    | apply Live_deliver
    | apply Live_push
    | apply Live_set_procs
    | apply Live_set_handle
    | apply Live_set_opencode_ready
    | apply Live_set_git_sync_complete ].

(** The suspensions passed by a state built from another. *)
Ltac count_suspensions :=
  cbn [deliver push set_procs set_handle set_shutdown_event
       set_git_sync_complete set_opencode_ready set_suspensions
       suspensions] in *;
  lia.

(** Close a leaf of the symbolic execution. *)
Ltac leaf :=
  apply sat_intro; unfold ended;
  repeat match goal with |- _ /\ _ => split end;
  first [ discriminate
        | solve [keep_live]
        | count_suspensions
        | solve [cbn; auto]
        | intros ? [=] ].

(** Before the signal, [shutdown_event] found unset tells the time. *)
Lemma not_yet s : Live s -> shutdown_event s = false -> suspensions s <= t0.
Proof.
  intros L Sd. destruct (le_lt_dec (suspensions s) t0) as [H|H]; [exact H|].
  rewrite (L H) in Sd. discriminate.
Qed.

Lemma health_loop_ends timeout failure start fuel :
  forall s, Live s -> t0 + 1 - suspensions s < fuel ->
  sat (health_loop env timeout failure start fuel s) (ended s).
Proof.
  induction fuel as [|fuel IH]; intros s L B; [lia|].
  cbn [health_loop].
  unfold bind at 1, now, bind at 1, get, ret. cbv beta iota.
  destruct (_ <? _)%Z; [|leaf].
  unfold bind at 1. cbv beta iota.
  destruct (shutdown_event s) eqn:Sd; [leaf|].
  pose proof (not_yet s L Sd) as Le.
  unfold bind at 1, get_health, bind, get, suspend, modify, ret.
  cbv beta iota.
  destruct (is_200 _); [unfold emit, modify; leaf|].
  unfold sleep, emit, suspend, bind, modify. cbv beta iota.
  eapply sat_conseq; [apply IH; [keep_live|count_suspensions]|].
  intros r s' (L' & M & D). unfold ended. split_and!; auto.
  count_suspensions.
Qed.

Lemma start_agent_ends timeout failure fuel s :
  Live s -> t0 + 1 < fuel ->
  sat (start_agent env timeout failure fuel s)
    (fun r s' => ended s r s' /\ (r = Ok tt -> opencode_ready s' = true)).
Proof.
  intros L B. unfold start_agent, Runtime.install_plugin, wait_for_health.
  run_sup.
  destruct (install_assets env (suspensions s)); [leaf|].
  destruct (create_subprocess_exec env (suspensions s)); [leaf|].
  match goal with
  | |- context [health_loop env timeout failure ?start fuel ?s1] =>
      destruct (health_loop_ends timeout failure start fuel s1)
        as (r & s2 & -> & L2 & M2 & D2); [keep_live|lia|]
  end.
  destruct r as [[]|e|]; leaf.
Qed.

Lemma start_bridge_ends s :
  Live s -> opencode_ready s = true ->
  sat (Runtime.start_bridge env cfg s)
    (fun r s' => ended s r s' /\ opencode_ready s' = true).
Proof.
  intros L R. unfold Runtime.start_bridge.
  destruct (negb (truthy (control_plane_url cfg))); [leaf|].
  run_sup. rewrite R.
  destruct (negb (truthy (session_id cfg))); run_sup; [leaf|].
  destruct (create_subprocess_exec env (suspensions s)); [leaf|].
  match goal with
  | |- context [returncode_of ?h ?s2] => destruct (returncode_of h s2)
  end; leaf.
Qed.

Lemma check_opencode_ends fuel n s :
  Live s -> opencode_ready s = true -> t0 + 1 < fuel ->
  sat (Runtime.check_opencode env cfg fuel n s)
    (fun r s' => ended s r s' /\
       forall n', r = Ok (Continue, n') -> opencode_ready s' = true).
Proof.
  intros L R B. unfold Runtime.check_opencode.
  unfold bind at 1, get. cbv beta iota.
  destruct (returncode_of (opencode_process s) s) as [rc|]; [|leaf].
  unfold bind at 1, emit at 1, modify at 1. cbv beta iota.
  destruct (MAX_RESTARTS <? S n).
  - run_runtime. destruct (truthy (control_plane_url cfg)); run_runtime; leaf.
  - run_sup.
    match goal with
    | |- context [Runtime.start_opencode env fuel ?s3] =>
        destruct (start_agent_ends Runtime.HEALTH_CHECK_TIMEOUT
                    "OpenCode server failed to become healthy" fuel s3)
          as (r & s4 & E & (L4 & M4 & D4) & R4); [keep_live|exact B|];
        change (Runtime.start_opencode env fuel s3) with
          (start_agent env Runtime.HEALTH_CHECK_TIMEOUT
             "OpenCode server failed to become healthy" fuel s3);
        rewrite E
    end.
    destruct r as [[]|e|]; [|leaf|congruence].
    apply sat_intro. unfold ended. split_and!;
      [exact L4|count_suspensions|discriminate|].
    intros n' _. apply R4. reflexivity.
Qed.

Lemma check_bridge_ends n s :
  Live s -> opencode_ready s = true ->
  sat (Runtime.check_bridge env cfg n s)
    (fun r s' => ended s r s' /\ opencode_ready s' = true).
Proof.
  intros L R. unfold Runtime.check_bridge.
  unfold bind at 1, get. cbv beta iota.
  destruct (returncode_of (bridge_process s) s) as [rc|]; [|leaf].
  destruct (rc =? 0)%Z; [run_sup; leaf|].
  unfold bind at 1, emit at 1, modify at 1. cbv beta iota.
  destruct (MAX_RESTARTS <? S n).
  - run_runtime. destruct (truthy (control_plane_url cfg)); run_runtime; leaf.
  - run_sup.
    match goal with
    | |- context [Runtime.start_bridge env cfg ?s3] =>
        destruct (start_bridge_ends s3)
          as (r & s4 & -> & (L4 & M4 & D4) & R4); [keep_live|exact R|]
    end.
    destruct r as [[]|e|]; [|leaf|congruence].
    apply sat_intro. unfold ended. split_and!;
      [exact L4|count_suspensions|discriminate|exact R4].
Qed.

Lemma monitor_loop_ends hfuel fuel :
  t0 + 1 < hfuel ->
  forall restart_count bridge_restart_count s,
    Live s -> opencode_ready s = true ->
    t0 + 1 - suspensions s < fuel ->
    fst (Runtime.monitor_loop env cfg hfuel fuel
           restart_count bridge_restart_count s) <> Diverge.
Proof.
  intros Bh.
  induction fuel as [|fuel IH]; intros rcount bcount s L R B; [lia|].
  cbn [Runtime.monitor_loop].
  unfold bind at 1, get. cbv beta iota.
  destruct (shutdown_event s) eqn:Sd; [discriminate|].
  pose proof (not_yet s L Sd) as Le.
  unfold bind at 1.
  destruct (check_opencode_ends hfuel rcount s L R Bh)
    as (r1 & s1 & -> & (L1 & M1 & D1) & R1).
  destruct r1 as [[[] rcount']|e|]; [|discriminate|discriminate|congruence].
  specialize (R1 rcount' eq_refl).
  unfold bind at 1.
  destruct (check_bridge_ends bcount s1 L1 R1)
    as (r2 & s2 & -> & (L2 & M2 & D2) & R2).
  destruct r2 as [[[] bcount']|e|]; [|discriminate|discriminate|congruence].
  run_sup. apply IH; [keep_live|exact R2|count_suspensions].
Qed.

Lemma sync_with_remote_ends token s :
  Live s -> sat (Runtime.sync_with_remote env token s) (ended s).
Proof.
  intros L. run_runtime. repeat (case_env; run_runtime). all: leaf.
Qed.

Lemma perform_git_sync_ends s :
  Live s -> sat (Runtime.perform_git_sync env cfg s) (ended s).
Proof.
  intros L. unfold Runtime.perform_git_sync, bind at 1.
  assert (T : exists token,
             Runtime._generate_github_token env cfg s = (Ok token, s)).
  { unfold Runtime._generate_github_token, try_except.
    destruct (truthy _); [eexists; reflexivity|].
    destruct (_ && _); [|eexists; reflexivity].
    destruct (generate_installation_token env); eexists; reflexivity. }
  destruct T as [token ->].
  unfold bind at 1, exists_, bind at 1, get, ret. cbv beta iota.
  destruct (negb _); [|apply sync_with_remote_ends, L].
  destruct (_ || _); [run_runtime; leaf|].
  unfold bind at 1, await, bind at 1, suspend, modify, call. cbv beta iota.
  destruct (git_clone env) as [code|e]; [|leaf].
  cbn [ret]. destruct (negb _); [run_runtime; leaf|].
  eapply sat_conseq; [apply sync_with_remote_ends; keep_live|].
  intros r s' (L' & M & D). unfold ended. split_and!; auto.
  count_suspensions.
Qed.

Lemma configure_git_identity_ends s :
  Live s -> sat (Runtime.configure_git_identity env cfg s) (ended s).
Proof.
  intros L. run_runtime. repeat (case_env; run_runtime). all: leaf.
Qed.

Lemma run_setup_script_ends s :
  Live s -> sat (Runtime.run_setup_script env s) (ended s).
Proof.
  intros L. run_runtime. repeat (case_env; run_runtime). all: leaf.
Qed.

Lemma supervise_ends fuel s :
  Live s -> t0 + 1 < fuel -> fst (supervise env cfg fuel s) <> Diverge.
Proof.
  intros L B. unfold supervise.
  unfold bind at 1.
  destruct (perform_git_sync_ends s L) as (r1 & s1 & -> & L1 & M1 & D1).
  destruct r1 as [b1|e|]; [|discriminate|congruence].
  unfold bind at 1.
  destruct (configure_git_identity_ends s1 L1)
    as (r2 & s2 & -> & L2 & M2 & D2).
  destruct r2 as [[]|e|]; [|discriminate|congruence].
  unfold bind at 1.
  destruct (run_setup_script_ends s2 L2) as (r3 & s3 & -> & L3 & M3 & D3).
  destruct r3 as [b3|e|]; [|discriminate|congruence].
  unfold bind at 1.
  destruct (start_agent_ends Runtime.HEALTH_CHECK_TIMEOUT
              "OpenCode server failed to become healthy" fuel s3 L3 B)
    as (r4 & s4 & E4 & (L4 & M4 & D4) & R4).
  change (Runtime.start_opencode env fuel s3) with
    (start_agent env Runtime.HEALTH_CHECK_TIMEOUT
       "OpenCode server failed to become healthy" fuel s3).
  rewrite E4.
  destruct r4 as [[]|e|]; [|discriminate|congruence].
  specialize (R4 eq_refl).
  unfold bind at 1.
  destruct (start_bridge_ends s4 L4 R4)
    as (r5 & s5 & -> & (L5 & M5 & D5) & R5).
  destruct r5 as [[]|e|]; [|discriminate|congruence].
  apply monitor_loop_ends; auto. lia.
Qed.

Lemma stop_child_returns c timeout s :
  exists s', stop_child env c timeout s = (Ok tt, s').
Proof.
  unfold stop_child. run_sup.
  destruct (handle c s); [|eexists; reflexivity].
  destruct (returncode_of _ s); [eexists; reflexivity|].
  match goal with
  | |- context [returncode_of ?h ?s2] => destruct (returncode_of h s2)
  end; eexists; reflexivity.
Qed.

Lemma shutdown_returns s : exists s', shutdown env s = (Ok tt, s').
Proof.
  unfold shutdown.
  unfold bind at 1, emit at 1, modify at 1. cbv beta iota.
  unfold bind at 1.
  destruct (stop_child_returns Bridge 5000 (push ShutdownStart s)) as [s1 ->].
  unfold bind at 1.
  destruct (stop_child_returns Agent 10000 s1) as [s2 ->].
  eexists. reflexivity.
Qed.

(** With a budget beyond the time of the signal, [run] comes to an
    end. *)
Lemma run_ends fuel :
  t0 + 1 < fuel -> fst (Runtime.run env cfg fuel initial) <> Diverge.
Proof.
  intros B. rewrite run_unfold. unfold try_finally, try_except.
  pose proof (supervise_ends fuel initial Live_initial B) as D.
  destruct (supervise env cfg fuel initial) as [[[]|e|] s1];
    [| |cbn in D; congruence].
  - destruct (shutdown_returns s1) as [s2 ->]. discriminate.
  - assert (F : exists s2,
               Runtime._report_fatal_error env cfg (str e) s1 = (Ok tt, s2)).
    { run_runtime. destruct (truthy (control_plane_url cfg));
        eexists; reflexivity. }
    destruct F as [s2 ->].
    destruct (shutdown_returns s2) as [s3 ->]. discriminate.
Qed.

End Signalled.

(** *** The claims about the Supervisor *)

(** C5.  In no execution of either variant, cut off anywhere or run to
    its end, is the bridge spawned (at startup or at a restart) before a
    health probe of the agent has succeeded and [opencode_ready] is
    set. *)
Theorem bridge_spawned_only_when_agent_ready env cfg fuel :
  sat (Runtime.run env cfg fuel initial)
    (fun _ s' => bridge_after_ready (trace s')) /\
  sat (Local.run env cfg fuel initial)
    (fun _ s' => bridge_after_ready (trace s')).
Proof.
  split.
  - eapply sat_conseq; [apply remote_run|]. intros r s' (I & _).
    eapply disciplined_bridge_after_ready, inv_trace, I.
  - eapply sat_conseq; [apply local_run|]. intros r s' (I & _).
    eapply disciplined_bridge_after_ready, inv_trace, I.
Qed.

(** A session in which the bridge is spawned, after the probe. *)
Lemma bridge_spawned_only_when_agent_ready_witness :
  In (Spawn Bridge 1)
     (trace (snd (Runtime.run (steady 200 100) session 2 initial))) /\
  bridge_after_ready
     (trace (snd (Runtime.run (steady 200 100) session 2 initial))).
Proof.
  split; [vm_compute; tauto|].
  destruct (proj1 (bridge_spawned_only_when_agent_ready
                     (steady 200 100) session 2))
    as (r & s' & E & H).
  rewrite E. exact H.
Defined.

(** C3, as the code has it.  In every execution the counter recorded
    with an observed exit is the number of counted exits of that child
    so far, this one included: every agent exit counts, and every bridge
    exit with a non-zero code.  A bridge exit with code 0 leaves the
    counter of the remote variant as it is; the local variant counts
    every observed exit, so that its runs without such an exit count
    as the remote variant does.  The counters are never reset.  Once a counter exceeds [MAX_RESTARTS] nothing is
    spawned any more, [run] goes through the shutdown sequence and
    returns, and no child is spawned more than [MAX_RESTARTS + 1]
    times.  The remote variant then also reports a fatal error and sets
    [shutdown_event]. *)
Theorem restart_counters_follow_counted_exits env cfg fuel :
  sat (Runtime.run env cfg fuel initial)
    (fun r s' =>
       restarts_accounted true (trace s') /\
       gives_up (trace s') /\
       spawn_bound (trace s') /\
       fatal_reported (trace s') /\
       (gave_up (trace s') -> shutdown_event s' = true /\ shut_down r s')) /\
  sat (Local.run env cfg fuel initial)
    (fun r s' =>
       restarts_accounted false (trace s') /\
       (existsb graceful_exit (trace s') = false ->
        restarts_accounted true (trace s')) /\
       gives_up (trace s') /\
       spawn_bound (trace s') /\
       (gave_up (trace s') -> shut_down r s')).
Proof.
  split.
  - eapply sat_conseq; [apply remote_run|].
    intros r s' (I & (R & W) & C & H).
    pose proof (inv_trace _ _ I) as D. split_and!.
    + apply disciplined_restarts_accounted, D.
    + eapply disciplined_gives_up, D.
    + eapply disciplined_spawn_bound, D.
    + apply reported_fatal_reported, R.
    + intros G. apply (gave_up_stopped true) in G. split; [apply W, G|].
      eapply stopped_shut_down; eauto.
  - eapply sat_conseq; [apply local_run|].
    intros r s' (I & C & H).
    pose proof (inv_trace _ _ I) as D. split_and!.
    + apply disciplined_restarts_accounted, D.
    + intros N. apply accounted_without_graceful_exit; [exact N|].
      apply disciplined_restarts_accounted, D.
    + eapply disciplined_gives_up, D.
    + eapply disciplined_spawn_bound, D.
    + intros G. apply (gave_up_stopped false) in G.
      eapply stopped_shut_down; eauto.
Qed.

(** A bridge that crashes on every spawn is spawned six times, in
    either variant; the remote variant reports the fatal error. *)
Lemma restart_counters_follow_counted_exits_witness :
  spawns Bridge (trace (snd (Runtime.run crash_loop session 7 initial))) = 6 /\
  spawn_bound (trace (snd (Runtime.run crash_loop session 7 initial))) /\
  fatal_reported (trace (snd (Runtime.run crash_loop session 7 initial))) /\
  spawns Bridge (trace (snd (Local.run crash_loop session 7 initial))) = 6 /\
  restarts_accounted false
    (trace (snd (Local.run crash_loop session 7 initial))) /\
  restarts_accounted true
    (trace (snd (Local.run crash_loop session 7 initial))).
Proof.
  destruct (restart_counters_follow_counted_exits crash_loop session 7)
    as ((r & s' & E & H) & (r2 & s2 & E2 & H2)).
  split; [vm_compute; reflexivity|].
  split; [rewrite E; apply H|].
  split; [rewrite E; apply H|].
  split; [vm_compute; reflexivity|].
  split; [rewrite E2; apply H2|].
  rewrite E2. apply H2.
  change s2 with (snd (r2, s2)). rewrite <- E2. vm_compute. reflexivity.
Defined.

(** C3 as claimed fails.  With every observed exit counted, the remote
    run in which the bridge exits with code 0 is not accounted for: that
    exit is observed and leaves the counter at 0.  And the local run in
    which the bridge crashes on every spawn gives up at counter 6
    without any fatal report. *)
Lemma graceful_exit_leaves_counter_unchanged :
  history (snd (Runtime.run bridge_done session 1 initial))
  = [Spawn Agent 0; HealthOk; ReadySet; Spawn Bridge 1; Sleep 500;
     ObservedExit Bridge 0 0;
     ShutdownStart; Terminate 0; WaitFor 0 10000; Kill 0; ShutdownComplete] /\
  ~ restarts_accounted false
      (trace (snd (Runtime.run bridge_done session 1 initial))) /\
  In (ObservedExit Bridge 1 6)
     (trace (snd (Local.run crash_loop session 7 initial))) /\
  ~ fatal_reported (trace (snd (Local.run crash_loop session 7 initial))).
Proof.
  split_and!.
  - vm_compute. reflexivity.
  - intros H.
    specialize (H [ShutdownComplete; Kill 0; WaitFor 0 10000; Terminate 0;
                   ShutdownStart]
                  [Sleep 500; Spawn Bridge 1; ReadySet; HealthOk;
                   Spawn Agent 0]
                  Bridge 0%Z 0 ltac:(vm_compute; reflexivity)).
    cbn in H. discriminate.
  - vm_compute. tauto.
  - intros H.
    destruct (H [ShutdownComplete; Kill 0; WaitFor 0 10000; Terminate 0;
                 ShutdownStart]
                (tl (tl (tl (tl (tl (tl
                   (trace (snd (Local.run crash_loop session 7 initial)))))))))
                Bridge 1%Z 6 ltac:(vm_compute; reflexivity) ltac:(unfold MAX_RESTARTS; lia))
      as [message Hm].
    cbn in Hm. intuition discriminate.
Qed.

(** C4.  In every execution of the remote variant, after an observed
    bridge exit with code 0 nothing is spawned any more,
    [shutdown_event] is set, and [run] goes through the shutdown
    sequence and returns.  The local variant counts such an exit as a
    crash and spawns the bridge again. *)
Theorem graceful_bridge_exit env cfg fuel :
  sat (Runtime.run env cfg fuel initial)
    (fun r s' =>
       graceful_exit_final (trace s') /\
       (bridge_finished (trace s') ->
        shutdown_event s' = true /\ shut_down r s')) /\
  history (snd (Local.run bridge_done session 2 initial))
  = [Spawn Agent 0; HealthOk; ReadySet; Spawn Bridge 1; Sleep 500;
     Sleep 1000; ObservedExit Bridge 0 1; Sleep 2000;
     Spawn Bridge 2; Sleep 500; Sleep 1000].
Proof.
  split; [|vm_compute; reflexivity].
  eapply sat_conseq; [apply remote_run|].
  intros r s' (I & (_ & W) & C & H). split.
  - apply disciplined_graceful_exit_final, (inv_trace _ _ I).
  - intros G. apply bridge_finished_stopped in G. split; [apply W, G|].
    eapply stopped_shut_down; eauto.
Qed.

(** The bridge of a remote session exits with code 0: no restart, and
    the session is shut down. *)
Example bridge_done_run :
  fst (Runtime.run bridge_done session 1 initial) = Ok tt /\
  bridge_finished (trace (snd (Runtime.run bridge_done session 1 initial))) /\
  shutdown_event (snd (Runtime.run bridge_done session 1 initial)) = true.
Proof.
  split_and!; [reflexivity| |reflexivity].
  exists [ShutdownComplete; Kill 0; WaitFor 0 10000; Terminate 0;
          ShutdownStart],
         [Sleep 500; Spawn Bridge 1; ReadySet; HealthOk; Spawn Agent 0], 0.
  reflexivity.
Qed.

(** The state in which
    [await asyncio.wait_for(process.wait(), timeout=...)] comes back,
    SIGTERM sent to the child [pid]. *)
Definition after_wait (env : Env) (pid : nat) (timeout : Z) (s : State)
  : State :=
  deliver env
    (push (WaitFor pid timeout)
       (push (Terminate pid) (set_procs (alter with_sigterm pid) s))).

(** How the shutdown deals with the child of kind [c], from the state
    [s] in which its turn comes to the state it is left in, with the
    events added (most recent first).  A child that is absent or has
    exited is left alone.  A child that still runs is sent SIGTERM and
    waited for; it is sent SIGKILL exactly when it has not exited by
    the end of the wait. *)
Inductive child_stop (env : Env) (c : Child) (timeout : Z) (s : State)
  : State -> list Event -> Prop :=
| stop_absent :
    handle c s = None ->
    child_stop env c timeout s s []
| stop_exited pid exit_code :
    handle c s = Some pid ->
    returncode_of (Some pid) s = Some exit_code ->
    child_stop env c timeout s s []
| stop_in_time pid exit_code :
    handle c s = Some pid ->
    returncode_of (Some pid) s = None ->
    returncode_of (Some pid) (after_wait env pid timeout s) = Some exit_code ->
    child_stop env c timeout s (after_wait env pid timeout s)
      [WaitFor pid timeout; Terminate pid]
| stop_on_timeout pid :
    handle c s = Some pid ->
    returncode_of (Some pid) s = None ->
    returncode_of (Some pid) (after_wait env pid timeout s) = None ->
    child_stop env c timeout s
      (push (Kill pid)
         (set_procs (alter with_sigkill pid) (after_wait env pid timeout s)))
      [Kill pid; WaitFor pid timeout; Terminate pid].

(** The state [s'] is what the shutdown sequence leaves of some state
    [s0]: the bridge first, with 5 s, then the agent, with 10 s. *)
Definition shutdown_sequence (env : Env) (s' : State) : Prop :=
  exists s0 s1 s2 stop_bridge stop_agent,
    child_stop env Bridge 5000 (push ShutdownStart s0) s1 stop_bridge /\
    child_stop env Agent 10000 s1 s2 stop_agent /\
    s' = push ShutdownComplete s2 /\
    trace s' = ShutdownComplete :: stop_agent ++ stop_bridge
                 ++ ShutdownStart :: trace s0.

(** A child that still runs when its turn comes is terminated and
    waited for. *)
Lemma running_child_is_terminated env c timeout s s' new pid :
  child_stop env c timeout s s' new ->
  handle c s = Some pid -> returncode_of (Some pid) s = None ->
  exists rest, new = rest ++ [WaitFor pid timeout; Terminate pid].
Proof.
  intros [H|q rc H R|q rc H R W|q H R W] Hh Hr.
  - congruence.
  - assert (q = pid) as -> by congruence. congruence.
  - assert (q = pid) as -> by congruence. exists []. reflexivity.
  - assert (q = pid) as -> by congruence. exists [Kill pid]. reflexivity.
Qed.

(** SIGKILL is only sent to a child that was terminated, waited for,
    and had not exited when the wait was over. *)
Lemma kill_only_on_timeout env c timeout s s' new pid :
  child_stop env c timeout s s' new ->
  In (Kill pid) new ->
  handle c s = Some pid /\
  new = [Kill pid; WaitFor pid timeout; Terminate pid] /\
  returncode_of (Some pid) (after_wait env pid timeout s) = None.
Proof.
  intros [H|q rc H R|q rc H R W|q H R W] Hin.
  - destruct Hin.
  - destruct Hin.
  - destruct Hin as [E|[E|[]]]; discriminate.
  - destruct Hin as [E|[E|[E|[]]]]; try discriminate.
    injection E as ->. auto.
Qed.

Lemma stop_child_stops env c timeout s :
  exists s' new,
    stop_child env c timeout s = (Ok tt, s') /\
    child_stop env c timeout s s' new /\
    trace s' = new ++ trace s.
Proof.
  unfold stop_child. unfold bind at 1, get. cbv beta iota.
  destruct (handle c s) as [pid|] eqn:Hh.
  2:{ exists s, []. split; [reflexivity|]. split; [|reflexivity].
      apply stop_absent, Hh. }
  destruct (returncode_of (Some pid) s) as [rc|] eqn:Hrc.
  { exists s, []. split; [reflexivity|]. split; [|reflexivity].
    eapply stop_exited; eauto. }
  cbv beta iota delta [bind modify emit suspend get ret].
  change (deliver env
            (push (WaitFor pid timeout)
               (push (Terminate pid) (set_procs (alter with_sigterm pid) s))))
    with (after_wait env pid timeout s).
  destruct (returncode_of (Some pid) (after_wait env pid timeout s))
    as [rc|] eqn:Hw.
  - eexists; eexists. split; [reflexivity|]. split.
    + eapply stop_in_time; eauto.
    + reflexivity.
  - eexists; eexists. split; [reflexivity|]. split.
    + eapply stop_on_timeout; eauto.
    + reflexivity.
Qed.

Lemma shutdown_stops env s :
  exists s', shutdown env s = (Ok tt, s') /\ shutdown_sequence env s'.
Proof.
  unfold shutdown.
  unfold bind at 1, emit at 1, modify at 1. cbv beta iota.
  destruct (stop_child_stops env Bridge 5000 (push ShutdownStart s))
    as (s1 & nb & E1 & S1 & T1).
  unfold bind at 1. rewrite E1.
  destruct (stop_child_stops env Agent 10000 s1) as (s2 & na & E2 & S2 & T2).
  unfold bind at 1. rewrite E2.
  unfold emit, modify.
  exists (push ShutdownComplete s2). split; [reflexivity|].
  exists s, s1, s2, nb, na. split_and!; auto.
  cbn [push trace]. rewrite T2, T1. reflexivity.
Qed.

(** What a [try ... finally] that comes back leaves is what its
    cleanup left. *)
Lemma try_finally_cleanup {S A} (body : M S A) (cleanup : M S unit) s r s' :
  try_finally body cleanup s = (r, s') -> r <> Diverge ->
  exists s0 r1, cleanup s0 = (r1, s').
Proof.
  unfold try_finally. intros E D.
  destruct (body s) as [[a|e|] s0].
  - destruct (cleanup s0) as [[[]|e1|] s1] eqn:Ec;
      injection E as <- <-; eauto; congruence.
  - destruct (cleanup s0) as [[[]|e1|] s1] eqn:Ec;
      injection E as <- <-; eauto; congruence.
  - injection E as <- <-. congruence.
Qed.

Lemma ends_in_shutdown_sequence {A} env (body : M State A) s r s' :
  try_finally body (shutdown env) s = (r, s') -> r <> Diverge ->
  shutdown_sequence env s'.
Proof.
  intros E D.
  destruct (try_finally_cleanup _ _ _ _ _ E D) as (s0 & r1 & Ec).
  destruct (shutdown_stops env s0) as (s'' & Es & H).
  rewrite Es in Ec. injection Ec as _ <-. exact H.
Qed.

(** Every child that has not exited was sent SIGKILL after it had been
    terminated and waited for. *)
Definition killed_after_wait (s' : State) : Prop :=
  forall pid p,
    procs s' !! pid = Some p -> returncode p = None ->
    exists timeout after before,
      trace s' = after ++ Kill pid :: WaitFor pid timeout :: Terminate pid
                   :: before.

Lemma returncode_of_signal h f pid s :
  (forall p, returncode (f p) = returncode p) ->
  returncode_of h (set_procs (alter f pid) s) = returncode_of h s.
Proof.
  intros F. destruct h as [q|]; [|reflexivity].
  unfold returncode_of. cbn [set_procs procs]. rewrite list_lookup_alter.
  destruct (decide (pid = q)) as [->|_]; [|reflexivity].
  destruct (procs s !! q); [cbn; apply F|reflexivity].
Qed.

Lemma returncode_of_deliver env h s exit_code :
  returncode_of h s = Some exit_code ->
  returncode_of h (deliver env s) = Some exit_code.
Proof.
  destruct h as [q|]; [|discriminate]. unfold returncode_of.
  cbn [deliver set_suspensions set_shutdown_event set_procs procs].
  rewrite list_lookup_imap.
  destruct (procs s !! q) as [p|]; [|discriminate]. cbn.
  intros E. rewrite E. exact E.
Qed.

Lemma returncode_of_after_wait env h pid timeout s exit_code :
  returncode_of h s = Some exit_code ->
  returncode_of h (after_wait env pid timeout s) = Some exit_code.
Proof.
  intros E. unfold after_wait. apply returncode_of_deliver.
  change (returncode_of h (set_procs (alter with_sigterm pid) s)
          = Some exit_code).
  rewrite returncode_of_signal; [exact E|reflexivity].
Qed.

Lemma returncode_of_killed env h pid timeout s :
  returncode_of h
    (push (Kill pid)
       (set_procs (alter with_sigkill pid) (after_wait env pid timeout s)))
  = returncode_of h (after_wait env pid timeout s).
Proof.
  change (returncode_of h
            (set_procs (alter with_sigkill pid) (after_wait env pid timeout s))
          = returncode_of h (after_wait env pid timeout s)).
  apply returncode_of_signal. reflexivity.
Qed.

Lemma handle_after_wait env c pid timeout s :
  handle c (after_wait env pid timeout s) = handle c s.
Proof. destruct c; reflexivity. Qed.

(** Stopping leaves the handles alone, and an exit that was seen stays
    seen. *)
Lemma child_stop_handles env c timeout s s' new c' :
  child_stop env c timeout s s' new -> handle c' s' = handle c' s.
Proof.
  intros [H|q rc H R|q rc H R W|q H R W]; destruct c'; reflexivity.
Qed.

Lemma child_stop_keeps_exit env c timeout s s' new h exit_code :
  child_stop env c timeout s s' new ->
  returncode_of h s = Some exit_code -> returncode_of h s' = Some exit_code.
Proof.
  intros [H|q rc H R|q rc H R W|q H R W] E; auto.
  - apply returncode_of_after_wait, E.
  - rewrite returncode_of_killed. apply returncode_of_after_wait, E.
Qed.

(** A child that has not exited when its stop is over was killed on
    timeout. *)
Lemma child_stop_unexited env c timeout s s' new pid :
  child_stop env c timeout s s' new ->
  handle c s = Some pid -> returncode_of (Some pid) s' = None ->
  new = [Kill pid; WaitFor pid timeout; Terminate pid].
Proof.
  intros [H|q rc H R|q rc H R W|q H R W] Hh Hr.
  - congruence.
  - assert (q = pid) as -> by congruence. congruence.
  - assert (q = pid) as -> by congruence. congruence.
  - assert (q = pid) as -> by congruence. reflexivity.
Qed.

Lemma unexited_children_were_killed env s' :
  shutdown_sequence env s' ->
  (forall pid p, procs s' !! pid = Some p -> returncode p = None ->
                 exists c, handle c s' = Some pid) ->
  killed_after_wait s'.
Proof.
  intros (s0 & s1 & s2 & nb & na & Sb & Sa & -> & T) Live pid p Hp Er.
  destruct (Live pid p Hp Er) as [c Hc].
  rewrite handle_push in Hc. cbn [push procs] in Hp.
  assert (R2 : returncode_of (Some pid) s2 = None).
  { unfold returncode_of. rewrite Hp. exact Er. }
  destruct c.
  - (* the agent *)
    rewrite (child_stop_handles _ _ _ _ _ _ Agent Sa) in Hc.
    pose proof (child_stop_unexited _ _ _ _ _ _ pid Sa Hc R2) as ->.
    exists 10000%Z, [ShutdownComplete], (nb ++ ShutdownStart :: trace s0).
    rewrite T. reflexivity.
  - (* the bridge *)
    rewrite (child_stop_handles _ _ _ _ _ _ Bridge Sa) in Hc.
    assert (R1 : returncode_of (Some pid) s1 = None).
    { destruct (returncode_of (Some pid) s1) as [rc|] eqn:E; [|reflexivity].
      rewrite (child_stop_keeps_exit _ _ _ _ _ _ _ _ Sa E) in R2.
      discriminate. }
    rewrite (child_stop_handles _ _ _ _ _ _ Bridge Sb) in Hc.
    pose proof (child_stop_unexited _ _ _ _ _ _ pid Sb Hc R1) as ->.
    exists 5000%Z, (ShutdownComplete :: na), (ShutdownStart :: trace s0).
    rewrite T. reflexivity.
Qed.

(** What [run] has done when it returns: the shutdown sequence, which
    leaves every child exited or, after terminate and wait, sent
    SIGKILL. *)
Definition shut_down_in_order (env : Env) (r : result unit) (s' : State)
  : Prop :=
  shut_down r s' /\ shutdown_sequence env s' /\ killed_after_wait s'.

(** C6, as the code has it.  [run] never lets an exception escape, in
    either variant.  Whenever it returns, the shutdown sequence is the
    last thing it has done: the bridge, if it still runs when the
    sequence starts, is sent SIGTERM and waited for up to 5 s, and is
    sent SIGKILL exactly when it has not exited by then; after that the
    agent likewise, with 10 s; a child that is absent or has exited is
    left alone.  Every child ever created has by then exited or been
    sent SIGKILL, and the latter only after it was terminated and
    waited for.  And a signal does make the remote [run] return: with
    a budget beyond the suspension in which the handler runs, the run
    ends that way. *)
Theorem shutdown_on_every_exit_path env cfg fuel :
  sat (Runtime.run env cfg fuel initial)
    (fun r s' => r <> Diverge -> shut_down_in_order env r s') /\
  sat (Local.run env cfg fuel initial)
    (fun r s' => r <> Diverge -> shut_down_in_order env r s') /\
  (forall t0, signal env t0 = true -> t0 + 1 < fuel ->
     sat (Runtime.run env cfg fuel initial) (shut_down_in_order env)).
Proof.
  assert (Remote : sat (Runtime.run env cfg fuel initial)
                     (fun r s' => r <> Diverge -> shut_down_in_order env r s')).
  { destruct (remote_run env cfg fuel) as (r & s' & E & I & _ & _ & H).
    rewrite E. apply sat_intro. intros D. split; [exact (H D)|].
    rewrite run_unfold in E.
    pose proof (ends_in_shutdown_sequence _ _ _ _ _ E D) as Q.
    split; [exact Q|].
    apply (unexited_children_were_killed env s' Q), (inv_live _ _ I). }
  split_and!.
  - exact Remote.
  - destruct (local_run env cfg fuel) as (r & s' & E & I & _ & H).
    rewrite E. apply sat_intro. intros D. split; [exact (H D)|].
    rewrite local_run_unfold in E.
    pose proof (ends_in_shutdown_sequence _ _ _ _ _ E D) as Q.
    split; [exact Q|].
    apply (unexited_children_were_killed env s' Q), (inv_live _ _ I).
  - intros t0 Sg B.
    pose proof (run_ends env cfg t0 Sg fuel B) as D.
    destruct Remote as (r & s' & E & H).
    rewrite E in *. apply sat_intro, H, D.
Qed.

(** A session ended by a signal while both children ignore SIGTERM:
    [run] returns after the shutdown sequence. *)
Lemma shutdown_on_every_exit_path_witness :
  sat (Runtime.run stubborn session 14 initial) (shut_down_in_order stubborn).
Proof.
  apply (proj2 (proj2 (shutdown_on_every_exit_path stubborn session 14)) 12).
  - reflexivity.
  - lia.
Defined.

(** In that session both children are killed on timeout, the bridge
    first. *)
Example stubborn_children_are_killed_in_order :
  history (snd (Runtime.run stubborn session 14 initial))
  = [Spawn Agent 0; HealthOk; ReadySet; Spawn Bridge 1; Sleep 500;
     Sleep 1000; Sleep 1000; Sleep 1000;
     ShutdownStart; Terminate 1; WaitFor 1 5000; Kill 1;
     Terminate 0; WaitFor 0 10000; Kill 0; ShutdownComplete].
Proof. vm_compute. reflexivity. Qed.

(** C6 as claimed fails: [kill()] sends SIGKILL and does not wait, so
    after [run] has returned the handle of a child that ignored SIGTERM
    still reports no [returncode]. *)
Lemma killed_child_reports_no_returncode :
  fst (Runtime.run stubborn session 5 initial) = Ok tt /\
  procs (snd (Runtime.run stubborn session 5 initial))
  = [ {| kind := Agent; returncode := None;
         terminated := true; killed := true |};
      {| kind := Bridge; returncode := None;
         terminated := true; killed := true |} ].
Proof. split; vm_compute; reflexivity. Qed.

End SupervisorSpec.
(** ** The HTTP endpoints *)

Module EndpointsSpec.
Import WebApi Endpoints.
Local Open Scope string_scope.
Local Open Scope list_scope.

(** Joining strings makes no surrogate, unless the second starts in
    the middle of one. *)
Lemma has_lone_surrogate_app (a b : string) :
  continues_surrogate b = false ->
  has_lone_surrogate (a ++ b) = has_lone_surrogate a || has_lone_surrogate b.
Proof.
  intros Hb. induction a as [|c a IH]; [reflexivity|].
  change (String c a ++ b)%string with (String c (a ++ b)).
  cbn [has_lone_surrogate]. rewrite IH, orb_assoc. f_equal. f_equal.
  destruct (is_ED c); [|reflexivity].
  destruct a as [|d a]; [exact Hb|reflexivity].
Qed.

Lemma encodable_app (a b : string) :
  continues_surrogate b = false ->
  encodable a = true -> encodable b = true -> encodable (a ++ b) = true.
Proof.
  unfold encodable. intros Hb Ha Hb'.
  rewrite has_lone_surrogate_app by exact Hb.
  apply negb_true_iff in Ha, Hb'. rewrite Ha, Hb'. reflexivity.
Qed.

Definition is_access_log (e : Event) : bool :=
  match e with LogHttpRequest _ => true | _ => false end.

(** No access-log line among some events. *)
Definition no_access_log (new : list Event) : Prop :=
  forallb (fun e => negb (is_access_log e)) new = true.

(** [m] leaves the locals [http_status] and [outcome] alone and writes
    no access-log line. *)
Definition framed {A} (m : M A) : Prop :=
  forall s r s', m s = (r, s') ->
    http_status s' = http_status s /\ outcome s' = outcome s /\
    exists new, trace s' = new ++ trace s /\ no_access_log new.

(** Whatever [m] returns is a 200 response with the success envelope. *)
Definition answers_success (m : M JSONResponse) : Prop :=
  forall s resp s', m s = (Return resp, s') ->
    status_code resp = 200%Z /\
    exists data, content resp = JDict [("success", JBool true); ("data", data)].

Lemma framed_ret {A} (a : A) : framed (ret a).
Proof.
  intros s r s' [= <- <-]. split_and!; auto. exists []. split; reflexivity.
Qed.

Lemma framed_raise {A} (e : Exn) : framed (@raise A e).
Proof.
  intros s r s' [= <- <-]. split_and!; auto. exists []. split; reflexivity.
Qed.

Lemma framed_bind {A B} (m : M A) (k : A -> M B) :
  framed m -> (forall a, framed (k a)) -> framed (bind m k).
Proof.
  intros Hm Hk s r s' E. unfold bind in E.
  destruct (m s) as [[a|e] s1] eqn:E1.
  - destruct (Hm _ _ _ E1) as (H1 & O1 & new1 & T1 & N1).
    destruct (Hk a _ _ _ E) as (H2 & O2 & new2 & T2 & N2).
    split_and!; [congruence|congruence|].
    exists (new2 ++ new1). split.
    + rewrite T2, T1. apply app_assoc.
    + unfold no_access_log in *. rewrite forallb_app, N1, N2. reflexivity.
  - injection E as <- <-. exact (Hm _ _ _ E1).
Qed.

Lemma framed_emit (e : Event) : is_access_log e = false -> framed (emit e).
Proof.
  intros He s r s' [= <- <-]. split_and!; auto.
  exists [e]. split; [reflexivity|].
  unfold no_access_log. cbn. rewrite He. reflexivity.
Qed.

Lemma framed_call {A} (o : answer A) : framed (call o).
Proof. destruct o; [apply framed_ret|apply framed_raise]. Qed.

Lemma framed_set_sandbox_id (v : Json) : framed (modify (set_sandbox_id v)).
Proof.
  intros s r s' [= <- <-]. split_and!; auto. exists []. split; reflexivity.
Qed.

Lemma framed_try_except {A} (body : M A) (handler : Exn -> M A) :
  framed body -> (forall e, framed (handler e)) ->
  framed (try_except body handler).
Proof.
  intros Hb Hh s r s' E. unfold try_except in E.
  destruct (body s) as [[a|e] s1] eqn:E1.
  - injection E as <- <-. exact (Hb _ _ _ E1).
  - destruct (Hb _ _ _ E1) as (H1 & O1 & new1 & T1 & N1).
    destruct (Hh e _ _ _ E) as (H2 & O2 & new2 & T2 & N2).
    split_and!; [congruence|congruence|].
    exists (new2 ++ new1). split.
    + rewrite T2, T1. apply app_assoc.
    + unfold no_access_log in *. rewrite forallb_app, N1, N2. reflexivity.
Qed.

Lemma framed_new_JSONResponse status content :
  framed (new_JSONResponse status content).
Proof.
  unfold new_JSONResponse.
  destruct (compliant content);
    [destruct (utf8 content); [apply framed_ret|apply framed_raise]
    |apply framed_raise].
Qed.

Lemma answers_success_bind {A} (m : M A) (k : A -> M JSONResponse) :
  (forall a, answers_success (k a)) -> answers_success (bind m k).
Proof.
  intros Hk s resp s' E. unfold bind in E.
  destruct (m s) as [[a|e] s1]; [exact (Hk a _ _ _ E)|discriminate].
Qed.

Lemma answers_success_raise (e : Exn) : answers_success (raise e).
Proof. intros s resp s' [=]. Qed.

Lemma answers_success_response (data : Json) :
  answers_success (success_response data).
Proof.
  intros s resp s' E. unfold success_response, new_JSONResponse in E.
  destruct (compliant _); [|discriminate].
  destruct (utf8 _); [|discriminate].
  injection E as <- <-. cbn. eauto.
Qed.

(** Take a piece of endpoint code apart, down to its primitives. *)
Ltac framed_step :=
  first
    [ apply framed_ret
    | apply framed_raise
    | apply framed_call
    | apply framed_set_sandbox_id
    | apply framed_new_JSONResponse
    | apply framed_emit; reflexivity
    | apply framed_bind; [|intros ?]
    | apply framed_try_except; [|intros ?]
    | match goal with
      | |- framed (match ?x with _ => _ end) => destruct x
      | |- framed (if ?b then _ else _) => destruct b
      end ].

Ltac framed_tac :=
  unfold require_auth, require_valid_control_plane_url, timeout_seconds_of,
    github_app_token_of, success_response, error_response;
  cbv zeta; repeat framed_step.

Ltac answers_success_step :=
  first
    [ apply answers_success_raise
    | apply answers_success_response
    | apply answers_success_bind; intros ?
    | match goal with
      | |- answers_success (match ?x with _ => _ end) => destruct x
      | |- answers_success (if ?b then _ else _) => destruct b
      end ].

Ltac answers_success_tac := cbv zeta; repeat answers_success_step.

(** The error envelope of [error_response]. *)
Definition error_envelope (resp : JSONResponse) : Prop :=
  exists code message rest,
    content resp =
      JDict [("success", JBool false);
             ("error", JDict (("code", JStr code) :: ("message", JStr message)
                              :: ("status_code", JInt (status_code resp))
                              :: rest))].

(** What a call of an endpoint leaves in the log, and how the line
    relates to the response. *)
Definition access_logged (w : World) (method path name : string)
  (h : Headers) (s : State) (r : result JSONResponse) (s' : State) : Prop :=
  exists line new,
    trace s' = LogHttpRequest line :: new ++ trace s /\
    no_access_log new /\
    http_method line = method /\ http_path line = path /\
    endpoint_name line = name /\
    log_trace_id line = x_trace_id h /\
    log_request_id line = x_request_id h /\
    log_duration_ms line = duration_ms w /\
    forall resp, r = Return resp ->
      log_http_status line = status_code resp /\
      ((log_outcome line = "success" /\ status_code resp = 200%Z /\
        exists data,
          content resp = JDict [("success", JBool true); ("data", data)]) \/
       (log_outcome line = "error" /\ error_envelope resp)).

Lemma error_response_envelope status message details s r s' :
  error_response status message None details s = (r, s') ->
  s' = s /\
  (forall resp, r = Return resp ->
     status_code resp = status /\ error_envelope resp) /\
  (forall e, r = Raise e ->
     (e = Error "ValueError" "Out of range float values are not JSON compliant"
      /\ exists d, details = Some d /\ compliant d = false) \/
     (e = Error "UnicodeEncodeError"
            "'utf-8' codec can't encode character: surrogates not allowed"
      /\ (encodable message = false \/
          exists d, details = Some d /\ utf8 d = false))).
Proof.
  unfold error_response, new_JSONResponse. cbv zeta.
  assert (Code : encodable (_error_code_for_status status) = true).
  { unfold _error_code_for_status.
    repeat match goal with
           | |- context [if ?b then _ else _] => destruct b
           end; reflexivity. }
  destruct details as [d|].
  - cbn [compliant forallb app]. rewrite !andb_true_r.
    destruct (compliant d) eqn:C.
    + cbn [utf8 forallb app andb]. rewrite Code. cbn [encodable
        has_lone_surrogate is_ED continues_surrogate negb orb andb].
      rewrite !andb_true_r.
      destruct (encodable message) eqn:Em; cbn [andb];
        [destruct (utf8 d) eqn:Ud; cbn [andb]|];
        intros [= <- <-]; split_and!; auto.
      * intros resp [= <-]. split; [reflexivity|].
        unfold error_envelope. cbn. eauto.
      * intros e [=].
      * intros resp [=].
      * intros e [= <-]. right. eauto.
      * intros resp [=].
      * intros e [= <-]. right. eauto.
    + intros [= <- <-]; split_and!; auto.
      * intros resp [=].
      * intros e [= <-]. left. eauto.
  - cbn [compliant forallb]. cbn [utf8 forallb app andb]. rewrite Code.
    cbn [encodable has_lone_surrogate is_ED continues_surrogate negb orb
         andb].
    rewrite !andb_true_r.
    destruct (encodable message) eqn:Em; cbn [andb];
      intros [= <- <-]; split_and!; auto.
    + intros resp [= <-]. split; [reflexivity|].
      unfold error_envelope. cbn. eauto.
    + intros e [=].
    + intros resp [=].
    + intros e [= <-]. right. eauto.
Qed.

Lemma endpoint_access_logged w method path name failure_message h ids body s :
  framed body -> answers_success body ->
  exists r s',
    endpoint w method path name failure_message h ids body s = (r, s') /\
    access_logged w method path name h s r s'.
Proof.
  intros Hf Ha. unfold endpoint.
  unfold bind at 1, modify at 1. cbv beta iota.
  unfold bind at 1, modify at 1. cbv beta iota.
  unfold try_finally, try_except_http.
  set (s0 := set_outcome "success" (set_http_status 200 s)).
  destruct (body s0) as [[resp|e] s1] eqn:Eb.
  - destruct (Hf _ _ _ Eb) as (H1 & O1 & new & T1 & N1).
    destruct (Ha _ _ _ Eb) as (St & data & Ct).
    unfold bind, get, emit, modify. cbv beta iota.
    eexists; eexists; split; [reflexivity|].
    eexists; exists new. cbn [push trace]. split; [rewrite T1; reflexivity|].
    cbn. split_and!; auto.
    intros resp' [= <-]. rewrite H1, O1. cbn. split; [congruence|].
    left. eauto.
  - destruct (Hf _ _ _ Eb) as (H1 & O1 & new & T1 & N1).
    destruct e as [c d|m|cls m].
    + unfold bind at 1, modify at 1. cbv beta iota.
      unfold bind at 1, modify at 1. cbv beta iota.
      match goal with
      | |- context [error_response ?a ?b None ?dd ?st] =>
          destruct (error_response a b None dd st) as [r2 s2] eqn:Er;
          destruct (error_response_envelope _ _ _ _ _ _ Er) as (-> & Hr & _)
      end.
      unfold bind, get, emit, modify. cbv beta iota.
      eexists; eexists; split; [reflexivity|].
      eexists; exists new. cbn [push trace set_http_status set_outcome].
      split; [rewrite T1; reflexivity|].
      cbn. split_and!; auto.
      intros resp ->. destruct (Hr resp eq_refl) as (St & Env).
      split; [congruence|]. right. auto.
    + unfold bind at 1, modify at 1. cbv beta iota.
      unfold bind at 1, modify at 1. cbv beta iota.
      unfold bind at 1, emit at 1, modify at 1. cbv beta iota.
      match goal with
      | |- context [error_response ?a ?b None ?dd ?st] =>
          destruct (error_response a b None dd st) as [r2 s2] eqn:Er;
          destruct (error_response_envelope _ _ _ _ _ _ Er) as (-> & Hr & _)
      end.
      unfold bind, get, emit, modify. cbv beta iota.
      eexists; eexists; split; [reflexivity|].
      eexists; eexists (_ :: new).
      cbn [push trace set_http_status set_outcome].
      split; [rewrite T1; reflexivity|].
      cbn. split_and!; auto.
      intros resp ->. destruct (Hr resp eq_refl) as (St & Env).
      split; [congruence|]. right. auto.
    + unfold bind at 1, modify at 1. cbv beta iota.
      unfold bind at 1, modify at 1. cbv beta iota.
      unfold bind at 1, emit at 1, modify at 1. cbv beta iota.
      match goal with
      | |- context [error_response ?a ?b None ?dd ?st] =>
          destruct (error_response a b None dd st) as [r2 s2] eqn:Er;
          destruct (error_response_envelope _ _ _ _ _ _ Er) as (-> & Hr & _)
      end.
      unfold bind, get, emit, modify. cbv beta iota.
      eexists; eexists; split; [reflexivity|].
      eexists; eexists (_ :: new).
      cbn [push trace set_http_status set_outcome].
      split; [rewrite T1; reflexivity|].
      cbn. split_and!; auto.
      intros resp ->. destruct (Hr resp eq_refl) as (St & Env).
      split; [congruence|]. right. auto.
Qed.


(** *** The access log and the response agree *)

(** From every state [m] comes back with the log line of the named
    endpoint written. *)
Definition responds_and_logs (w : World) (method path name : string)
  (h : Headers) (m : M JSONResponse) : Prop :=
  forall s, exists r s',
    m s = (r, s') /\ access_logged w method path name h s r s'.

Ltac by_endpoint :=
  intros ?; apply endpoint_access_logged;
  [framed_tac | answers_success_tac].

(** Every authenticated endpoint, whatever the request and whatever its
    collaborators do, writes exactly one access-log line, as the last
    thing it does, under its own method, path and name.  When the
    endpoint returns a response, the logged [http_status] is the status
    code of that response; the logged [outcome] is ["success"] with a
    200 success envelope and ["error"] with an error envelope whose
    [status_code] field is the response's status code. *)
Theorem access_log_matches_response w request repo_owner repo_name h :
  responds_and_logs w "POST" "/api_create_sandbox" "api_create_sandbox" h
    (api_create_sandbox w request h) /\
  responds_and_logs w "POST" "/api_warm_sandbox" "api_warm_sandbox" h
    (api_warm_sandbox w request h) /\
  responds_and_logs w "GET" "/api_snapshot" "api_snapshot" h
    (api_snapshot w repo_owner repo_name h) /\
  responds_and_logs w "POST" "/api_snapshot_sandbox" "api_snapshot_sandbox" h
    (api_snapshot_sandbox w request h) /\
  responds_and_logs w "POST" "/api_restore_sandbox" "api_restore_sandbox" h
    (api_restore_sandbox w request h) /\
  responds_and_logs w "POST" "/api_build_repo_image" "api_build_repo_image" h
    (api_build_repo_image w request h) /\
  responds_and_logs w "POST" "/api_delete_provider_image"
    "api_delete_provider_image" h (api_delete_provider_image w request h).
Proof.
  split_and!.
  - unfold api_create_sandbox. by_endpoint.
  - unfold api_warm_sandbox. by_endpoint.
  - unfold api_snapshot. by_endpoint.
  - unfold api_snapshot_sandbox. intros s.
    unfold bind at 1, modify at 1. cbv beta iota.
    apply (endpoint_access_logged w _ _ _ _ h _ _ (set_sandbox_id JNull s));
      [framed_tac | answers_success_tac].
  - unfold api_restore_sandbox. by_endpoint.
  - unfold api_build_repo_image. by_endpoint.
  - unfold api_delete_provider_image. by_endpoint.
Qed.

(** *** Requests that fail authentication *)

(** The body of an error response without details. *)
Definition error_content (status : Z) (message : string) : Json :=
  JDict [("success", JBool false);
         ("error", JDict [("code", JStr (_error_code_for_status status));
                          ("message", JStr message);
                          ("status_code", JInt status)])].

Lemma error_code_encodable status :
  encodable (_error_code_for_status status) = true.
Proof.
  unfold _error_code_for_status.
  repeat match goal with
         | |- context [if ?b then _ else _] => destruct b
         end; reflexivity.
Qed.

Lemma error_content_utf8 status message :
  encodable message = true ->
  utf8 (JDict [("success", JBool false);
               ("error", JDict [("code", JStr (_error_code_for_status status));
                                ("message", JStr message);
                                ("status_code", JInt status)])]) = true.
Proof.
  intros Hm. cbn [utf8 forallb andb]. rewrite error_code_encodable, Hm.
  reflexivity.
Qed.

(** The two ways [require_auth] turns a request down, with the status
    and the message of each; the message of the configuration error is
    text that can be encoded. *)
Inductive auth_failure (w : World) (authorization : option string)
  : Z -> string -> Prop :=
| invalid_token :
    verify_internal_token w authorization = Gives false ->
    auth_failure w authorization 401
      "Unauthorized: Invalid or missing authentication token"
| auth_not_configured (e : string) :
    verify_internal_token w authorization = Fails (AuthConfigurationError e) ->
    encodable e = true ->
    auth_failure w authorization 503
      ("Service unavailable: Authentication not configured. " ++ e)%string.

Lemma require_auth_rejects w authorization status message :
  auth_failure w authorization status message ->
  forall s, require_auth w authorization s
            = (Raise (HTTPException status (JStr message)), s).
Proof.
  intros [H|e H _] s; unfold require_auth; rewrite H; reflexivity.
Qed.

Lemma auth_failure_encodable w authorization status message :
  auth_failure w authorization status message -> encodable message = true.
Proof.
  intros [H|e H He]; [reflexivity|].
  unfold encodable in *. cbn. exact He.
Qed.

Lemma require_auth_accepts w authorization :
  verify_internal_token w authorization = Gives true ->
  forall s, require_auth w authorization s = (Return tt, s).
Proof. intros H s. unfold require_auth. rewrite H. reflexivity. Qed.

(** The endpoint answers with the bare error envelope and does nothing
    but write its access-log line. *)
Definition turned_down (status : Z) (message : string)
  (m : M JSONResponse) : Prop :=
  forall s, exists s' line,
    m s = (Return {| status_code := status;
                     content := error_content status message |}, s') /\
    trace s' = LogHttpRequest line :: trace s /\
    log_http_status line = status /\ log_outcome line = "error".

Lemma endpoint_turned_down w method path name failure_message h ids body
  status message :
  encodable message = true ->
  (forall s, body s = (Raise (HTTPException status (JStr message)), s)) ->
  turned_down status message
    (endpoint w method path name failure_message h ids body).
Proof.
  intros Hm Hb s. unfold endpoint.
  unfold bind at 1, modify at 1. cbv beta iota.
  unfold bind at 1, modify at 1. cbv beta iota.
  unfold try_finally, try_except_http. rewrite Hb.
  unfold bind at 1, modify at 1. cbv beta iota.
  unfold bind at 1, modify at 1. cbv beta iota.
  unfold error_response, new_JSONResponse, dict_or_none,
    _http_exception_message. cbv zeta.
  cbn [compliant forallb andb].
  rewrite (error_content_utf8 status message Hm).
  unfold bind, get, emit, modify, ret. cbv beta iota.
  eexists; eexists. split; [reflexivity|]. cbn. auto.
Qed.

Lemma bind_raises {A B} (m : M A) (k : A -> M B) e :
  (forall s, m s = (Raise e, s)) ->
  forall s, bind m k s = (Raise e, s).
Proof. intros H s. unfold bind. rewrite H. reflexivity. Qed.

Ltac by_rejection H :=
  apply endpoint_turned_down;
  [exact (auth_failure_encodable _ _ _ _ H)
  |apply bind_raises; apply require_auth_rejects; exact H].

(** A request whose token [verify_internal_token] does not accept is
    answered 401, and 503 when the verification itself reports that
    authentication is not configured (in a message that can be encoded
    as UTF-8), by every authenticated endpoint alike: with the bare error envelope, and without anything else
    being done. *)
Theorem unauthenticated_requests_are_turned_down
  w request repo_owner repo_name h status message :
  auth_failure w (authorization h) status message ->
  turned_down status message (api_create_sandbox w request h) /\
  turned_down status message (api_warm_sandbox w request h) /\
  turned_down status message (api_snapshot w repo_owner repo_name h) /\
  turned_down status message (api_snapshot_sandbox w request h) /\
  turned_down status message (api_restore_sandbox w request h) /\
  turned_down status message (api_build_repo_image w request h) /\
  turned_down status message (api_delete_provider_image w request h).
Proof.
  intros H. split_and!.
  - unfold api_create_sandbox. by_rejection H.
  - unfold api_warm_sandbox. by_rejection H.
  - unfold api_snapshot. by_rejection H.
  - unfold api_snapshot_sandbox. intros s.
    unfold bind at 1, modify at 1. cbv beta iota.
    match goal with
    | |- context [endpoint w ?m ?p ?n ?f h ?ids ?body] =>
        destruct (endpoint_turned_down w m p n f h ids body status message
                    (auth_failure_encodable _ _ _ _ H)
                    ltac:(apply bind_raises; apply require_auth_rejects;
                          exact H)
                    (set_sandbox_id JNull s))
          as (s' & line & E & T & L)
    end.
    exists s', line. auto.
  - unfold api_restore_sandbox. by_rejection H.
  - unfold api_build_repo_image. by_rejection H.
  - unfold api_delete_provider_image. by_rejection H.
Qed.

(** *** Failures become responses *)

(** The [except] clauses can answer the exception [e]: the response
    they build for it can be rendered.  For an [HTTPException] that is
    a message without a lone surrogate and, when the detail is a
    [dict], a detail without NaN, infinity or lone surrogate; for any
    other exception, whose class name goes into the response, a class
    name without a lone surrogate. *)
Definition answerable (e : Exn) : bool :=
  match e with
  | HTTPException _ detail =>
      encodable (_http_exception_message detail)
      && match detail with
         | JDict _ => compliant detail && utf8 detail
         | _ => true
         end
  | _ => encodable (class_name_of e)
  end.

(** An answer that is no exception the clauses cannot answer. *)
Definition plain {A} (o : answer A) : Prop :=
  forall e, o = Fails e -> answerable e = true.

(** No collaborator raises such an exception, and the message of an
    [AuthConfigurationError], which [require_auth] puts into its own
    exception, holds no lone surrogate. *)
Record plain_world (w : World) : Prop := {
  plain_verify : forall a, plain (verify_internal_token w a);
  plain_auth_message : forall a m,
    verify_internal_token w a = Fails (AuthConfigurationError m) ->
    encodable m = true;
  plain_validate : forall u, plain (validate_control_plane_url w u);
  plain_token : forall a k i, plain (generate_installation_token w a k i);
  plain_manager : plain (new_sandbox_manager w);
  plain_session_config : forall c, plain (new_session_config w c);
  plain_sandbox_config : forall c, plain (new_sandbox_config w c);
  plain_create : forall c, plain (create_sandbox w c);
  plain_warm : forall o n u, plain (warm_sandbox w o n u);
  plain_get : forall i, plain (get_sandbox_by_id w i);
  plain_take : forall x, plain (take_snapshot w x);
  plain_restore : forall a, plain (restore_from_snapshot w a);
  plain_spawn : forall a, plain (spawn_build w a);
  plain_latest : forall o n, plain (get_latest_snapshot w o n)
}.

(** The two values of a request that go into messages of the
    endpoints' own exceptions hold no lone surrogate. *)
Definition plain_request (w : World) (request : Dict) : Prop :=
  encodable (format w (dict_get request "control_plane_url")) = true /\
  encodable (format w (dict_get request "sandbox_id")) = true.

(** [m] raises no such exception either. *)
Definition tame {A} (m : M A) : Prop :=
  forall s e s', m s = (Raise e, s') -> answerable e = true.

Lemma tame_ret {A} (a : A) : tame (ret a).
Proof. intros s e s'. discriminate. Qed.

Lemma tame_raise {A} (e : Exn) : answerable e = true -> tame (@raise A e).
Proof. intros H s e' s' [= <- _]. exact H. Qed.

Lemma tame_modify (f : State -> State) : tame (modify f).
Proof. intros s e s'. discriminate. Qed.

Lemma tame_emit (e : Event) : tame (emit e).
Proof. apply tame_modify. Qed.

Lemma tame_call {A} (o : answer A) : plain o -> tame (call o).
Proof.
  intros H. destruct o as [a|e]; [apply tame_ret|].
  apply tame_raise. exact (H e eq_refl).
Qed.

(** An exception of the endpoints' own, with a message of their
    own. *)
Ltac own_exception := apply tame_raise; reflexivity.

Lemma tame_bind {A B} (m : M A) (k : A -> M B) :
  tame m -> (forall a, tame (k a)) -> tame (bind m k).
Proof.
  intros Hm Hk s e s' E. unfold bind in E.
  destruct (m s) as [[a|e1] s1] eqn:E1.
  - exact (Hk a _ _ _ E).
  - injection E as <- <-. exact (Hm _ _ _ E1).
Qed.

Lemma tame_try_except {A} (body : M A) (handler : Exn -> M A) :
  (forall e, tame (handler e)) -> tame (try_except body handler).
Proof.
  intros Hh s e s' E. unfold try_except in E.
  destruct (body s) as [[a|e1] s1]; [discriminate|].
  exact (Hh e1 _ _ _ E).
Qed.

Lemma tame_new_JSONResponse status content :
  tame (new_JSONResponse status content).
Proof.
  unfold new_JSONResponse.
  destruct (compliant content);
    [destruct (utf8 content); [apply tame_ret|own_exception]
    |own_exception].
Qed.

Lemma tame_require_auth w a :
  plain_world w -> tame (require_auth w a).
Proof.
  intros Hw. unfold require_auth.
  pose proof (plain_verify w Hw a) as P.
  pose proof (plain_auth_message w Hw a) as Pm.
  destruct (verify_internal_token w a) as [[]|[c d|m|cls m]].
  - apply tame_ret.
  - own_exception.
  - apply tame_raise. exact (P _ eq_refl).
  - apply tame_raise. specialize (Pm m eq_refl).
    unfold answerable, _http_exception_message, encodable in *.
    cbn. rewrite andb_true_r. exact Pm.
  - apply tame_raise. exact (P _ eq_refl).
Qed.

(** The messages that quote the request. *)
Lemma invalid_url_message_encodable (url : string) :
  encodable url = true ->
  encodable ("Invalid control_plane_url: " ++ url
               ++ ". URL must match allowed patterns.") = true.
Proof.
  unfold encodable. intros H. cbn.
  rewrite has_lone_surrogate_app by reflexivity.
  apply negb_true_iff in H. rewrite H. reflexivity.
Qed.

Lemma not_found_message_encodable (sandbox_id : string) :
  encodable sandbox_id = true ->
  encodable ("Sandbox not found: " ++ sandbox_id) = true.
Proof. unfold encodable. intros H. cbn. exact H. Qed.

Lemma tame_require_valid_control_plane_url w url :
  plain_world w -> encodable (format w url) = true ->
  tame (require_valid_control_plane_url w url).
Proof.
  intros Hw Hu. unfold require_valid_control_plane_url.
  destruct (truthy_json url); [|apply tame_ret].
  apply tame_bind; [apply tame_call, Hw|].
  intros [|]; [apply tame_ret|]. apply tame_raise.
  unfold answerable, _http_exception_message.
  rewrite invalid_url_message_encodable by exact Hu. reflexivity.
Qed.

(** What [api_warm_sandbox] and [api_restore_sandbox] validate. *)
Lemma format_str_or_empty w request :
  encodable (format w (dict_get request "control_plane_url")) = true ->
  encodable
    (format w
       (JStr (str_or_empty
                (dict_get_default request "control_plane_url" (JStr "")))))
  = true.
Proof.
  unfold dict_get, dict_get_default.
  destruct (lookup "control_plane_url" request) as [[]|]; auto.
Qed.

Ltac tame_step Hw Hr :=
  first
    [ apply tame_ret
    | apply tame_emit
    | apply tame_modify
    | apply tame_new_JSONResponse
    | apply tame_require_auth; exact Hw
    | apply tame_require_valid_control_plane_url;
        [exact Hw|first [exact (proj1 Hr)
                        |exact (format_str_or_empty _ _ (proj1 Hr))]]
    | own_exception
    | (apply tame_raise; unfold answerable, _http_exception_message;
       rewrite not_found_message_encodable by exact (proj2 Hr); reflexivity)
    | apply tame_call; apply Hw
    | apply tame_bind; [|intros ?]
    | apply tame_try_except; intros ?
    | match goal with
      | |- tame (match ?x with _ => _ end) => destruct x
      | |- tame (if ?b then _ else _) => destruct b
      end ].

Ltac tame_tac Hw Hr :=
  unfold timeout_seconds_of, github_app_token_of, success_response,
    error_response;
  cbv zeta; repeat tame_step Hw Hr.

(** [m] returns a response from every state. *)
Definition responds (m : M JSONResponse) : Prop :=
  forall s, exists resp s', m s = (Return resp, s').

(** The error response is built whenever its text and details can be
    rendered. *)
Lemma error_response_returns status message details s :
  encodable message = true ->
  (forall d, details = Some d -> compliant d = true /\ utf8 d = true) ->
  exists resp, error_response status message None details s = (Return resp, s).
Proof.
  intros Hm Hd.
  destruct (error_response status message None details s) as [[resp|e] s1]
    eqn:E;
    destruct (error_response_envelope _ _ _ _ _ _ E) as (-> & _ & He);
    [eauto|].
  destruct (He e eq_refl) as [(_ & d & -> & C)|(_ & [C|(d & -> & C)])].
  - destruct (Hd d eq_refl). congruence.
  - congruence.
  - destruct (Hd d eq_refl). congruence.
Qed.

Lemma endpoint_responds w method path name failure_message h ids body :
  encodable failure_message = true ->
  tame body ->
  responds (endpoint w method path name failure_message h ids body).
Proof.
  intros Hf Hb s. unfold endpoint.
  unfold bind at 1, modify at 1. cbv beta iota.
  unfold bind at 1, modify at 1. cbv beta iota.
  unfold try_finally, try_except_http.
  match goal with
  | |- context [body ?s0] => destruct (body s0) as [[resp|e] s1] eqn:Eb
  end.
  - unfold bind, get, emit, modify. cbv beta iota. eauto.
  - pose proof (Hb _ _ _ Eb) as An.
    destruct e as [c d|m|cls m].
    + unfold bind at 1, modify at 1. cbv beta iota.
      unfold bind at 1, modify at 1. cbv beta iota.
      cbn [answerable] in An. apply andb_true_iff in An as [Am Ad].
      match goal with
      | |- context [error_response ?a ?b None ?dd ?st] =>
          destruct (error_response_returns a b dd st Am) as [resp ->]
      end.
      { intros d' E. destruct d; try discriminate.
        injection E as <-. apply andb_true_iff in Ad. exact Ad. }
      unfold bind, get, emit, modify, ret. cbv beta iota. eauto.
    + unfold bind at 1, modify at 1. cbv beta iota.
      unfold bind at 1, modify at 1. cbv beta iota.
      unfold bind at 1, emit at 1, modify at 1. cbv beta iota.
      match goal with
      | |- context [error_response ?a ?b None ?dd ?st] =>
          destruct (error_response_returns a b dd st Hf) as [resp ->]
      end.
      { intros d' [= <-]. split; reflexivity. }
      unfold bind, get, emit, modify, ret. cbv beta iota. eauto.
    + unfold bind at 1, modify at 1. cbv beta iota.
      unfold bind at 1, modify at 1. cbv beta iota.
      unfold bind at 1, emit at 1, modify at 1. cbv beta iota.
      match goal with
      | |- context [error_response ?a ?b None ?dd ?st] =>
          destruct (error_response_returns a b dd st Hf) as [resp ->]
      end.
      { intros d' [= <-]. split; [reflexivity|].
        cbn [answerable class_name_of] in An.
        cbn [utf8 forallb andb]. rewrite An. reflexivity. }
      unfold bind, get, emit, modify, ret. cbv beta iota. eauto.
Qed.

(** No endpoint lets an exception escape, whatever fails, as long as
    every error response can be rendered: no collaborator raises an
    [HTTPException] whose message holds a lone surrogate or whose
    detail is a [dict] holding a NaN, an infinity or a lone surrogate,
    nor an exception whose class name or (for the authentication
    error) message holds one; and the request's [control_plane_url]
    and [sandbox_id], which the endpoints quote in their messages,
    hold none.  The caller then gets a JSON response. *)
Theorem endpoints_always_respond w request repo_owner repo_name h :
  plain_world w ->
  plain_request w request ->
  responds (api_create_sandbox w request h) /\
  responds (api_warm_sandbox w request h) /\
  responds (api_snapshot w repo_owner repo_name h) /\
  responds (api_snapshot_sandbox w request h) /\
  responds (api_restore_sandbox w request h) /\
  responds (api_build_repo_image w request h) /\
  responds (api_delete_provider_image w request h).
Proof.
  intros Hw Hr. split_and!.
  - unfold api_create_sandbox.
    apply endpoint_responds; [reflexivity|]. tame_tac Hw Hr.
  - unfold api_warm_sandbox.
    apply endpoint_responds; [reflexivity|]. tame_tac Hw Hr.
  - unfold api_snapshot.
    apply endpoint_responds; [reflexivity|]. tame_tac Hw Hr.
  - unfold api_snapshot_sandbox. intros s.
    unfold bind at 1, modify at 1. cbv beta iota.
    apply endpoint_responds; [reflexivity|]. tame_tac Hw Hr.
  - unfold api_restore_sandbox.
    apply endpoint_responds; [reflexivity|]. tame_tac Hw Hr.
  - unfold api_build_repo_image.
    apply endpoint_responds; [reflexivity|]. tame_tac Hw Hr.
  - unfold api_delete_provider_image.
    apply endpoint_responds; [reflexivity|]. tame_tac Hw Hr.
Qed.

(** *** Starting an image build *)

Definition spawn_of (e : Event) : option BuildArgs :=
  match e with SpawnBuild args => Some args | _ => None end.

(** [verify_internal_token] accepts the request. *)
Definition authorized (w : World) (h : Headers) : bool :=
  match verify_internal_token w (authorization h) with
  | Gives true => true
  | _ => false
  end.

(** What the builder is to be started with, read from the request. *)
Definition build_args (request : Dict) : BuildArgs :=
  {| ba_repo_owner := dict_get request "repo_owner";
     ba_repo_name := dict_get request "repo_name";
     ba_default_branch :=
       dict_get_default request "default_branch" (JStr "main");
     ba_callback_url := dict_get_default request "callback_url" (JStr "");
     ba_build_id := dict_get_default request "build_id" (JStr "");
     ba_user_env_vars := or_none (dict_get request "user_env_vars") |}.

Lemma events_nil (tr : list Event) : tr = [] ++ tr.
Proof. reflexivity. Qed.

Lemma events_cons (e : Event) (tr' new tr : list Event) :
  tr' = new ++ tr -> e :: tr' = (e :: new) ++ tr.
Proof. intros ->. reflexivity. Qed.

(** Split a trace given by its events into the new ones and the old. *)
Ltac split_events := repeat first [apply events_nil | apply events_cons].

(** Unfold endpoint code down to the answers of the world. *)
Ltac run_web :=
  cbv beta iota zeta delta
    [require_auth require_valid_control_plane_url
     timeout_seconds_of github_app_token_of
     success_response error_response new_JSONResponse
     _http_exception_message dict_or_none
     bind ret raise get modify emit call try_except try_except_http
     try_finally fst snd].

(** The events an [except] clause of [endpoint] adds: none, or the
    line [api.error]. *)
Definition handler_events (name : string) (extra : list Event) : Prop :=
  extra = [] \/ exists e, extra = [LogApiError name e].

(** A call of [endpoint], seen from its body: the body runs first, with
    [http_status] and [outcome] initialised; the clauses add at most an
    [api.error] line and then the access-log line; and a response that
    is no error envelope is the one the body returned. *)
Lemma endpoint_inversion w method path name failure_message h ids body s :
  exists rb sb r s' line extra,
    body (set_outcome "success" (set_http_status 200 s)) = (rb, sb) /\
    endpoint w method path name failure_message h ids body s = (r, s') /\
    trace s' = LogHttpRequest line :: extra ++ trace sb /\
    handler_events name extra /\
    (forall resp, r = Return resp ->
       (rb = Return resp /\ extra = []) \/ error_envelope resp).
Proof.
  unfold endpoint.
  unfold bind at 1, modify at 1. cbv beta iota.
  unfold bind at 1, modify at 1. cbv beta iota.
  unfold try_finally, try_except_http.
  set (s0 := set_outcome "success" (set_http_status 200 s)).
  destruct (body s0) as [[resp|e] s1] eqn:Eb.
  - unfold bind, get, emit, modify. cbv beta iota.
    exists (Return resp), s1. eexists; eexists; eexists; exists [].
    split; [reflexivity|]. split; [reflexivity|].
    split; [reflexivity|]. split; [left; reflexivity|].
    intros resp' [= <-]. left. auto.
  - assert (H : forall c m d (s2 : State) extra,
              trace s2 = extra ++ trace s1 -> handler_events name extra ->
              exists r s' line,
                (let (r0, s3) := error_response c m None d s2 in
                 match
                   bind get (fun s4 =>
                     emit (LogHttpRequest
                             {| http_method := method; http_path := path;
                                log_http_status := http_status s4;
                                log_duration_ms := duration_ms w;
                                log_outcome := outcome s4;
                                endpoint_name := name;
                                log_trace_id := x_trace_id h;
                                log_request_id := x_request_id h;
                                log_session_id := fst (ids s4);
                                log_sandbox_id := snd (ids s4) |})) s3
                 with
                 | (Return _, s'') => (r0, s'')
                 | (Raise e0, s'') => (Raise e0, s'')
                 end) = (r, s') /\
                trace s' = LogHttpRequest line :: extra ++ trace s1 /\
                forall resp, r = Return resp -> error_envelope resp).
    { intros c m d s2 extra T He.
      destruct (error_response c m None d s2) as [r2 s3] eqn:Er.
      destruct (error_response_envelope _ _ _ _ _ _ Er) as (-> & Hr & _).
      unfold bind, get, emit, modify. cbv beta iota.
      eexists; eexists; eexists. split; [reflexivity|].
      cbn [push trace]. rewrite T. split; [reflexivity|].
      intros resp ->. apply (Hr resp eq_refl). }
    exists (Raise e), s1.
    destruct e as [c d|m|cls m].
    + unfold bind at 1, modify at 1. cbv beta iota.
      unfold bind at 1, modify at 1. cbv beta iota.
      edestruct (H c (_http_exception_message d) (dict_or_none d)
                   (set_http_status c (set_outcome "error" s1)) [])
        as (r & s' & line & E & T & Hr);
        [reflexivity|left; reflexivity|].
      exists r, s', line, []. split_and!; auto. left. reflexivity.
    + unfold bind at 1, modify at 1. cbv beta iota.
      unfold bind at 1, modify at 1. cbv beta iota.
      unfold bind at 1, emit at 1, modify at 1. cbv beta iota.
      match goal with
      | |- context [error_response ?c ?mm None ?d ?s2] =>
          destruct (H c mm d s2 [LogApiError name (AuthConfigurationError m)])
            as (r & s' & line & E & T & Hr);
            [reflexivity|right; eexists; reflexivity|]
      end.
      exists r, s', line. eexists. split_and!; eauto.
      right. eexists. reflexivity.
    + unfold bind at 1, modify at 1. cbv beta iota.
      unfold bind at 1, modify at 1. cbv beta iota.
      unfold bind at 1, emit at 1, modify at 1. cbv beta iota.
      match goal with
      | |- context [error_response ?c ?mm None ?d ?s2] =>
          destruct (H c mm d s2 [LogApiError name (Error cls m)])
            as (r & s' & line & E & T & Hr);
            [reflexivity|right; eexists; reflexivity|]
      end.
      exists r, s', line. eexists. split_and!; eauto.
      right. eexists. reflexivity.
Qed.

Lemma error_envelope_not_success resp data :
  error_envelope resp ->
  content resp <> JDict [("success", JBool true); ("data", data)].
Proof. intros (c & m & rest & ->). discriminate. Qed.

(** The body of [api_build_repo_image]. *)
Definition build_body (w : World) (request : Dict) (h : Headers)
  : M JSONResponse :=
  bind (require_auth w (authorization h)) (fun _ =>
  if negb (truthy_json (dict_get request "repo_owner"))
     || negb (truthy_json (dict_get request "repo_name"))
  then raise (HTTPException 400
                (JStr "repo_owner and repo_name are required"))
  else if negb (truthy_json (dict_get_default request "build_id" (JStr "")))
  then raise (HTTPException 400 (JStr "build_id is required"))
  else
    bind (emit (SpawnBuild (build_args request))) (fun _ =>
    bind (call (spawn_build w (build_args request))) (fun _ =>
    success_response
      (JDict [("build_id", dict_get_default request "build_id" (JStr ""));
              ("status", JStr "building")])))).

Lemma api_build_repo_image_unfold w request h :
  api_build_repo_image w request h
  = endpoint w "POST" "/api_build_repo_image" "api_build_repo_image"
      "Failed to start image build" h no_ids (build_body w request h).
Proof. reflexivity. Qed.

Lemma build_body_spec w request h s :
  exists rb sb new,
    build_body w request h s = (rb, sb) /\
    trace sb = new ++ trace s /\
    omap spawn_of new =
      (if authorized w h
          && truthy_json (dict_get request "repo_owner")
          && truthy_json (dict_get request "repo_name")
          && truthy_json (dict_get_default request "build_id" (JStr ""))
       then [build_args request] else []) /\
    (forall resp, rb = Return resp ->
       omap spawn_of new = [build_args request] /\
       spawn_build w (build_args request) = Gives tt /\
       resp = {| status_code := 200;
                 content :=
                   JDict [("success", JBool true);
                          ("data",
                           JDict [("build_id",
                                   dict_get_default request "build_id"
                                     (JStr ""));
                                  ("status", JStr "building")])] |}).
Proof.
  unfold build_body, authorized. run_web.
  destruct (verify_internal_token w (authorization h)) as [[]|[]] eqn:V;
    cbn [andb].
  2-5: eexists; eexists; exists []; (split; [reflexivity|]);
    (split; [reflexivity|]); (split; [reflexivity|]); intros resp [=].
  destruct (truthy_json (dict_get request "repo_owner"));
    destruct (truthy_json (dict_get request "repo_name"));
    cbn [negb orb andb].
  2-4: eexists; eexists; exists []; (split; [reflexivity|]);
    (split; [reflexivity|]); (split; [reflexivity|]); intros resp [=].
  destruct (truthy_json (dict_get_default request "build_id" (JStr "")));
    cbn [negb].
  2: eexists; eexists; exists []; (split; [reflexivity|]);
    (split; [reflexivity|]); (split; [reflexivity|]); intros resp [=].
  destruct (spawn_build w (build_args request)) as [[]|e] eqn:Sp.
  2: eexists; eexists; exists [SpawnBuild (build_args request)];
    (split; [reflexivity|]);
    (split; [reflexivity|]); (split; [reflexivity|]); intros resp [=].
  destruct (compliant _); [destruct (utf8 _)|].
  - eexists; eexists; exists [SpawnBuild (build_args request)].
    split; [reflexivity|]. split; [reflexivity|]. split; [reflexivity|].
    intros resp [= <-]. auto.
  - eexists; eexists; exists [SpawnBuild (build_args request)].
    split; [reflexivity|]. split; [reflexivity|]. split; [reflexivity|].
    intros resp [=].
  - eexists; eexists; exists [SpawnBuild (build_args request)].
    split; [reflexivity|]. split; [reflexivity|]. split; [reflexivity|].
    intros resp [=].
Qed.

(** [api_build_repo_image] starts the builder at most once, and exactly
    when the request is authorized and names a repository owner, a
    repository and a build id; the builder then gets the request's
    values as they are, [callback_url] included, which is not
    validated.  The success envelope is only returned after the spawn
    went through, with status 200 and the data
    [{build_id, status: "building"}]. *)
Theorem build_is_spawned_for_complete_requests w request h s :
  exists r s' new,
    api_build_repo_image w request h s = (r, s') /\
    trace s' = new ++ trace s /\
    omap spawn_of new =
      (if authorized w h
          && truthy_json (dict_get request "repo_owner")
          && truthy_json (dict_get request "repo_name")
          && truthy_json (dict_get_default request "build_id" (JStr ""))
       then [build_args request] else []) /\
    (forall resp data,
       r = Return resp ->
       content resp = JDict [("success", JBool true); ("data", data)] ->
       omap spawn_of new = [build_args request] /\
       spawn_build w (build_args request) = Gives tt /\
       status_code resp = 200%Z /\
       data = JDict [("build_id",
                      dict_get_default request "build_id" (JStr ""));
                     ("status", JStr "building")]).
Proof.
  rewrite api_build_repo_image_unfold.
  destruct (endpoint_inversion w "POST" "/api_build_repo_image"
              "api_build_repo_image" "Failed to start image build" h no_ids
              (build_body w request h) s)
    as (rb & sb & r & s' & line & extra & Eb & E & T & Hx & Hr).
  destruct (build_body_spec w request h
              (set_outcome "success" (set_http_status 200 s)))
    as (rb' & sb' & new & Eb' & Tb & Sp & Hb).
  rewrite Eb in Eb'. injection Eb' as <- <-.
  exists r, s', (LogHttpRequest line :: extra ++ new).
  split; [exact E|].
  assert (X : omap spawn_of (LogHttpRequest line :: extra ++ new)
              = omap spawn_of new).
  { change (LogHttpRequest line :: extra ++ new)
      with ([LogHttpRequest line] ++ extra ++ new).
    rewrite !omap_app. destruct Hx as [->|[e ->]]; reflexivity. }
  split_and!.
  - rewrite T, Tb. cbn [trace set_outcome set_http_status app].
    rewrite <- app_assoc. reflexivity.
  - rewrite X. exact Sp.
  - intros resp data -> C.
    destruct (Hr resp eq_refl) as [(-> & _)|Env];
      [|destruct (error_envelope_not_success _ data Env C)].
    destruct (Hb resp eq_refl) as (S1 & S2 & ->).
    rewrite X. cbn in C. injection C as <-. auto.
Qed.

(** *** Creating a sandbox *)

Definition create_of (e : Event) : option SandboxConfig :=
  match e with CreateSandbox config => Some config | _ => None end.

(** What [SessionConfig(...)] is called with. *)
Definition session_config_of (request : Dict)
  (session_id repo_owner repo_name : string) : SessionConfig :=
  {| sc_session_id := session_id;
     sc_repo_owner := repo_owner;
     sc_repo_name := repo_name;
     sc_branch := dict_get request "branch";
     sc_opencode_session_id := dict_get request "opencode_session_id";
     sc_provider := dict_get_default request "provider" (JStr "anthropic");
     sc_model := dict_get_default request "model" (JStr "claude-sonnet-4-6")
  |}.

(** What [SandboxConfig(...)] is called with. *)
Definition sandbox_config_of (request : Dict)
  (session_id repo_owner repo_name sandbox_auth_token : string)
  (timeout_seconds : Z) (github_app_token : option string) : SandboxConfig :=
  {| cfg_repo_owner := repo_owner;
     cfg_repo_name := repo_name;
     cfg_sandbox_id := dict_get request "sandbox_id";
     cfg_snapshot_id := dict_get request "snapshot_id";
     cfg_session_config :=
       session_config_of request session_id repo_owner repo_name;
     cfg_control_plane_url :=
       str_or_empty (dict_get request "control_plane_url");
     cfg_sandbox_auth_token := sandbox_auth_token;
     cfg_timeout_seconds := timeout_seconds;
     cfg_clone_token := github_app_token;
     cfg_user_env_vars := or_none (dict_get request "user_env_vars");
     cfg_repo_image_id := or_none (dict_get request "repo_image_id");
     cfg_repo_image_sha := or_none (dict_get request "repo_image_sha")
  |}.

(** The body of [api_create_sandbox]. *)
Definition create_body (w : World) (request : Dict) (h : Headers)
  : M JSONResponse :=
  bind (require_auth w (authorization h)) (fun _ =>
  bind (require_valid_control_plane_url w
          (dict_get request "control_plane_url")) (fun _ =>
  match nonempty_str (dict_get request "session_id") with
  | None => raise (HTTPException 400 (JStr "session_id is required"))
  | Some session_id =>
  match nonempty_str (dict_get request "repo_owner") with
  | None => raise (HTTPException 400 (JStr "repo_owner is required"))
  | Some repo_owner =>
  match nonempty_str (dict_get request "repo_name") with
  | None => raise (HTTPException 400 (JStr "repo_name is required"))
  | Some repo_name =>
  match nonempty_str (dict_get request "sandbox_auth_token") with
  | None => raise (HTTPException 400 (JStr "sandbox_auth_token is required"))
  | Some sandbox_auth_token =>
      bind (timeout_seconds_of w request) (fun timeout_seconds =>
      bind (emit NewSandboxManager) (fun _ =>
      bind (call (new_sandbox_manager w)) (fun _ =>
      bind (github_app_token_of w) (fun github_app_token =>
      bind (emit (NewSessionConfig
                    (session_config_of request session_id repo_owner
                       repo_name))) (fun _ =>
      bind (call (new_session_config w
                    (session_config_of request session_id repo_owner
                       repo_name))) (fun _ =>
      let config :=
        sandbox_config_of request session_id repo_owner repo_name
          sandbox_auth_token timeout_seconds github_app_token in
      bind (emit (NewSandboxConfig config)) (fun _ =>
      bind (call (new_sandbox_config w config)) (fun _ =>
      bind (emit (CreateSandbox config)) (fun _ =>
      bind (call (create_sandbox w config)) (fun handle =>
      success_response
        (JDict [("sandbox_id", handle_sandbox_id handle);
                ("modal_object_id", handle_modal_object_id handle);
                ("status", handle_status_value handle);
                ("created_at", handle_created_at handle)])))))))))))
  end end end end)).

Lemma api_create_sandbox_unfold w request h :
  api_create_sandbox w request h
  = endpoint w "POST" "/api_create_sandbox" "api_create_sandbox"
      "Failed to create sandbox" h (header_ids h) (create_body w request h).
Proof. reflexivity. Qed.

(** The timeout an endpoint works with: the default when the request
    has none, else what [int] makes of the request's value. *)
Definition timeout_from (w : World) (request : Dict) (n : Z) : Prop :=
  (dict_get request "timeout_seconds" = JNull /\
   n = DEFAULT_SANDBOX_TIMEOUT_SECONDS w) \/
  (dict_get request "timeout_seconds" <> JNull /\
   int_ w (dict_get request "timeout_seconds") = IntOk n).

Lemma timeout_seconds_of_spec w request :
  exists rt,
    (forall s, timeout_seconds_of w request s = (rt, s)) /\
    (forall n, rt = Return n -> timeout_from w request n) /\
    (forall e, rt = Raise e ->
       match int_ w (dict_get request "timeout_seconds") with
       | IntTypeError | IntValueError =>
           e = HTTPException 400 (JStr "timeout_seconds must be an integer")
       | IntOverflowError =>
           e = Error "OverflowError" "cannot convert float infinity to integer"
       | IntOk _ => False
       end /\ dict_get request "timeout_seconds" <> JNull).
Proof.
  unfold timeout_seconds_of, timeout_from. cbv zeta.
  destruct (dict_get request "timeout_seconds") as [|b|n|x|str|l|d] eqn:R.
  1: { eexists. split; [reflexivity|]. split.
       - intros n [= <-]. left. auto.
       - intros e [=]. }
  all: destruct (int_ w _) as [n'| | |] eqn:I;
    (eexists; split; [intros s; reflexivity|]); split.
  all: try (intros k [= <-]; right; split; [discriminate|reflexivity]).
  all: try (intros k [=]; fail).
  all: try (intros e [= <-]; split; [reflexivity|discriminate]).
  all: intros e [=].
Qed.

(** The token [github_app_token_of] comes to: the one the generator
    returned for the three variables of the environment, if they are
    all set and non-empty and the generator returned. *)
Definition token_from (w : World) (token : option string) : Prop :=
  match token with
  | Some t =>
      exists app_id private_key installation_id,
        environ w "GITHUB_APP_ID" = Some app_id /\
        environ w "GITHUB_APP_PRIVATE_KEY" = Some private_key /\
        environ w "GITHUB_APP_INSTALLATION_ID" = Some installation_id /\
        generate_installation_token w app_id private_key installation_id
        = Gives t
  | None => True
  end.

Definition is_token_event (e : Event) : bool :=
  match e with
  | GenerateInstallationToken _ _ _ => true
  | LogTokenError _ => true
  | _ => false
  end.

(** The token block never raises and touches nothing but the token
    generator and the log. *)
Lemma github_app_token_of_spec w s :
  exists token s' new,
    github_app_token_of w s = (Return token, s') /\
    trace s' = new ++ trace s /\
    forallb is_token_event new = true /\
    token_from w token.
Proof.
  unfold github_app_token_of, token_from. run_web.
  destruct (environ w "GITHUB_APP_ID") as [a|] eqn:Ea;
    [|exists None; eexists; exists []; cbn; auto].
  destruct (environ w "GITHUB_APP_PRIVATE_KEY") as [k|] eqn:Ek;
    [|exists None; eexists; exists []; cbn; auto].
  destruct (environ w "GITHUB_APP_INSTALLATION_ID") as [i|] eqn:Ei;
    [|exists None; eexists; exists []; cbn; auto].
  destruct (Py.truthy a && Py.truthy k && Py.truthy i);
    [|exists None; eexists; exists []; cbn; auto].
  destruct (generate_installation_token w a k i) as [t|e] eqn:G.
  - exists (Some t); eexists; exists [GenerateInstallationToken a k i].
    cbn. split_and!; auto. exists a, k, i. auto.
  - exists None; eexists;
      exists [LogTokenError e; GenerateInstallationToken a k i].
    cbn. auto.
Qed.

Lemma token_events_create_nothing (new : list Event) :
  forallb is_token_event new = true -> omap create_of new = [].
Proof.
  induction new as [|e new IH]; [reflexivity|].
  cbn [forallb]. intros H. apply andb_true_iff in H as [He H].
  change (e :: new) with ([e] ++ new). rewrite omap_app, (IH H).
  destruct e; try discriminate; reflexivity.
Qed.

(** The URL a sandbox is given is empty, or the request's, which
    [validate_control_plane_url] accepted. *)
Definition url_from (w : World) (raw : Json) (url : string) : Prop :=
  url = str_or_empty raw /\
  (url = ""%string \/ validate_control_plane_url w (JStr url) = Gives true).

Lemma require_valid_control_plane_url_spec w raw :
  exists rv,
    (forall s, require_valid_control_plane_url w raw s = (rv, s)) /\
    (rv = Return tt -> url_from w raw (str_or_empty raw)).
Proof.
  unfold require_valid_control_plane_url, url_from. run_web.
  destruct (truthy_json raw) eqn:Tr.
  - destruct (validate_control_plane_url w raw) as [[]|e] eqn:V;
      (eexists; split; [intros s; reflexivity|]); try discriminate.
    intros _. split; [reflexivity|].
    destruct raw; cbn [str_or_empty]; auto.
  - eexists; split; [intros s; reflexivity|]. intros _.
    split; [reflexivity|]. left.
    destruct raw as [| | | |str| |]; try reflexivity.
    cbn in Tr. destruct str; [reflexivity|discriminate].
Qed.

(** What a config handed to [manager.create_sandbox] is made of. *)
Record config_from (w : World) (request : Dict) (h : Headers)
  (config : SandboxConfig) : Prop := {
  cf_authorized : authorized w h = true;
  cf_session_id :
    nonempty_str (dict_get request "session_id")
    = Some (sc_session_id (cfg_session_config config));
  cf_repo_owner :
    nonempty_str (dict_get request "repo_owner") = Some (cfg_repo_owner config);
  cf_repo_name :
    nonempty_str (dict_get request "repo_name") = Some (cfg_repo_name config);
  cf_sandbox_auth_token :
    nonempty_str (dict_get request "sandbox_auth_token")
    = Some (cfg_sandbox_auth_token config);
  cf_timeout : timeout_from w request (cfg_timeout_seconds config);
  cf_url :
    url_from w (dict_get request "control_plane_url")
      (cfg_control_plane_url config);
  cf_token : token_from w (cfg_clone_token config);
  cf_rest :
    config = sandbox_config_of request
               (sc_session_id (cfg_session_config config))
               (cfg_repo_owner config) (cfg_repo_name config)
               (cfg_sandbox_auth_token config)
               (cfg_timeout_seconds config) (cfg_clone_token config)
}.

(** The outcome of a body as far as the sandbox is concerned: nothing
    was created and no response returned, or [create_sandbox] was
    called once, with a config made as above, and a response returned
    is the success envelope of the handle it gave back. *)
Definition creates (w : World) (request : Dict) (h : Headers)
  (r : result JSONResponse) (new : list Event) : Prop :=
  (omap create_of new = [] /\ forall resp, r <> Return resp) \/
  (exists config,
     omap create_of new = [config] /\
     config_from w request h config /\
     forall resp, r = Return resp ->
       exists handle,
         create_sandbox w config = Gives handle /\
         resp = {| status_code := 200;
                   content :=
                     JDict [("success", JBool true);
                            ("data",
                             JDict [("sandbox_id", handle_sandbox_id handle);
                                    ("modal_object_id",
                                     handle_modal_object_id handle);
                                    ("status", handle_status_value handle);
                                    ("created_at",
                                     handle_created_at handle)])] |}).

Lemma creates_nothing w request h e (new : list Event) :
  omap create_of new = [] -> creates w request h (Raise e) new.
Proof. intros C. left. split; [exact C|]. discriminate. Qed.

Lemma create_body_spec w request h s :
  exists rb sb new,
    create_body w request h s = (rb, sb) /\
    trace sb = new ++ trace s /\
    creates w request h rb new.
Proof.
  unfold create_body.
  assert (Stop : forall e (s1 : State) new,
            trace s1 = new ++ trace s -> omap create_of new = [] ->
            exists rb sb new,
              (@Raise JSONResponse e, s1) = (rb, sb) /\
              trace sb = new ++ trace s /\
              creates w request h rb new).
  { intros e s1 new T C. exists (Raise e), s1, new.
    split; [reflexivity|]. split; [exact T|].
    apply creates_nothing, C. }
  unfold bind at 1.
  destruct (verify_internal_token w (authorization h)) as [[]|ea] eqn:V.
  2: { unfold require_auth. rewrite V. apply (Stop _ s []); reflexivity. }
  2: { unfold require_auth. rewrite V.
       destruct ea; apply (Stop _ s []); reflexivity. }
  rewrite (require_auth_accepts w _ V).
  destruct (require_valid_control_plane_url_spec w
              (dict_get request "control_plane_url")) as (rv & Ev & Hv).
  unfold bind at 1. rewrite Ev.
  destruct rv as [[]|e]; [|apply (Stop _ s []); reflexivity].
  specialize (Hv eq_refl).
  destruct (nonempty_str (dict_get request "session_id")) as [sid|] eqn:F1;
    [|apply (Stop _ s []); reflexivity].
  destruct (nonempty_str (dict_get request "repo_owner")) as [own|] eqn:F2;
    [|apply (Stop _ s []); reflexivity].
  destruct (nonempty_str (dict_get request "repo_name")) as [nam|] eqn:F3;
    [|apply (Stop _ s []); reflexivity].
  destruct (nonempty_str (dict_get request "sandbox_auth_token"))
    as [tok|] eqn:F4; [|apply (Stop _ s []); reflexivity].
  destruct (timeout_seconds_of_spec w request) as (rt & Et & Ht & _).
  unfold bind at 1. rewrite Et.
  destruct rt as [n|e]; [|apply (Stop _ s []); reflexivity].
  specialize (Ht n eq_refl).
  unfold bind at 1, emit at 1, modify at 1. cbv beta iota.
  unfold bind at 1, call at 1.
  destruct (new_sandbox_manager w) as [[]|e]; cbn [call ret raise];
    [|apply (Stop _ _ [NewSandboxManager]); reflexivity].
  unfold bind at 1.
  destruct (github_app_token_of_spec w (push NewSandboxManager s))
    as (token & s1 & new1 & E1 & T1 & N1 & Htok).
  rewrite E1.
  apply token_events_create_nothing in N1.
  set (sc := session_config_of request sid own nam).
  set (config := sandbox_config_of request sid own nam tok n token).
  assert (T1' : trace s1 = (new1 ++ [NewSandboxManager]) ++ trace s).
  { rewrite T1, <- app_assoc. reflexivity. }
  assert (N1' : omap create_of (new1 ++ [NewSandboxManager]) = []).
  { rewrite omap_app, N1. reflexivity. }
  assert (Ext : forall (evs : list Event) (s2 : State),
            trace s2 = evs ++ trace s1 ->
            trace s2 = (evs ++ new1 ++ [NewSandboxManager]) ++ trace s).
  { intros evs s2 ->. rewrite T1'. rewrite <- !app_assoc. reflexivity. }
  unfold bind at 1, emit at 1, modify at 1. cbv beta iota.
  unfold bind at 1, call at 1.
  destruct (new_session_config w sc) as [[]|e]; cbn [call ret raise].
  2: { apply (Stop _ _ ([NewSessionConfig sc] ++ new1 ++ [NewSandboxManager])).
       - apply Ext. reflexivity.
       - rewrite omap_app, N1'. reflexivity. }
  unfold bind at 1, emit at 1, modify at 1. cbv beta iota.
  unfold bind at 1, call at 1.
  destruct (new_sandbox_config w config) as [[]|e]; cbn [call ret raise].
  2: { apply (Stop _ _ ([NewSandboxConfig config; NewSessionConfig sc]
                          ++ new1 ++ [NewSandboxManager])).
       - apply Ext. reflexivity.
       - rewrite omap_app, N1'. reflexivity. }
  unfold bind at 1, emit at 1, modify at 1. cbv beta iota.
  unfold bind at 1, call at 1.
  assert (Cf : config_from w request h config).
  { constructor; try assumption; try reflexivity.
    unfold authorized. rewrite V. reflexivity. }
  destruct (create_sandbox w config) as [handle|e] eqn:Cr;
    cbn [call ret raise].
  - unfold success_response, new_JSONResponse.
    match goal with
    | |- context [compliant ?c] =>
        destruct (compliant c); [destruct (utf8 c)|]
    end.
    + eexists; eexists;
        exists ([CreateSandbox config; NewSandboxConfig config;
                 NewSessionConfig sc] ++ new1 ++ [NewSandboxManager]).
      split; [reflexivity|]. split; [apply Ext; reflexivity|].
      right. exists config. split; [rewrite omap_app, N1'; reflexivity|].
      split; [exact Cf|].
      intros resp [= <-]. exists handle. auto.
    + eexists; eexists;
        exists ([CreateSandbox config; NewSandboxConfig config;
                 NewSessionConfig sc] ++ new1 ++ [NewSandboxManager]).
      split; [reflexivity|]. split; [apply Ext; reflexivity|].
      right. exists config. split; [rewrite omap_app, N1'; reflexivity|].
      split; [exact Cf|]. intros resp [=].
    + eexists; eexists;
        exists ([CreateSandbox config; NewSandboxConfig config;
                 NewSessionConfig sc] ++ new1 ++ [NewSandboxManager]).
      split; [reflexivity|]. split; [apply Ext; reflexivity|].
      right. exists config. split; [rewrite omap_app, N1'; reflexivity|].
      split; [exact Cf|]. intros resp [=].
  - eexists; eexists;
      exists ([CreateSandbox config; NewSandboxConfig config;
               NewSessionConfig sc] ++ new1 ++ [NewSandboxManager]).
    split; [reflexivity|]. split; [apply Ext; reflexivity|].
    right. exists config. split; [rewrite omap_app, N1'; reflexivity|].
    split; [exact Cf|]. intros resp [=].
Qed.

(** The events the clauses of [endpoint] add hold no call. *)
Lemma wrapper_events_create_nothing {A} (f : Event -> option A) name line
  extra (new : list Event) :
  f (LogHttpRequest line) = None ->
  (forall e, f (LogApiError name e) = None) ->
  handler_events name extra ->
  omap f (LogHttpRequest line :: extra ++ new) = omap f new.
Proof.
  intros F1 F2 Hx.
  change (LogHttpRequest line :: extra ++ new)
    with ([LogHttpRequest line] ++ extra ++ new).
  rewrite !omap_app. cbn [omap list_omap]. rewrite F1.
  destruct Hx as [->|[e ->]]; [reflexivity|].
  cbn [omap list_omap]. rewrite F2. reflexivity.
Qed.

(** [api_create_sandbox] calls [manager.create_sandbox] at most once,
    and only for an authorized request, with a config whose session id,
    repository, and sandbox token are the request's non-empty strings;
    whose timeout is the default when the request has none and else
    the integer [int] makes of the request's value; whose control-plane
    URL is empty or a string [validate_control_plane_url] accepted;
    and whose clone token, if any, is the one the generator returned
    for the GitHub App variables of the environment.  The success
    envelope is returned only after that call returned a handle, with
    status 200 and the handle's four fields as data. *)
Theorem sandbox_is_created_from_a_checked_request w request h s :
  exists r s' new,
    api_create_sandbox w request h s = (r, s') /\
    trace s' = new ++ trace s /\
    (omap create_of new = [] \/
     exists config,
       omap create_of new = [config] /\ config_from w request h config) /\
    (forall resp data,
       r = Return resp ->
       content resp = JDict [("success", JBool true); ("data", data)] ->
       exists config handle,
         omap create_of new = [config] /\
         create_sandbox w config = Gives handle /\
         status_code resp = 200%Z /\
         data = JDict [("sandbox_id", handle_sandbox_id handle);
                       ("modal_object_id", handle_modal_object_id handle);
                       ("status", handle_status_value handle);
                       ("created_at", handle_created_at handle)]).
Proof.
  rewrite api_create_sandbox_unfold.
  destruct (endpoint_inversion w "POST" "/api_create_sandbox"
              "api_create_sandbox" "Failed to create sandbox" h (header_ids h)
              (create_body w request h) s)
    as (rb & sb & r & s' & line & extra & Eb & E & T & Hx & Hr).
  destruct (create_body_spec w request h
              (set_outcome "success" (set_http_status 200 s)))
    as (rb' & sb' & new & Eb' & Tb & Hc).
  rewrite Eb in Eb'. injection Eb' as <- <-.
  exists r, s', (LogHttpRequest line :: extra ++ new).
  split; [exact E|].
  assert (X : omap create_of (LogHttpRequest line :: extra ++ new)
              = omap create_of new).
  { apply (wrapper_events_create_nothing _ "api_create_sandbox");
      [reflexivity|reflexivity|exact Hx]. }
  rewrite X. split_and!.
  - rewrite T, Tb. cbn [trace set_outcome set_http_status app].
    rewrite <- app_assoc. reflexivity.
  - destruct Hc as [(C & _)|(config & C & Cf & _)]; [left; exact C|].
    right. exists config. auto.
  - intros resp data -> C.
    destruct (Hr resp eq_refl) as [(-> & _)|Env];
      [|destruct (error_envelope_not_success _ data Env C)].
    destruct Hc as [(_ & N)|(config & Cc & _ & Hb)];
      [destruct (N resp eq_refl)|].
    destruct (Hb resp eq_refl) as (handle & Cr & ->).
    cbn in C. injection C as <-.
    exists config, handle. auto.
Qed.

(** *** Restoring and warming a sandbox *)

Definition restore_of (e : Event) : option RestoreArgs :=
  match e with RestoreFromSnapshot args => Some args | _ => None end.

(** What [manager.restore_from_snapshot] is called with. *)
Definition restore_args_of (request : Dict) (timeout_seconds : Z)
  (github_app_token : option string) : RestoreArgs :=
  {| ra_snapshot_image_id := dict_get request "snapshot_image_id";
     ra_session_config :=
       dict_get_default request "session_config" (JDict []);
     ra_sandbox_id := dict_get request "sandbox_id";
     ra_control_plane_url :=
       str_or_empty (dict_get_default request "control_plane_url" (JStr ""));
     ra_sandbox_auth_token :=
       dict_get_default request "sandbox_auth_token" (JStr "");
     ra_clone_token := github_app_token;
     ra_user_env_vars := or_none (dict_get request "user_env_vars");
     ra_timeout_seconds := timeout_seconds |}.

(** The body of [api_restore_sandbox]. *)
Definition restore_body (w : World) (request : Dict) (h : Headers)
  : M JSONResponse :=
  bind (require_auth w (authorization h)) (fun _ =>
  bind (require_valid_control_plane_url w
          (JStr (str_or_empty
                   (dict_get_default request "control_plane_url" (JStr "")))))
    (fun _ =>
  if negb (truthy_json (dict_get request "snapshot_image_id"))
  then raise (HTTPException 400 (JStr "snapshot_image_id is required"))
  else
    bind (timeout_seconds_of w request) (fun timeout_seconds =>
    bind (emit NewSandboxManager) (fun _ =>
    bind (call (new_sandbox_manager w)) (fun _ =>
    bind (github_app_token_of w) (fun github_app_token =>
    let args := restore_args_of request timeout_seconds github_app_token in
    bind (emit (RestoreFromSnapshot args)) (fun _ =>
    bind (call (restore_from_snapshot w args)) (fun handle =>
    success_response
      (JDict [("sandbox_id", handle_sandbox_id handle);
              ("modal_object_id", handle_modal_object_id handle);
              ("status", handle_status_value handle)]))))))))).

Lemma api_restore_sandbox_unfold w request h :
  api_restore_sandbox w request h
  = endpoint w "POST" "/api_restore_sandbox" "api_restore_sandbox"
      "Failed to restore sandbox" h (header_ids h)
      (restore_body w request h).
Proof. reflexivity. Qed.

(** What the arguments of a restore are made of. *)
Record restore_from (w : World) (request : Dict) (h : Headers)
  (args : RestoreArgs) : Prop := {
  rf_authorized : authorized w h = true;
  rf_snapshot : truthy_json (ra_snapshot_image_id args) = true;
  rf_timeout : timeout_from w request (ra_timeout_seconds args);
  rf_url :
    url_from w (dict_get_default request "control_plane_url" (JStr ""))
      (ra_control_plane_url args);
  rf_token : token_from w (ra_clone_token args);
  rf_rest :
    args = restore_args_of request (ra_timeout_seconds args)
             (ra_clone_token args)
}.

Definition restores (w : World) (request : Dict) (h : Headers)
  (r : result JSONResponse) (new : list Event) : Prop :=
  (omap restore_of new = [] /\ forall resp, r <> Return resp) \/
  (exists args,
     omap restore_of new = [args] /\
     restore_from w request h args /\
     forall resp, r = Return resp ->
       exists handle,
         restore_from_snapshot w args = Gives handle /\
         resp = {| status_code := 200;
                   content :=
                     JDict [("success", JBool true);
                            ("data",
                             JDict [("sandbox_id", handle_sandbox_id handle);
                                    ("modal_object_id",
                                     handle_modal_object_id handle);
                                    ("status",
                                     handle_status_value handle)])] |}).

Lemma token_events_restore_nothing (new : list Event) :
  forallb is_token_event new = true -> omap restore_of new = [].
Proof.
  induction new as [|e new IH]; [reflexivity|].
  cbn [forallb]. intros H. apply andb_true_iff in H as [He H].
  change (e :: new) with ([e] ++ new). rewrite omap_app, (IH H).
  destruct e; try discriminate; reflexivity.
Qed.

Lemma restore_body_spec w request h s :
  exists rb sb new,
    restore_body w request h s = (rb, sb) /\
    trace sb = new ++ trace s /\
    restores w request h rb new.
Proof.
  unfold restore_body.
  assert (Stop : forall e (s1 : State) new,
            trace s1 = new ++ trace s -> omap restore_of new = [] ->
            exists rb sb new,
              (@Raise JSONResponse e, s1) = (rb, sb) /\
              trace sb = new ++ trace s /\
              restores w request h rb new).
  { intros e s1 new T C. exists (Raise e), s1, new.
    split; [reflexivity|]. split; [exact T|].
    left. split; [exact C|discriminate]. }
  unfold bind at 1.
  destruct (verify_internal_token w (authorization h)) as [[]|ea] eqn:V.
  2: { unfold require_auth. rewrite V. apply (Stop _ s []); reflexivity. }
  2: { unfold require_auth. rewrite V.
       destruct ea; apply (Stop _ s []); reflexivity. }
  rewrite (require_auth_accepts w _ V).
  destruct (require_valid_control_plane_url_spec w
              (JStr (str_or_empty
                       (dict_get_default request "control_plane_url"
                          (JStr ""))))) as (rv & Ev & Hv).
  unfold bind at 1. rewrite Ev.
  destruct rv as [[]|e]; [|apply (Stop _ s []); reflexivity].
  specialize (Hv eq_refl).
  destruct (truthy_json (dict_get request "snapshot_image_id")) eqn:Sn;
    cbn [negb]; [|apply (Stop _ s []); reflexivity].
  destruct (timeout_seconds_of_spec w request) as (rt & Et & Ht & _).
  unfold bind at 1. rewrite Et.
  destruct rt as [n|e]; [|apply (Stop _ s []); reflexivity].
  specialize (Ht n eq_refl).
  unfold bind at 1, emit at 1, modify at 1. cbv beta iota.
  unfold bind at 1, call at 1.
  destruct (new_sandbox_manager w) as [[]|e]; cbn [call ret raise];
    [|apply (Stop _ _ [NewSandboxManager]); reflexivity].
  unfold bind at 1.
  destruct (github_app_token_of_spec w (push NewSandboxManager s))
    as (token & s1 & new1 & E1 & T1 & N1 & Htok).
  rewrite E1. cbv zeta.
  apply token_events_restore_nothing in N1.
  set (args := restore_args_of request n token).
  assert (N1' : omap restore_of (new1 ++ [NewSandboxManager]) = []).
  { rewrite omap_app, N1. reflexivity. }
  assert (Ext : forall (evs : list Event) (s2 : State),
            trace s2 = evs ++ trace s1 ->
            trace s2 = (evs ++ new1 ++ [NewSandboxManager]) ++ trace s).
  { intros evs s2 ->. rewrite T1, <- !app_assoc. reflexivity. }
  unfold bind at 1, emit at 1, modify at 1. cbv beta iota.
  unfold bind at 1, call at 1.
  assert (Rf : restore_from w request h args).
  { constructor; try assumption; try reflexivity.
    all: try (unfold authorized; rewrite V; reflexivity).
    all: destruct Hv as [_ Hv]; split; [reflexivity|exact Hv]. }
  assert (Out : forall r (s2 : State),
            trace s2 = [RestoreFromSnapshot args] ++ trace s1 ->
            (forall resp, r = Return resp ->
               exists handle,
                 restore_from_snapshot w args = Gives handle /\
                 resp = {| status_code := 200;
                           content :=
                             JDict [("success", JBool true);
                                    ("data",
                                     JDict [("sandbox_id",
                                             handle_sandbox_id handle);
                                            ("modal_object_id",
                                             handle_modal_object_id handle);
                                            ("status",
                                             handle_status_value handle)])]
                        |}) ->
            exists rb sb new,
              (r, s2) = (rb, sb) /\
              trace sb = new ++ trace s /\
              restores w request h rb new).
  { intros r s2 T2 Hr. exists r, s2; eexists.
    split; [reflexivity|]. split; [apply Ext, T2|].
    right. exists args. split; [rewrite omap_app, N1'; reflexivity|].
    split; [exact Rf|exact Hr]. }
  destruct (restore_from_snapshot w args) as [handle|e] eqn:Re;
    cbn [call ret raise].
  - unfold success_response, new_JSONResponse.
    match goal with
    | |- context [compliant ?c] =>
        destruct (compliant c); [destruct (utf8 c)|]
    end.
    + apply Out; [reflexivity|]. intros resp [= <-]. exists handle. auto.
    + apply Out; [reflexivity|]. intros resp [=].
    + apply Out; [reflexivity|]. intros resp [=].
  - apply Out; [reflexivity|]. intros resp [=].
Qed.

(** [api_restore_sandbox] calls [manager.restore_from_snapshot] at most
    once, and only for an authorized request that names a snapshot
    image, with the request's values and a timeout, control-plane URL
    and clone token obtained as in [api_create_sandbox]: the default or
    the integer of the request, the empty string or an accepted URL,
    and the generator's token or none.  The success envelope is
    returned only after that call returned a handle. *)
Theorem sandbox_is_restored_from_a_checked_request w request h s :
  exists r s' new,
    api_restore_sandbox w request h s = (r, s') /\
    trace s' = new ++ trace s /\
    (omap restore_of new = [] \/
     exists args,
       omap restore_of new = [args] /\ restore_from w request h args) /\
    (forall resp data,
       r = Return resp ->
       content resp = JDict [("success", JBool true); ("data", data)] ->
       exists args handle,
         omap restore_of new = [args] /\
         restore_from_snapshot w args = Gives handle /\
         status_code resp = 200%Z /\
         data = JDict [("sandbox_id", handle_sandbox_id handle);
                       ("modal_object_id", handle_modal_object_id handle);
                       ("status", handle_status_value handle)]).
Proof.
  rewrite api_restore_sandbox_unfold.
  destruct (endpoint_inversion w "POST" "/api_restore_sandbox"
              "api_restore_sandbox" "Failed to restore sandbox" h
              (header_ids h) (restore_body w request h) s)
    as (rb & sb & r & s' & line & extra & Eb & E & T & Hx & Hr).
  destruct (restore_body_spec w request h
              (set_outcome "success" (set_http_status 200 s)))
    as (rb' & sb' & new & Eb' & Tb & Hc).
  rewrite Eb in Eb'. injection Eb' as <- <-.
  exists r, s', (LogHttpRequest line :: extra ++ new).
  split; [exact E|].
  assert (X : omap restore_of (LogHttpRequest line :: extra ++ new)
              = omap restore_of new).
  { apply (wrapper_events_create_nothing _ "api_restore_sandbox");
      [reflexivity|reflexivity|exact Hx]. }
  rewrite X. split_and!.
  - rewrite T, Tb. cbn [trace set_outcome set_http_status app].
    rewrite <- app_assoc. reflexivity.
  - destruct Hc as [(C & _)|(args & C & Rf & _)]; [left; exact C|].
    right. exists args. auto.
  - intros resp data -> C.
    destruct (Hr resp eq_refl) as [(-> & _)|Env];
      [|destruct (error_envelope_not_success _ data Env C)].
    destruct Hc as [(_ & N)|(args & Cc & _ & Hb)];
      [destruct (N resp eq_refl)|].
    destruct (Hb resp eq_refl) as (handle & Cr & ->).
    cbn in C. injection C as <-.
    exists args, handle. auto.
Qed.

(** *** Requests that fail validation *)

(** As [endpoint_turned_down], for a body that may have assigned its
    locals before it raised. *)
Lemma endpoint_turns_down w method path name failure_message h ids body
  status message :
  encodable message = true ->
  (forall s, exists s1,
     body s = (Raise (HTTPException status (JStr message)), s1) /\
     trace s1 = trace s) ->
  turned_down status message
    (endpoint w method path name failure_message h ids body).
Proof.
  intros Hm Hb s. unfold endpoint.
  unfold bind at 1, modify at 1. cbv beta iota.
  unfold bind at 1, modify at 1. cbv beta iota.
  unfold try_finally, try_except_http.
  destruct (Hb (set_outcome "success" (set_http_status 200 s)))
    as (s1 & -> & T).
  unfold bind at 1, modify at 1. cbv beta iota.
  unfold bind at 1, modify at 1. cbv beta iota.
  unfold error_response, new_JSONResponse, dict_or_none,
    _http_exception_message. cbv zeta.
  cbn [compliant forallb andb].
  rewrite (error_content_utf8 status message Hm).
  unfold bind, get, emit, modify, ret. cbv beta iota.
  eexists; eexists. split; [reflexivity|]. cbn. rewrite T. auto.
Qed.

(** The check of the control-plane URL an endpoint starts with:
    [Some message] when the validator turns the URL down, and else
    what the checks that follow come to, unless the validator itself
    fails. *)
Definition url_check (w : World) (url : Json) (then_ : option string)
  : option string :=
  if truthy_json url then
    match validate_control_plane_url w url with
    | Gives true => then_
    | Gives false =>
        Some ("Invalid control_plane_url: " ++ format w url
                ++ ". URL must match allowed patterns.")%string
    | Fails _ => None
    end
  else then_.

Definition timeout_check (w : World) (request : Dict) : option string :=
  match dict_get request "timeout_seconds" with
  | JNull => None
  | raw =>
      match int_ w raw with
      | IntTypeError | IntValueError =>
          Some "timeout_seconds must be an integer"
      | _ => None
      end
  end.

Definition required (field : string) (v : option string)
  (then_ : option string) : option string :=
  match v with
  | None => Some (field ++ " is required")%string
  | Some _ => then_
  end.

(** The message of the first check of each endpoint that the request
    fails, in the order the endpoint makes them. *)
Definition create_request_error (w : World) (request : Dict)
  : option string :=
  url_check w (dict_get request "control_plane_url")
    (required "session_id" (nonempty_str (dict_get request "session_id"))
    (required "repo_owner" (nonempty_str (dict_get request "repo_owner"))
    (required "repo_name" (nonempty_str (dict_get request "repo_name"))
    (required "sandbox_auth_token"
       (nonempty_str (dict_get request "sandbox_auth_token"))
    (timeout_check w request))))).

Definition warm_request_error (w : World) (request : Dict) : option string :=
  url_check w
    (JStr (str_or_empty
             (dict_get_default request "control_plane_url" (JStr ""))))
    (required "repo_owner" (nonempty_str (dict_get request "repo_owner"))
    (required "repo_name" (nonempty_str (dict_get request "repo_name"))
       None)).

Definition restore_request_error (w : World) (request : Dict)
  : option string :=
  url_check w
    (JStr (str_or_empty
             (dict_get_default request "control_plane_url" (JStr ""))))
    (if truthy_json (dict_get request "snapshot_image_id")
     then timeout_check w request
     else Some "snapshot_image_id is required").

Definition snapshot_request_error (request : Dict) : option string :=
  if truthy_json (dict_get request "sandbox_id") then None
  else Some "sandbox_id is required".

Definition build_request_error (request : Dict) : option string :=
  if truthy_json (dict_get request "repo_owner")
     && truthy_json (dict_get request "repo_name")
  then
    if truthy_json (dict_get_default request "build_id" (JStr "")) then None
    else Some "build_id is required"
  else Some "repo_owner and repo_name are required".

Definition delete_request_error (request : Dict) : option string :=
  if truthy_json (dict_get request "provider_image_id") then None
  else Some "provider_image_id is required".

Lemma url_check_raises {A} w url then_ message (k : M A) :
  url_check w url then_ = Some message ->
  (then_ = Some message ->
   forall s, k s = (Raise (HTTPException 400 (JStr message)), s)) ->
  forall s,
    bind (require_valid_control_plane_url w url) (fun _ => k) s
    = (Raise (HTTPException 400 (JStr message)), s).
Proof.
  unfold url_check, require_valid_control_plane_url. intros U Hk s.
  destruct (truthy_json url).
  - destruct (validate_control_plane_url w url) as [[]|e];
      [|injection U as <-; reflexivity|discriminate].
    unfold bind at 1. unfold bind at 1. cbn [call ret]. apply Hk, U.
  - unfold bind at 1. cbn [ret]. apply Hk, U.
Qed.

Lemma timeout_check_raises {A} w request message (k : Z -> M A) :
  timeout_check w request = Some message ->
  forall s,
    bind (timeout_seconds_of w request) k s
    = (Raise (HTTPException 400 (JStr message)), s).
Proof.
  unfold timeout_check, timeout_seconds_of. cbv zeta. intros Tc s.
  destruct (dict_get request "timeout_seconds"); [discriminate|..];
    (destruct (int_ w _); [discriminate|..|discriminate]);
    injection Tc as <-; reflexivity.
Qed.

(** The messages of the checks can be encoded when the URL they may
    quote can. *)
Ltac by_message Hu :=
  repeat match goal with
         | |- context [match ?x with _ => _ end] => destruct x eqn:?
         end;
  intros [= <-];
  first [reflexivity | apply invalid_url_message_encodable, Hu].

Lemma create_request_error_encodable w request message :
  encodable (format w (dict_get request "control_plane_url")) = true ->
  create_request_error w request = Some message ->
  encodable message = true.
Proof.
  intros Hu.
  unfold create_request_error, url_check, required, timeout_check.
  by_message Hu.
Qed.

Lemma warm_request_error_encodable w request message :
  encodable (format w (dict_get request "control_plane_url")) = true ->
  warm_request_error w request = Some message ->
  encodable message = true.
Proof.
  intros Hu. apply format_str_or_empty in Hu.
  unfold warm_request_error, url_check, required.
  by_message Hu.
Qed.

Lemma restore_request_error_encodable w request message :
  encodable (format w (dict_get request "control_plane_url")) = true ->
  restore_request_error w request = Some message ->
  encodable message = true.
Proof.
  intros Hu. apply format_str_or_empty in Hu.
  unfold restore_request_error, url_check, timeout_check.
  by_message Hu.
Qed.

(** An authorized request that fails one of the endpoint's checks is
    answered 400 with the bare error envelope, whose message names the
    first check that failed; nothing else is done: in particular no
    sandbox manager is made and no token generated.  The message of
    the URL check quotes the request's [control_plane_url], which is
    to hold no lone surrogate: the response could not be built
    otherwise. *)
Theorem invalid_requests_are_answered_400 w request h :
  verify_internal_token w (authorization h) = Gives true ->
  encodable (format w (dict_get request "control_plane_url")) = true ->
  (forall message,
     create_request_error w request = Some message ->
     turned_down 400 message (api_create_sandbox w request h)) /\
  (forall message,
     warm_request_error w request = Some message ->
     turned_down 400 message (api_warm_sandbox w request h)) /\
  (forall message,
     snapshot_request_error request = Some message ->
     turned_down 400 message (api_snapshot_sandbox w request h)) /\
  (forall message,
     restore_request_error w request = Some message ->
     turned_down 400 message (api_restore_sandbox w request h)) /\
  (forall message,
     build_request_error request = Some message ->
     turned_down 400 message (api_build_repo_image w request h)) /\
  (forall message,
     delete_request_error request = Some message ->
     turned_down 400 message (api_delete_provider_image w request h)).
Proof.
  intros V Hu.
  pose proof (require_auth_accepts w _ V) as Auth.
  split_and!; intros message Hm.
  - unfold api_create_sandbox.
    apply endpoint_turned_down;
      [exact (create_request_error_encodable _ _ _ Hu Hm)|]. intros s.
    unfold bind at 1. rewrite Auth. cbv zeta.
    apply (url_check_raises w _ _ _ _ Hm). clear Hm. intros Hm s1.
    unfold required in Hm.
    destruct (nonempty_str (dict_get request "session_id"));
      [|injection Hm as <-; reflexivity].
    destruct (nonempty_str (dict_get request "repo_owner"));
      [|injection Hm as <-; reflexivity].
    destruct (nonempty_str (dict_get request "repo_name"));
      [|injection Hm as <-; reflexivity].
    destruct (nonempty_str (dict_get request "sandbox_auth_token"));
      [|injection Hm as <-; reflexivity].
    apply (timeout_check_raises w _ _ _ Hm).
  - unfold api_warm_sandbox.
    apply endpoint_turned_down;
      [exact (warm_request_error_encodable _ _ _ Hu Hm)|]. intros s.
    unfold bind at 1. rewrite Auth. cbv zeta.
    apply (url_check_raises w _ _ _ _ Hm). clear Hm. intros Hm s1.
    unfold required in Hm.
    destruct (nonempty_str (dict_get request "repo_owner"));
      [|injection Hm as <-; reflexivity].
    destruct (nonempty_str (dict_get request "repo_name"));
      [discriminate|injection Hm as <-; reflexivity].
  - unfold api_snapshot_sandbox. intros s.
    unfold bind at 1, modify at 1. cbv beta iota.
    assert (Em : encodable message = true).
    { unfold snapshot_request_error in Hm.
      destruct (truthy_json _); [discriminate|].
      injection Hm as <-. reflexivity. }
    match goal with
    | |- context [endpoint w ?m ?p ?n ?f h ?ids ?body] =>
        assert (Hb : forall s, exists s1,
                  body s = (Raise (HTTPException 400 (JStr message)), s1) /\
                  trace s1 = trace s);
        [|destruct (endpoint_turns_down w m p n f h ids body 400 message Em
                      Hb (set_sandbox_id JNull s))
            as (s' & line & E & T & L)]
    end.
    { intros s0. unfold bind at 1. rewrite Auth.
      unfold bind at 1, modify at 1. cbv beta iota zeta.
      unfold snapshot_request_error in Hm.
      destruct (truthy_json (dict_get request "sandbox_id"));
        [discriminate|]. injection Hm as <-. cbn [negb].
      eexists. split; reflexivity. }
    exists s', line. auto.
  - unfold api_restore_sandbox.
    apply endpoint_turned_down;
      [exact (restore_request_error_encodable _ _ _ Hu Hm)|]. intros s.
    unfold bind at 1. rewrite Auth. cbv zeta.
    apply (url_check_raises w _ _ _ _ Hm). clear Hm. intros Hm s1.
    destruct (truthy_json (dict_get request "snapshot_image_id"));
      cbn [negb]; [|injection Hm as <-; reflexivity].
    apply (timeout_check_raises w _ _ _ Hm).
  - unfold api_build_repo_image.
    apply endpoint_turned_down.
    { unfold build_request_error in Hm.
      repeat match type of Hm with
             | context [if ?b then _ else _] => destruct b
             end; try discriminate; injection Hm as <-; reflexivity. }
    intros s.
    unfold bind at 1. rewrite Auth. cbv zeta.
    unfold build_request_error in Hm.
    destruct (truthy_json (dict_get request "repo_owner"));
      destruct (truthy_json (dict_get request "repo_name"));
      cbn [negb orb andb] in *; try (injection Hm as <-; reflexivity).
    destruct (truthy_json (dict_get_default request "build_id" (JStr "")));
      [discriminate|injection Hm as <-; reflexivity].
  - unfold api_delete_provider_image.
    apply endpoint_turned_down.
    { unfold delete_request_error in Hm.
      destruct (truthy_json _); [discriminate|].
      injection Hm as <-. reflexivity. }
    intros s.
    unfold bind at 1. rewrite Auth. cbv zeta.
    unfold delete_request_error in Hm.
    destruct (truthy_json (dict_get request "provider_image_id"));
      [discriminate|injection Hm as <-; reflexivity].
Qed.

Definition warm_of (e : Event) : option (string * string * string) :=
  match e with
  | WarmSandbox repo_owner repo_name control_plane_url =>
      Some (repo_owner, repo_name, control_plane_url)
  | _ => None
  end.

(** The body of [api_warm_sandbox]. *)
Definition warm_body (w : World) (request : Dict) (h : Headers)
  : M JSONResponse :=
  let control_plane_url :=
    str_or_empty (dict_get_default request "control_plane_url" (JStr "")) in
  bind (require_auth w (authorization h)) (fun _ =>
  bind (require_valid_control_plane_url w (JStr control_plane_url)) (fun _ =>
  match nonempty_str (dict_get request "repo_owner") with
  | None => raise (HTTPException 400 (JStr "repo_owner is required"))
  | Some repo_owner =>
  match nonempty_str (dict_get request "repo_name") with
  | None => raise (HTTPException 400 (JStr "repo_name is required"))
  | Some repo_name =>
      bind (emit NewSandboxManager) (fun _ =>
      bind (call (new_sandbox_manager w)) (fun _ =>
      bind (emit (WarmSandbox repo_owner repo_name control_plane_url))
        (fun _ =>
      bind (call (warm_sandbox w repo_owner repo_name control_plane_url))
        (fun handle =>
      success_response
        (JDict [("sandbox_id", handle_sandbox_id handle);
                ("status", handle_status_value handle)])))))
  end end)).

Lemma api_warm_sandbox_unfold w request h :
  api_warm_sandbox w request h
  = endpoint w "POST" "/api_warm_sandbox" "api_warm_sandbox"
      "Failed to warm sandbox" h (header_ids h) (warm_body w request h).
Proof. reflexivity. Qed.

(** What the arguments of [manager.warm_sandbox] are made of. *)
Definition warm_from (w : World) (request : Dict) (h : Headers)
  (args : string * string * string) : Prop :=
  let '(repo_owner, repo_name, control_plane_url) := args in
  authorized w h = true /\
  nonempty_str (dict_get request "repo_owner") = Some repo_owner /\
  nonempty_str (dict_get request "repo_name") = Some repo_name /\
  url_from w (dict_get_default request "control_plane_url" (JStr ""))
    control_plane_url.

Definition warms (w : World) (request : Dict) (h : Headers)
  (r : result JSONResponse) (new : list Event) : Prop :=
  (omap warm_of new = [] /\ forall resp, r <> Return resp) \/
  (exists args,
     omap warm_of new = [args] /\
     warm_from w request h args /\
     forall resp, r = Return resp ->
       exists handle,
         (let '(repo_owner, repo_name, control_plane_url) := args in
          warm_sandbox w repo_owner repo_name control_plane_url)
         = Gives handle /\
         resp = {| status_code := 200;
                   content :=
                     JDict [("success", JBool true);
                            ("data",
                             JDict [("sandbox_id", handle_sandbox_id handle);
                                    ("status",
                                     handle_status_value handle)])] |}).

Lemma warm_body_spec w request h s :
  exists rb sb new,
    warm_body w request h s = (rb, sb) /\
    trace sb = new ++ trace s /\
    warms w request h rb new.
Proof.
  unfold warm_body. cbv zeta.
  assert (Stop : forall e (s1 : State) new,
            trace s1 = new ++ trace s -> omap warm_of new = [] ->
            exists rb sb new,
              (@Raise JSONResponse e, s1) = (rb, sb) /\
              trace sb = new ++ trace s /\
              warms w request h rb new).
  { intros e s1 new T C. exists (Raise e), s1, new.
    split; [reflexivity|]. split; [exact T|].
    left. split; [exact C|discriminate]. }
  unfold bind at 1.
  destruct (verify_internal_token w (authorization h)) as [[]|ea] eqn:V.
  2: { unfold require_auth. rewrite V. apply (Stop _ s []); reflexivity. }
  2: { unfold require_auth. rewrite V.
       destruct ea; apply (Stop _ s []); reflexivity. }
  rewrite (require_auth_accepts w _ V).
  set (url := str_or_empty
                (dict_get_default request "control_plane_url" (JStr ""))).
  destruct (require_valid_control_plane_url_spec w (JStr url))
    as (rv & Ev & Hv).
  unfold bind at 1. rewrite Ev.
  destruct rv as [[]|e]; [|apply (Stop _ s []); reflexivity].
  specialize (Hv eq_refl).
  destruct (nonempty_str (dict_get request "repo_owner")) as [own|] eqn:F2;
    [|apply (Stop _ s []); reflexivity].
  destruct (nonempty_str (dict_get request "repo_name")) as [nam|] eqn:F3;
    [|apply (Stop _ s []); reflexivity].
  unfold bind at 1, emit at 1, modify at 1. cbv beta iota.
  unfold bind at 1, call at 1.
  destruct (new_sandbox_manager w) as [[]|e]; cbn [call ret raise];
    [|apply (Stop _ _ [NewSandboxManager]); reflexivity].
  unfold bind at 1, emit at 1, modify at 1. cbv beta iota.
  unfold bind at 1, call at 1.
  assert (Wf : warm_from w request h (own, nam, url)).
  { unfold warm_from, authorized. rewrite V.
    destruct Hv as [_ Hv]. unfold url_from. auto. }
  assert (Out : forall r (s2 : State),
            trace s2 = [WarmSandbox own nam url; NewSandboxManager]
                       ++ trace s ->
            (forall resp, r = Return resp ->
               exists handle,
                 warm_sandbox w own nam url = Gives handle /\
                 resp = {| status_code := 200;
                           content :=
                             JDict [("success", JBool true);
                                    ("data",
                                     JDict [("sandbox_id",
                                             handle_sandbox_id handle);
                                            ("status",
                                             handle_status_value handle)])]
                        |}) ->
            exists rb sb new,
              (r, s2) = (rb, sb) /\
              trace sb = new ++ trace s /\
              warms w request h rb new).
  { intros r s2 T2 Hr. exists r, s2; eexists.
    split; [reflexivity|]. split; [exact T2|].
    right. exists (own, nam, url). split; [reflexivity|].
    split; [exact Wf|exact Hr]. }
  destruct (warm_sandbox w own nam url) as [handle|e] eqn:Wa;
    cbn [call ret raise].
  - unfold success_response, new_JSONResponse.
    match goal with
    | |- context [compliant ?c] =>
        destruct (compliant c); [destruct (utf8 c)|]
    end.
    + apply Out; [reflexivity|]. intros resp [= <-]. exists handle. auto.
    + apply Out; [reflexivity|]. intros resp [=].
    + apply Out; [reflexivity|]. intros resp [=].
  - apply Out; [reflexivity|]. intros resp [=].
Qed.

(** [api_warm_sandbox] calls [manager.warm_sandbox] at most once, and
    only for an authorized request, with the request's non-empty
    repository owner and name and with a control-plane URL that is
    empty or was accepted by [validate_control_plane_url].  The
    success envelope is returned only after that call returned a
    handle, whose id and status are the data. *)
Theorem sandbox_is_warmed_for_a_checked_request w request h s :
  exists r s' new,
    api_warm_sandbox w request h s = (r, s') /\
    trace s' = new ++ trace s /\
    (omap warm_of new = [] \/
     exists args,
       omap warm_of new = [args] /\ warm_from w request h args) /\
    (forall resp data,
       r = Return resp ->
       content resp = JDict [("success", JBool true); ("data", data)] ->
       exists repo_owner repo_name control_plane_url handle,
         omap warm_of new = [(repo_owner, repo_name, control_plane_url)] /\
         warm_sandbox w repo_owner repo_name control_plane_url
         = Gives handle /\
         status_code resp = 200%Z /\
         data = JDict [("sandbox_id", handle_sandbox_id handle);
                       ("status", handle_status_value handle)]).
Proof.
  rewrite api_warm_sandbox_unfold.
  destruct (endpoint_inversion w "POST" "/api_warm_sandbox"
              "api_warm_sandbox" "Failed to warm sandbox" h
              (header_ids h) (warm_body w request h) s)
    as (rb & sb & r & s' & line & extra & Eb & E & T & Hx & Hr).
  destruct (warm_body_spec w request h
              (set_outcome "success" (set_http_status 200 s)))
    as (rb' & sb' & new & Eb' & Tb & Hc).
  rewrite Eb in Eb'. injection Eb' as <- <-.
  exists r, s', (LogHttpRequest line :: extra ++ new).
  split; [exact E|].
  assert (X : omap warm_of (LogHttpRequest line :: extra ++ new)
              = omap warm_of new).
  { apply (wrapper_events_create_nothing _ "api_warm_sandbox");
      [reflexivity|reflexivity|exact Hx]. }
  rewrite X. split_and!.
  - rewrite T, Tb. cbn [trace set_outcome set_http_status app].
    rewrite <- app_assoc. reflexivity.
  - destruct Hc as [(C & _)|(args & C & Wf & _)]; [left; exact C|].
    right. exists args. auto.
  - intros resp data -> C.
    destruct (Hr resp eq_refl) as [(-> & _)|Env];
      [|destruct (error_envelope_not_success _ data Env C)].
    destruct Hc as [(_ & N)|([[own nam] url] & Cc & _ & Hb)];
      [destruct (N resp eq_refl)|].
    destruct (Hb resp eq_refl) as (handle & Cr & ->).
    cbn in C. injection C as <-.
    exists own, nam, url, handle. auto.
Qed.

(** *** Snapshots *)

(** The ids of the access-log line are read from the state the body
    left, which the [except] clauses do not change as far as the
    local [sandbox_id] goes. *)
Lemma endpoint_log_ids w method path name failure_message h ids body s
  rb sb r s' line rest :
  (forall s1 s2, sandbox_id s1 = sandbox_id s2 -> ids s1 = ids s2) ->
  body (set_outcome "success" (set_http_status 200 s)) = (rb, sb) ->
  endpoint w method path name failure_message h ids body s = (r, s') ->
  trace s' = LogHttpRequest line :: rest ->
  log_session_id line = fst (ids sb) /\ log_sandbox_id line = snd (ids sb).
Proof.
  intros Hids Eb. unfold endpoint.
  unfold bind at 1, modify at 1. cbv beta iota.
  unfold bind at 1, modify at 1. cbv beta iota.
  unfold try_finally, try_except_http. rewrite Eb.
  assert (H : forall c m d (s2 : State),
            sandbox_id s2 = sandbox_id sb ->
            (let (r0, s3) := error_response c m None d s2 in
             match
               bind get (fun s4 =>
                 emit (LogHttpRequest
                         {| http_method := method; http_path := path;
                            log_http_status := http_status s4;
                            log_duration_ms := duration_ms w;
                            log_outcome := outcome s4;
                            endpoint_name := name;
                            log_trace_id := x_trace_id h;
                            log_request_id := x_request_id h;
                            log_session_id := fst (ids s4);
                            log_sandbox_id := snd (ids s4) |})) s3
             with
             | (Return _, s'') => (r0, s'')
             | (Raise e0, s'') => (Raise e0, s'')
             end) = (r, s') ->
            trace s' = LogHttpRequest line :: rest ->
            log_session_id line = fst (ids sb) /\
            log_sandbox_id line = snd (ids sb)).
  { intros c m d s2 S2.
    destruct (error_response c m None d s2) as [r2 s3] eqn:Er.
    destruct (error_response_envelope _ _ _ _ _ _ Er) as (-> & _).
    unfold bind, get, emit, modify. cbv beta iota.
    intros [= <- <-]. cbn [push trace]. intros [= <- _].
    cbn. rewrite (Hids _ _ S2). auto. }
  destruct rb as [resp|e].
  - unfold bind, get, emit, modify. cbv beta iota.
    intros [= <- <-]. cbn [push trace]. intros [= <- _]. cbn. auto.
  - destruct e as [c d|m|cls m].
    + unfold bind at 1, modify at 1. cbv beta iota.
      unfold bind at 1, modify at 1. cbv beta iota.
      apply H. reflexivity.
    + unfold bind at 1, modify at 1. cbv beta iota.
      unfold bind at 1, modify at 1. cbv beta iota.
      unfold bind at 1, emit at 1, modify at 1. cbv beta iota.
      apply H. reflexivity.
    + unfold bind at 1, modify at 1. cbv beta iota.
      unfold bind at 1, modify at 1. cbv beta iota.
      unfold bind at 1, emit at 1, modify at 1. cbv beta iota.
      apply H. reflexivity.
Qed.

Definition take_of (e : Event) : option Handle :=
  match e with TakeSnapshot handle => Some handle | _ => None end.

(** The body of [api_snapshot_sandbox]. *)
Definition snapshot_body (w : World) (request : Dict) (h : Headers)
  : M JSONResponse :=
  bind (require_auth w (authorization h)) (fun _ =>
  bind (modify (set_sandbox_id (dict_get request "sandbox_id"))) (fun _ =>
  if negb (truthy_json (dict_get request "sandbox_id"))
  then raise (HTTPException 400 (JStr "sandbox_id is required"))
  else
    bind (emit NewSandboxManager) (fun _ =>
    bind (call (new_sandbox_manager w)) (fun _ =>
    bind (emit (GetSandboxById (dict_get request "sandbox_id"))) (fun _ =>
    bind (call (get_sandbox_by_id w (dict_get request "sandbox_id")))
      (fun handle =>
    match handle with
    | None =>
        raise (HTTPException 404
                 (JStr ("Sandbox not found: "
                          ++ format w (dict_get request "sandbox_id"))))
    | Some handle =>
        bind (emit (TakeSnapshot handle)) (fun _ =>
        bind (call (take_snapshot w handle)) (fun image_id =>
        success_response
          (JDict [("image_id", image_id);
                  ("sandbox_id", dict_get request "sandbox_id");
                  ("session_id", dict_get request "session_id");
                  ("reason",
                   dict_get_default request "reason" (JStr "manual"))])))
    end)))))).

Definition snapshot_ids (h : Headers) (s : State)
  : option Json * option Json :=
  (Some (header_json (x_session_id h)),
   Some (header_or (x_sandbox_id h) (sandbox_id s))).

Lemma api_snapshot_sandbox_unfold w request h s :
  api_snapshot_sandbox w request h s
  = endpoint w "POST" "/api_snapshot_sandbox" "api_snapshot_sandbox"
      "Failed to snapshot sandbox" h (snapshot_ids h)
      (snapshot_body w request h) (set_sandbox_id JNull s).
Proof. reflexivity. Qed.

(** The sandbox a snapshot is taken of: the one [get_sandbox_by_id]
    found under the request's id, for an authorized request. *)
Definition found (w : World) (request : Dict) (h : Headers)
  (handle : Handle) : Prop :=
  authorized w h = true /\
  truthy_json (dict_get request "sandbox_id") = true /\
  get_sandbox_by_id w (dict_get request "sandbox_id") = Gives (Some handle).

Definition snapshots (w : World) (request : Dict) (h : Headers)
  (r : result JSONResponse) (new : list Event) : Prop :=
  (omap take_of new = [] /\ forall resp, r <> Return resp) \/
  (exists handle,
     omap take_of new = [handle] /\
     found w request h handle /\
     forall resp, r = Return resp ->
       exists image_id,
         take_snapshot w handle = Gives image_id /\
         resp = {| status_code := 200;
                   content :=
                     JDict [("success", JBool true);
                            ("data",
                             JDict [("image_id", image_id);
                                    ("sandbox_id",
                                     dict_get request "sandbox_id");
                                    ("session_id",
                                     dict_get request "session_id");
                                    ("reason",
                                     dict_get_default request "reason"
                                       (JStr "manual"))])] |}).

Lemma snapshot_body_spec w request h s :
  exists rb sb new,
    snapshot_body w request h s = (rb, sb) /\
    trace sb = new ++ trace s /\
    sandbox_id sb = (if authorized w h then dict_get request "sandbox_id"
                     else sandbox_id s) /\
    snapshots w request h rb new.
Proof.
  unfold snapshot_body, authorized.
  assert (Stop : forall e (s1 : State) new (b : bool),
            trace s1 = new ++ trace s -> omap take_of new = [] ->
            sandbox_id s1 = (if b then dict_get request "sandbox_id"
                             else sandbox_id s) ->
            exists rb sb new,
              (@Raise JSONResponse e, s1) = (rb, sb) /\
              trace sb = new ++ trace s /\
              sandbox_id sb = (if b then dict_get request "sandbox_id"
                               else sandbox_id s) /\
              snapshots w request h rb new).
  { intros e s1 new b T C S. exists (Raise e), s1, new.
    split; [reflexivity|]. split; [exact T|]. split; [exact S|].
    left. split; [exact C|discriminate]. }
  unfold bind at 1.
  destruct (verify_internal_token w (authorization h)) as [[]|ea] eqn:V.
  2: { unfold require_auth. rewrite V.
       apply (Stop _ s [] false); reflexivity. }
  2: { unfold require_auth. rewrite V.
       destruct ea; apply (Stop _ s [] false); reflexivity. }
  rewrite (require_auth_accepts w _ V).
  unfold bind at 1, modify at 1. cbv beta iota.
  destruct (truthy_json (dict_get request "sandbox_id")) eqn:Tr;
    cbn [negb]; [|apply (Stop _ _ [] true); reflexivity].
  unfold bind at 1, emit at 1, modify at 1. cbv beta iota.
  unfold bind at 1, call at 1.
  destruct (new_sandbox_manager w) as [[]|e]; cbn [call ret raise];
    [|apply (Stop _ _ [NewSandboxManager] true); reflexivity].
  unfold bind at 1, emit at 1, modify at 1. cbv beta iota.
  unfold bind at 1, call at 1.
  destruct (get_sandbox_by_id w (dict_get request "sandbox_id"))
    as [[handle|]|e] eqn:G; cbn [call ret raise].
  2,3: apply (Stop _ _ [GetSandboxById (dict_get request "sandbox_id");
                        NewSandboxManager] true); reflexivity.
  unfold bind at 1, emit at 1, modify at 1. cbv beta iota.
  unfold bind at 1, call at 1.
  assert (F : found w request h handle).
  { unfold found, authorized. rewrite V. auto. }
  assert (Out : forall r (s2 : State),
            trace s2 = [TakeSnapshot handle;
                        GetSandboxById (dict_get request "sandbox_id");
                        NewSandboxManager] ++ trace s ->
            sandbox_id s2 = dict_get request "sandbox_id" ->
            (forall resp, r = Return resp ->
               exists image_id,
                 take_snapshot w handle = Gives image_id /\
                 resp = {| status_code := 200;
                           content :=
                             JDict [("success", JBool true);
                                    ("data",
                                     JDict [("image_id", image_id);
                                            ("sandbox_id",
                                             dict_get request "sandbox_id");
                                            ("session_id",
                                             dict_get request "session_id");
                                            ("reason",
                                             dict_get_default request
                                               "reason" (JStr "manual"))])]
                        |}) ->
            exists rb sb new,
              (r, s2) = (rb, sb) /\
              trace sb = new ++ trace s /\
              sandbox_id sb = dict_get request "sandbox_id" /\
              snapshots w request h rb new).
  { intros r s2 T2 S2 Hr. exists r, s2; eexists.
    split; [reflexivity|]. split; [exact T2|]. split; [exact S2|].
    right. exists handle. split; [reflexivity|].
    split; [exact F|exact Hr]. }
  destruct (take_snapshot w handle) as [image_id|e] eqn:Ta;
    cbn [call ret raise].
  - unfold success_response, new_JSONResponse.
    match goal with
    | |- context [compliant ?c] =>
        destruct (compliant c); [destruct (utf8 c)|]
    end.
    + apply Out; [reflexivity|reflexivity|].
      intros resp [= <-]. exists image_id. auto.
    + apply Out; [reflexivity|reflexivity|]. intros resp [=].
    + apply Out; [reflexivity|reflexivity|]. intros resp [=].
  - apply Out; [reflexivity|reflexivity|]. intros resp [=].
Qed.

(** [api_snapshot_sandbox] takes at most one snapshot, and only of the
    sandbox [get_sandbox_by_id] found under the request's id, for an
    authorized request; the success envelope is returned only after
    [take_snapshot] returned the image id, and carries it with the
    request's sandbox id, session id and reason (["manual"] when the
    request has none).  The access-log line names as sandbox the
    header [x_sandbox_id] if it is set and non-empty, else the
    request's sandbox id, and neither when the request was not
    authenticated. *)
Theorem snapshot_is_taken_of_the_found_sandbox w request h s :
  exists r s' line new,
    api_snapshot_sandbox w request h s = (r, s') /\
    trace s' = LogHttpRequest line :: new ++ trace s /\
    log_sandbox_id line
    = Some (header_or (x_sandbox_id h)
              (if authorized w h then dict_get request "sandbox_id"
               else JNull)) /\
    (omap take_of new = [] \/
     exists handle, omap take_of new = [handle] /\ found w request h handle) /\
    (forall resp data,
       r = Return resp ->
       content resp = JDict [("success", JBool true); ("data", data)] ->
       exists handle image_id,
         omap take_of new = [handle] /\
         take_snapshot w handle = Gives image_id /\
         status_code resp = 200%Z /\
         data = JDict [("image_id", image_id);
                       ("sandbox_id", dict_get request "sandbox_id");
                       ("session_id", dict_get request "session_id");
                       ("reason",
                        dict_get_default request "reason" (JStr "manual"))]).
Proof.
  rewrite api_snapshot_sandbox_unfold.
  destruct (endpoint_inversion w "POST" "/api_snapshot_sandbox"
              "api_snapshot_sandbox" "Failed to snapshot sandbox" h
              (snapshot_ids h) (snapshot_body w request h)
              (set_sandbox_id JNull s))
    as (rb & sb & r & s' & line & extra & Eb & E & T & Hx & Hr).
  destruct (snapshot_body_spec w request h
              (set_outcome "success"
                 (set_http_status 200 (set_sandbox_id JNull s))))
    as (rb' & sb' & new & Eb' & Tb & Sb & Hc).
  rewrite Eb in Eb'. injection Eb' as <- <-.
  exists r, s', line, (extra ++ new).
  split; [exact E|].
  assert (X : omap take_of (extra ++ new) = omap take_of new).
  { rewrite omap_app. destruct Hx as [->|[e ->]]; reflexivity. }
  rewrite X. split_and!.
  - rewrite T, Tb. cbn [trace set_outcome set_http_status set_sandbox_id app].
    rewrite <- app_assoc. reflexivity.
  - destruct (endpoint_log_ids w _ _ _ _ h (snapshot_ids h) _ _ _ _ _ _ _ _
                ltac:(intros s1 s2 S; unfold snapshot_ids; rewrite S;
                      reflexivity) Eb E T) as [_ L].
    rewrite L. unfold snapshot_ids. cbn [snd]. rewrite Sb.
    destruct (authorized w h); reflexivity.
  - destruct Hc as [(C & _)|(handle & C & F & _)]; [left; exact C|].
    right. exists handle. auto.
  - intros resp data -> C.
    destruct (Hr resp eq_refl) as [(-> & _)|Env];
      [|destruct (error_envelope_not_success _ data Env C)].
    destruct Hc as [(_ & N)|(handle & Cc & _ & Hb)];
      [destruct (N resp eq_refl)|].
    destruct (Hb resp eq_refl) as (image_id & Cr & ->).
    cbn in C. injection C as <-.
    exists handle, image_id. auto.
Qed.

(** An authorized request for a snapshot of a sandbox the manager does
    not know is answered 404, code [not_found], with the id in the
    message; the manager was asked for the sandbox and nothing else
    was done.  The id, which the message quotes, is to hold no lone
    surrogate: the response could not be built otherwise. *)
Theorem unknown_sandbox_is_answered_404 w request h :
  verify_internal_token w (authorization h) = Gives true ->
  truthy_json (dict_get request "sandbox_id") = true ->
  encodable (format w (dict_get request "sandbox_id")) = true ->
  new_sandbox_manager w = Gives tt ->
  get_sandbox_by_id w (dict_get request "sandbox_id") = Gives None ->
  forall s, exists s' line,
    api_snapshot_sandbox w request h s
    = (Return {| status_code := 404;
                 content :=
                   JDict [("success", JBool false);
                          ("error",
                           JDict [("code", JStr "not_found");
                                  ("message",
                                   JStr ("Sandbox not found: "
                                           ++ format w
                                                (dict_get request
                                                   "sandbox_id")));
                                  ("status_code", JInt 404)])] |}, s') /\
    trace s' = [LogHttpRequest line;
                GetSandboxById (dict_get request "sandbox_id");
                NewSandboxManager] ++ trace s /\
    log_http_status line = 404%Z /\ log_outcome line = "error".
Proof.
  intros V Tr En Mg G s.
  apply not_found_message_encodable in En.
  unfold api_snapshot_sandbox, endpoint. cbv zeta.
  unfold try_finally, try_except_http, bind, modify, emit, get, call, ret,
    raise, require_auth.
  rewrite V, Tr, Mg, G. cbn [negb].
  unfold error_response, new_JSONResponse, dict_or_none,
    _http_exception_message. cbv zeta.
  cbv beta iota delta [ret modify].
  cbn [compliant forallb andb].
  rewrite (error_content_utf8 404 _ En).
  eexists; eexists. split; [reflexivity|]. cbn. auto.
Qed.

(** *** Deleting a provider image *)

Definition is_log_line (e : Event) : bool :=
  match e with
  | LogTokenError _ | LogApiError _ _ | LogImageDeleteRequested _
  | LogHttpRequest _ => true
  | _ => false
  end.

Definition delete_requested_of (e : Event) : option Json :=
  match e with LogImageDeleteRequested id => Some id | _ => None end.

(** The body of [api_delete_provider_image]. *)
Definition delete_body (w : World) (request : Dict) (h : Headers)
  : M JSONResponse :=
  bind (require_auth w (authorization h)) (fun _ =>
  if negb (truthy_json (dict_get request "provider_image_id"))
  then raise (HTTPException 400 (JStr "provider_image_id is required"))
  else
    bind (emit (LogImageDeleteRequested
                  (dict_get request "provider_image_id"))) (fun _ =>
    success_response
      (JDict [("provider_image_id", dict_get request "provider_image_id");
              ("deleted", JBool true)]))).

Lemma api_delete_provider_image_unfold w request h :
  api_delete_provider_image w request h
  = endpoint w "POST" "/api_delete_provider_image"
      "api_delete_provider_image" "Failed to delete provider image" h no_ids
      (delete_body w request h).
Proof. reflexivity. Qed.

Lemma delete_body_spec w request h s :
  exists rb sb new,
    delete_body w request h s = (rb, sb) /\
    trace sb = new ++ trace s /\
    forallb is_log_line new = true /\
    omap delete_requested_of new
    = (if authorized w h
          && truthy_json (dict_get request "provider_image_id")
       then [dict_get request "provider_image_id"] else []) /\
    (forall resp, rb = Return resp ->
       authorized w h = true /\
       truthy_json (dict_get request "provider_image_id") = true /\
       resp = {| status_code := 200;
                 content :=
                   JDict [("success", JBool true);
                          ("data",
                           JDict [("provider_image_id",
                                   dict_get request "provider_image_id");
                                  ("deleted", JBool true)])] |}).
Proof.
  unfold delete_body, authorized. run_web.
  destruct (verify_internal_token w (authorization h)) as [[]|[]] eqn:V;
    cbn [andb].
  2-5: eexists; eexists; exists []; (split; [reflexivity|]);
    (split; [reflexivity|]); (split; [reflexivity|]);
    (split; [reflexivity|]); intros resp [=].
  destruct (truthy_json (dict_get request "provider_image_id"));
    cbn [negb].
  2: eexists; eexists; exists []; (split; [reflexivity|]);
    (split; [reflexivity|]); (split; [reflexivity|]);
    (split; [reflexivity|]); intros resp [=].
  destruct (compliant _); [destruct (utf8 _)|].
  - eexists; eexists;
      exists [LogImageDeleteRequested (dict_get request "provider_image_id")].
    split; [reflexivity|]. split; [reflexivity|]. split; [reflexivity|].
    split; [reflexivity|]. intros resp [= <-]. auto.
  - eexists; eexists;
      exists [LogImageDeleteRequested (dict_get request "provider_image_id")].
    split; [reflexivity|]. split; [reflexivity|]. split; [reflexivity|].
    split; [reflexivity|]. intros resp [=].
  - eexists; eexists;
      exists [LogImageDeleteRequested (dict_get request "provider_image_id")].
    split; [reflexivity|]. split; [reflexivity|]. split; [reflexivity|].
    split; [reflexivity|]. intros resp [=].
Qed.

(** [api_delete_provider_image] deletes nothing: beyond the check of
    the token it calls no collaborator and only writes log lines, the
    line [image.delete_requested] exactly when the request is
    authorized and names an image.  It still answers such a request
    with [deleted: true]. *)
Theorem delete_only_logs_the_request w request h s :
  exists r s' new,
    api_delete_provider_image w request h s = (r, s') /\
    trace s' = new ++ trace s /\
    forallb is_log_line new = true /\
    omap delete_requested_of new
    = (if authorized w h
          && truthy_json (dict_get request "provider_image_id")
       then [dict_get request "provider_image_id"] else []) /\
    (forall resp data,
       r = Return resp ->
       content resp = JDict [("success", JBool true); ("data", data)] ->
       authorized w h = true /\
       truthy_json (dict_get request "provider_image_id") = true /\
       status_code resp = 200%Z /\
       data = JDict [("provider_image_id",
                      dict_get request "provider_image_id");
                     ("deleted", JBool true)]).
Proof.
  rewrite api_delete_provider_image_unfold.
  destruct (endpoint_inversion w "POST" "/api_delete_provider_image"
              "api_delete_provider_image" "Failed to delete provider image"
              h no_ids (delete_body w request h) s)
    as (rb & sb & r & s' & line & extra & Eb & E & T & Hx & Hr).
  destruct (delete_body_spec w request h
              (set_outcome "success" (set_http_status 200 s)))
    as (rb' & sb' & new & Eb' & Tb & Lg & Dl & Hb).
  rewrite Eb in Eb'. injection Eb' as <- <-.
  exists r, s', (LogHttpRequest line :: extra ++ new).
  split; [exact E|].
  assert (X : omap delete_requested_of (LogHttpRequest line :: extra ++ new)
              = omap delete_requested_of new).
  { apply (wrapper_events_create_nothing _ "api_delete_provider_image");
      [reflexivity|reflexivity|exact Hx]. }
  rewrite X. split_and!.
  - rewrite T, Tb. cbn [trace set_outcome set_http_status app].
    rewrite <- app_assoc. reflexivity.
  - cbn [forallb is_log_line andb]. rewrite forallb_app, Lg, andb_true_r.
    destruct Hx as [->|[e ->]]; reflexivity.
  - exact Dl.
  - intros resp data -> C.
    destruct (Hr resp eq_refl) as [(-> & _)|Env];
      [|destruct (error_envelope_not_success _ data Env C)].
    destruct (Hb resp eq_refl) as (A & Tr & ->).
    cbn in C. injection C as <-. auto.
Qed.

(** *** The latest snapshot of a repository *)

Definition latest_of (e : Event) : option (string * string) :=
  match e with
  | GetLatestSnapshot repo_owner repo_name => Some (repo_owner, repo_name)
  | _ => None
  end.

(** The body of [api_snapshot]. *)
Definition latest_body (w : World) (repo_owner repo_name : string)
  (h : Headers) : M JSONResponse :=
  bind (require_auth w (authorization h)) (fun _ =>
  bind (emit (GetLatestSnapshot repo_owner repo_name)) (fun _ =>
  bind (call (get_latest_snapshot w repo_owner repo_name)) (fun snapshot =>
  match snapshot with
  | Some dump => success_response dump
  | None => success_response JNull
  end))).

Lemma api_snapshot_unfold w repo_owner repo_name h :
  api_snapshot w repo_owner repo_name h
  = endpoint w "GET" "/api_snapshot" "api_snapshot"
      "Failed to fetch snapshot" h (header_ids h)
      (latest_body w repo_owner repo_name h).
Proof. reflexivity. Qed.

(** The data [api_snapshot] answers with. *)
Definition snapshot_data (snapshot : option Json) : Json :=
  match snapshot with
  | Some dump => dump
  | None => JNull
  end.

Lemma latest_body_spec w repo_owner repo_name h s :
  exists rb sb new,
    latest_body w repo_owner repo_name h s = (rb, sb) /\
    trace sb = new ++ trace s /\
    omap latest_of new
    = (if authorized w h then [(repo_owner, repo_name)] else []) /\
    (forall resp, rb = Return resp ->
       exists snapshot,
         get_latest_snapshot w repo_owner repo_name = Gives snapshot /\
         resp = {| status_code := 200;
                   content :=
                     JDict [("success", JBool true);
                            ("data", snapshot_data snapshot)] |}).
Proof.
  unfold latest_body, authorized. run_web.
  destruct (verify_internal_token w (authorization h)) as [[]|[]] eqn:V.
  2-5: eexists; eexists; exists []; (split; [reflexivity|]);
    (split; [reflexivity|]); (split; [reflexivity|]); intros resp [=].
  destruct (get_latest_snapshot w repo_owner repo_name) as [[dump|]|e] eqn:G.
  - destruct (compliant _); [destruct (utf8 _)|];
      (eexists; eexists; exists [GetLatestSnapshot repo_owner repo_name];
       split; [reflexivity|]; split; [reflexivity|]; split; [reflexivity|]).
    + intros resp [= <-]. exists (Some dump). auto.
    + intros resp [=].
    + intros resp [=].
  - eexists; eexists; exists [GetLatestSnapshot repo_owner repo_name].
    split; [reflexivity|]. split; [reflexivity|]. split; [reflexivity|].
    intros resp [= <-]. exists None. auto.
  - eexists; eexists; exists [GetLatestSnapshot repo_owner repo_name].
    split; [reflexivity|]. split; [reflexivity|]. split; [reflexivity|].
    intros resp [=].
Qed.

(** [api_snapshot] asks the store for the latest snapshot of the
    repository once when the request is authorized and not at all
    otherwise.  The success envelope carries what the store returned:
    the snapshot's dump, and [null] when there is none, which is not
    an error. *)
Theorem latest_snapshot_is_looked_up_once w repo_owner repo_name h s :
  exists r s' new,
    api_snapshot w repo_owner repo_name h s = (r, s') /\
    trace s' = new ++ trace s /\
    omap latest_of new
    = (if authorized w h then [(repo_owner, repo_name)] else []) /\
    (forall resp data,
       r = Return resp ->
       content resp = JDict [("success", JBool true); ("data", data)] ->
       exists snapshot,
         get_latest_snapshot w repo_owner repo_name = Gives snapshot /\
         status_code resp = 200%Z /\
         data = snapshot_data snapshot).
Proof.
  rewrite api_snapshot_unfold.
  destruct (endpoint_inversion w "GET" "/api_snapshot" "api_snapshot"
              "Failed to fetch snapshot" h (header_ids h)
              (latest_body w repo_owner repo_name h) s)
    as (rb & sb & r & s' & line & extra & Eb & E & T & Hx & Hr).
  destruct (latest_body_spec w repo_owner repo_name h
              (set_outcome "success" (set_http_status 200 s)))
    as (rb' & sb' & new & Eb' & Tb & Lt & Hb).
  rewrite Eb in Eb'. injection Eb' as <- <-.
  exists r, s', (LogHttpRequest line :: extra ++ new).
  split; [exact E|].
  assert (X : omap latest_of (LogHttpRequest line :: extra ++ new)
              = omap latest_of new).
  { apply (wrapper_events_create_nothing _ "api_snapshot");
      [reflexivity|reflexivity|exact Hx]. }
  rewrite X. split_and!.
  - rewrite T, Tb. cbn [trace set_outcome set_http_status app].
    rewrite <- app_assoc. reflexivity.
  - exact Lt.
  - intros resp data -> C.
    destruct (Hr resp eq_refl) as [(-> & _)|Env];
      [|destruct (error_envelope_not_success _ data Env C)].
    destruct (Hb resp eq_refl) as (snapshot & G & ->).
    cbn in C. injection C as <-. exists snapshot. auto.
Qed.

(** *** The contract tests *)

(** The world of [tests/test_web_api_contract.py]: the token check
    answers [accept], every URL is accepted, no GitHub App is
    configured, and the manager hands out the fake handle. *)
Definition fake_handle : Handle :=
  {| handle_sandbox_id := JStr "sandbox-123";
     handle_modal_object_id := JStr "modal-123";
     handle_status_value := JStr "warming";
     handle_created_at := JFloat (Finite 123 1) |}.

Definition decimal (s : string) : option Z :=
  match NilZero.int_of_string s with
  | Some n => Some (Z.of_int n)
  | None => None
  end.

Definition test_world (accept : bool) : World :=
  {| verify_internal_token := fun _ => Gives accept;
     validate_control_plane_url := fun _ => Gives true;
     environ := fun _ => None;
     generate_installation_token :=
       fun _ _ _ => Fails (Error "ValueError" "no app");
     DEFAULT_SANDBOX_TIMEOUT_SECONDS := 7200;
     int_of_str := decimal;
     format_value := fun _ => "None";
     new_sandbox_manager := Gives tt;
     new_session_config := fun _ => Gives tt;
     new_sandbox_config := fun _ => Gives tt;
     create_sandbox := fun _ => Gives fake_handle;
     warm_sandbox := fun _ _ _ => Gives fake_handle;
     get_sandbox_by_id := fun _ => Gives None;
     take_snapshot := fun _ => Gives (JStr "im-1");
     restore_from_snapshot := fun _ => Gives fake_handle;
     spawn_build := fun _ => Gives tt;
     get_latest_snapshot := fun _ _ => Gives None;
     duration_ms := 12 |}.

Definition bearer (token : string) : Headers :=
  {| authorization := Some ("Bearer " ++ token)%string;
     x_trace_id := None; x_request_id := None;
     x_session_id := None; x_sandbox_id := None |}.

Definition create_request (timeout_seconds : Json) : Dict :=
  [("session_id", JStr "sess-1");
   ("repo_owner", JStr "acme");
   ("repo_name", JStr "repo");
   ("control_plane_url", JStr "https://control.example");
   ("sandbox_auth_token", JStr "sandbox-token");
   ("timeout_seconds", timeout_seconds)].

Definition restore_request : Dict :=
  [("snapshot_image_id", JStr "img-123");
   ("control_plane_url", JStr "https://control.example")].

(** [test_create_sandbox_forwards_timeout_seconds] *)
Example create_sandbox_forwards_timeout_seconds :
  exists resp s' data,
    api_create_sandbox (test_world true) (create_request (JInt 3600))
      (bearer "test") initial = (Return resp, s') /\
    status_code resp = 200%Z /\
    content resp = JDict [("success", JBool true); ("data", data)] /\
    map cfg_timeout_seconds (omap create_of (trace s')) = [3600%Z].
Proof.
  eexists; eexists; eexists. split; [vm_compute; reflexivity|].
  split_and!; reflexivity.
Qed.

(** [test_create_sandbox_invalid_timeout_returns_structured_400] *)
Lemma invalid_timeout_returns_structured_400 :
  turned_down 400 "timeout_seconds must be an integer"
    (api_create_sandbox (test_world true)
       (create_request (JStr "not-an-int")) (bearer "test")).
Proof.
  exact (proj1 (invalid_requests_are_answered_400 (test_world true)
                  (create_request (JStr "not-an-int")) (bearer "test")
                  eq_refl eq_refl) _ eq_refl).
Defined.

(** [test_restore_sandbox_auth_failure_returns_structured_401] *)
Lemma restore_auth_failure_returns_structured_401 :
  turned_down 401 "Unauthorized: Invalid or missing authentication token"
    (api_restore_sandbox (test_world false) restore_request
       (bearer "invalid")).
Proof.
  exact (proj1 (proj2 (proj2 (proj2 (proj2
           (unauthenticated_requests_are_turned_down (test_world false)
              restore_request "acme" "repo" (bearer "invalid") 401 _
              (invalid_token (test_world false) _ eq_refl))))))).
Defined.

Lemma test_world_plain accept : plain_world (test_world accept).
Proof.
  constructor; repeat intros ?; try discriminate.
  match goal with H : _ = Fails _ |- _ => injection H as <- end.
  reflexivity.
Defined.

Lemma test_world_always_responds :
  responds (api_create_sandbox (test_world true)
              (create_request (JFloat NaN)) (bearer "test")).
Proof.
  exact (proj1 (endpoints_always_respond (test_world true)
                  (create_request (JFloat NaN)) "acme" "repo"
                  (bearer "test") (test_world_plain true)
                  (conj eq_refl eq_refl))).
Defined.

Lemma snapshot_of_unknown_sandbox :
  exists s' line,
    api_snapshot_sandbox (test_world true) [("sandbox_id", JStr "sb-9")]
      (bearer "test") initial
    = (Return {| status_code := 404;
                 content :=
                   JDict [("success", JBool false);
                          ("error",
                           JDict [("code", JStr "not_found");
                                  ("message",
                                   JStr "Sandbox not found: sb-9");
                                  ("status_code", JInt 404)])] |}, s') /\
    trace s' = [LogHttpRequest line; GetSandboxById (JStr "sb-9");
                NewSandboxManager] /\
    log_http_status line = 404%Z /\ log_outcome line = "error".
Proof.
  exact (unknown_sandbox_is_answered_404 (test_world true)
           [("sandbox_id", JStr "sb-9")] (bearer "test")
           eq_refl eq_refl eq_refl eq_refl eq_refl initial).
Defined.

(** The string the JSON text ["\ud800"] decodes to: one lone
    surrogate. *)
Definition lone_surrogate : string :=
  String "237" (String "160" (String "128" EmptyString)).

(** A request that names an unknown sandbox by such an id: the 404
    response, whose message quotes the id, cannot be built, and the
    exception of its constructor leaves the endpoint after the access
    log was written with status 404. *)
Example unknown_sandbox_with_lone_surrogate :
  exists s' line,
    api_snapshot_sandbox (test_world true)
      [("sandbox_id", JStr lone_surrogate)] (bearer "test") initial
    = (Raise (Error "UnicodeEncodeError"
                "'utf-8' codec can't encode character: surrogates not allowed"),
       s') /\
    trace s' = [LogHttpRequest line; GetSandboxById (JStr lone_surrogate);
                NewSandboxManager] /\
    log_http_status line = 404%Z.
Proof.
  eexists; eexists. split; [vm_compute; reflexivity|].
  split; reflexivity.
Qed.

End EndpointsSpec.

(** ** The Image Builder as a whole *)

Module BuilderSpec.
Import Py ImageBuilder ImageBuilderSpec.
Local Open Scope string_scope.
Local Open Scope list_scope.

(** The clone token of step 1: the installation token when the three
    GitHub App variables are set and non-empty and the issuer returns
    one, and the empty string otherwise. *)
Definition clone_token_of (w : World) : string :=
  if truthy_opt (environ w "GITHUB_APP_ID")
     && truthy_opt (environ w "GITHUB_APP_PRIVATE_KEY")
     && truthy_opt (environ w "GITHUB_APP_INSTALLATION_ID")
  then match generate_installation_token w with
       | Returns token => token
       | Raises _ => ""
       end
  else "".

(** The SHA of step 4: what [git rev-parse HEAD] printed, and the
    empty string when it could not be run. *)
Definition base_sha_of (w : World) : string :=
  match sandbox_rev_parse w with
  | Returns sha => sha
  | Raises _ => ""
  end.

Definition sandbox_of (e : Event) : option string :=
  match e with CreateSandbox clone_token => Some clone_token | _ => None end.

Lemma clone_token_step_token w s :
  clone_token_step w s = (Ok (clone_token_of w), s).
Proof.
  unfold clone_token_step, clone_token_of, try_except.
  destruct (_ && _); [|reflexivity].
  destruct (generate_installation_token w); reflexivity.
Qed.

Lemma read_sandbox_head_sha_sha w s :
  _read_sandbox_head_sha w s = (Ok (base_sha_of w), s).
Proof.
  unfold _read_sandbox_head_sha, base_sha_of, try_except.
  destruct (sandbox_rev_parse w); reflexivity.
Qed.

Lemma issued_le w from n : issued w from n <= n.
Proof.
  revert from. induction n as [|n IH]; intros from; [reflexivity|].
  cbn [issued]. specialize (IH (S from)).
  destruct (generate_internal_token w from); lia.
Qed.

(** What one invocation adds after it has created its sandbox: nothing
    without a callback URL, and else the events of one callback. *)
Definition reports (w : World) (callback_url : string) (s s' : State)
  (new : list Event) : Prop :=
  if truthy callback_url then
    exists url payload k events,
      new = events ++ [Callback url payload] /\
      posts_carry url payload events /\
      omap callback_of events = [] /\
      omap sandbox_of events = [] /\
      k <= CALLBACK_MAX_RETRIES /\
      minted s' = minted s + k /\
      requests s' = requests s + issued w (minted s) k
  else
    new = [] /\ minted s' = minted s /\ requests s' = requests s.

Lemma callback_events_create_no_sandbox w url payload attempts :
  forall s,
    omap sandbox_of
      (trace (snd (callback_attempts w url payload attempts s)))
    = omap sandbox_of (trace s).
Proof.
  induction attempts as [|attempt rest IH]; intros s.
  - destruct s as [m r tr]. reflexivity.
  - cbn [callback_attempts]. unfold bind at 1.
    assert (A : exists sent s1,
              callback_attempt w url payload attempt s = (Ok sent, s1) /\
              omap sandbox_of (trace s1) = omap sandbox_of (trace s)).
    { destruct s as [m r tr]. unfold callback_attempt. run_py.
      repeat (case_world; run_py).
      all: eexists; eexists; split; reflexivity. }
    destruct A as (sent & s1 & -> & T1).
    destruct sent; [exact T1|]. rewrite IH. exact T1.
Qed.

Lemma callback_reports w url payload s :
  exists b s' k events,
    _callback_with_retry w url payload s = (Ok b, s') /\
    trace s' = events ++ Callback url payload :: trace s /\
    posts_carry url payload events /\
    omap callback_of events = [] /\
    omap sandbox_of events = [] /\
    k <= CALLBACK_MAX_RETRIES /\
    minted s' = minted s + k /\
    requests s' = requests s + issued w (minted s) k /\
    (coherent w s -> coherent w s').
Proof.
  destruct (callback_with_retry_spec w url payload s)
    as (b & s' & k & new & E & T & P & C & R & Hk & Hm & Hp & Hf & _).
  exists b, s', k, new. split; [exact E|]. split_and!; auto; try lia.
  pose proof (callback_events_create_no_sandbox w url payload
                (seq 0 CALLBACK_MAX_RETRIES)
                {| minted := minted s; requests := requests s;
                   trace := Callback url payload :: trace s |}) as N.
  unfold _callback_with_retry, bind at 1, emit, modify at 1 in E.
  cbv beta iota in E. rewrite E in N. cbn [snd trace] in N.
  rewrite T, omap_app in N. cbn [omap list_omap sandbox_of] in N.
  change (omap sandbox_of new ++ omap sandbox_of (trace s)
          = [] ++ omap sandbox_of (trace s)) in N.
  apply app_inv_tail in N. exact N.
Qed.

(** One invocation whose manager is made, start to end. *)
Lemma build_repo_image_spec
  w repo_owner repo_name default_branch callback_url build_id s :
  new_sandbox_manager w = Returns tt ->
  exists s' new,
    build_repo_image w repo_owner repo_name default_branch callback_url
      build_id s = (Ok tt, s') /\
    trace s' = new ++ CreateSandbox (clone_token_of w) :: trace s /\
    reports w callback_url s s' new /\
    (coherent w s -> coherent w s').
Proof.
  intros Mk. enter_try Mk. unfold try_except, bind at 1.
  rewrite clone_token_step_token.
  unfold bind at 1, emit at 1, modify at 1. cbv beta iota.
  set (s1 := {| minted := minted s; requests := requests s;
                trace := CreateSandbox (clone_token_of w) :: trace s |}).
  assert (C1 : coherent w s -> coherent w s1).
  { unfold coherent. cbn. tauto. }
  assert (Say : forall url payload (s2 : State),
            s2 = s1 ->
            exists s' new,
              (if truthy callback_url
               then bind (_callback_with_retry w url payload)
                      (fun _ => ret tt)
               else ret tt) s2 = (Ok tt, s') /\
              trace s' = new ++ CreateSandbox (clone_token_of w) :: trace s /\
              reports w callback_url s s' new /\
              (coherent w s -> coherent w s')).
  { intros url payload s2 ->. unfold reports.
    destruct (truthy callback_url).
    - destruct (callback_reports w url payload s1)
        as (b & s' & k & events & E & T & P & Cb & Sb & Hk & Hm & Hr & Hc).
      unfold bind. rewrite E. exists s', (events ++ [Callback url payload]).
      split; [reflexivity|]. split_and!.
      + rewrite T, <- app_assoc. reflexivity.
      + exists url, payload, k, events. split_and!; auto.
      + auto.
    - exists s1, []. split; [reflexivity|]. split_and!; auto. }
  unfold bind at 1, call at 1.
  destruct (create_build_sandbox w) as [[]|e1]; cbn [ret raise];
    [|apply Say; reflexivity].
  unfold bind at 1, call at 1.
  destruct (sandbox_wait w) as [[]|e2]; cbn [ret raise];
    [|apply Say; reflexivity].
  cbv zeta. unfold bind at 1.
  destruct (sandbox_returncode w =? 0)%Z; cbn [ret raise];
    [|apply Say; reflexivity].
  unfold bind at 1. rewrite read_sandbox_head_sha_sha.
  unfold bind at 1, call at 1.
  destruct (snapshot_filesystem w) as [id|e4]; cbn [ret raise];
    [|apply Say; reflexivity].
  match goal with
  | |- context [(if truthy callback_url then ?a else ?b) s1] =>
      destruct (Say callback_url
                  (BuildComplete build_id id (base_sha_of w) (elapsed w))
                  s1 eq_refl)
        as (s' & new & E & T & R & Hc)
  end.
  exists s', new.
  destruct (truthy callback_url) eqn:Tr.
  - unfold bind at 1 in E. unfold bind at 1.
    destruct (_callback_with_retry w callback_url _ s1) as [[b| |] s2];
      try discriminate.
    injection E as <-. split; [reflexivity|]. auto.
  - injection E as <-. split; [reflexivity|]. auto.
Qed.

(** Once its [SandboxManager] is made, the builder lets no exception
    out, whatever fails and whether or not a callback URL is given:
    it returns.  One invocation asks for at most three
    internal tokens and sends at most three requests, each with a
    token minted for it.  Without a callback URL it reports to nobody:
    no token is minted and no request sent, on success and on failure
    alike. *)
Theorem builder_returns_within_three_requests
  w repo_owner repo_name default_branch callback_url build_id s :
  new_sandbox_manager w = Returns tt ->
  exists s',
    build_repo_image w repo_owner repo_name default_branch callback_url
      build_id s = (Ok tt, s') /\
    minted s' <= minted s + 3 /\
    requests s' <= requests s + 3 /\
    (coherent w s -> coherent w s') /\
    (truthy callback_url = false ->
     minted s' = minted s /\ requests s' = requests s /\
     callbacks s' = callbacks s).
Proof.
  intros Mk.
  destruct (build_repo_image_spec w repo_owner repo_name default_branch
              callback_url build_id s Mk) as (s' & new & E & T & R & C).
  exists s'. split; [exact E|]. unfold reports in R.
  destruct (truthy callback_url).
  - destruct R as (url & payload & k & events & -> & _ & _ & _ & Hk & Hm & Hr).
    pose proof (issued_le w (minted s) k) as Le.
    unfold CALLBACK_MAX_RETRIES in Hk.
    split_and!; auto; try lia; discriminate.
  - destruct R as (-> & Hm & Hr). split_and!; auto; try lia.
    intros _. split_and!; auto.
    unfold callbacks. rewrite T. reflexivity.
Qed.

(** The theorem at the scenario with two answers 503: the failure
    callback takes all three requests. *)
Lemma three_requests_at_most :
  exists s',
    build_repo_image two_503_then_200 "acme" "widget" "main"
      "https://cp/builds/b-1/build-complete" "b-1" initial = (Ok tt, s') /\
    minted s' <= 3 /\ requests s' <= 3.
Proof.
  destruct (builder_returns_within_three_requests two_503_then_200 "acme"
              "widget" "main" "https://cp/builds/b-1/build-complete" "b-1"
              initial eq_refl)
    as (s' & E & Hm & Hr & _).
  exists s'. split; [exact E|]. split; [exact Hm|exact Hr].
Defined.

(** An invocation asks for a build sandbox exactly once, before any
    callback, when its manager is made, and not at all when the
    constructor of the manager raises: the exception then leaves the
    builder before anything is done.  The sandbox gets the GitHub App
    installation token as clone token when the three App variables are
    set and the issuer returns one; when a variable is missing or the
    issuer raises, the build goes on with an empty clone token. *)
Theorem build_sandbox_is_created_once
  w repo_owner repo_name default_branch callback_url build_id s :
  match new_sandbox_manager w with
  | Returns _ =>
      exists s' new,
        build_repo_image w repo_owner repo_name default_branch callback_url
          build_id s = (Ok tt, s') /\
        trace s' = new ++ CreateSandbox (clone_token_of w) :: trace s /\
        omap sandbox_of new = []
  | Raises e =>
      build_repo_image w repo_owner repo_name default_branch callback_url
        build_id s = (Raise e, s)
  end.
Proof.
  destruct (new_sandbox_manager w) as [[]|e] eqn:Mk;
    [|apply build_without_manager, Mk].
  destruct (build_repo_image_spec w repo_owner repo_name default_branch
              callback_url build_id s Mk) as (s' & new & E & T & R & C).
  exists s', new. split; [exact E|]. split; [exact T|].
  unfold reports in R. destruct (truthy callback_url).
  - destruct R as (url & payload & k & events & -> & _ & _ & Sb & _).
    rewrite omap_app, Sb. reflexivity.
  - destruct R as (-> & _). reflexivity.
Qed.

(** When the snapshot handed back an image id and a callback URL is
    given, the one callback goes to that URL, unchanged, with the body
    [{build_id, provider_image_id, base_sha, build_duration_seconds}];
    [base_sha] is what [git rev-parse HEAD] printed in the sandbox and
    the empty string when that command could not be run, which does not
    fail the build.  Whether or not the callback is delivered, the
    builder returns and no failure callback follows. *)
Theorem success_callback_url_and_body
  w repo_owner repo_name default_branch callback_url build_id s id :
  truthy callback_url = true ->
  snapshot_returned w id ->
  exists s' events,
    build_repo_image w repo_owner repo_name default_branch callback_url
      build_id s = (Ok tt, s') /\
    trace s'
    = events
      ++ [Callback callback_url
            (BuildComplete build_id id (base_sha_of w) (elapsed w));
          CreateSandbox (clone_token_of w)] ++ trace s /\
    omap callback_of events = [] /\
    posts_carry callback_url
      (BuildComplete build_id id (base_sha_of w) (elapsed w)) events.
Proof.
  intros Hcb (Mk & C & W & R & S).
  enter_try Mk. unfold try_except, bind at 1.
  rewrite clone_token_step_token.
  unfold bind, emit, modify, call, ret, raise. cbv beta iota.
  rewrite C, W, R, S. cbn [Z.eqb].
  rewrite read_sandbox_head_sha_sha, Hcb.
  match goal with
  | |- context [_callback_with_retry w ?u ?p ?s1] =>
      destruct (callback_with_retry_spec w u p s1)
        as (b & s' & k & new & -> & T & P & Cb & _)
  end.
  cbn in T. exists s', new. split; [reflexivity|]. split_and!; auto.
Qed.

(** The theorem at a build whose [git rev-parse] fails. *)
Definition no_git : World := {|
  generate_internal_token := fun _ => Returns "tok";
  http_post := fun _ _ => HttpResponse 200;
  environ := fun _ => Some "set";
  generate_installation_token := Raises (Exception "HTTPError" "401");
  new_sandbox_manager := Returns tt;
  create_build_sandbox := Returns tt;
  sandbox_wait := Returns tt;
  sandbox_returncode := 0;
  sandbox_rev_parse := Raises (Exception "ExecError" "no git");
  snapshot_filesystem := Returns "img-xyz";
  elapsed := 4235 |}.

Lemma success_callback_without_sha :
  exists s' events,
    build_repo_image no_git "acme" "widget" "main"
      "https://cp/builds/b-1/build-complete" "b-1" initial = (Ok tt, s') /\
    trace s'
    = events
      ++ [Callback "https://cp/builds/b-1/build-complete"
            (BuildComplete "b-1" "img-xyz" "" 4235);
          CreateSandbox ""] /\
    omap callback_of events = [] /\
    posts_carry "https://cp/builds/b-1/build-complete"
      (BuildComplete "b-1" "img-xyz" "" 4235) events.
Proof.
  exact (success_callback_url_and_body no_git "acme" "widget" "main"
           "https://cp/builds/b-1/build-complete" "b-1" initial "img-xyz"
           eq_refl
           (conj eq_refl
              (conj eq_refl (conj eq_refl (conj eq_refl eq_refl))))).
Defined.

End BuilderSpec.

(** ** Startup and pacing of the Supervisor *)

Module SupervisionSpec.
Import Py PyLogic Supervisor Worlds SupervisorSpec.
Local Open Scope string_scope.
Local Open Scope list_scope.

(** *** Code that keeps a property of the state *)

(** From [s], the code [m] comes to a state that has the property [P]
    again, having added only events of the class [cls]. *)
Definition keeps {A} (P : State -> Prop) (cls : Event -> bool)
  (m : M State A) (s : State) : Prop :=
  sat (m s) (fun _ s' => P s' /\ grows cls s s').

Section Keeps.
Variable P : State -> Prop.
Variable cls : Event -> bool.

Lemma keeps_ret {A} (a : A) s : P s -> keeps P cls (ret a) s.
Proof. intros H. apply sat_intro. split; [exact H|apply grows_refl]. Qed.

Lemma keeps_raise {A} (e : exn) s : P s -> keeps P cls (@raise State A e) s.
Proof. intros H. apply sat_intro. split; [exact H|apply grows_refl]. Qed.

Lemma keeps_diverge {A} s : P s -> keeps P cls (@diverge State A) s.
Proof. intros H. apply sat_intro. split; [exact H|apply grows_refl]. Qed.

Lemma keeps_call {A} (o : outcome A) s : P s -> keeps P cls (call o) s.
Proof. destruct o; [apply keeps_ret|apply keeps_raise]. Qed.

Lemma keeps_bind {A B} (m : M State A) (k : A -> M State B) s :
  keeps P cls m s ->
  (forall a s1, P s1 -> keeps P cls (k a) s1) ->
  keeps P cls (bind m k) s.
Proof.
  intros (r & s1 & E & H1 & G1) Hk. unfold keeps, bind. rewrite E.
  destruct r as [a|e|]; [|apply sat_intro; auto..].
  destruct (Hk a s1 H1) as (r2 & s2 & -> & H2 & G2).
  apply sat_intro. split; [exact H2|]. eapply grows_trans; eauto.
Qed.

Lemma keeps_get {A} (k : State -> M State A) s :
  keeps P cls (k s) s -> keeps P cls (bind get k) s.
Proof. intros H. exact H. Qed.

Lemma keeps_modify (f : State -> State) s :
  P (f s) -> trace (f s) = trace s -> keeps P cls (modify f) s.
Proof.
  intros H T. apply sat_intro. split; [exact H|apply grows_same, T].
Qed.

Lemma keeps_emit (e : Event) s :
  P (push e s) -> cls e = true -> keeps P cls (emit e) s.
Proof.
  intros H C. apply sat_intro. split; [exact H|].
  exists [e]. split; [reflexivity|]. cbn. rewrite C. reflexivity.
Qed.

Lemma keeps_when (b : bool) (m : M State unit) s :
  P s -> keeps P cls m s -> keeps P cls (when b m) s.
Proof. intros H Hm. destruct b; [exact Hm|apply keeps_ret, H]. Qed.

Lemma keeps_try_except {A} (body : M State A) (handler : exn -> M State A) s :
  keeps P cls body s ->
  (forall e s1, P s1 -> keeps P cls (handler e) s1) ->
  keeps P cls (try_except body handler) s.
Proof.
  intros (r & s1 & E & H1 & G1) Hh. unfold keeps, try_except. rewrite E.
  destruct r as [a|e|]; [apply sat_intro; auto| |apply sat_intro; auto].
  destruct (Hh e s1 H1) as (r2 & s2 & -> & H2 & G2).
  apply sat_intro. split; [exact H2|]. eapply grows_trans; eauto.
Qed.

Lemma keeps_try_finally {A} (body : M State A) (cleanup : M State unit) s :
  keeps P cls body s ->
  (forall s1, P s1 -> keeps P cls cleanup s1) ->
  keeps P cls (try_finally body cleanup) s.
Proof.
  intros (r & s1 & E & H1 & G1) Hc. unfold keeps, try_finally. rewrite E.
  destruct r as [a|e|]; [| |apply sat_intro; auto].
  all: destruct (Hc s1 H1) as (r2 & s2 & -> & H2 & G2).
  all: destruct r2; apply sat_intro; (split; [exact H2|]);
    eapply grows_trans; eauto.
Qed.

(** The property survives what the event loop does during a
    suspension, the writes of the flags, the signals sent to
    children, and the events that are [safe]. *)
Variable safe : Event -> bool.
Hypothesis P_deliver : forall env s, P s -> P (deliver env s).
Hypothesis P_shutdown_event : forall b s, P s -> P (set_shutdown_event b s).
Hypothesis P_git_sync_complete :
  forall b s, P s -> P (set_git_sync_complete b s).
Hypothesis P_opencode_ready : forall b s, P s -> P (set_opencode_ready b s).
Hypothesis P_signal :
  forall f pid s, P s -> P (set_procs (alter f pid) s).
Hypothesis P_push : forall e s, safe e = true -> P s -> P (push e s).

Variable env : Env.

Lemma keeps_suspend s : P s -> keeps P cls (suspend env) s.
Proof. intros H. apply keeps_modify; [apply P_deliver, H|reflexivity]. Qed.

Lemma keeps_await {A} (o : outcome A) s : P s -> keeps P cls (await env o) s.
Proof.
  intros H. apply keeps_bind; [apply keeps_suspend, H|].
  intros _ s1 H1. apply keeps_call, H1.
Qed.

Lemma keeps_sleep ms s :
  cls (Sleep ms) = true -> safe (Sleep ms) = true ->
  P s -> keeps P cls (sleep env ms) s.
Proof.
  intros C S H. apply keeps_bind; [apply keeps_emit; auto|].
  intros _ s1 H1. apply keeps_suspend, H1.
Qed.

Lemma keeps_now s : P s -> keeps P cls (now env) s.
Proof. intros H. apply keeps_get, keeps_ret, H. Qed.

Lemma keeps_exists p s : P s -> keeps P cls (exists_ env p) s.
Proof. intros H. apply keeps_get, keeps_ret, H. Qed.

Lemma keeps_get_health s : P s -> keeps P cls (get_health env) s.
Proof.
  intros H. apply keeps_get, keeps_bind; [apply keeps_suspend, H|].
  intros _ s1 H1. apply keeps_ret, H1.
Qed.

Lemma keeps_wait_ready s : P s -> keeps P cls wait_ready s.
Proof.
  intros H. apply keeps_get. destruct (opencode_ready s);
    [apply keeps_ret, H|apply keeps_diverge, H].
Qed.

(** Take a piece of Supervisor code apart, down to its primitives. *)
Ltac keeps_step :=
  match goal with
  | |- keeps _ _ (ret _) _ => apply keeps_ret
  | |- keeps _ _ (raise _) _ => apply keeps_raise
  | |- keeps _ _ diverge _ => apply keeps_diverge
  | |- keeps _ _ (call _) _ => apply keeps_call
  | |- keeps _ _ (suspend _) _ => apply keeps_suspend
  | |- keeps _ _ (await _ _) _ => apply keeps_await
  | |- keeps _ _ (now _) _ => apply keeps_now
  | |- keeps _ _ (exists_ _ _) _ => apply keeps_exists
  | |- keeps _ _ (get_health _) _ => apply keeps_get_health
  | |- keeps _ _ wait_ready _ => apply keeps_wait_ready
  | |- keeps _ _ (when _ _) _ => apply keeps_when
  | |- keeps _ _ (modify _) _ => apply keeps_modify; [|reflexivity]
  | |- keeps _ _ (bind get _) _ => apply keeps_get
  | |- keeps _ _ (bind _ _) _ => apply keeps_bind; [|intros ? ? ?]
  | |- keeps _ _ (try_except _ _) _ => apply keeps_try_except; [|intros ? ? ?]
  | |- keeps _ _ (try_finally _ _) _ => apply keeps_try_finally; [|intros ? ?]
  | |- keeps _ _ (if ?b then _ else _) _ => destruct b
  | |- keeps _ _ (match ?x with _ => _ end) _ => destruct x
  | |- P _ =>
      first [ assumption
            | apply P_deliver
            | apply P_shutdown_event
            | apply P_git_sync_complete
            | apply P_opencode_ready
            | apply P_signal ]
  end.

Variable cfg : Config.

(** The startup phases before the agent add no event at all. *)
Lemma keeps_generate_github_token s :
  P s -> keeps P cls (Runtime._generate_github_token env cfg) s.
Proof. intros H. unfold Runtime._generate_github_token. repeat keeps_step. Qed.

Lemma keeps_sync_with_remote token s :
  P s -> keeps P cls (Runtime.sync_with_remote env token) s.
Proof. intros H. unfold Runtime.sync_with_remote. repeat keeps_step. Qed.

Lemma keeps_perform_git_sync s :
  P s -> keeps P cls (Runtime.perform_git_sync env cfg) s.
Proof.
  intros H. unfold Runtime.perform_git_sync.
  apply keeps_bind; [apply keeps_generate_github_token, H|].
  intros token s1 H1. repeat keeps_step.
  all: apply keeps_sync_with_remote; assumption.
Qed.

Lemma keeps_configure_git_identity s :
  P s -> keeps P cls (Runtime.configure_git_identity env cfg) s.
Proof. intros H. unfold Runtime.configure_git_identity. repeat keeps_step. Qed.

Lemma keeps_run_setup_script s :
  P s -> keeps P cls (Runtime.run_setup_script env) s.
Proof. intros H. unfold Runtime.run_setup_script. repeat keeps_step. Qed.

Lemma keeps_local_run_setup_script s :
  P s -> keeps P cls (Local.run_setup_script env) s.
Proof. intros H. unfold Local.run_setup_script. repeat keeps_step. Qed.

Lemma keeps_install_plugin s :
  P s -> keeps P cls (Runtime.install_plugin env) s.
Proof. intros H. unfold Runtime.install_plugin. repeat keeps_step. Qed.

(** The rest of the Supervisor emits events; those that are neither an
    observed exit nor a spawn are of the class, and safe. *)
Hypothesis cls_quiet :
  forall e, is_observed e = false -> is_spawn e = false -> cls e = true.
Hypothesis safe_quiet :
  forall e, is_observed e = false -> is_spawn e = false -> safe e = true.

Ltac keeps_more :=
  first
    [ keeps_step
    | match goal with
      | |- keeps _ _ (sleep _ _) _ =>
          apply keeps_sleep;
          [apply cls_quiet; reflexivity|apply safe_quiet; reflexivity|]
      | |- keeps _ _ (emit _) _ =>
          apply keeps_emit; [|apply cls_quiet; reflexivity]
      | |- P (push _ _) => apply P_push; [apply safe_quiet; reflexivity|]
      end ].

Lemma keeps_health_loop timeout failure start fuel :
  forall s, P s -> keeps P cls (health_loop env timeout failure start fuel) s.
Proof.
  induction fuel as [|fuel IH]; intros s H; cbn [health_loop].
  - apply keeps_diverge, H.
  - repeat keeps_more. apply IH. assumption.
Qed.

Lemma keeps_wait_for_health timeout failure fuel s :
  P s -> keeps P cls (wait_for_health env timeout failure fuel) s.
Proof.
  intros H. unfold wait_for_health.
  apply keeps_bind; [apply keeps_now, H|].
  intros start s1 H1. apply keeps_health_loop, H1.
Qed.

Lemma keeps_stop_child c timeout s :
  P s -> keeps P cls (stop_child env c timeout) s.
Proof. intros H. unfold stop_child. repeat keeps_more. Qed.

Lemma keeps_shutdown s : P s -> keeps P cls (shutdown env) s.
Proof.
  intros H. unfold shutdown. repeat keeps_more.
  all: apply keeps_stop_child; assumption.
Qed.

Lemma keeps_report_fatal_error message s :
  P s -> keeps P cls (Runtime._report_fatal_error env cfg message) s.
Proof. intros H. unfold Runtime._report_fatal_error. repeat keeps_more. Qed.

(** Spawning a child of kind [c], where that is of the class and the
    property survives the new handle. *)
Definition may_spawn (c : Child) : Prop :=
  (forall pid, cls (Spawn c pid) = true) /\
  (forall pid, safe (Spawn c pid) = true) /\
  (forall s,
     P s ->
     P (set_handle c (Some (length (procs s)))
          (set_procs (fun l => l ++ [{| kind := c; returncode := None;
                                        terminated := false;
                                        killed := false |}]) s))).

Lemma keeps_spawn c s : may_spawn c -> P s -> keeps P cls (spawn env c) s.
Proof.
  intros (C & S & N) H. unfold spawn. apply keeps_get.
  apply keeps_bind; [apply keeps_suspend; auto|]. intros [] s1 H1.
  destruct (create_subprocess_exec env (suspensions s));
    [apply keeps_raise, H1|].
  apply keeps_get. apply keeps_bind.
  - apply keeps_modify; [apply N, H1|reflexivity].
  - intros [] s2 H2. apply keeps_emit; [|apply C].
    apply P_push; [apply S|exact H2].
Qed.

Lemma keeps_start_bridge s :
  may_spawn Bridge -> P s -> keeps P cls (Runtime.start_bridge env cfg) s.
Proof.
  intros B H. unfold Runtime.start_bridge. repeat keeps_more.
  all: try (apply keeps_spawn; assumption).
Qed.

Lemma keeps_local_start_bridge s :
  may_spawn Bridge -> P s -> keeps P cls (Local.start_bridge env cfg) s.
Proof.
  intros B H. unfold Local.start_bridge. repeat keeps_more.
  all: try (apply keeps_spawn; assumption).
Qed.

Hypothesis agent : may_spawn Agent.

Lemma keeps_start_agent timeout failure fuel s :
  P s -> keeps P cls (start_agent env timeout failure fuel) s.
Proof.
  intros H. unfold start_agent.
  apply keeps_bind; [apply keeps_install_plugin, H|]. intros [] s1 H1.
  apply keeps_bind; [apply keeps_spawn; [exact agent|exact H1]|].
  intros [] s2 H2.
  apply keeps_bind; [apply keeps_wait_for_health, H2|]. intros [] s3 H3.
  repeat keeps_more.
Qed.

(** The halves of a monitoring round, where an observed exit is of the
    class and safe, and starting the bridge keeps the property. *)
Definition may_observe : Prop :=
  (forall c rc n, cls (ObservedExit c rc n) = true) /\
  (forall c rc n, safe (ObservedExit c rc n) = true).

Ltac keeps_all Oc Os :=
  first
    [ keeps_more
    | match goal with
      | |- keeps _ _ (emit _) _ => apply keeps_emit; [|apply Oc]
      | |- P (push _ _) => apply P_push; [apply Os|]
      end ].

Lemma keeps_check_opencode fuel n s :
  may_observe ->
  P s -> keeps P cls (Runtime.check_opencode env cfg fuel n) s.
Proof.
  intros [Oc Os] H. unfold Runtime.check_opencode. repeat keeps_all Oc Os.
  all: try (apply keeps_report_fatal_error; assumption).
  all: apply (keeps_start_agent Runtime.HEALTH_CHECK_TIMEOUT); assumption.
Qed.

Lemma keeps_check_bridge n s :
  may_observe ->
  (forall s, P s -> keeps P cls (Runtime.start_bridge env cfg) s) ->
  P s -> keeps P cls (Runtime.check_bridge env cfg n) s.
Proof.
  intros [Oc Os] B H. unfold Runtime.check_bridge. repeat keeps_all Oc Os.
  all: try (apply keeps_report_fatal_error; assumption).
  all: apply B; assumption.
Qed.

Lemma keeps_local_check_opencode fuel n s :
  may_observe ->
  P s -> keeps P cls (Local.check_opencode env fuel n) s.
Proof.
  intros [Oc Os] H. unfold Local.check_opencode. repeat keeps_all Oc Os.
  all: apply (keeps_start_agent Local.HEALTH_CHECK_TIMEOUT); assumption.
Qed.

Lemma keeps_local_check_bridge n s :
  may_observe ->
  (forall s, P s -> keeps P cls (Local.start_bridge env cfg) s) ->
  P s -> keeps P cls (Local.check_bridge env cfg n) s.
Proof.
  intros [Oc Os] B H. unfold Local.check_bridge. repeat keeps_all Oc Os.
  all: apply B; assumption.
Qed.

End Keeps.

(** What follows the start of the agent in [run], in each variant. *)
Definition remote_session (env : Env) (cfg : Config) (fuel : nat)
  : M State unit :=
  bind (Runtime.start_bridge env cfg) (fun _ =>
  Runtime.monitor_processes env cfg fuel).

Definition local_session (env : Env) (cfg : Config) (fuel : nat)
  : M State unit :=
  bind (Local.start_bridge env cfg) (fun _ =>
  Local.monitor_processes env cfg fuel).

(** The monitor and the whole of [run], for the remote variant, given
    that its parts keep the property. *)
Section KeepsRemote.
Variable P : State -> Prop.
Variable cls : Event -> bool.
Variable env : Env.
Variable cfg : Config.
Hypothesis P_deliver : forall env s, P s -> P (deliver env s).
Hypothesis P_push_quiet :
  forall e s, is_observed e = false -> is_spawn e = false ->
              P s -> P (push e s).
Hypothesis cls_quiet :
  forall e, is_observed e = false -> is_spawn e = false -> cls e = true.
Hypothesis bridge :
  forall s, P s -> keeps P cls (Runtime.start_bridge env cfg) s.
Hypothesis watch_agent :
  forall fuel n s,
    P s -> keeps P cls (Runtime.check_opencode env cfg fuel n) s.
Hypothesis watch_bridge :
  forall n s, P s -> keeps P cls (Runtime.check_bridge env cfg n) s.

Lemma keeps_monitor_loop hfuel fuel :
  forall a b s,
    P s -> keeps P cls (Runtime.monitor_loop env cfg hfuel fuel a b) s.
Proof.
  induction fuel as [|fuel IH]; intros a b s H; cbn [Runtime.monitor_loop].
  - apply keeps_diverge, H.
  - apply keeps_get. destruct (shutdown_event s); [apply keeps_ret, H|].
    apply keeps_bind; [apply watch_agent, H|].
    intros [[] a'] s1 H1; [|apply keeps_ret, H1].
    apply keeps_bind; [apply watch_bridge, H1|].
    intros [[] b'] s2 H2; [|apply keeps_ret, H2].
    apply keeps_bind.
    + apply keeps_bind.
      * apply keeps_emit; [|apply cls_quiet; reflexivity].
        apply P_push_quiet; [reflexivity|reflexivity|exact H2].
      * intros [] s3 H3.
        apply keeps_modify; [apply P_deliver, H3|reflexivity].
    + intros [] s3 H3. apply IH, H3.
Qed.

Lemma keeps_remote_session fuel s :
  P s -> keeps P cls (remote_session env cfg fuel) s.
Proof.
  intros H. unfold remote_session, Runtime.monitor_processes.
  apply keeps_bind; [apply bridge, H|]. intros [] s1 H1.
  apply keeps_monitor_loop, H1.
Qed.

Hypothesis sync :
  forall s, P s -> keeps P cls (Runtime.perform_git_sync env cfg) s.
Hypothesis identity :
  forall s, P s -> keeps P cls (Runtime.configure_git_identity env cfg) s.
Hypothesis setup :
  forall s, P s -> keeps P cls (Runtime.run_setup_script env) s.
Hypothesis start :
  forall fuel s, P s -> keeps P cls (Runtime.start_opencode env fuel) s.
Hypothesis report :
  forall message s,
    P s -> keeps P cls (Runtime._report_fatal_error env cfg message) s.
Hypothesis stop : forall s, P s -> keeps P cls (shutdown env) s.

Lemma keeps_run fuel s : P s -> keeps P cls (Runtime.run env cfg fuel) s.
Proof.
  intros H. unfold Runtime.run.
  apply keeps_try_finally; [|intros s1 H1; apply stop, H1].
  apply keeps_try_except; [|intros e s1 H1; apply report, H1].
  apply keeps_bind; [apply sync, H|]. intros b1 s1 H1.
  apply keeps_bind; [apply identity, H1|]. intros [] s2 H2.
  apply keeps_bind; [apply setup, H2|]. intros b3 s3 H3.
  apply keeps_bind; [apply start, H3|].
  intros [] s4 H4. apply (keeps_remote_session fuel), H4.
Qed.

End KeepsRemote.

(** The same for the local variant. *)
Section KeepsLocal.
Variable P : State -> Prop.
Variable cls : Event -> bool.
Variable env : Env.
Variable cfg : Config.
Hypothesis P_deliver : forall env s, P s -> P (deliver env s).
Hypothesis P_push_quiet :
  forall e s, is_observed e = false -> is_spawn e = false ->
              P s -> P (push e s).
Hypothesis cls_quiet :
  forall e, is_observed e = false -> is_spawn e = false -> cls e = true.
Hypothesis bridge :
  forall s, P s -> keeps P cls (Local.start_bridge env cfg) s.
Hypothesis watch_agent :
  forall fuel n s, P s -> keeps P cls (Local.check_opencode env fuel n) s.
Hypothesis watch_bridge :
  forall n s, P s -> keeps P cls (Local.check_bridge env cfg n) s.

Lemma keeps_local_monitor_loop hfuel fuel :
  forall a b s,
    P s -> keeps P cls (Local.monitor_loop env cfg hfuel fuel a b) s.
Proof.
  induction fuel as [|fuel IH]; intros a b s H; cbn [Local.monitor_loop].
  - apply keeps_diverge, H.
  - apply keeps_get. destruct (shutdown_event s); [apply keeps_ret, H|].
    apply keeps_bind.
    { apply keeps_bind.
      - apply keeps_emit; [|apply cls_quiet; reflexivity].
        apply P_push_quiet; [reflexivity|reflexivity|exact H].
      - intros [] s0 H0.
        apply keeps_modify; [apply P_deliver, H0|reflexivity]. }
    intros [] s0 H0.
    apply keeps_bind; [apply watch_agent, H0|].
    intros [[] a'] s1 H1; [|apply keeps_ret, H1].
    apply keeps_bind; [apply watch_bridge, H1|].
    intros [[] b'] s2 H2; [|apply keeps_ret, H2].
    apply IH, H2.
Qed.

Lemma keeps_local_session fuel s :
  P s -> keeps P cls (local_session env cfg fuel) s.
Proof.
  intros H. unfold local_session, Local.monitor_processes.
  apply keeps_bind; [apply bridge, H|]. intros [] s1 H1.
  apply keeps_local_monitor_loop, H1.
Qed.

Hypothesis setup :
  forall s, P s -> keeps P cls (Local.run_setup_script env) s.
Hypothesis start :
  forall fuel s, P s -> keeps P cls (Local.start_opencode env fuel) s.
Hypothesis stop : forall s, P s -> keeps P cls (shutdown env) s.

Lemma keeps_local_run fuel s : P s -> keeps P cls (Local.run env cfg fuel) s.
Proof.
  intros H. unfold Local.run.
  apply keeps_try_finally; [|intros s1 H1; apply stop, H1].
  apply keeps_try_except; [|intros e s1 H1; apply keeps_ret, H1].
  unfold Local.verify_workspace.
  apply keeps_bind; [apply keeps_get, keeps_ret, H|]. intros verified s1 H1.
  destruct verified; cbn [negb]; [|apply keeps_ret, H1].
  apply keeps_bind; [apply setup, H1|]. intros b2 s2 H2.
  apply keeps_bind; [apply start, H2|].
  intros [] s3 H3. apply (keeps_local_session fuel), H3.
Qed.

End KeepsLocal.

(** *** No bridge without a control plane *)

Definition no_bridge (s : State) : Prop := bridge_process s = None.

Definition not_bridge_spawn (e : Event) : bool :=
  match e with Spawn Bridge _ => false | _ => true end.

Definition any_event (e : Event) : bool := true.

Lemma spawns_none (new : list Event) :
  forallb not_bridge_spawn new = true -> spawns Bridge new = 0.
Proof.
  induction new as [|e new IH]; [reflexivity|]. cbn [forallb].
  intros H. apply andb_true_iff in H as [He H].
  destruct e as [[] pid| | | | | | | | | | |]; cbn [spawns same_child];
    auto; discriminate.
Qed.

(** The closure conditions of [keeps], for a property that only
    speaks of the bridge's handle. *)
Ltac no_bridge_tac :=
  first
    [ reflexivity
    | assumption
    | (intros e ? ?; destruct e as [[] ?| | | | | | | | | | |];
       first [reflexivity | discriminate])
    | (split_and!; intros; first [reflexivity | assumption])
    | (intros; unfold no_bridge in *; cbn; assumption) ].

(** Without a control-plane URL or without a session id the remote
    [start_bridge] returns without spawning. *)
Lemma remote_bridge_skipped env cfg s :
  truthy (control_plane_url cfg) = false \/ truthy (session_id cfg) = false ->
  no_bridge s ->
  keeps no_bridge not_bridge_spawn (Runtime.start_bridge env cfg) s.
Proof.
  intros C H. unfold Runtime.start_bridge.
  destruct (truthy (control_plane_url cfg)) eqn:U; cbn [negb];
    [|apply keeps_ret, H].
  destruct C as [C|C]; [discriminate|]. rewrite C. cbn [negb].
  apply keeps_bind; [apply keeps_wait_ready, H|].
  intros [] s1 H1. apply keeps_ret, H1.
Qed.

Lemma local_bridge_skipped env cfg s :
  truthy (control_plane_ws_url cfg) = false ->
  truthy (control_plane_url cfg) = false \/ truthy (session_id cfg) = false ->
  no_bridge s ->
  keeps no_bridge not_bridge_spawn (Local.start_bridge env cfg) s.
Proof.
  intros W C H. unfold Local.start_bridge. rewrite W.
  destruct C as [-> | ->]; cbn [negb andb orb]; [apply keeps_ret, H|].
  rewrite orb_true_r. apply keeps_ret, H.
Qed.

(** A Supervisor that is given no control-plane URL, or no session id,
    never spawns a bridge: not at startup and not from the monitor,
    which then watches the agent alone.  The local variant builds the
    bridge's address from [CONTROL_PLANE_WS_URL] first, so there the
    bridge is left out only if that is missing as well. *)
Theorem no_bridge_without_control_plane env cfg fuel :
  (truthy (control_plane_url cfg) = false \/
   truthy (session_id cfg) = false ->
   sat (Runtime.run env cfg fuel initial)
     (fun _ s' => spawns Bridge (trace s') = 0 /\ bridge_process s' = None))
  /\
  (truthy (control_plane_ws_url cfg) = false ->
   truthy (control_plane_url cfg) = false \/
   truthy (session_id cfg) = false ->
   sat (Local.run env cfg fuel initial)
     (fun _ s' => spawns Bridge (trace s') = 0 /\ bridge_process s' = None)).
Proof.
  split.
  - intros C.
    assert (B : forall s, no_bridge s ->
                keeps no_bridge not_bridge_spawn
                  (Runtime.start_bridge env cfg) s)
      by (intros s H; apply remote_bridge_skipped; assumption).
    assert (K : keeps no_bridge not_bridge_spawn (Runtime.run env cfg fuel)
                  initial).
    { apply keeps_run; try solve [no_bridge_tac].
      - intros hfuel n s H.
        apply (keeps_check_opencode _ _ any_event);
          solve [no_bridge_tac].
      - intros n s H.
        apply (keeps_check_bridge _ _ any_event);
          solve [no_bridge_tac].
      - intros s H. apply keeps_perform_git_sync; solve [no_bridge_tac].
      - intros s H. apply keeps_configure_git_identity;
          solve [no_bridge_tac].
      - intros s H. apply keeps_run_setup_script; solve [no_bridge_tac].
      - intros hfuel s H.
        apply (keeps_start_agent _ _ any_event); solve [no_bridge_tac].
      - intros m s H.
        apply (keeps_report_fatal_error _ _ any_event);
          solve [no_bridge_tac].
      - intros s H. apply (keeps_shutdown _ _ any_event);
          solve [no_bridge_tac]. }
    destruct K as (r & s' & E & H & new & T & N). rewrite E.
    apply sat_intro. split; [|exact H].
    rewrite T, app_nil_r. apply spawns_none, N.
  - intros W C.
    assert (B : forall s, no_bridge s ->
                keeps no_bridge not_bridge_spawn
                  (Local.start_bridge env cfg) s)
      by (intros s H; apply local_bridge_skipped; assumption).
    assert (K : keeps no_bridge not_bridge_spawn (Local.run env cfg fuel)
                  initial).
    { apply keeps_local_run; try solve [no_bridge_tac].
      - intros hfuel n s H.
        apply (keeps_local_check_opencode _ _ any_event);
          solve [no_bridge_tac].
      - intros n s H.
        apply (keeps_local_check_bridge _ _ any_event);
          solve [no_bridge_tac].
      - intros s H. apply keeps_local_run_setup_script;
          solve [no_bridge_tac].
      - intros hfuel s H.
        apply (keeps_start_agent _ _ any_event); solve [no_bridge_tac].
      - intros s H. apply (keeps_shutdown _ _ any_event);
          solve [no_bridge_tac]. }
    destruct K as (r & s' & E & H & new & T & N). rewrite E.
    apply sat_intro. split; [|exact H].
    rewrite T, app_nil_r. apply spawns_none, N.
Qed.

(** A Supervisor on its own: no control plane, no session. *)
Definition standalone : Config := {|
  sandbox_id := "sb-1";
  session_id := "";
  control_plane_url := "";
  control_plane_ws_url := "";
  repo_owner := "acme";
  repo_name := "widget";
  git_user_name := "";
  git_user_email := "";
  github_app_token := "";
  github_app_id := "";
  github_app_private_key := "";
  github_app_installation_id := ""
|}.

Lemma standalone_runs_without_bridge :
  sat (Runtime.run (steady 200 100) standalone 3 initial)
    (fun _ s' => spawns Bridge (trace s') = 0 /\ bridge_process s' = None) /\
  sat (Local.run (steady 200 100) standalone 3 initial)
    (fun _ s' => spawns Bridge (trace s') = 0 /\ bridge_process s' = None).
Proof.
  split.
  - exact (proj1 (no_bridge_without_control_plane (steady 200 100)
                    standalone 3) (or_introl eq_refl)).
  - exact (proj2 (no_bridge_without_control_plane (steady 200 100)
                    standalone 3) eq_refl (or_introl eq_refl)).
Defined.

(** *** What can keep the agent from being started *)

(** No child was created yet. *)
Definition nothing_started (s : State) : Prop :=
  procs s = [] /\ opencode_process s = None /\ bridge_process s = None.

Definition no_event (e : Event) : bool := false.
Definition anything (s : State) : Prop := True.

Lemma grows_no_event s s' : grows no_event s s' -> trace s' = trace s.
Proof.
  intros (new & T & N). destruct new as [|e new]; [exact T|discriminate].
Qed.

Lemma nothing_started_deliver env s :
  nothing_started s -> nothing_started (deliver env s).
Proof.
  intros (Hp & Ha & Hb). unfold nothing_started, deliver. cbn.
  rewrite Hp. auto.
Qed.

Lemma nothing_started_push e s :
  nothing_started s -> nothing_started (push e s).
Proof. intros H. exact H. Qed.

(** Nothing was started and nothing has happened. *)
Definition idle (s : State) : Prop := nothing_started s /\ trace s = [].

(** The agent was the first thing started. *)
Definition agent_first (s : State) : Prop :=
  exists rest, history s = Spawn Agent 0 :: rest.

Lemma agent_first_grows s s' :
  agent_first s -> grows any_event s s' -> agent_first s'.
Proof.
  intros (rest & H) (new & T & _). unfold agent_first, history in *.
  rewrite T, rev_app_distr, H. eexists. reflexivity.
Qed.

Ltac anything_tac :=
  first [ reflexivity | exact I | (intros; exact I) | (intros; reflexivity)
        | (split_and!; intros; first [reflexivity | exact I]) ].

Ltac idle_tac :=
  first [ assumption
        | (intros; apply nothing_started_deliver; assumption)
        | (intros ? ? H; exact H) ].

Section Startup.
Variable env : Env.
Variable cfg : Config.

(** The three phases before the agent: they start nothing and log
    nothing here, and only the clone lets an exception out. *)
Lemma sync_keeps_idle s :
  idle s ->
  sat (Runtime.perform_git_sync env cfg s)
    (fun r s' =>
       idle s' /\ r <> Diverge /\
       forall e, r = Raise e -> git_clone env = Raises e).
Proof.
  intros [N T].
  destruct (keeps_perform_git_sync nothing_started no_event
              nothing_started_deliver ltac:(intros ? ? H; exact H)
              env cfg s N) as (r & s' & E & N' & G).
  pose proof (WorkspaceSpec.perform_git_sync_latch env cfg s) as L.
  rewrite E in *. destruct L as (r0 & s0 & [= <- <-] & L).
  apply sat_intro. split_and!.
  - split; [exact N'|]. rewrite (grows_no_event _ _ G). exact T.
  - intros ->. exact L.
  - intros e ->. apply L.
Qed.

Lemma identity_keeps_idle s :
  idle s ->
  sat (Runtime.configure_git_identity env cfg s)
    (fun r s' => idle s' /\ r = Ok tt).
Proof.
  intros [N T].
  destruct (keeps_configure_git_identity nothing_started no_event
              nothing_started_deliver env cfg s N) as (r & s' & E & N' & G).
  assert (R : fst (Runtime.configure_git_identity env cfg s) = Ok tt).
  { run_runtime. repeat (case_env; run_runtime).
    all: repeat match goal with u : unit |- _ => destruct u end.
    all: reflexivity. }
  rewrite E in *. cbn in R. apply sat_intro. split; [|exact R].
  split; [exact N'|]. rewrite (grows_no_event _ _ G). exact T.
Qed.

Lemma setup_keeps_idle s :
  idle s ->
  sat (Runtime.run_setup_script env s)
    (fun r s' => idle s' /\ exists ok, r = Ok ok).
Proof.
  intros [N T].
  destruct (keeps_run_setup_script nothing_started no_event
              nothing_started_deliver env s N) as (r & s' & E & N' & G).
  assert (R : exists ok, fst (Runtime.run_setup_script env s) = Ok ok).
  { run_runtime. repeat (case_env; run_runtime).
    all: eexists; reflexivity. }
  rewrite E in *. cbn in R. apply sat_intro. split; [|exact R].
  split; [exact N'|]. rewrite (grows_no_event _ _ G). exact T.
Qed.

(** Starting the agent from there: the asset installation or the
    spawn raises and nothing has happened, or the agent is spawned
    with pid 0. *)
Definition agent_refused (s : State) (r : result unit) (s' : State)
  : Prop :=
  idle s' /\
  exists e,
    r = Raise e /\
    (install_assets env (suspensions s) = Some e \/
     create_subprocess_exec env (suspensions s) = Some e).

Lemma start_agent_from_idle timeout failure fuel s :
  idle s ->
  sat (start_agent env timeout failure fuel s)
    (fun r s' => agent_refused s r s' \/ agent_first s').
Proof.
  intros [N T]. unfold start_agent, Runtime.install_plugin.
  unfold bind at 1, bind at 1, get. cbv beta iota.
  destruct (install_assets env (suspensions s)) as [e|] eqn:Ia.
  { apply sat_intro. left. split; [split; assumption|].
    exists e. auto. }
  cbn [ret]. unfold bind at 1, spawn at 1.
  unfold bind at 1, get. cbv beta iota.
  unfold bind at 1, suspend, modify at 1. cbv beta iota.
  destruct (create_subprocess_exec env (suspensions s)) as [e|] eqn:Cs.
  { apply sat_intro. left. split.
    - split; [apply nothing_started_deliver, N|exact T].
    - exists e. auto. }
  unfold bind at 1, get. cbv beta iota.
  unfold bind at 1, modify at 1. cbv beta iota.
  unfold emit at 1, modify at 1. cbv beta iota.
  match goal with
  | |- sat (bind _ _ ?s1) _ =>
      assert (F : agent_first s1);
      [|assert (K : keeps anything any_event
                      (bind (wait_for_health env timeout failure fuel)
                         (fun _ => bind (modify (set_opencode_ready true))
                                     (fun _ => emit ReadySet))) s1)]
  end.
  { exists []. unfold history.
    destruct (nothing_started_deliver env s N) as (Hp & _). rewrite Hp.
    cbn [trace push set_handle set_procs].
    change (trace (deliver env s)) with (trace s). rewrite T. reflexivity. }
  { apply keeps_bind.
    - apply (keeps_wait_for_health _ _ any_event); solve [anything_tac].
    - intros a s2 _. apply keeps_bind.
      + apply keeps_modify; [exact I|reflexivity].
      + intros _ s3 _. apply keeps_emit; [exact I|reflexivity]. }
  destruct K as (r & s' & E & _ & G).
  rewrite E. apply sat_intro. right. eapply agent_first_grows; eauto.
Qed.

(** Once the agent has been spawned, whatever follows only adds to
    the history. *)
Lemma report_adds_events message s :
  keeps anything any_event (Runtime._report_fatal_error env cfg message) s.
Proof.
  apply (keeps_report_fatal_error _ _ any_event); solve [anything_tac].
Qed.

Lemma shutdown_adds_events s : keeps anything any_event (shutdown env) s.
Proof. apply (keeps_shutdown _ _ any_event); solve [anything_tac]. Qed.

Lemma session_adds_events fuel s :
  keeps anything any_event (remote_session env cfg fuel) s.
Proof.
  apply keeps_remote_session; try solve [anything_tac].
  - intros s1 _. apply (keeps_start_bridge _ _ any_event);
      solve [anything_tac].
  - intros hfuel n s1 _. apply (keeps_check_opencode _ _ any_event);
      solve [anything_tac].
  - intros n s1 _. apply (keeps_check_bridge _ _ any_event);
      try solve [anything_tac].
    intros s2 _. apply (keeps_start_bridge _ _ any_event);
      solve [anything_tac].
Qed.

Lemma local_session_adds_events fuel s :
  keeps anything any_event (local_session env cfg fuel) s.
Proof.
  apply keeps_local_session; try solve [anything_tac].
  - intros s1 _. apply (keeps_local_start_bridge _ _ any_event);
      solve [anything_tac].
  - intros hfuel n s1 _. apply (keeps_local_check_opencode _ _ any_event);
      solve [anything_tac].
  - intros n s1 _. apply (keeps_local_check_bridge _ _ any_event);
      try solve [anything_tac].
    intros s2 _. apply (keeps_local_start_bridge _ _ any_event);
      solve [anything_tac].
Qed.

(** With nothing started, the fatal report and the shutdown only
    log. *)
Lemma report_when_idle message s :
  idle s ->
  exists s',
    Runtime._report_fatal_error env cfg message s = (Ok tt, s') /\
    nothing_started s' /\ trace s' = [Fatal message].
Proof.
  intros [N T]. unfold Runtime._report_fatal_error. run_sup.
  destruct (truthy (control_plane_url cfg)); eexists;
    (split; [reflexivity|]); (split; [|cbn; rewrite T; reflexivity]).
  - apply nothing_started_deliver, (nothing_started_push _ _ N).
  - exact N.
Qed.

Lemma shutdown_when_nothing_started s :
  nothing_started s ->
  shutdown env s = (Ok tt, push ShutdownComplete (push ShutdownStart s)).
Proof.
  intros (_ & Ha & Hb). unfold shutdown, stop_child. run_sup.
  change (handle Bridge (push ShutdownStart s)) with (bridge_process s).
  rewrite Hb. cbv beta iota.
  change (handle Agent (push ShutdownStart s)) with (opencode_process s).
  rewrite Ha. reflexivity.
Qed.

(** What can keep the remote Supervisor from starting its agent: an
    exception of the clone, of the asset installation or of the
    spawn. *)
Definition remote_blocked : Prop :=
  (exists e, git_clone env = Raises e) \/
  (exists t e, install_assets env t = Some e) \/
  (exists t e, create_subprocess_exec env t = Some e).

Lemma supervise_from_idle fuel :
  sat (supervise env cfg fuel initial)
    (fun r s' =>
       (idle s' /\ remote_blocked /\ exists e, r = Raise e) \/
       agent_first s').
Proof.
  assert (I0 : idle initial) by (split; [split_and!|]; reflexivity).
  unfold supervise. unfold bind at 1.
  destruct (sync_keeps_idle initial I0) as (r1 & s1 & -> & I1 & D1 & C1).
  destruct r1 as [b1|e1|]; [| |congruence].
  2: { apply sat_intro. left. split_and!; eauto.
       left. exists e1. apply C1. reflexivity. }
  unfold bind at 1.
  destruct (identity_keeps_idle s1 I1) as (r2 & s2 & -> & I2 & ->).
  unfold bind at 1.
  destruct (setup_keeps_idle s2 I2) as (r3 & s3 & -> & I3 & ok & ->).
  unfold bind at 1.
  change (Runtime.start_opencode env fuel)
    with (start_agent env Runtime.HEALTH_CHECK_TIMEOUT
            "OpenCode server failed to become healthy" fuel).
  destruct (start_agent_from_idle Runtime.HEALTH_CHECK_TIMEOUT
              "OpenCode server failed to become healthy" fuel s3 I3)
    as (r4 & s4 & -> & [(I4 & e & -> & B)|F]).
  { apply sat_intro. left. split_and!; eauto.
    right. destruct B as [B|B]; [left|right]; eauto. }
  destruct r4 as [[]|e4|]; [|apply sat_intro; auto..].
  destruct (session_adds_events fuel s4) as (r5 & s5 & E & _ & G).
  unfold remote_session in E. rewrite E.
  apply sat_intro. right. eapply agent_first_grows; eauto.
Qed.

(** The local Supervisor: a workspace that is no git working tree, a
    [SETUP_TIMEOUT_SECONDS] that cannot be read as an integer when
    there is a setup script, or an exception of the tool installation
    or of the spawn. *)
Definition local_blocked : Prop :=
  (exists t, path_exists env t WorkspaceGit = false) \/
  (exists t e, path_exists env t SetupScript = true /\
               setup_timeout env = Raises e) \/
  (exists t e, install_assets env t = Some e) \/
  (exists t e, create_subprocess_exec env t = Some e).

Lemma local_setup_keeps_idle s :
  idle s ->
  sat (Local.run_setup_script env s)
    (fun r s' =>
       idle s' /\ r <> Diverge /\
       forall e, r = Raise e ->
         path_exists env (suspensions s) SetupScript = true /\
         setup_timeout env = Raises e).
Proof.
  intros [N T].
  destruct (keeps_local_run_setup_script nothing_started no_event
              nothing_started_deliver env s N) as (r & s' & E & N' & G).
  assert (R : fst (Local.run_setup_script env s) <> Diverge /\
              forall e, fst (Local.run_setup_script env s) = Raise e ->
                path_exists env (suspensions s) SetupScript = true /\
                setup_timeout env = Raises e).
  { unfold Local.run_setup_script. run_sup.
    destruct (path_exists env (suspensions s) SetupScript); cbn [negb];
      [|split; [discriminate|intros e [=]]].
    destruct (setup_timeout env) as [n|e0];
      [|split; [discriminate|intros e [= <-]; auto]].
    cbn [fst]. destruct (setup_run env) as [e1|code|]; run_sup;
      (split; [discriminate|intros e [=]]). }
  rewrite E in *. cbn [fst] in R. apply sat_intro.
  split; [|exact R].
  split; [exact N'|]. rewrite (grows_no_event _ _ G). exact T.
Qed.

Lemma local_supervise_from_idle fuel :
  sat (local_supervise env cfg fuel initial)
    (fun r s' =>
       (idle s' /\ local_blocked /\ r <> Diverge) \/ agent_first s').
Proof.
  assert (I0 : idle initial) by (split; [split_and!|]; reflexivity).
  unfold local_supervise, Local.verify_workspace.
  unfold bind at 1, exists_, bind at 1, get, ret. cbv beta iota.
  destruct (path_exists env (suspensions initial) WorkspaceGit) eqn:Ws;
    cbn [negb].
  2: { apply sat_intro. left. split; [exact I0|].
       split; [|discriminate]. left. eauto. }
  unfold bind at 1.
  destruct (local_setup_keeps_idle initial I0)
    as (r2 & s2 & -> & I2 & D2 & C2).
  destruct r2 as [b2|e2|]; [| |congruence].
  2: { apply sat_intro. left. split; [exact I2|].
       split; [|discriminate].
       right; left. exists (suspensions initial), e2. apply C2.
       reflexivity. }
  unfold bind at 1.
  change (Local.start_opencode env fuel)
    with (start_agent env Local.HEALTH_CHECK_TIMEOUT
            "OpenCode server failed to become healthy within 60.0s" fuel).
  destruct (start_agent_from_idle Local.HEALTH_CHECK_TIMEOUT
              "OpenCode server failed to become healthy within 60.0s"
              fuel s2 I2)
    as (r4 & s4 & -> & [(I4 & e & -> & B)|F]).
  { apply sat_intro. left. split; [exact I4|].
    split; [|discriminate].
    right; right. destruct B as [B|B]; [left|right]; eauto. }
  destruct r4 as [[]|e4|]; [|apply sat_intro; auto..].
  destruct (local_session_adds_events fuel s4) as (r5 & s5 & E & _ & G).
  unfold local_session in E. rewrite E.
  apply sat_intro. right. eapply agent_first_grows; eauto.
Qed.

End Startup.

(** In both variants the agent is the first child started, with pid
    0, whenever anything is started at all: a failed git sync, a
    failing or hanging setup script and a failing git identity do not
    hold the startup back.  When the startup is held back, nothing
    was started and [run] returns after the shutdown sequence: in the
    remote variant only an exception of the clone, of the asset
    installation or of the spawn does that, and the fatal error is
    reported first; in the local variant a missing [/workspace/.git]
    and an unreadable [SETUP_TIMEOUT_SECONDS] do so as well, and
    nothing is reported. *)
Theorem agent_is_started_first env cfg fuel :
  sat (Runtime.run env cfg fuel initial)
    (fun r s' =>
       agent_first s' \/
       (r = Ok tt /\ remote_blocked env /\
        exists message,
          history s' = [Fatal message; ShutdownStart; ShutdownComplete])) /\
  sat (Local.run env cfg fuel initial)
    (fun r s' =>
       agent_first s' \/
       (r = Ok tt /\ local_blocked env /\
        history s' = [ShutdownStart; ShutdownComplete])).
Proof.
  split.
  - rewrite run_unfold. unfold try_finally, try_except.
    destruct (supervise_from_idle env cfg fuel)
      as (r & s1 & -> & [(I1 & B & e & ->)|F]).
    + destruct (report_when_idle env cfg (str e) s1 I1)
        as (s2 & -> & N2 & T2).
      rewrite (shutdown_when_nothing_started env s2 N2).
      apply sat_intro. right. split_and!; auto.
      exists (str e). unfold history. cbn [trace push]. rewrite T2.
      reflexivity.
    + assert (G : forall (r : result unit) s2,
                sat (shutdown env s2)
                  (fun _ s3 => grows any_event s2 s3)).
      { intros _ s2. destruct (shutdown_adds_events env s2)
          as (r3 & s3 & -> & _ & G). apply sat_intro, G. }
      destruct r as [[]|e|].
      * destruct (G (Ok tt) s1) as (r3 & s3 & -> & G3).
        destruct r3; apply sat_intro; left;
          eapply agent_first_grows; eauto.
      * destruct (report_adds_events env cfg (str e) s1)
          as (r2 & s2 & -> & _ & G2).
        pose proof (agent_first_grows _ _ F G2) as F2.
        destruct r2 as [[]|e2|]; [| |apply sat_intro; auto].
        all: destruct (G (Ok tt) s2) as (r3 & s3 & -> & G3).
        all: destruct r3; apply sat_intro; left;
          eapply agent_first_grows; eauto.
      * apply sat_intro. auto.
  - rewrite local_run_unfold. unfold try_finally, try_except.
    destruct (local_supervise_from_idle env cfg fuel)
      as (r & s1 & -> & [(I1 & B & D)|F]).
    + destruct I1 as [N1 T1].
      destruct r as [[]|e|]; [| |congruence].
      all: cbn [ret]; rewrite (shutdown_when_nothing_started env s1 N1).
      all: apply sat_intro; right; split_and!; auto.
      all: unfold history; cbn [trace push]; rewrite T1; reflexivity.
    + assert (G : forall s2,
                sat (shutdown env s2)
                  (fun _ s3 => grows any_event s2 s3)).
      { intros s2. destruct (shutdown_adds_events env s2)
          as (r3 & s3 & -> & _ & G). apply sat_intro, G. }
      destruct r as [[]|e|]; cbn [ret].
      3: apply sat_intro; auto.
      all: destruct (G s1) as (r3 & s3 & -> & G3).
      all: destruct r3; apply sat_intro; left;
        eapply agent_first_grows; eauto.
Qed.

(** *** The pace of restarts *)

(** An observed exit after which the child is started again: an exit
    that counts, with the counter still within [MAX_RESTARTS]. *)
Definition restarted (graceful : bool) (c : Child) (exit_code : Z)
  (restarts : nat) : bool :=
  counted graceful c exit_code && (restarts <=? MAX_RESTARTS)%nat.

Definition is_sleep (ms : Z) (e : Event) : bool :=
  match e with Sleep d => (d =? ms)%Z | _ => false end.

Definition not_observed (e : Event) : bool := negb (is_observed e).

(** The newest event is such an exit, the sleep still to come. *)
Definition pending (graceful : bool) (tr : list Event) : bool :=
  match tr with
  | ObservedExit c exit_code restarts :: _ =>
      restarted graceful c exit_code restarts
  | _ => false
  end.

(** Every such exit but the newest event is directly followed by the
    sleep of its backoff. *)
Fixpoint followed (graceful : bool) (tr : list Event) : bool :=
  match tr with
  | [] => true
  | e :: older =>
      match older with
      | ObservedExit c exit_code restarts :: _ =>
          if restarted graceful c exit_code restarts
          then is_sleep (backoff restarts) e
          else true
      | _ => true
      end && followed graceful older
  end.

Definition paced (graceful : bool) (s : State) : Prop :=
  pending graceful (trace s) = false /\ followed graceful (trace s) = true.

(** The same, told of a whole trace, whose events are the spawns,
    sleeps, successful probes, changes of the latch, observed exits,
    fatal reports and steps of the shutdown: the event after such an
    exit is the sleep, of [2 ** restarts] seconds. *)
Definition restarts_paced (graceful : bool) (tr : list Event) : Prop :=
  forall after before c exit_code restarts,
    tr = after ++ ObservedExit c exit_code restarts :: before ->
    counted graceful c exit_code = true ->
    restarts <= MAX_RESTARTS ->
    exists later,
      after = later ++ [Sleep (1000 * 2 ^ Z.of_nat restarts)].

Lemma backoff_below_cap (n : nat) :
  n <= MAX_RESTARTS -> backoff n = (1000 * 2 ^ Z.of_nat n)%Z.
Proof.
  unfold MAX_RESTARTS. intros H.
  do 6 (destruct n as [|n]; [reflexivity|]). lia.
Qed.

Lemma is_sleep_eq ms e : is_sleep ms e = true -> e = Sleep ms.
Proof.
  destruct e; try discriminate. cbn. intros H.
  apply Z.eqb_eq in H. congruence.
Qed.

Lemma followed_at g after before c rc n :
  followed g (after ++ ObservedExit c rc n :: before) = true ->
  restarted g c rc n = true ->
  after <> [] ->
  exists later, after = later ++ [Sleep (backoff n)].
Proof.
  intros F R. induction after as [|a after IH]; [congruence|]. intros _.
  cbn [app followed] in F. apply andb_true_iff in F as [Fa F].
  destruct after as [|a' after].
  - cbn [app] in Fa. rewrite R in Fa.
    exists []. cbn. f_equal. apply is_sleep_eq, Fa.
  - destruct (IH F ltac:(discriminate)) as [later E].
    exists (a :: later). rewrite E. reflexivity.
Qed.

Lemma paced_restarts_paced g s : paced g s -> restarts_paced g (trace s).
Proof.
  intros [Pe Fo] after before c rc n E Cn Hn.
  assert (R : restarted g c rc n = true).
  { unfold restarted. rewrite Cn. apply Nat.leb_le in Hn. rewrite Hn.
    reflexivity. }
  rewrite E in Pe, Fo.
  destruct after as [|a after].
  - cbn in Pe. congruence.
  - destruct (followed_at g (a :: after) before c rc n Fo R
                ltac:(discriminate)) as [later L].
    exists later. rewrite L, backoff_below_cap; [reflexivity|exact Hn].
Qed.

Lemma paced_push g e s :
  not_observed e = true -> paced g s -> paced g (push e s).
Proof.
  intros N [Pe Fo]. unfold paced. cbn [trace push]. split.
  - destruct e; try reflexivity. discriminate.
  - cbn [followed]. rewrite Fo, andb_true_r.
    destruct (trace s) as [|[] older]; try reflexivity.
    cbn [pending] in Pe. rewrite Pe. reflexivity.
Qed.

(** An observed exit that stops the monitor leaves nothing pending. *)
Lemma paced_observe_stop g c rc n s :
  paced g s -> restarted g c rc n = false ->
  paced g (push (ObservedExit c rc n) s).
Proof.
  intros [Pe Fo] R. unfold paced. cbn [trace push pending followed].
  split; [exact R|]. rewrite Fo, andb_true_r.
  destruct (trace s) as [|[] older]; try reflexivity.
  cbn [pending] in Pe. rewrite Pe. reflexivity.
Qed.

(** An observed exit that leads to a restart, with its sleep. *)
Lemma paced_observe_sleep g c rc n s :
  paced g s -> restarted g c rc n = true ->
  paced g (push (Sleep (backoff n)) (push (ObservedExit c rc n) s)).
Proof.
  intros [Pe Fo] R. unfold paced. cbn [trace push pending followed].
  split; [reflexivity|]. rewrite R, Fo, andb_true_r.
  cbn [is_sleep]. rewrite Z.eqb_refl. cbn [andb].
  destruct (trace s) as [|[] older]; try reflexivity.
  cbn [pending] in Pe. rewrite Pe. reflexivity.
Qed.

Ltac paced_tac :=
  first
    [ reflexivity
    | assumption
    | (let X := fresh in intros ? ? X; exact X)
    | (let X := fresh in intros ? ? ? X; exact X)
    | (intros e ? ? ? ?; apply paced_push; [|assumption];
       destruct e; first [reflexivity | discriminate])
    | (intros e ? ? ?; apply paced_push; [|assumption];
       destruct e; first [reflexivity | discriminate])
    | (intros e ? ? ?; apply paced_push; assumption)
    | (intros e ? ?; destruct e; first [reflexivity | discriminate])
    | (split_and!; intros; first [reflexivity | assumption]) ].

Section Pace.
Variable graceful : bool.
Variable env : Env.
Variable cfg : Config.

Let P := paced graceful.

Lemma pace_start_agent timeout failure fuel s :
  P s -> keeps P any_event (start_agent env timeout failure fuel) s.
Proof.
  intros H. apply (keeps_start_agent _ _ not_observed);
    solve [paced_tac].
Qed.

Lemma pace_start_bridge s :
  P s -> keeps P any_event (Runtime.start_bridge env cfg) s.
Proof.
  intros H. apply (keeps_start_bridge _ _ not_observed);
    solve [paced_tac].
Qed.

Lemma pace_local_start_bridge s :
  P s -> keeps P any_event (Local.start_bridge env cfg) s.
Proof.
  intros H. apply (keeps_local_start_bridge _ _ not_observed);
    solve [paced_tac].
Qed.

Lemma pace_report message s :
  P s -> keeps P any_event (Runtime._report_fatal_error env cfg message) s.
Proof.
  intros H. apply (keeps_report_fatal_error _ _ not_observed);
    solve [paced_tac].
Qed.

(** The code after an observed exit, entered with the exit logged. *)
Lemma after_observed {A} c rc n (k : M State A) s :
  P s ->
  (P (push (ObservedExit c rc n) s) ->
   keeps P any_event k (push (ObservedExit c rc n) s)) ->
  restarted graceful c rc n = false ->
  keeps P any_event (bind (emit (ObservedExit c rc n)) (fun _ => k)) s.
Proof.
  intros H Hk R. unfold keeps, bind at 1, emit, modify. cbv beta iota.
  destruct (Hk (paced_observe_stop _ _ _ _ _ H R)) as (r & s' & -> & H' & G).
  apply sat_intro. split; [exact H'|].
  eapply grows_trans; [|exact G]. exists [ObservedExit c rc n].
  split; reflexivity.
Qed.

Lemma after_observed_sleep {A} c rc n (k : M State A) s :
  P s ->
  (forall s1, P s1 -> keeps P any_event k s1) ->
  restarted graceful c rc n = true ->
  keeps P any_event
    (bind (emit (ObservedExit c rc n)) (fun _ =>
     bind (sleep env (backoff n)) (fun _ => k))) s.
Proof.
  intros H Hk R. unfold keeps, bind at 1, emit at 1, modify at 1.
  cbv beta iota.
  unfold bind at 1, sleep, bind at 1, emit, modify, suspend.
  cbv beta iota. unfold modify. cbv beta iota.
  pose proof (paced_observe_sleep _ c rc n s H R) as H2.
  destruct (Hk (deliver env (push (Sleep (backoff n))
                               (push (ObservedExit c rc n) s))) H2)
    as (r & s' & -> & H' & G).
  apply sat_intro. split; [exact H'|].
  eapply grows_trans; [|exact G].
  exists [Sleep (backoff n); ObservedExit c rc n]. split; reflexivity.
Qed.

Lemma restarted_agent rc n :
  restarted graceful Agent rc (S n) = negb (MAX_RESTARTS <? S n)%nat.
Proof.
  unfold restarted. cbn [counted andb].
  destruct (MAX_RESTARTS <? S n)%nat eqn:L.
  - apply Nat.ltb_lt in L. apply Nat.leb_gt. exact L.
  - apply Nat.ltb_ge in L. apply Nat.leb_le. exact L.
Qed.

Lemma restarted_crash c rc n :
  counted graceful c rc = true ->
  restarted graceful c rc (S n) = negb (MAX_RESTARTS <? S n)%nat.
Proof.
  intros C. unfold restarted. rewrite C. cbn [andb].
  destruct (MAX_RESTARTS <? S n)%nat eqn:L.
  - apply Nat.ltb_lt in L. apply Nat.leb_gt. exact L.
  - apply Nat.ltb_ge in L. apply Nat.leb_le. exact L.
Qed.

(** Starting the agent again, as both monitors do after the sleep. *)
Lemma pace_restart_agent {A} timeout failure fuel (a : A) s :
  P s ->
  keeps P any_event
    (bind (modify (set_opencode_ready false)) (fun _ =>
     bind (emit ReadyClear) (fun _ =>
     bind (start_agent env timeout failure fuel) (fun _ => ret a)))) s.
Proof.
  intros H.
  apply keeps_bind; [apply keeps_modify; [exact H|reflexivity]|].
  intros [] s1 H1.
  apply keeps_bind;
    [apply keeps_emit; [apply paced_push; [reflexivity|exact H1]
                       |reflexivity]|].
  intros [] s2 H2.
  apply keeps_bind; [apply pace_start_agent, H2|].
  intros [] s3 H3. apply keeps_ret, H3.
Qed.

Lemma pace_give_up {A} message (a : A) s :
  P s ->
  keeps P any_event
    (bind (Runtime._report_fatal_error env cfg message) (fun _ =>
     bind (modify (set_shutdown_event true)) (fun _ => ret a))) s.
Proof.
  intros H. apply keeps_bind; [apply pace_report, H|].
  intros [] s1 H1.
  apply keeps_bind; [apply keeps_modify; [exact H1|reflexivity]|].
  intros [] s2 H2. apply keeps_ret, H2.
Qed.

Lemma pace_check_opencode fuel n s :
  P s -> keeps P any_event (Runtime.check_opencode env cfg fuel n) s.
Proof.
  intros H. unfold Runtime.check_opencode. apply keeps_get.
  destruct (returncode_of (opencode_process s) s) as [rc|];
    [|apply keeps_ret, H].
  cbv zeta. pose proof (restarted_agent rc n) as R.
  destruct (MAX_RESTARTS <? S n)%nat; cbn [negb] in R.
  - apply after_observed; [exact H| |exact R].
    intros H1. apply pace_give_up, H1.
  - apply after_observed_sleep; [exact H| |exact R].
    intros s1 H1. apply pace_restart_agent, H1.
Qed.

Lemma pace_local_check_opencode fuel n s :
  P s -> keeps P any_event (Local.check_opencode env fuel n) s.
Proof.
  intros H. unfold Local.check_opencode. apply keeps_get.
  destruct (returncode_of (opencode_process s) s) as [rc|];
    [|apply keeps_ret, H].
  cbv zeta. pose proof (restarted_agent rc n) as R.
  destruct (MAX_RESTARTS <? S n)%nat; cbn [negb] in R.
  - apply after_observed; [exact H| |exact R].
    intros H1. apply keeps_ret, H1.
  - apply after_observed_sleep; [exact H| |exact R].
    intros s1 H1. apply pace_restart_agent, H1.
Qed.

Lemma pace_shutdown s : P s -> keeps P any_event (shutdown env) s.
Proof.
  intros H. apply (keeps_shutdown _ _ not_observed); solve [paced_tac].
Qed.

End Pace.

Lemma pace_check_bridge env cfg n s :
  paced true s ->
  keeps (paced true) any_event (Runtime.check_bridge env cfg n) s.
Proof.
  intros H. unfold Runtime.check_bridge. apply keeps_get.
  destruct (returncode_of (bridge_process s) s) as [rc|];
    [|apply keeps_ret, H].
  destruct (rc =? 0)%Z eqn:Z0.
  - (* graceful exit *)
    apply after_observed; [exact H| |].
    + intros H1.
      apply keeps_bind; [apply keeps_modify; [exact H1|reflexivity]|].
      intros [] s2 H2. apply keeps_ret, H2.
    + unfold restarted. cbn [counted andb]. rewrite Z0. reflexivity.
  - cbv zeta.
    assert (R : restarted true Bridge rc (S n)
                = negb (MAX_RESTARTS <? S n)%nat).
    { apply restarted_crash. cbn [counted andb]. rewrite Z0. reflexivity. }
    destruct (MAX_RESTARTS <? S n)%nat; cbn [negb] in R.
    + apply after_observed; [exact H| |exact R].
      intros H1. apply pace_give_up, H1.
    + apply after_observed_sleep; [exact H| |exact R].
      intros s1 H1.
      apply keeps_bind; [apply pace_start_bridge, H1|].
      intros [] s2 H2. apply keeps_ret, H2.
Qed.

Lemma pace_local_check_bridge env cfg n s :
  paced false s ->
  keeps (paced false) any_event (Local.check_bridge env cfg n) s.
Proof.
  intros H. unfold Local.check_bridge. apply keeps_get.
  destruct (returncode_of (bridge_process s) s) as [rc|];
    [|apply keeps_ret, H].
  cbv zeta.
  assert (R : restarted false Bridge rc (S n)
              = negb (MAX_RESTARTS <? S n)%nat)
    by (apply restarted_crash; reflexivity).
  destruct (MAX_RESTARTS <? S n)%nat; cbn [negb] in R.
  - apply after_observed; [exact H| |exact R].
    intros H1. apply keeps_ret, H1.
  - apply after_observed_sleep; [exact H| |exact R].
    intros s1 H1.
    apply keeps_bind; [apply pace_local_start_bridge, H1|].
    intros [] s2 H2. apply keeps_ret, H2.
Qed.

(** The pace of restarts.  In every run of either Supervisor, cut off or
    not, each observed exit that counts and whose counter is within
    [MAX_RESTARTS] is followed by a sleep of [2 ** counter] seconds
    (2, 4, 8, 16, 32 s; the cap [BACKOFF_MAX] of 60 s is never
    reached) with no other event of the trace in between: before that
    sleep nothing is spawned, no child is signalled, the latch
    [opencode_ready] is not touched, no exit is observed and no fatal
    error reported.  The log lines the monitor writes between the
    observation and the sleep are no events of the trace.  In the
    remote Supervisor a bridge exit with code 0 does not count; in the
    local one every exit does. *)
Theorem restarts_wait_for_their_backoff env cfg fuel :
  sat (Runtime.run env cfg fuel initial)
    (fun _ s' => restarts_paced true (trace s')) /\
  sat (Local.run env cfg fuel initial)
    (fun _ s' => restarts_paced false (trace s')).
Proof.
  split.
  - assert (K : keeps (paced true) any_event (Runtime.run env cfg fuel)
                  initial).
    { apply keeps_run; try solve [paced_tac].
      - intros s H. apply pace_start_bridge, H.
      - intros hfuel n s H. apply pace_check_opencode, H.
      - intros n s H. apply pace_check_bridge, H.
      - intros s H. apply (keeps_perform_git_sync _ _);
          solve [paced_tac].
      - intros s H. apply (keeps_configure_git_identity _ _);
          solve [paced_tac].
      - intros s H. apply keeps_run_setup_script; solve [paced_tac].
      - intros hfuel s H. apply pace_start_agent, H.
      - intros m s H. apply pace_report, H.
      - intros s H. apply pace_shutdown, H. }
    destruct K as (r & s' & E & H & _). rewrite E. apply sat_intro.
    apply paced_restarts_paced, H.
  - assert (K : keeps (paced false) any_event (Local.run env cfg fuel)
                  initial).
    { apply keeps_local_run; try solve [paced_tac].
      - intros s H. apply pace_local_start_bridge, H.
      - intros hfuel n s H. apply pace_local_check_opencode, H.
      - intros n s H. apply pace_local_check_bridge, H.
      - intros s H. apply keeps_local_run_setup_script; solve [paced_tac].
      - intros hfuel s H. apply pace_start_agent, H.
      - intros s H. apply pace_shutdown, H. }
    destruct K as (r & s' & E & H & _). rewrite E. apply sat_intro.
    apply paced_restarts_paced, H.
Qed.

End SupervisionSpec.
